(** * YouTube live-chat aggregator: URL parsing, token cache, chat polling,
      message normalisation, metadata and aggregation.

    A shallow embedding of the pure and state-passing core of the
    repository, followed by the properties proved about it.

    Conventions.
    - JavaScript strings are [string]s of 8-bit code units.
    - A JavaScript number that the code uses as a count, an index or a
      millisecond reading is a [Z].
    - A message [timestamp] is kept as the millisecond value that
      [new Date(msg.timestamp).getTime()] yields: every message is built with
      [toISOString()], so the reading is total on them.
    - Process-wide caches (plain JS objects used as dictionaries) are
      [gmap string _] threaded through the functions that touch them. A
      cache that is read under an ID taken from an address is read with
      [Js.inherited], for the names that every object inherits; the token
      caches are read under the address of a video, which is none of
      these names.
    - The network (page fetches, the internal endpoints) is a record of
      functions handed to the model; an upstream exception is a [Throw]. *)

From Stdlib Require Import ZArith Ascii String List Sorted Permutation Lia Bool.
From stdpp Require Import gmap strings list.

Local Open Scope Z_scope.

(* ===================================================================== *)
(** ** JavaScript primitives used by the sources *)
(* ===================================================================== *)

Module Js.

Definition chars (s : string) : list ascii := list_ascii_of_string s.
Definition str (l : list ascii) : string := string_of_list_ascii l.

Definition code (a : ascii) : nat := nat_of_ascii a.

Definition between (lo hi : nat) (a : ascii) : bool :=
  (Nat.leb lo (code a) && Nat.leb (code a) hi)%bool.

Definition is_digit : ascii -> bool := between 48 57.
Definition is_upper : ascii -> bool := between 65 90.
Definition is_lower : ascii -> bool := between 97 122.

(** [\w] *)
Definition is_word (a : ascii) : bool :=
  (is_digit a || is_upper a || is_lower a || Nat.eqb (code a) 95)%bool.

(** [\s] on 8-bit code units: TAB, LF, VT, FF, CR, SPACE, NBSP. *)
Definition is_space (a : ascii) : bool :=
  (between 9 13 a || Nat.eqb (code a) 32 || Nat.eqb (code a) 160)%bool.

(** Line terminators, which [.] does not match. *)
Definition is_line_terminator (a : ascii) : bool :=
  (Nat.eqb (code a) 10 || Nat.eqb (code a) 13)%bool.

Definition one_of (set : string) (a : ascii) : bool :=
  existsb (Ascii.eqb a) (chars set).

(** Truthiness of a string: only the empty string is falsy. *)
Definition truthy (s : string) : bool :=
  match s with EmptyString => false | _ => true end.

(** [o || d] for an optional string field: undefined and the empty string
    both fall through to [d]. *)
Definition or_else (o : option string) (d : string) : string :=
  match o with
  | Some s => if truthy s then s else d
  | None => d
  end.

(** [String.prototype.toLowerCase] on the ASCII range. *)
Definition lower_char (a : ascii) : ascii :=
  if is_upper a then ascii_of_nat (code a + 32) else a.

Definition toLowerCase (s : string) : string := str (map lower_char (chars s)).

Fixpoint starts_with (p s : list ascii) : bool :=
  match p, s with
  | [], _ => true
  | _ :: _, [] => false
  | a :: p', b :: s' => (Ascii.eqb a b && starts_with p' s')%bool
  end.

Fixpoint includes_chars (p s : list ascii) : bool :=
  (starts_with p s ||
   match s with
   | [] => false
   | _ :: s' => includes_chars p s'
   end)%bool.

(** [s.includes(p)] *)
Definition includes (s p : string) : bool := includes_chars (chars p) (chars s).

(** Relative index of [Array.prototype.slice]: a negative index counts
    from the end, and the result is clamped to [0 .. len]. *)
Definition rel_index (len : nat) (i : Z) : nat :=
  if i <? 0 then Z.to_nat (Z.max (Z.of_nat len + i) 0)
  else Z.to_nat (Z.min i (Z.of_nat len)).

(** [l.slice(start, end)]; [end_ = None] is a call with one argument. *)
Definition slice {A} (l : list A) (start : Z) (end_ : option Z) : list A :=
  let len := length l in
  let k := rel_index len start in
  let final := match end_ with
               | None => len
               | Some e => rel_index len e
               end in
  take (final - k) (drop k l).

(** [Array.prototype.sort(cmp)] is a stable sort: an element is placed
    before the first element that the comparator does not put before it. *)
Fixpoint insert_by {A} (cmp : A -> A -> Z) (x : A) (l : list A) : list A :=
  match l with
  | [] => [x]
  | y :: l' => if cmp x y <=? 0 then x :: y :: l' else y :: insert_by cmp x l'
  end.

Fixpoint sort {A} (cmp : A -> A -> Z) (l : list A) : list A :=
  match l with
  | [] => []
  | x :: l' => insert_by cmp x (sort cmp l')
  end.

(** Value of a decimal digit string read left to right. *)
Fixpoint digits_value (acc : Z) (l : list ascii) : Z :=
  match l with
  | [] => acc
  | a :: l' => digits_value (10 * acc + Z.of_nat (code a - 48)) l'
  end.

Fixpoint take_while {A} (p : A -> bool) (l : list A) : list A :=
  match l with
  | [] => []
  | a :: l' => if p a then a :: take_while p l' else []
  end.

Fixpoint drop_while {A} (p : A -> bool) (l : list A) : list A :=
  match l with
  | [] => []
  | a :: l' => if p a then drop_while p l' else l
  end.

(** [parseInt(s, 10)]: leading white space, an optional sign, then the
    longest run of decimal digits; [None] is NaN. *)
Definition parseInt (s : string) : option Z :=
  let l := drop_while is_space (chars s) in
  let '(neg, l) :=
    match l with
    | a :: l' =>
        if Ascii.eqb a "-" then (true, l')
        else if Ascii.eqb a "+" then (false, l')
        else (false, l)
    | [] => (false, l)
    end in
  match take_while is_digit l with
  | [] => None
  | ds => Some (if neg then - digits_value 0 ds else digits_value 0 ds)
  end.

Definition is_hex (a : ascii) : bool :=
  (is_digit a || between 65 70 a || between 97 102 a)%bool.

Definition hex_digit (a : ascii) : Z :=
  if is_digit a then Z.of_nat (code a - 48)
  else if between 65 70 a then Z.of_nat (code a - 55)
  else Z.of_nat (code a - 87).

Fixpoint hex_value (acc : Z) (l : list ascii) : Z :=
  match l with
  | [] => acc
  | a :: l' => hex_value (16 * acc + hex_digit a) l'
  end.

(** [parseInt(s)] without a radix: as [parseInt(s, 10)], except that a
    [0x] or [0X] prefix selects base 16. *)
Definition parseIntAuto (s : string) : option Z :=
  let l := drop_while is_space (chars s) in
  let '(neg, l) :=
    match l with
    | a :: l' =>
        if Ascii.eqb a "-" then (true, l')
        else if Ascii.eqb a "+" then (false, l')
        else (false, l)
    | [] => (false, l)
    end in
  let signed (v : Z) := if neg then - v else v in
  match l with
  | z :: x :: l' =>
      if (Ascii.eqb z "0" && (Ascii.eqb x "x" || Ascii.eqb x "X"))%bool
      then match take_while is_hex l' with
           | [] => None
           | ds => Some (signed (hex_value 0 ds))
           end
      else match take_while is_digit l with
           | [] => None
           | ds => Some (signed (digits_value 0 ds))
           end
  | _ =>
      match take_while is_digit l with
      | [] => None
      | ds => Some (signed (digits_value 0 ds))
      end
  end.

(** Largest magnitude of a time value, in milliseconds. *)
Definition MAX_TIME : Z := 8640000000000000.

(** The integer nearest to [n / d], for [0 < d]; of two that are equally
    near, the even one. *)
Definition round_half_even (n d : Z) : Z :=
  let q := n / d in
  let r := n mod d in
  if 2 * r <? d then q
  else if d <? 2 * r then q + 1
  else if Z.even q then q else q + 1.

(** A Number value other than NaN: the fraction [num / den], with
    [0 < den], or an infinity. *)
Inductive Number : Type :=
| Finite (num den : Z)
| Infinite (negative : bool).

(** [d * 2 ^ k <= a], for an exponent [k] of either sign. *)
Definition scaled_le (d k a : Z) : bool :=
  if 0 <=? k then d * 2 ^ k <=? a else d <=? a * 2 ^ (- k).

(** The Number value for the real [n / d], [0 < d]: the nearest
    double-precision value (53 significant bits, exponents down to
    -1074), ties to even, and an infinity from [2 ^ 1024] on. *)
Definition to_number (n d : Z) : Number :=
  if n =? 0 then Finite 0 1
  else
    let a := Z.abs n in
    let l := Z.log2 a - Z.log2 d in
    (* the binary exponent of [a / d] *)
    let l := if scaled_le d l a then l else l - 1 in
    (* the weight of the last of the 53 bits *)
    let e := Z.max (l - 52) (- 1074) in
    let m := round_half_even (a * 2 ^ Z.max 0 (- e)) (d * 2 ^ Z.max 0 e) in
    if (0 <=? e) && (2 ^ 1024 <=? m * 2 ^ e)
    then Infinite (n <? 0)
    else Finite (Z.sgn n * m * 2 ^ Z.max 0 e) (2 ^ Z.max 0 (- e)).

(** [new Date(parseInt(digits) / den).toISOString()] read back as
    milliseconds, for the integer [num] that the digits denote: the
    integer becomes a Number, the division is that of Numbers, the
    fraction of the quotient is dropped, and a quotient beyond
    [MAX_TIME] is no date, which raises a RangeError ([None]). *)
Definition dateOfMillis (num den : Z) : option Z :=
  match to_number num 1 with
  | Finite n1 d1 =>
      match to_number n1 (d1 * den) with
      | Finite n2 d2 =>
          if Z.abs n2 <=? MAX_TIME * d2 then Some (Z.quot n2 d2) else None
      | Infinite _ => None
      end
  | Infinite _ => None
  end.

(** The number of decimal digits of [n], for [0 < n], given a bound. *)
Fixpoint decimal_length (fuel : nat) (n : Z) : Z :=
  match fuel with
  | O => 0
  | S fuel' => if n <? 10 then 1 else 1 + decimal_length fuel' (n / 10)
  end.

(** [parseInt(String(n), 10)] for a Number that is the integer [n]. Below
    [10 ^ 21] the string is the decimal numeral of [n]. From there on it
    is the shortest numeral that reads back as [n], written with one
    digit before the point and an exponent, and [parseInt] stops after
    that digit: it is the leading digit of [n], or the next one when a
    single digit with the exponent already reads back as [n]. *)
Definition parseIntOfNumber (n : Z) : Z :=
  let a := Z.abs n in
  if a <? 10 ^ 21 then n
  else
    let x := decimal_length (Z.to_nat (Z.log2 a) + 1) a - 1 in
    let lead := a / 10 ^ x in
    let digit :=
      match to_number ((lead + 1) * 10 ^ x) 1 with
      | Finite num den => if num =? a * den then (if lead =? 9 then 1 else lead + 1) else lead
      | Infinite _ => lead
      end in
    Z.sgn n * digit.

(** The names that every plain object inherits from [Object.prototype]:
    reading [obj[name]] finds a value under them also when the object has
    no entry of its own under the name. The value found is a function or
    an object, and it has none of the fields of a cache entry. *)
Definition inherited (name : string) : bool :=
  existsb (String.eqb name)
    [ "constructor"; "hasOwnProperty"; "isPrototypeOf"; "propertyIsEnumerable";
      "toLocaleString"; "toString"; "valueOf"; "__proto__";
      "__defineGetter__"; "__defineSetter__"; "__lookupGetter__"; "__lookupSetter__" ].

(** A TypeError as [String(error)] begins; what follows the name is the
    engine's wording. *)
Definition TypeError : string := "TypeError".

(** [s.replace(/[^0-9]/g, '')] *)
Definition digits_only (s : string) : string := str (filter (fun a => is_digit a = true) (chars s)).

End Js.

(* ===================================================================== *)
(** ** Regular expressions: a backtracking matcher with capture groups *)
(* ===================================================================== *)

Module Regex.

Inductive re : Type :=
| Eps                              (* empty pattern *)
| Bol                              (* ^ *)
| Cls (p : ascii -> bool)          (* one code unit satisfying p *)
| Seq (r1 r2 : re)
| Alt (r1 r2 : re)                 (* r1|r2, left first *)
| Star (r : re)                    (* r*, greedy *)
| Group (n : nat) (r : re).        (* n-th capturing group *)

Definition Chr (a : ascii) : re := Cls (Ascii.eqb a).
(** [.] *)
Definition Dot : re := Cls (fun a => negb (Js.is_line_terminator a)).
(** [[^...]] *)
Definition NotIn (set : string) : re := Cls (fun a => negb (Js.one_of set a)).
Definition In_ (set : string) : re := Cls (Js.one_of set).
(** [r?], greedy *)
Definition Opt (r : re) : re := Alt r Eps.
(** [r+], greedy *)
Definition Plus (r : re) : re := Seq r (Star r).

Fixpoint Lit_chars (l : list ascii) : re :=
  match l with
  | [] => Eps
  | a :: l' => Seq (Chr a) (Lit_chars l')
  end.
(** A literal run of characters. *)
Definition Lit (s : string) : re := Lit_chars (Js.chars s).

(** [r{n}] *)
Fixpoint Times (n : nat) (r : re) : re :=
  match n with
  | O => Eps
  | S n' => Seq r (Times n' r)
  end.

Fixpoint Seqs (rs : list re) : re :=
  match rs with
  | [] => Eps
  | r :: rs' => Seq r (Seqs rs')
  end.

Fixpoint Alts (rs : list re) : re :=
  match rs with
  | [] => Cls (fun _ => false)
  | [r] => r
  | r :: rs' => Alt r (Alts rs')
  end.

(** Captures found so far, most recent first. *)
Definition caps : Type := list (nat * list ascii).

Section Matcher.
(** Length of the whole input: [^] holds only where all of it remains. *)
Variable total : nat.

(** [run r s c k] matches [r] at the front of the remaining input [s]
    and hands the rest to the continuation [k]; [None] makes the
    matcher backtrack into the latest choice. An iteration of [r*]
    that consumes nothing is rejected, as in ECMAScript. *)
Fixpoint run (r : re) (s : list ascii) (c : caps)
    (k : list ascii -> caps -> option caps) {struct r} : option caps :=
  match r with
  | Eps => k s c
  | Bol => if Nat.eqb (length s) total then k s c else None
  | Cls p =>
      match s with
      | a :: s' => if p a then k s' c else None
      | [] => None
      end
  | Seq r1 r2 => run r1 s c (fun s' c' => run r2 s' c' k)
  | Alt r1 r2 =>
      match run r1 s c k with
      | Some res => Some res
      | None => run r2 s c k
      end
  | Star r1 =>
      (fix loop (fuel : nat) (s : list ascii) (c : caps) {struct fuel} : option caps :=
         match fuel with
         | O => k s c
         | S fuel' =>
             match run r1 s c (fun s' c' =>
                     if Nat.ltb (length s') (length s) then loop fuel' s' c' else None) with
             | Some res => Some res
             | None => k s c
             end
         end) (length s) s c
  | Group n r1 =>
      run r1 s c (fun s' c' => k s' ((n, take (length s - length s') s) :: c'))
  end.
End Matcher.

(** Try the pattern at every start index, leftmost first. *)
Fixpoint search (total : nat) (r : re) (s : list ascii) : option caps :=
  match run total r s [] (fun _ c => Some c) with
  | Some c => Some c
  | None =>
      match s with
      | [] => None
      | _ :: s' => search total r s'
      end
  end.

(** [s.match(r)] for a pattern without the [g] flag: the captures of the
    leftmost match, or [None] for [null]. *)
Definition exec (r : re) (s : string) : option caps :=
  search (length (Js.chars s)) r (Js.chars s).

(** [r.test(s)] *)
Definition test (r : re) (s : string) : bool :=
  match exec r s with Some _ => true | None => false end.

(** [match[n]]; a group that did not take part is [None]. *)
Fixpoint group (n : nat) (c : caps) : option string :=
  match c with
  | [] => None
  | (m, t) :: c' => if Nat.eqb n m then Some (Js.str t) else group n c'
  end.

End Regex.

(* ===================================================================== *)
(** ** Exceptions and what the network returns *)
(* ===================================================================== *)

(** The result of a call that may throw; [Throw e] carries the thrown
    error as the text that string interpolation gives it. *)
Inductive outcome (A : Type) : Type :=
| Ok (a : A)
| Throw (e : string).
Arguments Ok {A} a.
Arguments Throw {A} e.

#[global] Instance outcome_ret : MRet outcome := fun A a => Ok a.
#[global] Instance outcome_bind : MBind outcome := fun A B f o =>
  match o with
  | Ok a => f a
  | Throw e => Throw e
  end.

(** What the patterns and [JSON.parse] calls of the token extractors find in
    a fetched video page. The reading of the HTML itself is taken as given:
    each field is what the corresponding match yields, [None] when it
    yields nothing. *)
Record Page : Type := {
  pg_INNERTUBE_API_KEY : option string;
  pg_INNERTUBE_CLIENT_VERSION : option string;
  pg_VISITOR_DATA : option string;
  (* liveChatRenderer.continuations[0].reloadContinuationData.continuation *)
  pg_reloadContinuation : option string;
  (* liveChatRenderer.continuations[0].invalidationContinuationData.continuation *)
  pg_invalidationContinuation : option string;
  (* first bare continuation field anywhere in the HTML *)
  pg_bareContinuation : option string;
  pg_title : option string;
  pg_ownerChannelName : option string;
  pg_rawHtml : string
}.

(** One entry of [liveChatContinuation.continuations]. *)
Record ContinuationData : Type := {
  invalidationContinuationData : option string;
  timedContinuationData : option string;
  liveChatReplayContinuationData : option string
}.

(** One entry of [liveChatContinuation.actions]; [Item] is the raw message
    item under [addChatItemAction.item]. *)
Record Action (Item : Type) : Type := {
  addChatItemAction_item : option Item
}.
Arguments addChatItemAction_item {Item} _.

Record LiveChatContinuation (Item : Type) : Type := {
  actions : option (list (Action Item));
  continuations : option (list ContinuationData)
}.
Arguments actions {Item} _.
Arguments continuations {Item} _.

(** Body of a [get_live_chat] response: [continuationContents] and, inside
    it, [liveChatContinuation]. *)
Record ChatResponse (Item : Type) : Type := {
  continuationContents : option (option (LiveChatContinuation Item))
}.
Arguments continuationContents {Item} _.

(* ===================================================================== *)
(** ** utils/directTokenExtractor *)
(* ===================================================================== *)

Module DirectTokenExtractor.
Import Regex.

(** The pattern of [extractVideoId], token by token. *)
Definition regExp : re :=
  Seqs [ Bol;                                                  (* ^ *)
         Star Dot;                                             (* .* *)
         Group 1 (Alts
           [ Group 2 (Seqs [Lit "youtu"; Dot; Lit "be/"]);     (* youtu.be\/ *)
             Group 3 (Lit "v/");                               (* v\/ *)
             Group 4 (Seqs [Lit "/u/"; Cls Js.is_word; Lit "/"]); (* \/u\/\w\/ *)
             Group 5 (Lit "embed/");                           (* embed\/ *)
             Group 6 (Lit "watch?") ]);                        (* watch\? *)
         Opt (Chr "?");                                        (* \?? *)
         Opt (Chr "v");                                        (* v? *)
         Opt (Chr "=");                                        (* =? *)
         Group 7 (Star (NotIn "#&?"));                         (* [^#&?]* , captured *)
         Star Dot ].                                           (* .* *)

Definition extractVideoId (url : string) : option string :=
  match exec regExp url with
  | Some c =>
      match group 7 c with
      | Some id => if Nat.eqb (String.length id) 11 then Some id else None
      | None => None
      end
  | None => None
  end.

Definition isValidYouTubeUrl (url : string) : bool :=
  (Js.truthy url &&
   (Js.includes url "youtube.com/watch" ||
    Js.includes url "youtu.be/" ||
    Js.includes url "youtube.com/live/") &&
   match extractVideoId url with Some _ => true | None => false end)%bool.

(** Cache expiration time (15 minutes) *)
Definition CACHE_EXPIRATION : Z := 15 * 60 * 1000.

(** *** utils/directTokenExtractor.js *)
Module JsFile.

Record Tokens : Type := {
  apiKey : string;
  clientVersion : string;
  visitorData : string;
  continuation : string;
  rawHtml : string;
  tk_timestamp : Z;
  title : string;
  channelName : string
}.

(** [extractLiveChatTokenFromData]: the reload continuation, else the
    invalidation continuation; a missing value is falsy like [""]. *)
Definition extractLiveChatTokenFromData (page : Page) : string :=
  match pg_reloadContinuation page with
  | Some c => if Js.truthy c then c else Js.or_else (pg_invalidationContinuation page) ""
  | None => Js.or_else (pg_invalidationContinuation page) ""
  end.

(** [extractYouTubeTokens(videoUrl)]. [fetchPage] is the page request,
    [clock n] the value of the [n]-th reading of [Date.now()] and
    [ticks] the number of readings taken so far. The result [None]
    is [null]; the cache and the count of readings are returned with
    it. *)
Definition extractYouTubeTokens (fetchPage : string -> outcome Page)
    (clock : nat -> Z) (videoUrl : string)
    (tokenCache : gmap string Tokens) (ticks : nat)
  : option Tokens * gmap string Tokens * nat :=
  let fresh (ticks : nat) :=
    match fetchPage videoUrl with
    | Throw _ => (None, tokenCache, ticks)
    | Ok page =>
        let liveChatToken := extractLiveChatTokenFromData page in
        if negb (Js.truthy liveChatToken) then (None, tokenCache, ticks)
        else
          let result :=
            {| apiKey := Js.or_else (pg_INNERTUBE_API_KEY page) "";
               clientVersion := Js.or_else (pg_INNERTUBE_CLIENT_VERSION page) "2.0";
               visitorData := Js.or_else (pg_VISITOR_DATA page) "";
               continuation := liveChatToken;
               rawHtml := pg_rawHtml page;
               tk_timestamp := clock ticks;
               title := Js.or_else (pg_title page) "";
               channelName := Js.or_else (pg_ownerChannelName page) "" |} in
          (Some result, <[videoUrl := result]> tokenCache, S ticks)
    end in
  match tokenCache !! videoUrl with
  | Some cachedData =>
      if clock ticks - tk_timestamp cachedData <? CACHE_EXPIRATION
      then (Some cachedData, tokenCache, S ticks)
      else fresh (S ticks)
  | None => fresh ticks
  end.

Record ChatResult (Item : Type) : Type := {
  cr_messages : list Item;
  cr_continuation : option string
}.
Arguments cr_messages {Item} _.
Arguments cr_continuation {Item} _.

(** [a || b || c] over the three optional continuation fields. *)
Definition firstContinuation (c : ContinuationData) : option string :=
  match invalidationContinuationData c with
  | Some t => if Js.truthy t then Some t else
      match timedContinuationData c with
      | Some t' => if Js.truthy t' then Some t' else liveChatReplayContinuationData c
      | None => liveChatReplayContinuationData c
      end
  | None =>
      match timedContinuationData c with
      | Some t' => if Js.truthy t' then Some t' else liveChatReplayContinuationData c
      | None => liveChatReplayContinuationData c
      end
  end.

(** The loop that collects [action.addChatItemAction.item]. *)
Fixpoint collectItems {Item} (acts : list (Action Item)) : list Item :=
  match acts with
  | [] => []
  | action :: rest =>
      match addChatItemAction_item action with
      | Some item => item :: collectItems rest
      | None => collectItems rest
      end
  end.

(** [fetchLiveChatMessages(continuationToken, apiKey, pageSize)];
    [post] is the request to the chat endpoint, whose body may be
    missing ([None]). Every failure gives the empty result. *)
Definition fetchLiveChatMessages {Item}
    (post : string -> string -> outcome (option (ChatResponse Item)))
    (continuationToken apiKey : string) (pageSize : Z) : ChatResult Item :=
  let empty := {| cr_messages := []; cr_continuation := None |} in
  match post continuationToken apiKey with
  | Throw _ => empty
  | Ok None => empty
  | Ok (Some data) =>
      match continuationContents data with
      | None => empty
      | Some None => empty
      | Some (Some liveChatContinuation) =>
          let acts := default [] (actions liveChatContinuation) in
          let messages := collectItems acts in
          let nextContinuation :=
            match continuations liveChatContinuation with
            | Some (continuationData :: _) => firstContinuation continuationData
            | _ => None
            end in
          {| cr_messages := Js.slice messages 0 (Some pageSize);
             cr_continuation := nextContinuation |}
      end
  end.

End JsFile.

(** *** utils/directTokenExtractor.ts *)
Module TsFile.

Record Tokens : Type := {
  apiKey : string;
  clientVersion : string;
  visitorData : string;
  continuationToken : string;
  rawHtml : string;
  tk_timestamp : Z
}.

(** [extractYouTubeTokens(videoUrl)]; a failed page request is rethrown. *)
Definition extractYouTubeTokens (fetchPage : string -> outcome Page)
    (clock : nat -> Z) (videoUrl : string)
    (tokenCache : gmap string Tokens) (ticks : nat)
  : outcome Tokens * gmap string Tokens * nat :=
  let fresh (ticks : nat) :=
    match fetchPage videoUrl with
    | Throw e => (Throw ("Error: Failed to extract tokens from YouTube: " +:+ e), tokenCache, ticks)
    | Ok page =>
        let liveChatToken := Js.or_else (pg_reloadContinuation page) "" in
        let liveChatToken :=
          if negb (Js.truthy liveChatToken)
          then Js.or_else (pg_bareContinuation page) liveChatToken
          else liveChatToken in
        let result :=
          {| apiKey := Js.or_else (pg_INNERTUBE_API_KEY page) "";
             clientVersion := Js.or_else (pg_INNERTUBE_CLIENT_VERSION page) "";
             visitorData := Js.or_else (pg_VISITOR_DATA page) "";
             continuationToken := liveChatToken;
             rawHtml := pg_rawHtml page;
             tk_timestamp := clock ticks |} in
        (Ok result, <[videoUrl := result]> tokenCache, S ticks)
    end in
  match tokenCache !! videoUrl with
  | Some cachedData =>
      if clock ticks - tk_timestamp cachedData <? CACHE_EXPIRATION
      then (Ok cachedData, tokenCache, S ticks)
      else fresh (S ticks)
  | None => fresh ticks
  end.

End TsFile.

End DirectTokenExtractor.

(* ===================================================================== *)
(** ** scraping/puppeteer: URL parsing *)
(* ===================================================================== *)

Module Puppeteer.
Import Regex.

(** One character of the captured ID: none of the double quote (code 34),
    ampersand, question mark, slash, or white space. *)
Definition id_char (a : ascii) : bool :=
  negb (Nat.eqb (Js.code a) 34 || Js.one_of "&?/" a || Js.is_space a).

(** The pattern of [extractVideoId], token by token; it is not anchored. *)
Definition regex : re :=
  Seqs [ Alts
           [ Seqs [ Lit "youtube.com/";                        (* youtube\.com\/ *)
                    Alts
                      [ Seqs [ Plus (NotIn "/"); Chr "/";      (* [^\/]+\/ *)
                               Plus Dot; Chr "/" ];            (* .+\/ *)
                        Seqs [ Alts [ Chr "v";                 (* v *)
                                      Seqs [Chr "e"; Opt (Lit "mbed")] ]; (* e(?:mbed)? *)
                               Chr "/" ];                      (* \/ *)
                        Seqs [ Star Dot; In_ "?&"; Lit "v=" ]  (* .*[?&]v= *)
                      ] ];
             Lit "youtu.be/" ];                                (* youtu\.be\/ *)
         Group 1 (Times 11 (Cls id_char)) ].                   (* eleven ID characters, captured *)

Definition extractVideoId (url : string) : option string :=
  match exec regex url with
  | Some c => group 1 c
  | None => None
  end.

(** [[\w-]] *)
Definition word_or_dash (a : ascii) : bool := (Js.is_word a || Ascii.eqb a "-")%bool.

Definition patterns : list re :=
  [ Seqs [ Bol; Lit "http"; Opt (Chr "s"); Lit "://"; Opt (Lit "www.");
           Lit "youtube.com/watch?v="; Times 11 (Cls word_or_dash) ];
    Seqs [ Bol; Lit "http"; Opt (Chr "s"); Lit "://"; Opt (Lit "www.");
           Lit "youtu"; Dot; Lit "be/"; Times 11 (Cls word_or_dash) ] ].

Definition isValidYouTubeUrl (url : string) : bool :=
  existsb (fun pattern => test pattern url) patterns.

(** Cache expiration time (15 minutes) *)
Definition CACHE_EXPIRATION : Z := 15 * 60 * 1000.

Record Tokens : Type := {
  apiKey : string;
  clientVersion : string;
  visitorData : string;
  continuationToken : string;
  rawHtml : string;
  tk_timestamp : Z
}.

(** What the two [page.evaluate] calls and [page.content()] return. *)
Record Evaluated : Type := {
  ev_INNERTUBE_API_KEY : option string;
  ev_INNERTUBE_CLIENT_VERSION : option string;
  ev_VISITOR_DATA : option string;
  ev_liveChatToken : string;
  ev_rawHtml : string
}.

(** The token cache, the URLs that have an open tab, and the number of
    clock readings taken so far. *)
Record State : Type := {
  tokenCache : gmap string Tokens;
  activePages : gset string;
  ticks : nat
}.

(** [extractYouTubeTokens(videoUrl)]; [browse] stands for launching the
    browser, opening the tab, navigating, waiting for the chat frame and
    evaluating in the page, any of which may throw. The tab of the URL
    is closed and forgotten on every way out. *)
Definition extractYouTubeTokens (browse : string -> outcome Evaluated)
    (clock : nat -> Z) (videoUrl : string) (st : State) : outcome Tokens * State :=
  let run (ticks : nat) :=
    match browse videoUrl with
    | Throw e =>
        (Throw ("Error: Failed to extract tokens from YouTube: " +:+ e),
         {| tokenCache := tokenCache st;
            activePages := activePages st ∖ {[videoUrl]};
            ticks := ticks |})
    | Ok ev =>
        let result :=
          {| apiKey := Js.or_else (ev_INNERTUBE_API_KEY ev) "";
             clientVersion := Js.or_else (ev_INNERTUBE_CLIENT_VERSION ev) "";
             visitorData := Js.or_else (ev_VISITOR_DATA ev) "";
             continuationToken := ev_liveChatToken ev;
             rawHtml := ev_rawHtml ev;
             tk_timestamp := clock ticks |} in
        (Ok result,
         {| tokenCache := <[videoUrl := result]> (tokenCache st);
            activePages := activePages st ∖ {[videoUrl]};
            ticks := S ticks |})
    end in
  let uncached (ticks : nat) :=
    if bool_decide (videoUrl ∉ activePages st) && negb (bool_decide (activePages st = ∅))
    then match tokenCache st !! videoUrl with
         | Some refreshedCache =>
             (Ok refreshedCache,
              {| tokenCache := tokenCache st; activePages := activePages st; ticks := ticks |})
         | None => run ticks
         end
    else run ticks in
  match tokenCache st !! videoUrl with
  | Some cachedData =>
      if clock (ticks st) - tk_timestamp cachedData <? CACHE_EXPIRATION
      then (Ok cachedData,
            {| tokenCache := tokenCache st; activePages := activePages st;
               ticks := S (ticks st) |})
      else uncached (S (ticks st))
  | None => uncached (ticks st)
  end.

End Puppeteer.

(* ===================================================================== *)
(** ** Chat messages and the badge scan of the two normalisers *)
(* ===================================================================== *)

Inductive UserType : Type := regular | member | moderator | owner.

Record EmojiObject : Type := {
  emoji_url : string;
  emoji_label : string;
  emojiId : string
}.

Record SourceVideo : Type := {
  sv_url : string;
  sv_id : string;
  sv_title : option string
}.

Record ChatMessage : Type := {
  id : string;
  message : string;
  authorName : string;
  authorChannelId : string;
  timestamp : Z;
  userType : UserType;
  profileImage : option string;
  emojis : list EmojiObject;
  sourceVideo : SourceVideo
}.

(** The part of an upstream author badge that the normalisers read. *)
Record BadgeRenderer : Type := {
  tooltip : option string;
  accessibilityLabel : option string;   (* accessibility.accessibilityData.label *)
  iconType : option string              (* icon.iconType *)
}.

Record Badge : Type := {
  liveChatAuthorBadgeRenderer : option BadgeRenderer
}.

(** A text field of a renderer: a plain string, or an object with an
    optional [simpleText] and optional [runs] of text. *)
Inductive TextField : Type :=
| TextString (s : string)
| TextObject (simpleText : option string) (runs : option (list string)).

(** The fields of a message renderer that [extractAuthorInfo] reads. *)
Record AuthorFields : Type := {
  rd_authorName : option TextField;
  rd_authorExternalChannelId : option string;
  rd_authorPhoto : option (list string);    (* authorPhoto.thumbnails[i].url *)
  rd_authorBadges : option (list Badge)
}.

(** An emoji of a message run. *)
Record RawEmoji : Type := {
  re_emojiId : option string;
  re_shortcuts : option (list string);
  re_thumbnails : option (list string)      (* image.thumbnails[i].url *)
}.

Record Run : Type := {
  run_text : option string;
  run_emoji : option RawEmoji
}.

(** The [message] of a renderer: a plain string, or an object with
    optional [runs] and an optional [simpleText]. *)
Inductive MessageField : Type :=
| MessageString (s : string)
| MessageObject (runs : option (list Run)) (simpleText : option string).

Record MessageRenderer : Type := {
  mr_id : option string;
  mr_timestampUsec : option string;
  mr_author : AuthorFields;
  mr_message : option MessageField;
  mr_purchaseAmountText : option string;    (* purchaseAmountText.simpleText *)
  mr_headerSubtext : option TextField
}.

(** A raw chat item: the renderer sits under one of four keys. *)
Record RawItem : Type := {
  liveChatTextMessageRenderer : option MessageRenderer;
  liveChatPaidMessageRenderer : option MessageRenderer;
  liveChatPaidStickerRenderer : option MessageRenderer;
  liveChatMembershipItemRenderer : option MessageRenderer
}.

(** utils/formatters.js *)
Module FormattersJs.

Record AuthorInfo : Type := {
  name : string;
  channelId : string;
  ai_userType : UserType;
  ai_profileImage : option string
}.

(** The [for ... of] loop over [authorBadges]: every badge whose
    [iconType] is one of the three known values overwrites the role. *)
Fixpoint scanBadges (current : UserType) (badges : list Badge) : UserType :=
  match badges with
  | [] => current
  | badge :: rest =>
      match liveChatAuthorBadgeRenderer badge with
      | Some badgeRenderer =>
          match iconType badgeRenderer with
          | Some it =>
              if negb (Js.truthy it) then scanBadges current rest
              else if String.eqb it "MODERATOR" then scanBadges moderator rest
              else if String.eqb it "OWNER" then scanBadges owner rest
              else if String.eqb it "MEMBER" then scanBadges member rest
              else scanBadges current rest
          | None => scanBadges current rest
          end
      | None => scanBadges current rest
      end
  end.

Definition extractAuthorInfo (r : AuthorFields) : AuthorInfo :=
  let name :=
    match rd_authorName r with
    | Some (TextString s) => if Js.truthy s then s else "Unknown User"
    | Some (TextObject (Some st) runs) =>
        if Js.truthy st then st
        else match runs with
             | Some (t :: _) => t
             | _ => "Unknown User"
             end
    | Some (TextObject None (Some (t :: _))) => t
    | _ => "Unknown User"
    end in
  let channelId :=
    match rd_authorExternalChannelId r with
    | Some c => if Js.truthy c then c else "unknown"
    | None => "unknown"
    end in
  let profileImage :=
    match rd_authorPhoto r with
    | Some thumbnails => last thumbnails
    | None => None
    end in
  let userType :=
    match rd_authorBadges r with
    | Some badges => scanBadges regular badges
    | None => regular
    end in
  {| name := name; channelId := channelId;
     ai_userType := userType; ai_profileImage := profileImage |}.

(** Counters of the two impure sources: clock readings and generated
    identifiers. [clock n] and [uuidv4 n] are the [n]-th values. *)
Record Counters : Type := {
  ticks : nat;
  uuids : nat
}.

Definition tick (c : Counters) : Counters := {| ticks := S (ticks c); uuids := uuids c |}.
Definition fresh (c : Counters) : Counters := {| ticks := ticks c; uuids := S (uuids c) |}.

(** [extractTimestamp]: microseconds to milliseconds; the current time
    when the field is missing or does not give a valid date. *)
Definition extractTimestamp (clock : nat -> Z) (r : MessageRenderer) (c : Counters)
  : Z * Counters :=
  match mr_timestampUsec r with
  | Some usec =>
      if Js.truthy usec then
        match Js.parseIntAuto usec with
        | Some u =>
            match Js.dateOfMillis u 1000 with
            | Some ms => (ms, c)
            | None => (clock (ticks c), tick c)
            end
        | None => (clock (ticks c), tick c)
        end
      else (clock (ticks c), tick c)
  | None => (clock (ticks c), tick c)
  end.

Definition concat_strings (l : list string) : string := fold_right String.append "" l.

(** [run.text || run.emoji?.emojiId || ''] *)
Definition runText (run : Run) : string :=
  let fromEmoji :=
    match run_emoji run with
    | Some e => Js.or_else (re_emojiId e) ""
    | None => ""
    end in
  match run_text run with
  | Some t => if Js.truthy t then t else fromEmoji
  | None => fromEmoji
  end.

(** [extractMessageContent], the [text] of its result. *)
Definition extractMessageContent (r : MessageRenderer) : string :=
  let text :=
    match mr_message r with
    | Some (MessageString s) => s
    | Some (MessageObject (Some runs) _) => concat_strings (map runText runs)
    | Some (MessageObject None (Some st)) => st
    | _ => ""
    end in
  let text :=
    match mr_purchaseAmountText r with
    | Some amount =>
        if Js.truthy amount then "💰 " +:+ amount +:+ ": " +:+ text else text
    | None => text
    end in
  match mr_headerSubtext r with
  | Some h =>
      let continue_ (headerText : string) :=
        "🎖️ " +:+ headerText +:+ (if Js.truthy text then ": " +:+ text else "") in
      match h with
      | TextString s => if Js.truthy s then continue_ "" else text
      | TextObject _ (Some runs) => continue_ (concat_strings runs)
      | TextObject (Some st) None => continue_ st
      | TextObject None None => continue_ ""
      end
  | None => text
  end.

(** [extractEmojis] *)
Fixpoint extractEmojis (runs : list Run) : list EmojiObject :=
  match runs with
  | [] => []
  | run :: rest =>
      match run_emoji run with
      | Some e =>
          let emoji :=
            {| emojiId := Js.or_else (re_emojiId e) "";
               emoji_label := match re_shortcuts e with
                              | Some (sc :: _) => sc
                              | _ => ""
                              end;
               emoji_url := match re_thumbnails e with
                            | Some thumbnails => default "" (last thumbnails)
                            | None => ""
                            end |} in
          if (Js.truthy (emojiId emoji) && Js.truthy (emoji_url emoji))%bool
          then emoji :: extractEmojis rest
          else extractEmojis rest
      | None => extractEmojis rest
      end
  end.

(** The renderer of a raw item, by the order of the four tests. *)
Definition rendererOf (rawMessage : RawItem) : option MessageRenderer :=
  match liveChatTextMessageRenderer rawMessage with
  | Some r => Some r
  | None =>
      match liveChatPaidMessageRenderer rawMessage with
      | Some r => Some r
      | None =>
          match liveChatPaidStickerRenderer rawMessage with
          | Some r => Some r
          | None => liveChatMembershipItemRenderer rawMessage
          end
      end
  end.

Definition formatSingleMessage (clock : nat -> Z) (uuidv4 : nat -> string)
    (rawMessage : RawItem) (sourceVideo : SourceVideo) (c : Counters)
  : option ChatMessage * Counters :=
  match rendererOf rawMessage with
  | None => (None, c)
  | Some messageRenderer =>
      let '(messageId, c) :=
        match mr_id messageRenderer with
        | Some i => if Js.truthy i then (i, c) else (uuidv4 (uuids c), fresh c)
        | None => (uuidv4 (uuids c), fresh c)
        end in
      let '(timestamp, c) := extractTimestamp clock messageRenderer c in
      let authorInfo := extractAuthorInfo (mr_author messageRenderer) in
      let text := extractMessageContent messageRenderer in
      let emojis :=
        match mr_message messageRenderer with
        | Some (MessageObject (Some runs) _) => extractEmojis runs
        | _ => []
        end in
      (Some {| id := messageId;
               message := text;
               authorName := name authorInfo;
               authorChannelId := channelId authorInfo;
               timestamp := timestamp;
               userType := ai_userType authorInfo;
               profileImage := ai_profileImage authorInfo;
               emojis := emojis;
               sourceVideo := sourceVideo |}, c)
  end.

Fixpoint formatChatMessages (clock : nat -> Z) (uuidv4 : nat -> string)
    (rawMessages : list RawItem) (sourceVideo : SourceVideo) (c : Counters)
  : list ChatMessage * Counters :=
  match rawMessages with
  | [] => ([], c)
  | rawMessage :: rest =>
      let '(formatted, c1) := formatSingleMessage clock uuidv4 rawMessage sourceVideo c in
      let '(others, c2) := formatChatMessages clock uuidv4 rest sourceVideo c1 in
      (match formatted with
       | Some m => m :: others
       | None => others
       end, c2)
  end.

End FormattersJs.

(** utils/formatters.ts (the normaliser that takes the raw response) *)
Module FormattersTs.

Definition badgeText (badgeRenderer : BadgeRenderer) : string :=
  match tooltip badgeRenderer with
  | Some t => if Js.truthy t then t else Js.or_else (accessibilityLabel badgeRenderer) ""
  | None => Js.or_else (accessibilityLabel badgeRenderer) ""
  end.

(** The [for ... of] loop over [authorBadges]: an owner badge ends the
    loop; a moderator or member badge overwrites the role and the loop
    goes on. *)
Fixpoint scanBadges (current : UserType) (badges : list Badge) : UserType :=
  match badges with
  | [] => current
  | badge :: rest =>
      match liveChatAuthorBadgeRenderer badge with
      | None => scanBadges current rest
      | Some badgeRenderer =>
          let text := Js.toLowerCase (badgeText badgeRenderer) in
          if Js.includes text "owner" then owner
          else if Js.includes text "moderator" then scanBadges moderator rest
          else if Js.includes text "member" then scanBadges member rest
          else scanBadges current rest
      end
  end.

Definition userTypeOf (authorBadges : option (list Badge)) : UserType :=
  match authorBadges with
  | Some badges => scanBadges regular badges
  | None => regular
  end.

End FormattersTs.

(* ===================================================================== *)
(** ** api/liveChat.ts: the cursor-based aggregation *)
(* ===================================================================== *)

Module LiveChatTs.

Record CacheEntry : Type := {
  messages : list ChatMessage;
  lastFetched : Z;
  continuation : option string
}.

Record LiveChatOptions : Type := {
  urls : list string;
  pageSize : option Z;
  after : option string;
  messageIds : option (list string)
}.

Record Response : Type := {
  r_messages : list ChatMessage;
  r_errors : list string;
  hasMore : bool;
  lastTimestamp : option Z
}.

(** What the function reads from outside.
    - [dateParse s] is [new Date(s).getTime()], [None] for NaN.
    - [clock n] is the value of the [n]-th call of [Date.now()].
    - [poll url] is the outcome, for one URL, of token extraction, the
      chat request and normalisation: the new messages and
      [chatResult.continuation || undefined], or the exception that
      reaches the [catch] of the per-URL task. *)
Record Env : Type := {
  dateParse : string -> option Z;
  clock : nat -> Z;
  poll : string -> outcome (list ChatMessage * option string)
}.

(** The process-wide message cache and the number of clock readings
    taken so far. *)
Record World : Type := {
  messageCache : gmap string CacheEntry;
  ticks : nat
}.

(** Set message cache expiration (5 minutes) *)
Definition CACHE_EXPIRATION : Z := 5 * 60 * 1000.

(** Maximum number of messages to keep in the cache per video *)
Definition MAX_CACHED_MESSAGES : Z := 2000.

(** The module's own [extractVideoId]: the same pattern and length test
    as in utils/directTokenExtractor. *)
Definition extractVideoId (url : string) : option string :=
  match Regex.exec DirectTokenExtractor.regExp url with
  | Some c =>
      match Regex.group 7 c with
      | Some id => if Nat.eqb (String.length id) 11 then Some id else None
      | None => None
      end
  | None => None
  end.

(** The comparator of both [sort] calls. *)
Definition byTimestamp (a b : ChatMessage) : Z := timestamp a - timestamp b.

(** Clean up expired cache entries *)
Definition cleanup (now : Z) (cache : gmap string CacheEntry) : gmap string CacheEntry :=
  filter (fun kv => ¬ (now - lastFetched (snd kv) > CACHE_EXPIRATION)) cache.

(** Merge with existing cache: drop the new messages whose ID is already
    cached, append, sort, keep the last [MAX_CACHED_MESSAGES]. *)
Definition mergeMessages (cached newMessages : list ChatMessage) : list ChatMessage :=
  let existingCacheIds : gset string := list_to_set (id <$> cached) in
  let uniqueNewMessages := filter (fun msg => id msg ∉ existingCacheIds) newMessages in
  let combined := Js.sort byTimestamp (cached ++ uniqueNewMessages) in
  if Z.of_nat (length combined) >? MAX_CACHED_MESSAGES
  then Js.slice combined (- MAX_CACHED_MESSAGES) None
  else combined.

(** Update cache *)
Definition updateCache (videoId : string) (newMessages : list ChatMessage)
    (now : Z) (cont : option string) (cache : gmap string CacheEntry)
  : gmap string CacheEntry :=
  match cache !! videoId with
  | None =>
      <[videoId := {| messages := newMessages; lastFetched := now; continuation := cont |}]> cache
  | Some entry =>
      <[videoId := {| messages := mergeMessages (messages entry) newMessages;
                      lastFetched := now; continuation := cont |}]> cache
  end.

(** A per-URL task after its synchronous part: it has either returned
    already, a list of messages or [undefined] ([None]), or is waiting for
    the network. *)
Inductive Task : Type :=
| Settled (result : option (list ChatMessage))
| Awaiting (url videoId : string) (now : Z).

(** The part of the per-URL task that runs before its first [await]. *)
Definition start (env : Env) (url : string) (w : World) (errors : list string)
  : Task * World * list string :=
  match extractVideoId url with
  | None => (Settled (Some []), w, errors ++ ["Could not extract video ID from " +:+ url])
  | Some videoId =>
      let now := clock env (ticks w) in
      let cache := cleanup now (messageCache w) in
      let w' := {| messageCache := cache; ticks := S (ticks w) |} in
      match cache !! videoId with
      | Some cachedData =>
          if now - lastFetched cachedData >? 10000
          then (Awaiting url videoId now, w', errors)
          else (Settled (Some (messages cachedData)), w', errors)
      | None =>
          (* an inherited name is found in the cache object: its
             [lastFetched] is undefined, the age is NaN and not greater
             than 10000, and its [messages], undefined, is returned *)
          if Js.inherited videoId
          then (Settled None, w', errors)
          else (Awaiting url videoId now, w', errors)
      end
  end.

(** The rest of the task, once the network has answered. *)
Definition resume (env : Env) (t : Task) (w : World) (errors : list string)
  : option (list ChatMessage) * World * list string :=
  match t with
  | Settled result => (result, w, errors)
  | Awaiting url videoId now =>
      match poll env url with
      | Throw e => (Some [], w, errors ++ ["Failed to fetch chat from " +:+ url +:+ ": " +:+ e])
      | Ok (newMessages, cont) =>
          let cache := updateCache videoId newMessages now cont (messageCache w) in
          (Some match cache !! videoId with
                | Some entry => messages entry
                | None => []
                end,
           {| messageCache := cache; ticks := ticks w |}, errors)
      end
  end.

(** [validUrls.map(async ...)] starts every task in request order. *)
Fixpoint startAll (env : Env) (validUrls : list string) (w : World) (errors : list string)
  : list Task * World * list string :=
  match validUrls with
  | [] => ([], w, errors)
  | url :: rest =>
      let '(t, w1, errors1) := start env url w errors in
      let '(ts, w2, errors2) := startAll env rest w1 errors1 in
      (t :: ts, w2, errors2)
  end.

(** [Promise.all]: the tasks are resumed, here in request order, and
    their results are collected in request order. *)
Fixpoint resumeAll (env : Env) (tasks : list Task) (w : World) (errors : list string)
  : list (option (list ChatMessage)) * World * list string :=
  match tasks with
  | [] => ([], w, errors)
  | t :: rest =>
      let '(r, w1, errors1) := resume env t w errors in
      let '(rs, w2, errors2) := resumeAll env rest w1 errors1 in
      (r :: rs, w2, errors2)
  end.

(** [msgTime > afterTime]; a comparison with NaN is false. *)
Definition isAfter (msgTime : Z) (afterTime : option Z) : bool :=
  match afterTime with
  | Some a => a <? msgTime
  | None => false
  end.

(** The combined list after both filters and the sort, before pagination. *)
Definition filterAndSort (env : Env) (options : LiveChatOptions)
    (chatResults : list (list ChatMessage)) : list ChatMessage :=
  let messageIds := default [] (messageIds options) in
  let existingIds : gset string := list_to_set messageIds in
  let allMessages := concat chatResults in
  let allMessages :=
    if Nat.ltb 0 (length messageIds)
    then filter (fun msg => id msg ∉ existingIds) allMessages
    else allMessages in
  let allMessages :=
    match after options with
    | Some a =>
        if Js.truthy a
        then filter (fun msg => isAfter (timestamp msg) (dateParse env a) = true) allMessages
        else allMessages
    | None => allMessages
    end in
  Js.sort byTimestamp allMessages.

(** Pagination and the cursor of the response. *)
Definition respond (env : Env) (options : LiveChatOptions)
    (chatResults : list (list ChatMessage)) (errors : list string) : Response :=
  let pageSize := default 50 (pageSize options) in
  let allMessages := filterAndSort env options chatResults in
  let totalCount := Z.of_nat (length allMessages) in
  let hasMore := totalCount >? pageSize in
  let paginatedMessages :=
    if hasMore then Js.slice allMessages 0 (Some pageSize) else allMessages in
  {| r_messages := paginatedMessages;
     r_errors := errors;
     hasMore := hasMore;
     lastTimestamp := timestamp <$> last paginatedMessages |}.

(** The results of the tasks when each of them is a list. *)
Fixpoint lists (chatResults : list (option (list ChatMessage)))
  : option (list (list ChatMessage)) :=
  match chatResults with
  | [] => Some []
  | Some result :: rest =>
      match lists rest with
      | Some results => Some (result :: results)
      | None => None
      end
  | None :: _ => None
  end.

(** [chatResults.flat()]: a result that is [undefined] stays as one
    entry. *)
Fixpoint flat (chatResults : list (option (list ChatMessage))) : list (option ChatMessage) :=
  match chatResults with
  | [] => []
  | Some result :: rest => (Some <$> result) ++ flat rest
  | None :: rest => None :: flat rest
  end.

(** The call from [chatResults.flat()] on. When every task has returned a
    list this is [respond]. Otherwise an entry of the combined list is
    [undefined]: each of the two filters reads a field of every entry and
    throws on it; without a filter, [sort] puts the entries that are
    [undefined] behind the messages, without calling the comparator on
    them, and reading the time stamp of the last entry of the page throws
    when that entry is [undefined]. *)
Definition answer (env : Env) (options : LiveChatOptions)
    (chatResults : list (option (list ChatMessage))) (errors : list string)
  : outcome Response :=
  match lists chatResults with
  | Some results => Ok (respond env options results errors)
  | None =>
      let filtering :=
        Nat.ltb 0 (length (default [] (messageIds options))) ||
        match after options with
        | Some a => Js.truthy a
        | None => false
        end in
      if filtering then Throw Js.TypeError
      else
        let allMessages := flat chatResults in
        let allMessages :=
          (Some <$> Js.sort byTimestamp (omap (fun entry => entry) allMessages)) ++
          filter (fun entry => entry = None) allMessages in
        let pageSize := default 50 (pageSize options) in
        let totalCount := Z.of_nat (length allMessages) in
        let hasMore := totalCount >? pageSize in
        let paginatedMessages :=
          if hasMore then Js.slice allMessages 0 (Some pageSize) else allMessages in
        match last paginatedMessages with
        | Some None => Throw Js.TypeError
        | Some (Some msg) =>
            Ok {| r_messages := omap (fun entry => entry) paginatedMessages;
                  r_errors := errors;
                  hasMore := hasMore;
                  lastTimestamp := Some (timestamp msg) |}
        | None =>
            Ok {| r_messages := []; r_errors := errors;
                  hasMore := hasMore; lastTimestamp := None |}
        end
  end.

(** [getLiveChat(options)]; a [Throw] is a rejection of the call. *)
Definition getLiveChat (env : Env) (options : LiveChatOptions) (w : World)
  : outcome Response * World :=
  let validUrls := List.filter Puppeteer.isValidYouTubeUrl (urls options) in
  match validUrls with
  | [] =>
      (Ok {| r_messages := []; r_errors := ["No valid YouTube URLs provided"];
             hasMore := false; lastTimestamp := None |}, w)
  | _ =>
      let '(tasks, w1, errors1) := startAll env validUrls w [] in
      let '(chatResults, w2, errors2) := resumeAll env tasks w1 errors1 in
      (answer env options chatResults errors2, w2)
  end.

End LiveChatTs.

(* ===================================================================== *)
(** ** api/liveChat.js: the snapshot aggregation *)
(* ===================================================================== *)

Module LiveChatJs.

Record CacheEntry : Type := {
  messages : list ChatMessage;
  lastFetched : Z;
  continuation : option string
}.

Record LiveChatOptions : Type := {
  urls : list string;
  pageSize : option Z;
  after : option string;
  messageIds : option (list string)
}.

Record Response : Type := {
  r_messages : list ChatMessage;
  r_errors : list string;
  totalMessages : nat;
  r_timestamp : Z
}.

(** What the function reads from outside: the date parser, the clock, the
    identifier generator, the page request and the chat request. *)
Record Env : Type := {
  dateParse : string -> option Z;
  clock : nat -> Z;
  uuidv4 : nat -> string;
  fetchPage : string -> outcome Page;
  post : string -> string -> outcome (option (ChatResponse RawItem))
}.

(** The two process-wide caches and the counters. *)
Record World : Type := {
  messageCache : gmap string CacheEntry;
  tokenCache : gmap string DirectTokenExtractor.JsFile.Tokens;
  counters : FormattersJs.Counters
}.

(** Set message cache expiration (5 minutes) *)
Definition CACHE_EXPIRATION : Z := 5 * 60 * 1000.

(** Maximum number of messages to keep in the cache per video *)
Definition MAX_CACHED_MESSAGES : Z := 2000.

Definition byTimestamp (a b : ChatMessage) : Z := timestamp a - timestamp b.

(** [msgTime > afterTime]; a comparison with NaN is false. *)
Definition isAfter (msgTime : Z) (afterTime : option Z) : bool :=
  match afterTime with
  | Some a => a <? msgTime
  | None => false
  end.

(** Filter messages based on criteria: the cursor, then the exclusion
    list. *)
Definition filterMessages (env : Env) (after : option string) (messageIds : list string)
    (msgs : list ChatMessage) : list ChatMessage :=
  let filteredMessages :=
    match after with
    | Some a =>
        if Js.truthy a
        then filter (fun msg => isAfter (timestamp msg) (dateParse env a) = true) msgs
        else msgs
    | None => msgs
    end in
  if Nat.ltb 0 (length messageIds)
  then filter (fun msg => id msg ∉ messageIds) filteredMessages
  else filteredMessages.

(** Limit to pageSize *)
Definition limit (pageSize : Z) (filteredMessages : list ChatMessage) : list ChatMessage :=
  if Z.of_nat (length filteredMessages) >? pageSize
  then Js.slice filteredMessages (- pageSize) None
  else filteredMessages.

(** The loop state: the world, the messages collected and the errors. *)
Definition Acc : Type := World * list ChatMessage * list string.

(** One turn of the loop over [urls]. *)
Definition processUrl (env : Env) (pageSize : Z) (after : option string)
    (messageIds : list string) (url : string) (acc : Acc) : Acc :=
  let '(w, allMessages, errors) := acc in
  if negb (DirectTokenExtractor.isValidYouTubeUrl url)
  then (w, allMessages, errors ++ ["Invalid YouTube URL: " +:+ url])
  else
    match DirectTokenExtractor.extractVideoId url with
    | None => (w, allMessages, errors ++ ["Could not extract video ID from URL: " +:+ url])
    | Some videoId =>
        let cached := messageCache w !! videoId in
        let now := clock env (FormattersJs.ticks (counters w)) in
        let c := FormattersJs.tick (counters w) in
        let hit :=
          match cached with
          | Some entry =>
              if now - lastFetched entry <? CACHE_EXPIRATION then Some entry else None
          | None => None
          end in
        match hit with
        | Some entry =>
            let filteredMessages :=
              limit pageSize (filterMessages env after messageIds (messages entry)) in
            ({| messageCache := messageCache w; tokenCache := tokenCache w; counters := c |},
             allMessages ++ filteredMessages, errors)
        | None =>
            let '(tokens, tokenCache', ticks') :=
              DirectTokenExtractor.JsFile.extractYouTubeTokens (fetchPage env) (clock env) url
                (tokenCache w) (FormattersJs.ticks c) in
            let c := {| FormattersJs.ticks := ticks'; FormattersJs.uuids := FormattersJs.uuids c |} in
            match tokens with
            | None =>
                ({| messageCache := messageCache w; tokenCache := tokenCache'; counters := c |},
                 allMessages,
                 errors ++ ["Could not extract live chat tokens for video: " +:+ videoId])
            | Some tokens =>
              if negb (Js.truthy (DirectTokenExtractor.JsFile.continuation tokens))
              then
                ({| messageCache := messageCache w; tokenCache := tokenCache'; counters := c |},
                 allMessages,
                 errors ++ ["Could not extract live chat tokens for video: " +:+ videoId])
              else
                let chatResponse :=
                  DirectTokenExtractor.JsFile.fetchLiveChatMessages (post env)
                    (DirectTokenExtractor.JsFile.continuation tokens)
                    (DirectTokenExtractor.JsFile.apiKey tokens) pageSize in
                let '(formattedMessages, c) :=
                  FormattersJs.formatChatMessages (clock env) (uuidv4 env)
                    (DirectTokenExtractor.JsFile.cr_messages chatResponse)
                    {| sv_url := url; sv_id := videoId;
                       sv_title := Some (DirectTokenExtractor.JsFile.title tokens) |} c in
                let entry :=
                  {| messages := Js.slice formattedMessages (- MAX_CACHED_MESSAGES) None;
                     lastFetched := now;
                     continuation := DirectTokenExtractor.JsFile.cr_continuation chatResponse |} in
                let filteredMessages :=
                  limit pageSize (filterMessages env after messageIds formattedMessages) in
                ({| messageCache := <[videoId := entry]> (messageCache w);
                    tokenCache := tokenCache'; counters := c |},
                 allMessages ++ filteredMessages, errors)
            end
        end
    end.

Definition getLiveChat (env : Env) (options : LiveChatOptions) (w : World)
  : Response * World :=
  let pageSize := default 200 (pageSize options) in
  let messageIds := default [] (messageIds options) in
  let '(w', allMessages, errors) :=
    fold_left (fun acc url => processUrl env pageSize (after options) messageIds url acc)
              (urls options) (w, [], []) in
  let allMessages := Js.sort byTimestamp allMessages in
  ({| r_messages := allMessages;
      r_errors := errors;
      totalMessages := length allMessages;
      r_timestamp := clock env (FormattersJs.ticks (counters w')) |},
   {| messageCache := messageCache w'; tokenCache := tokenCache w';
      counters := FormattersJs.tick (counters w') |}).

End LiveChatJs.

(* ===================================================================== *)
(** ** Video metadata *)
(* ===================================================================== *)

Record VideoMetadata : Type := {
  videoId : string;
  videoUrl : string;
  md_title : option string;
  viewCount : Z;
  likeCount : Z;
  isLive : bool;
  md_channelName : option string;
  error : option string
}.

(** A JSON value that is a string, or a number that is an integer: [Num n]
    is the Number value [n]. *)
Inductive NumOrStr : Type :=
| Num (n : Z)
| Str (s : string).

Definition truthyValue (v : NumOrStr) : bool :=
  match v with
  | Num n => negb (n =? 0)
  | Str s => Js.truthy s
  end.

(** [parseInt(v, 10)]: a number is first written out as a string. *)
Definition parseIntValue (v : NumOrStr) : option Z :=
  match v with
  | Num n => Some (Js.parseIntOfNumber n)
  | Str s => Js.parseInt s
  end.

(** api/videoMetadata.ts: [parseMetadata] and [getVideoMetadata] *)
Module VideoMetadataTs.

(** [videoViewCountRenderer]: [viewCount.simpleText], [viewCount.runs[0].text]
    and [isLive]. *)
Record ViewCountRenderer : Type := {
  vc_simpleText : option string;
  vc_run0 : option string;
  vc_isLive : bool
}.

(** One entry of [data.actions] of the primary endpoint. *)
Record MetaAction : Type := {
  (* updateViewershipAction.viewCount.videoViewCountRenderer *)
  updateViewership : option ViewCountRenderer;
  (* updateToggleButtonAction.toggledButtons[0].toggleButtonRenderer
       .defaultText.accessibility.accessibilityData.label *)
  toggledLikeLabel : option string;
  (* updateButtonAction.button.toggleButtonRenderer.defaultText.simpleText *)
  buttonLikeText : option string;
  (* updateTitleAction.title *)
  updateTitle : option string;
  (* updateChannelNavigationEndpointAction.channelEndpoint.channelInfo, its title *)
  channelInfo : option (option string)
}.

(** One entry of [menuRenderer.topLevelButtons]. *)
Record TopLevelButton : Type := {
  tb_iconType : option string;     (* toggleButtonRenderer.defaultIcon.iconType *)
  tb_label : option string;        (* ...defaultText.accessibility.accessibilityData.label *)
  tb_simpleText : option string    (* ...defaultText.simpleText *)
}.

(** An entry of an array of the body is an object or [null] ([None]);
    reading a field of [null] throws a TypeError. *)
Record VideoPrimaryInfo : Type := {
  vp_title : option string;                     (* title.runs[0].text *)
  (* owner.videoOwnerRenderer.title.runs: each run, and its text *)
  vp_ownerRuns : option (list (option (option string)));
  vp_viewCount : option ViewCountRenderer;      (* viewCount.videoViewCountRenderer *)
  vp_topLevelButtons : option (list (option TopLevelButton))
}.

(** One entry of [twoColumnWatchNextResults.results.results.contents]. *)
Record ContentItem : Type := {
  videoPrimaryInfoRenderer : option VideoPrimaryInfo;
  videoSecondaryInfoRenderer : bool
}.

Record LikeCountEntity : Type := {
  likeCountIfIndifferentNumber : option NumOrStr;
  expandedLikeCountIfIndifferent : option string;   (* its content *)
  likeCountIfIndifferent : option string            (* its content *)
}.

(** One entry of [frameworkUpdates.entityBatchUpdate.mutations]. *)
Record Mutation : Type := {
  likeCountEntity : option LikeCountEntity          (* payload.likeCountEntity *)
}.

(** The body of either endpoint, by the paths that [parseMetadata] reads. *)
Record MetaData : Type := {
  dt_actions : option (list (option MetaAction));
  dt_contents : option (option (list (option ContentItem)));
  dt_alternate : option ViewCountRenderer;  (* videoPrimaryInfoRenderer.viewCount.videoViewCountRenderer *)
  dt_mutations : option (list (option Mutation))
}.

Inductive Source : Type := primary | backup.

Record NameEntry : Type := {
  ne_name : string;
  ne_timestamp : Z
}.

(** Cache expiration time (24 hours) *)
Definition CHANNEL_CACHE_EXPIRATION : Z := 24 * 60 * 60 * 1000.

(** The channel-name cache and the number of clock readings. *)
Record NameState : Type := {
  channelNameCache : gmap string NameEntry;
  ns_ticks : nat
}.

(** A string field that is present and not empty. *)
Definition truthyField (o : option string) : option string :=
  match o with
  | Some t => if Js.truthy t then Some t else None
  | None => None
  end.

(** The text of a view-count renderer: [simpleText], else the first run. *)
Definition viewCountText (renderer : ViewCountRenderer) : string :=
  match vc_simpleText renderer with
  | Some t => if Js.truthy t then t else Js.or_else (vc_run0 renderer) ""
  | None => Js.or_else (vc_run0 renderer) ""
  end.

(** [parseInt(viewCountText.replace(/[^0-9]/g, ''), 10)] when the text is
    not empty and the result is a number. *)
Definition parseViewCount (renderer : ViewCountRenderer) : option Z :=
  let text := viewCountText renderer in
  if Js.truthy text then Js.parseInt (Js.digits_only text) else None.

Definition is_like_char (a : ascii) : bool := (Js.is_digit a || Ascii.eqb a ",")%bool.

(** [likeText.match(/([0-9,]+)/)], then [parseInt] of the match without
    its commas. *)
Definition parseLikeText (likeText : string) : option Z :=
  match Js.take_while is_like_char
          (Js.drop_while (fun a => negb (is_like_char a)) (Js.chars likeText)) with
  | [] => None
  | run => Js.parseInt (Js.str (filter (fun a => a <> ","%char) run))
  end.

(** The pattern [\d+K]. *)
Definition abbreviatedK : Regex.re :=
  Regex.Seq (Regex.Plus (Regex.Cls Js.is_digit)) (Regex.Chr "K").

(** The three encodings of one [likeCountEntity], tried in this order: the
    exact number, the expanded string with separators, the abbreviated
    string. [None] is NaN; the variable starts at 0 and stays there when no
    field is present. *)
Definition entityLikeCount (e : LikeCountEntity) : option Z :=
  let number :=
    match likeCountIfIndifferentNumber e with
    | Some v => if truthyValue v then Some v else None
    | None => None
    end in
  match number with
  | Some v => parseIntValue v
  | None =>
      match truthyField (expandedLikeCountIfIndifferent e) with
      | Some expanded => Js.parseInt (Js.digits_only expanded)
      | None =>
          match truthyField (likeCountIfIndifferent e) with
          | Some abbreviated =>
              if Regex.test abbreviatedK abbreviated
              then (fun base => base * 1000) <$> Js.parseInt (Js.digits_only abbreviated)
              else Js.parseInt (Js.digits_only abbreviated)
          | None => Some 0
          end
      end
  end.

(** The loop over the mutations: the first entity that gives a positive
    number sets the like count and ends the loop; a mutation that is
    [null] and is reached throws. *)
Fixpoint likeCountFromMutations (mutations : list (option Mutation)) (current : Z)
  : outcome Z :=
  match mutations with
  | [] => Ok current
  | None :: _ => Throw Js.TypeError
  | Some mutation :: rest =>
      match likeCountEntity mutation with
      | Some e =>
          match entityLikeCount e with
          | Some n => if 0 <? n then Ok n else likeCountFromMutations rest current
          | None => likeCountFromMutations rest current
          end
      | None => likeCountFromMutations rest current
      end
  end.

Definition setLike (m : VideoMetadata) (n : option Z) : VideoMetadata :=
  match n with
  | Some likes =>
      {| videoId := videoId m; videoUrl := videoUrl m; md_title := md_title m;
         viewCount := viewCount m; likeCount := likes; isLive := isLive m;
         md_channelName := md_channelName m; error := error m |}
  | None => m
  end.

Definition setView (m : VideoMetadata) (n : option Z) (live : bool) : VideoMetadata :=
  {| videoId := videoId m; videoUrl := videoUrl m; md_title := md_title m;
     viewCount := default (viewCount m) n; likeCount := likeCount m; isLive := live;
     md_channelName := md_channelName m; error := error m |}.

Definition setTitle (m : VideoMetadata) (t : string) : VideoMetadata :=
  {| videoId := videoId m; videoUrl := videoUrl m; md_title := Some t;
     viewCount := viewCount m; likeCount := likeCount m; isLive := isLive m;
     md_channelName := md_channelName m; error := error m |}.

Definition setChannel (m : VideoMetadata) (c : string) : VideoMetadata :=
  {| videoId := videoId m; videoUrl := videoUrl m; md_title := md_title m;
     viewCount := viewCount m; likeCount := likeCount m; isLive := isLive m;
     md_channelName := Some c; error := error m |}.

(** Cache the channel name *)
Definition cacheName (clock : nat -> Z) (vid name : string) (st : NameState) : NameState :=
  {| channelNameCache :=
       <[vid := {| ne_name := name; ne_timestamp := clock (ns_ticks st) |}]>
         (channelNameCache st);
     ns_ticks := S (ns_ticks st) |}.

(** The body of the loop over the actions of the primary endpoint. *)
Definition primaryAction (clock : nat -> Z) (action : MetaAction)
    (acc : VideoMetadata * NameState) : VideoMetadata * NameState :=
  let '(m, st) := acc in
  let m :=
    match updateViewership action with
    | Some renderer => setView m (parseViewCount renderer) (vc_isLive renderer)
    | None => m
    end in
  let m :=
    match truthyField (toggledLikeLabel action) with
    | Some likeText => setLike m (parseLikeText likeText)
    | None => m
    end in
  let m :=
    match truthyField (buttonLikeText action) with
    | Some likeText => setLike m (parseLikeText likeText)
    | None => m
    end in
  let m :=
    match truthyField (updateTitle action) with
    | Some t => setTitle m t
    | None => m
    end in
  match channelInfo action with
  | Some info =>
      match truthyField info with
      | Some t => (setChannel m t, cacheName clock (videoId m) t st)
      | None => (m, st)
      end
  | None => (m, st)
  end.

Definition concat_strings (l : list string) : string := fold_right String.append "" l.

(** The loop over [data.actions]: an action that is [null] throws when its
    first field is read; what the actions before it have put into the name
    cache stays there. *)
Fixpoint primaryActions (clock : nat -> Z) (acts : list (option MetaAction))
    (acc : VideoMetadata * NameState) : outcome VideoMetadata * NameState :=
  match acts with
  | [] => (Ok acc.1, acc.2)
  | None :: _ => (Throw Js.TypeError, acc.2)
  | Some action :: rest => primaryActions clock rest (primaryAction clock action acc)
  end.

(** [array.find(x => p(x))], where [p] reads a field of the entry. *)
Fixpoint findEntry {A} (p : A -> bool) (l : list (option A)) : outcome (option A) :=
  match l with
  | [] => Ok None
  | None :: _ => Throw Js.TypeError
  | Some x :: rest => if p x then Ok (Some x) else findEntry p rest
  end.

(** [runs.map(run => run.text || '')] *)
Fixpoint runTexts (runs : list (option (option string))) : outcome (list string) :=
  match runs with
  | [] => Ok []
  | None :: _ => Throw Js.TypeError
  | Some t :: rest =>
      match runTexts rest with
      | Ok texts => Ok (Js.or_else t "" :: texts)
      | Throw e => Throw e
      end
  end.

(** The branch for the backup endpoint, given its primary-info renderer. *)
Definition backupInfo (clock : nat -> Z) (videoInfo : VideoPrimaryInfo)
    (acc : VideoMetadata * NameState) : outcome VideoMetadata * NameState :=
  let '(m, st) := acc in
  let m :=
    match truthyField (vp_title videoInfo) with
    | Some t => setTitle m t
    | None => m
    end in
  let owner : outcome (VideoMetadata * NameState) :=
    match vp_ownerRuns videoInfo with
    | Some runs =>
        match runTexts runs with
        | Ok texts =>
            let channelName := concat_strings texts in
            if Js.truthy channelName
            then Ok (setChannel m channelName, cacheName clock (videoId m) channelName st)
            else Ok (m, st)
        | Throw e => Throw e
        end
    | None => Ok (m, st)
    end in
  match owner with
  | Throw e => (Throw e, st)
  | Ok (m, st) =>
      let m :=
        match vp_viewCount videoInfo with
        | Some renderer => setView m (parseViewCount renderer) (vc_isLive renderer)
        | None => m
        end in
      match vp_topLevelButtons videoInfo with
      | Some buttons =>
          match findEntry (fun b => match tb_iconType b with
                                    | Some it => String.eqb it "LIKE"
                                    | None => false
                                    end) buttons with
          | Ok (Some likeButton) =>
              (Ok match truthyField (tb_label likeButton) with
                  | Some likeText => setLike m (parseLikeText likeText)
                  | None =>
                      match truthyField (tb_simpleText likeButton) with
                      | Some likeText => setLike m (parseLikeText likeText)
                      | None => m
                      end
                  end, st)
          | Ok None => (Ok m, st)
          | Throw e => (Throw e, st)
          end
      | None => (Ok m, st)
      end
  end.

(** The branch for the backup endpoint: the first entry of the contents
    with a primary-info renderer is read and, while a count is still 0,
    the entries are searched for a secondary-info renderer, which is not
    used. *)
Definition backupContents (clock : nat -> Z) (contents : option (list (option ContentItem)))
    (acc : VideoMetadata * NameState) : outcome VideoMetadata * NameState :=
  let items := default [] contents in
  match findEntry (fun x => match videoPrimaryInfoRenderer x with
                            | Some _ => true
                            | None => false
                            end) items with
  | Throw e => (Throw e, acc.2)
  | Ok found =>
      let '(parsed, st) :=
        match found with
        | Some x =>
            match videoPrimaryInfoRenderer x with
            | Some videoInfo => backupInfo clock videoInfo acc
            | None => (Ok acc.1, acc.2)
            end
        | None => (Ok acc.1, acc.2)
        end in
      match parsed with
      | Throw e => (Throw e, st)
      | Ok m =>
          if (viewCount m =? 0) || (likeCount m =? 0)
          then match findEntry videoSecondaryInfoRenderer items with
               | Throw e => (Throw e, st)
               | Ok _ => (Ok m, st)
               end
          else (Ok m, st)
      end
  end.

(** The [try] block of [parseMetadata]. *)
Definition parseBody (clock : nat -> Z) (data : option MetaData)
    (videoUrl videoId : string) (source : Source) (extractedChannelName : option string)
    (st : NameState) : outcome VideoMetadata * NameState :=
  let metadata :=
    {| videoId := videoId; videoUrl := videoUrl; md_title := None;
       viewCount := 0; likeCount := 0; isLive := false;
       md_channelName := None; error := None |} in
  let fromHtml (st : NameState) :=
    match truthyField extractedChannelName with
    | Some n => (setChannel metadata n, cacheName clock videoId n st)
    | None => (metadata, st)
    end in
  let '(metadata, st) :=
    match channelNameCache st !! videoId with
    | Some cachedName =>
        let st' := {| channelNameCache := channelNameCache st; ns_ticks := S (ns_ticks st) |} in
        if clock (ns_ticks st) - ne_timestamp cachedName <? CHANNEL_CACHE_EXPIRATION
        then (setChannel metadata (ne_name cachedName), st')
        else fromHtml st'
    | None =>
        (* an inherited name is found in the cache object; the clock is
           read, and the age, NaN, is not below the expiration *)
        if Js.inherited videoId
        then fromHtml {| channelNameCache := channelNameCache st; ns_ticks := S (ns_ticks st) |}
        else fromHtml st
    end in
  let '(parsed, st) :=
    match source, data with
    | primary, Some d =>
        match dt_actions d with
        | Some acts => primaryActions clock acts (metadata, st)
        | None => (Ok metadata, st)
        end
    | backup, Some d =>
        match dt_contents d with
        | Some contents => backupContents clock contents (metadata, st)
        | None => (Ok metadata, st)
        end
    | _, None => (Ok metadata, st)
    end in
  match parsed with
  | Throw e => (Throw e, st)
  | Ok metadata =>
      let metadata :=
        match data with
        | Some d =>
            match dt_alternate d with
            | Some renderer =>
                if viewCount metadata =? 0
                then setView metadata (parseViewCount renderer) (vc_isLive renderer)
                else metadata
            | None => metadata
            end
        | None => metadata
        end in
      match data with
      | Some d =>
          match dt_mutations d with
          | Some mutations =>
              if likeCount metadata =? 0
              then match likeCountFromMutations mutations (likeCount metadata) with
                   | Ok likes => (Ok (setLike metadata (Some likes)), st)
                   | Throw e => (Throw e, st)
                   end
              else (Ok metadata, st)
          | None => (Ok metadata, st)
          end
      | None => (Ok metadata, st)
      end
  end.

(** [parseMetadata(data, videoUrl, videoId, source, extractedChannelName)]:
    the [try] block and its [catch], which answers with a record that
    carries an error. *)
Definition parseMetadata (clock : nat -> Z) (data : option MetaData)
    (videoUrl videoId : string) (source : Source) (extractedChannelName : option string)
    (st : NameState) : VideoMetadata * NameState :=
  match parseBody clock data videoUrl videoId source extractedChannelName st with
  | (Ok metadata, st') => (metadata, st')
  | (Throw _, st') =>
      ({| videoId := videoId; videoUrl := videoUrl; md_title := None;
          viewCount := 0; likeCount := 0; isLive := false;
          md_channelName := None; error := Some "Failed to parse metadata" |}, st')
  end.

(** The pattern of [extractChannelNameFromHTML], token by token: an
    anchor whose [href] starts with a slash and an at sign. Code 34 is the
    double quote. *)
Definition dquote : ascii := ascii_of_nat 34.

Definition anchorPattern : Regex.re :=
  Regex.Seqs
    [ Regex.Lit "<a"; Regex.Star (Regex.NotIn ">");              (* <a[^>]* *)
      Regex.Lit "href="; Regex.Chr dquote; Regex.Chr "/";        (* href=.\/ *)
      Regex.Group 1 (Regex.Seq (Regex.Chr "@")
        (Regex.Plus (Regex.Cls (fun a => negb (Ascii.eqb a dquote)))));
      Regex.Chr dquote; Regex.Star (Regex.NotIn ">"); Regex.Chr ">";
      Regex.Group 2 (Regex.Plus (Regex.NotIn "<"));              (* [^<]+ , captured *)
      Regex.Lit "</a>" ].

(** [String.prototype.trim] *)
Definition trim (s : string) : string :=
  Js.str (rev (Js.drop_while Js.is_space (rev (Js.drop_while Js.is_space (Js.chars s))))).

Definition extractChannelNameFromHTML (html : string) : option string :=
  match Regex.exec anchorPattern html with
  | Some c =>
      match Regex.group 2 c with
      | Some name => if Js.truthy name then Some (trim name) else None
      | None => None
      end
  | None => None
  end.

(** The network of the metadata path: the page request and the two
    internal endpoints, each of which may throw. *)
Record Env : Type := {
  clock : nat -> Z;
  fetchPage : string -> outcome Page;
  updated_metadata : string -> DirectTokenExtractor.TsFile.Tokens -> outcome (option MetaData);
  next : string -> DirectTokenExtractor.TsFile.Tokens -> outcome (option MetaData)
}.

(** [fetchVideoMetadata(videoUrl, tokens)] of utils/directTokenExtractor.ts *)
Definition fetchVideoMetadata (env : Env) (videoUrl : string)
    (tokens : DirectTokenExtractor.TsFile.Tokens)
  : outcome (option MetaData * option MetaData) :=
  if (negb (Js.truthy (DirectTokenExtractor.TsFile.apiKey tokens)) ||
      negb (Js.truthy (DirectTokenExtractor.TsFile.clientVersion tokens)))%bool
  then Throw "Error: Missing required tokens for metadata fetch"
  else
    match DirectTokenExtractor.extractVideoId videoUrl with
    | None => Throw "Error: Invalid YouTube URL"
    | Some videoId =>
        primaryData ← updated_metadata env videoId tokens;
        backupData ← next env videoId tokens;
        mret (primaryData, backupData)
    end.

Record State : Type := {
  tokenCache : gmap string DirectTokenExtractor.TsFile.Tokens;
  names : gmap string NameEntry;
  ticks : nat
}.

Record Response : Type := {
  metadata : list VideoMetadata;
  errors : list string
}.

(** Merge data, preferring primary where available *)
Definition mergeBackup (m b : VideoMetadata) : VideoMetadata :=
  {| videoId := videoId m;
     videoUrl := videoUrl m;
     md_title := match md_title m with
                 | Some t => Some t
                 | None => md_title b
                 end;
     viewCount := if (viewCount m =? 0) && (0 <? viewCount b) then viewCount b else viewCount m;
     likeCount := if (likeCount m =? 0) && (0 <? likeCount b) then likeCount b else likeCount m;
     isLive := isLive m || isLive b;
     md_channelName := match truthyField (md_channelName m) with
                       | Some c => Some c
                       | None => match truthyField (md_channelName b) with
                                 | Some c => Some c
                                 | None => md_channelName m
                                 end
                       end;
     error := error m |}.

(** The [try] block of the per-URL task. *)
Definition attempt (env : Env) (url : string) (st : State) : outcome VideoMetadata * State :=
  let videoId := default "unknown" (DirectTokenExtractor.extractVideoId url) in
  let '(tokens, tokenCache', ticks') :=
    DirectTokenExtractor.TsFile.extractYouTubeTokens (fetchPage env) (clock env) url
      (tokenCache st) (ticks st) in
  let st1 := {| tokenCache := tokenCache'; names := names st; ticks := ticks' |} in
  match tokens with
  | Throw e => (Throw e, st1)
  | Ok tokens =>
      match fetchVideoMetadata env url tokens with
      | Throw e => (Throw e, st1)
      | Ok (primaryData, backupData) =>
          let extractedChannelName :=
            extractChannelNameFromHTML (DirectTokenExtractor.TsFile.rawHtml tokens) in
          let '(metadata, ns) :=
            parseMetadata (clock env) primaryData url videoId primary extractedChannelName
              {| channelNameCache := names st1; ns_ticks := ticks st1 |} in
          let '(metadata, ns) :=
            if (match md_title metadata with None => true | Some _ => false end
                || (viewCount metadata =? 0))%bool
            then
              let '(backupMetadata, ns') :=
                parseMetadata (clock env) backupData url videoId backup extractedChannelName ns in
              (mergeBackup metadata backupMetadata, ns')
            else (metadata, ns) in
          (Ok metadata,
           {| tokenCache := tokenCache'; names := channelNameCache ns; ticks := ns_ticks ns |})
      end
  end.

(** The per-URL task: the [try] block and its [catch]. The task itself
    never rejects. *)
Definition task (env : Env) (url : string) (acc : State * list string)
  : outcome VideoMetadata * (State * list string) :=
  let '(st, errors) := acc in
  match attempt env url st with
  | (Ok metadata, st') => (Ok metadata, (st', errors))
  | (Throw e, st') =>
      let videoId := default "unknown" (DirectTokenExtractor.extractVideoId url) in
      (Ok {| videoId := videoId; videoUrl := url; md_title := None;
             viewCount := 0; likeCount := 0; isLive := false;
             md_channelName := None; error := Some ("Failed to fetch: " +:+ e) |},
       (st', errors ++ ["Failed to fetch metadata from " +:+ url +:+ ": " +:+ e]))
  end.

(** [Promise.all] over the tasks, here run in request order: the first
    rejection, if any, rejects the whole. *)
Fixpoint all (env : Env) (validUrls : list string) (acc : State * list string)
  : outcome (list VideoMetadata) * (State * list string) :=
  match validUrls with
  | [] => (Ok [], acc)
  | url :: rest =>
      let '(r, acc1) := task env url acc in
      let '(rs, acc2) := all env rest acc1 in
      (m ← r; ms ← rs; mret (m :: ms), acc2)
  end.

Definition getVideoMetadata (env : Env) (urls : list string) (st : State)
  : outcome Response * State :=
  let validUrls := List.filter DirectTokenExtractor.isValidYouTubeUrl urls in
  match validUrls with
  | [] => (Ok {| metadata := []; errors := ["No valid YouTube URLs provided"] |}, st)
  | _ =>
      let '(results, (st', errors)) := all env validUrls (st, []) in
      (metadataResults ← results;
       mret {| metadata := metadataResults; errors := errors |}, st')
  end.

End VideoMetadataTs.

(** api/videoMetadata.js: [parseMetadata] and [getVideoMetadata] *)
Module VideoMetadataJs.

(** A title: a string, or an object with [simpleText] and [runs]. An entry
    of [runs] is [null] ([None]) or an object with its [text]; reading a
    field of [null] throws a TypeError. *)
Inductive Title : Type :=
| TitleString (s : string)
| TitleObject (simpleText : option string) (runs : option (list (option (option string)))).

(** [videoDetails] of a player response. *)
Record VideoDetails : Type := {
  vd_title : option Title;
  vd_viewCount : option NumOrStr;
  vd_isLive : option bool;
  vd_isLiveContent : option bool;
  vd_author : option string
}.

(** [microformat.playerMicroformatRenderer] *)
Record Microformat : Type := {
  mf_title : option Title;
  mf_viewCount : option NumOrStr;
  mf_isLiveNow : option bool       (* liveBroadcastDetails.isLiveNow *)
}.

(** A player response: its [videoDetails], its microformat, the
    same-named fields it may carry at top level, and the panels under
    [contents.videoDetails.engagementPanels], each of them an object or
    [null]. *)
Record PlayerData : Type := {
  videoDetails : option VideoDetails;
  microformat : option Microformat;
  own : VideoDetails;
  engagementPanels : option (list (option unit))
}.

Definition noDetails : VideoDetails :=
  {| vd_title := None; vd_viewCount := None; vd_isLive := None;
     vd_isLiveContent := None; vd_author := None |}.

(** The empty object. *)
Definition emptyData : PlayerData :=
  {| videoDetails := None; microformat := None; own := noDetails;
     engagementPanels := None |}.

Record NameEntry : Type := {
  ne_name : string;
  ne_timestamp : Z
}.

(** Cache expiration time (24 hours) *)
Definition CHANNEL_CACHE_EXPIRATION : Z := 24 * 60 * 60 * 1000.

Record State : Type := {
  tokenCache : gmap string DirectTokenExtractor.JsFile.Tokens;
  channelNameCache : gmap string NameEntry;
  ticks : nat
}.

Record Env : Type := {
  clock : nat -> Z;
  fetchPage : string -> outcome Page;
  (* the request to the player endpoint and the body it returns *)
  player : string -> outcome (option PlayerData);
  (* the message of the TypeError that reading the named field of null
     throws, in the wording of the engine *)
  nullMessage : string -> string
}.

Record Response : Type := {
  metadata : list VideoMetadata;
  errors : list string;
  totalVideos : nat;
  r_timestamp : Z
}.

Definition concat_strings (l : list string) : string := fold_right String.append "" l.

Definition truthyText (t : option Title) : bool :=
  match t with
  | Some (TitleString s) => Js.truthy s
  | Some (TitleObject _ _) => true
  | None => false
  end.

(** [runs.map(run => run.text)], as [join] reads it: a text that is
    missing counts as the empty string. *)
Fixpoint runTexts (message : string -> string) (runs : list (option (option string)))
  : outcome (list string) :=
  match runs with
  | [] => Ok []
  | None :: _ => Throw (message "text")
  | Some t :: rest =>
      match runTexts message rest with
      | Ok texts => Ok (default "" t :: texts)
      | Throw e => Throw e
      end
  end.

(** The title of [videoDetails]: a string, the joined runs, or the
    simple text. *)
Definition detailsTitle (message : string -> string) (t : Title) : outcome (option string) :=
  match t with
  | TitleString s => Ok (Some s)
  | TitleObject _ (Some runs) =>
      match runTexts message runs with
      | Ok texts => Ok (Some (concat_strings texts))
      | Throw e => Throw e
      end
  | TitleObject (Some st) None => Ok (if Js.truthy st then Some st else None)
  | TitleObject None None => Ok None
  end.

(** The title of the microformat: a string or the simple text. *)
Definition microformatTitle (t : Title) : option string :=
  match t with
  | TitleString s => Some s
  | TitleObject (Some st) _ => if Js.truthy st then Some st else None
  | TitleObject None _ => None
  end.

Definition titleMissing (t : option string) : bool :=
  match t with
  | Some s => negb (Js.truthy s)
  | None => true
  end.

(** [parseInt(v) || 0] *)
Definition parseIntOrZero (v : NumOrStr) : Z :=
  match v with
  | Num n => Js.parseIntOfNumber n
  | Str s => default 0 (Js.parseIntAuto s)
  end.

(** [fetchVideoMetadata(videoId)] of utils/directTokenExtractor.js: the
    body when it has [videoDetails], else [null]; never throws. *)
Definition fetchVideoMetadata (env : Env) (videoId : string) : option PlayerData :=
  match player env videoId with
  | Ok (Some data) =>
      match videoDetails data with
      | Some _ => Some data
      | None => None
      end
  | _ => None
  end.

(** The [try] block of [parseMetadata]; [message] gives the message of
    the TypeError that reading a field of a [null] entry raises. *)
Definition parseBody (clock : nat -> Z) (message : string -> string) (data : option PlayerData)
    (videoUrl videoId : string) (extractedChannelName : option string)
    (names : gmap string NameEntry) (ticks : nat)
  : outcome VideoMetadata * gmap string NameEntry * nat :=
  let fromExtracted (ticks : nat) :=
    match extractedChannelName with
    | Some n =>
        if Js.truthy n
        then (Some n, <[videoId := {| ne_name := n; ne_timestamp := clock ticks |}]> names, S ticks)
        else (None, names, ticks)
    | None => (None, names, ticks)
    end in
  let '(channelName, names, ticks) :=
    match names !! videoId with
    | Some cachedName =>
        if clock ticks - ne_timestamp cachedName <? CHANNEL_CACHE_EXPIRATION
        then (Some (ne_name cachedName), names, S ticks)
        else fromExtracted (S ticks)
    | None =>
        (* an inherited name is found in the cache object; the clock is
           read, and the age, NaN, is not below the expiration *)
        if Js.inherited videoId then fromExtracted (S ticks) else fromExtracted ticks
    end in
  let basic (title : option string) (views : Z) (live : bool) (channel : option string) :=
    {| videoId := videoId; videoUrl := videoUrl; md_title := title;
       viewCount := views; likeCount := 0; isLive := live;
       md_channelName := channel; error := None |} in
  match data with
  | None => (Ok (basic None 0 false channelName), names, ticks)
  | Some data =>
      let details :=
        if (truthyText (vd_title (own data)) &&
            match vd_viewCount (own data) with Some _ => true | None => false end)%bool
        then Some (own data)
        else videoDetails data in
      let title : outcome (option string) :=
        match details with
        | Some d =>
            match vd_title d with
            | Some t => if truthyText (Some t) then detailsTitle message t else Ok None
            | None => Ok None
            end
        | None => Ok None
        end in
      match title with
      | Throw e => (Throw e, names, ticks)
      | Ok title =>
          let '(views, live, channelName, names, ticks) :=
            match details with
            | Some d =>
                let views :=
                  match vd_viewCount d with
                  | Some (Num n) => n
                  | Some (Str s) => parseIntOrZero (Str s)
                  | None => 0
                  end in
                let live :=
                  match vd_isLive d with
                  | Some b => b
                  | None => default false (vd_isLiveContent d)
                  end in
                match vd_author d with
                | Some author =>
                    if (Js.truthy author &&
                        match channelName with
                        | Some c => negb (Js.truthy c)
                        | None => true
                        end)%bool
                    then (views, live, Some author,
                          <[videoId := {| ne_name := author; ne_timestamp := clock ticks |}]> names,
                          S ticks)
                    else (views, live, channelName, names, ticks)
                | None => (views, live, channelName, names, ticks)
                end
            | None => (0, false, channelName, names, ticks)
            end in
          let '(title, views, live) :=
            match microformat data with
            | Some mf =>
                if (titleMissing title || (views =? 0))%bool then
                  let title' :=
                    if (truthyText (mf_title mf) && titleMissing title)%bool
                    then match mf_title mf with
                         | Some t => match microformatTitle t with
                                     | Some t' => Some t'
                                     | None => title
                                     end
                         | None => title
                         end
                    else title in
                  let views' :=
                    match mf_viewCount mf with
                    | Some v => if (truthyValue v && (views =? 0))%bool then parseIntOrZero v else views
                    | None => views
                    end in
                  let live' := default live (mf_isLiveNow mf) in
                  (title', views', live')
                else (title, views, live)
            | None => (title, views, live)
            end in
          (* the loop over the engagement panels reads a field of each *)
          if existsb (fun panel => match panel with None => true | Some _ => false end)
               (default [] (engagementPanels data))
          then (Throw (message "engagementPanelSectionListRenderer"), names, ticks)
          else
            let title :=
              if titleMissing title then Some ("Video " +:+ videoId) else title in
            (Ok (basic title views live channelName), names, ticks)
      end
  end.

(** [parseMetadata(data, videoUrl, videoId, source, extractedChannelName)]:
    the [try] block and its [catch], which answers with a record that
    carries the message of the error. *)
Definition parseMetadata (clock : nat -> Z) (message : string -> string)
    (data : option PlayerData)
    (videoUrl videoId : string) (extractedChannelName : option string)
    (names : gmap string NameEntry) (ticks : nat)
  : VideoMetadata * gmap string NameEntry * nat :=
  match parseBody clock message data videoUrl videoId extractedChannelName names ticks with
  | (Ok metadata, names', ticks') => (metadata, names', ticks')
  | (Throw e, names', ticks') =>
      ({| videoId := videoId; videoUrl := videoUrl;
          md_title := Some ("Video " +:+ videoId);
          viewCount := 0; likeCount := 0; isLive := false;
          md_channelName := None; error := Some e |}, names', ticks')
  end.

(** The loop state: the caches, the records collected and the errors. *)
Definition Acc : Type := State * list VideoMetadata * list string.

(** One turn of the loop over [urls]. *)
Definition processUrl (env : Env) (url : string) (acc : Acc) : Acc :=
  let '(st, metadataList, errors) := acc in
  if negb (DirectTokenExtractor.isValidYouTubeUrl url)
  then (st, metadataList, errors ++ ["Invalid YouTube URL: " +:+ url])
  else
    match DirectTokenExtractor.extractVideoId url with
    | None => (st, metadataList, errors ++ ["Could not extract video ID from URL: " +:+ url])
    | Some videoId =>
        let '(tokens, tokenCache', ticks') :=
          DirectTokenExtractor.JsFile.extractYouTubeTokens (fetchPage env) (clock env) url
            (tokenCache st) (ticks st) in
        match tokens with
        | None =>
            match fetchVideoMetadata env videoId with
            | Some directMetadata =>
                let '(metadata, names, ticks'') :=
                  parseMetadata (clock env) (nullMessage env) (Some directMetadata) url videoId None
                    (channelNameCache st) ticks' in
                ({| tokenCache := tokenCache'; channelNameCache := names; ticks := ticks'' |},
                 metadataList ++ [metadata], errors)
            | None =>
                ({| tokenCache := tokenCache'; channelNameCache := channelNameCache st;
                    ticks := ticks' |},
                 metadataList,
                 errors ++ ["Could not extract metadata for video: " +:+ videoId])
            end
        | Some tokens =>
            let extractedChannelName :=
              if Js.truthy (DirectTokenExtractor.JsFile.channelName tokens)
              then Some (DirectTokenExtractor.JsFile.channelName tokens)
              else None in
            let primarySource :=
              match fetchVideoMetadata env videoId with
              | Some detailedMetadata => detailedMetadata
              | None => emptyData
              end in
            let '(metadata, names, ticks'') :=
              parseMetadata (clock env) (nullMessage env) (Some primarySource) url videoId
                extractedChannelName
                (channelNameCache st) ticks' in
            ({| tokenCache := tokenCache'; channelNameCache := names; ticks := ticks'' |},
             metadataList ++ [metadata], errors)
        end
    end.

Definition getVideoMetadata (env : Env) (urls : list string) (st : State)
  : Response * State :=
  let '(st', metadataList, errors) :=
    fold_left (fun acc url => processUrl env url acc) urls (st, [], []) in
  ({| metadata := metadataList;
      errors := errors;
      totalVideos := length metadataList;
      r_timestamp := clock env (ticks st') |},
   {| tokenCache := tokenCache st'; channelNameCache := channelNameCache st';
      ticks := S (ticks st') |}).

End VideoMetadataJs.

(* ===================================================================== *)
(** ** Sample data for the concrete instances below *)
(* ===================================================================== *)

Module Sample.

Definition video : SourceVideo :=
  {| sv_url := "https://www.youtube.com/watch?v=abcdefghijk";
     sv_id := "abcdefghijk"; sv_title := None |}.

(** A text message with the given ID and time. *)
Definition msg (i : string) (t : Z) : ChatMessage :=
  {| id := i; message := "hello"; authorName := "Anonymous"; authorChannelId := "";
     timestamp := t; userType := regular; profileImage := None; emojis := [];
     sourceVideo := video |}.

Definition iconBadge (it : string) : Badge :=
  {| liveChatAuthorBadgeRenderer :=
       Some {| tooltip := None; accessibilityLabel := None; iconType := Some it |} |}.

Definition tipBadge (t : string) : Badge :=
  {| liveChatAuthorBadgeRenderer :=
       Some {| tooltip := Some t; accessibilityLabel := None; iconType := None |} |}.

Definition entry (l : list ChatMessage) (fetched : Z) : LiveChatTs.CacheEntry :=
  {| LiveChatTs.messages := l; LiveChatTs.lastFetched := fetched;
     LiveChatTs.continuation := None |}.

(** The role that utils/formatters.js gives an author with badges of the
    given icon types. *)
Definition jsRole (iconTypes : list string) : UserType :=
  FormattersJs.ai_userType
    (FormattersJs.extractAuthorInfo
       {| rd_authorName := None; rd_authorExternalChannelId := None;
          rd_authorPhoto := None;
          rd_authorBadges := Some (map iconBadge iconTypes) |}).

(** The role that the normaliser of the raw response gives an author
    with badges of the given tooltips. *)
Definition tsRole (tooltips : list string) : UserType :=
  FormattersTs.userTypeOf (Some (map tipBadge tooltips)).

Definition textItem (n : option string) : RawItem :=
  {| liveChatTextMessageRenderer :=
       Some {| mr_id := n; mr_timestampUsec := None;
               mr_author := {| rd_authorName := None; rd_authorExternalChannelId := None;
                               rd_authorPhoto := None; rd_authorBadges := None |};
               mr_message := Some (MessageString "hi");
               mr_purchaseAmountText := None; mr_headerSubtext := None |};
     liveChatPaidMessageRenderer := None;
     liveChatPaidStickerRenderer := None;
     liveChatMembershipItemRenderer := None |}.

(** A video page in which no continuation token can be found. *)
Definition pageWithoutChat : Page :=
  {| pg_INNERTUBE_API_KEY := Some "key"; pg_INNERTUBE_CLIENT_VERSION := Some "2.2024";
     pg_VISITOR_DATA := None; pg_reloadContinuation := None;
     pg_invalidationContinuation := None; pg_bareContinuation := None;
     pg_title := Some "A video"; pg_ownerChannelName := None; pg_rawHtml := "<html></html>" |}.

(** What the browser evaluates on such a page. *)
Definition evaluatedWithoutChat : Puppeteer.Evaluated :=
  {| Puppeteer.ev_INNERTUBE_API_KEY := Some "key";
     Puppeteer.ev_INNERTUBE_CLIENT_VERSION := Some "2.2024";
     Puppeteer.ev_VISITOR_DATA := None;
     Puppeteer.ev_liveChatToken := "";
     Puppeteer.ev_rawHtml := "<html></html>" |}.

Definition action {Item} (i : Item) : Action Item := {| addChatItemAction_item := Some i |}.

(** A chat response with the given items, in order, and no continuation. *)
Definition chatOf {Item} (items : list Item) : ChatResponse Item :=
  {| continuationContents :=
       Some (Some {| actions := Some (map action items); continuations := None |}) |}.

Definition likeEntity (n : option NumOrStr) (expanded abbreviated : option string)
  : VideoMetadataTs.Mutation :=
  {| VideoMetadataTs.likeCountEntity :=
       Some {| VideoMetadataTs.likeCountIfIndifferentNumber := n;
               VideoMetadataTs.expandedLikeCountIfIndifferent := expanded;
               VideoMetadataTs.likeCountIfIndifferent := abbreviated |} |}.

(** The record that [parseMetadata] builds from a primary response whose
    only content is the given mutation. *)
Definition parsedWith (mutation : VideoMetadataTs.Mutation) : VideoMetadata :=
  fst (VideoMetadataTs.parseMetadata (fun _ => 10000)
         (Some {| VideoMetadataTs.dt_actions := None;
                  VideoMetadataTs.dt_contents := None;
                  VideoMetadataTs.dt_alternate := None;
                  VideoMetadataTs.dt_mutations := Some [Some mutation] |})
         "https://www.youtube.com/watch?v=abcdefghijk" "abcdefghijk"
         VideoMetadataTs.primary None
         {| VideoMetadataTs.channelNameCache := ∅; VideoMetadataTs.ns_ticks := 0 |}).

(** A cursor and the reading of it: five seconds into the sample day. *)
Definition cursor5 : string := "2024-01-01T00:00:05.000Z".

Definition parse5 (s : string) : option Z :=
  if String.eqb s cursor5 then Some 5000 else None.

Definition tsEnv : LiveChatTs.Env :=
  {| LiveChatTs.dateParse := parse5;
     LiveChatTs.clock := fun _ => 10000;
     LiveChatTs.poll := fun _ => Throw "Error: offline" |}.

Definition jsEnv : LiveChatJs.Env :=
  {| LiveChatJs.dateParse := parse5;
     LiveChatJs.clock := fun _ => 10000;
     LiveChatJs.uuidv4 := fun _ => "00000000-0000-4000-8000-000000000000";
     LiveChatJs.fetchPage := fun _ => Throw "Error: offline";
     LiveChatJs.post := fun _ _ => Throw "Error: offline" |}.

Definition urlA : string := "https://www.youtube.com/watch?v=aaaaaaaaaaa".
Definition urlB : string := "https://www.youtube.com/watch?v=bbbbbbbbbbb".

Definition jsEntry (l : list ChatMessage) (fetched : Z) : LiveChatJs.CacheEntry :=
  {| LiveChatJs.messages := l; LiveChatJs.lastFetched := fetched;
     LiveChatJs.continuation := None |}.

(** Two videos, each with two cached messages fetched at time 0. *)
Definition jsWorld : LiveChatJs.World :=
  {| LiveChatJs.messageCache :=
       {[ "aaaaaaaaaaa" := jsEntry [msg "a1" 1000; msg "a2" 3000] 0;
          "bbbbbbbbbbb" := jsEntry [msg "b1" 2000; msg "b2" 4000] 0 ]};
     LiveChatJs.tokenCache := ∅;
     LiveChatJs.counters := {| FormattersJs.ticks := 0; FormattersJs.uuids := 0 |} |}.

(** A late clock, and a cache that holds one video fetched at time 0. *)
Definition lateEnv : LiveChatTs.Env :=
  {| LiveChatTs.dateParse := parse5;
     LiveChatTs.clock := fun _ => 1000000;
     LiveChatTs.poll := fun _ => Throw "Error: offline" |}.

Definition staleWorld : LiveChatTs.World :=
  {| LiveChatTs.messageCache := {[ "bbbbbbbbbbb" := entry [msg "b1" 2000] 0 ]};
     LiveChatTs.ticks := 0 |}.

(** A network on which every request fails. *)
Definition offlineTs : VideoMetadataTs.Env :=
  {| VideoMetadataTs.clock := fun _ => 10000;
     VideoMetadataTs.fetchPage := fun _ => Throw "Error: offline";
     VideoMetadataTs.updated_metadata := fun _ _ => Throw "Error: offline";
     VideoMetadataTs.next := fun _ _ => Throw "Error: offline" |}.

Definition offlineJs : VideoMetadataJs.Env :=
  {| VideoMetadataJs.clock := fun _ => 10000;
     VideoMetadataJs.fetchPage := fun _ => Throw "Error: offline";
     VideoMetadataJs.player := fun _ => Throw "Error: offline";
     VideoMetadataJs.nullMessage :=
       fun field => "Cannot read properties of null (reading '" +:+ field +:+ "')" |}.

Definition emptyTs : VideoMetadataTs.State :=
  {| VideoMetadataTs.tokenCache := ∅; VideoMetadataTs.names := ∅;
     VideoMetadataTs.ticks := 0 |}.

Definition emptyJs : VideoMetadataJs.State :=
  {| VideoMetadataJs.tokenCache := ∅; VideoMetadataJs.channelNameCache := ∅;
     VideoMetadataJs.ticks := 0 |}.

Definition jsOptions (l : list string) (n : Z) : LiveChatJs.LiveChatOptions :=
  {| LiveChatJs.urls := l; LiveChatJs.pageSize := Some n;
     LiveChatJs.after := None; LiveChatJs.messageIds := None |}.

Definition tsOptions (l : list string) (n : option Z) (cursor : option string)
  : LiveChatTs.LiveChatOptions :=
  {| LiveChatTs.urls := l; LiveChatTs.pageSize := n;
     LiveChatTs.after := cursor; LiveChatTs.messageIds := None |}.

End Sample.

(* ===================================================================== *)
(** ** Predicates used to state the properties *)
(* ===================================================================== *)

Module Spec.

(** A message is strictly after the cursor. No cursor, or an empty one,
    lets every message through; a cursor that is not a date lets none. *)
Definition afterCursor (parse : string -> option Z) (after : option string)
    (m : ChatMessage) : Prop :=
  match after with
  | Some a =>
      if Js.truthy a
      then match parse a with
           | Some t => t < timestamp m
           | None => False
           end
      else True
  | None => True
  end.

(** A message is kept by the two client filters. *)
Definition selected (parse : string -> option Z) (after : option string)
    (messageIds : option (list string)) (m : ChatMessage) : Prop :=
  (id m ∉ default [] messageIds) /\ afterCursor parse after m.

#[global] Instance afterCursor_dec parse after m : Decision (afterCursor parse after m).
Proof.
  unfold afterCursor. destruct after as [a|]; [|apply _].
  destruct (Js.truthy a); [|apply _]. destruct (parse a); apply _.
Defined.

#[global] Instance selected_dec parse after messageIds m :
  Decision (selected parse after messageIds m).
Proof. unfold selected. apply _. Defined.

(** Ascending by timestamp. *)
Definition ascending (l : list ChatMessage) : Prop :=
  StronglySorted (fun a b => timestamp a <= timestamp b) l.

(** The last [n] entries of a list. *)
Definition lastn {A} (n : nat) (l : list A) : list A := drop (length l - n) l.

(** The task of a URL waits under the ID of that URL. *)
Definition task_of (url : string) (t : LiveChatTs.Task) : Prop :=
  match t with
  | LiveChatTs.Settled _ => True
  | LiveChatTs.Awaiting url' videoId _ =>
      url' = url /\ LiveChatTs.extractVideoId url = Some videoId
  end.

End Spec.

(* ===================================================================== *)
(** ** Reading of the matcher on single-character classes *)
(* ===================================================================== *)

Module RegexSem.

(** What [p*] does for a class [p] of single characters: it takes
    characters as long as they are in the class, and then gives them back
    one at a time until the rest of the pattern, [K], succeeds. *)
Fixpoint greedy (p : ascii -> bool) (K : list ascii -> option Regex.caps)
    (s : list ascii) : option Regex.caps :=
  match s with
  | a :: s' =>
      if p a
      then match greedy p K s' with
           | Some res => Some res
           | None => K s
           end
      else K s
  | [] => K []
  end.

(** A marker of the ID pattern of utils/directTokenExtractor at the front
    of the input. *)
Definition marker_at (s : list ascii) : Prop :=
  (exists a s', s = Js.chars "youtu" ++ a :: Js.chars "be/" ++ s') \/
  (exists s', s = Js.chars "v/" ++ s') \/
  (exists a s', s = Js.chars "/u/" ++ a :: Js.chars "/" ++ s') \/
  (exists s', s = Js.chars "embed/" ++ s') \/
  (exists s', s = Js.chars "watch?" ++ s').

(** [marker_at] as a test. *)
Definition starts_marker (s : list ascii) : bool :=
  (Js.starts_with (Js.chars "youtu") s && Js.starts_with (Js.chars "be/") (drop 6 s))
  || Js.starts_with (Js.chars "v/") s
  || (Js.starts_with (Js.chars "/u/") s && Js.starts_with (Js.chars "/") (drop 4 s))
  || Js.starts_with (Js.chars "embed/") s
  || Js.starts_with (Js.chars "watch?") s.

(** No marker of the ID pattern begins anywhere in the input. *)
Fixpoint marker_free_chars (s : list ascii) : bool :=
  negb (starts_marker s) &&
  match s with
  | _ :: s' => marker_free_chars s'
  | [] => true
  end.

Definition marker_free (s : string) : bool := marker_free_chars (Js.chars s).

(** [a?] in front of a pattern that cannot fail: the character is taken
    when it is there. *)
Definition strip (a : ascii) (s : list ascii) : list ascii :=
  match s with
  | b :: s' => if Ascii.eqb a b then s' else s
  | [] => []
  end.

(** What is left after the optional [?], [v] and [=] of the ID pattern. *)
Definition after_opts (s : list ascii) : list ascii :=
  strip "=" (strip "v" (strip "?" s)).

(** The run of characters up to the next [#], [&] or [?]. *)
Definition captured (s : string) : string :=
  Js.str (Js.take_while (fun a => negb (Js.one_of "#&?" a)) (after_opts (Js.chars s))).

(** No line terminator in [s]: [.*] runs over all of it. *)
Definition single_line (s : string) : bool :=
  forallb (fun a => negb (Js.is_line_terminator a)) (Js.chars s).

(** No character of [set] in [s]. *)
Definition free_of (set s : string) : bool :=
  forallb (fun a => negb (Js.one_of set a)) (Js.chars s).

(** [s] is empty or begins with a character of [set]. *)
Definition empty_or_first_in (set s : string) : bool :=
  match s with
  | EmptyString => true
  | String a _ => Js.one_of set a
  end.

(** [s] begins with a character of [set]. *)
Definition first_in (set s : string) : bool :=
  match s with
  | EmptyString => false
  | String a _ => Js.one_of set a
  end.

End RegexSem.

(* ===================================================================== *)
(** ** Further sample data *)
(* ===================================================================== *)

Module Examples.

(** A video page with a live chat. *)
Definition pageWithChat : Page :=
  {| pg_INNERTUBE_API_KEY := Some "key"; pg_INNERTUBE_CLIENT_VERSION := Some "2.2024";
     pg_VISITOR_DATA := Some "visitor"; pg_reloadContinuation := Some "reload-token";
     pg_invalidationContinuation := None; pg_bareContinuation := None;
     pg_title := Some "A video"; pg_ownerChannelName := Some "A channel";
     pg_rawHtml := "<html></html>" |}.

(** A network that is down. *)
Definition offline {A} : string -> outcome A := fun _ => Throw "Error: Network Error".

(** A network that answers every poll with one new message. *)
Definition onlineEnv : LiveChatTs.Env :=
  {| LiveChatTs.dateParse := fun _ => None;
     LiveChatTs.clock := fun _ => 10000;
     LiveChatTs.poll := fun _ => Ok ([Sample.msg "n1" 9000], Some "next") |}.

(** A cache with one entry, fetched at time 5000. *)
Definition warmWorld : LiveChatTs.World :=
  {| LiveChatTs.messageCache := {[ "bbbbbbbbbbb" := Sample.entry [Sample.msg "b1" 2000] 5000 ]};
     LiveChatTs.ticks := 0 |}.

(** A text message with its own ID, sent 1.5 seconds into 1970. *)
Definition stampedItem (i text : string) : RawItem :=
  {| liveChatTextMessageRenderer :=
       Some {| mr_id := Some i; mr_timestampUsec := Some "1500000";
               mr_author := {| rd_authorName := Some (TextObject (Some "Ann") None);
                               rd_authorExternalChannelId := Some "UC1";
                               rd_authorPhoto := None; rd_authorBadges := None |};
               mr_message := Some (MessageString text);
               mr_purchaseAmountText := None; mr_headerSubtext := None |};
     liveChatPaidMessageRenderer := None;
     liveChatPaidStickerRenderer := None;
     liveChatMembershipItemRenderer := None |}.

(** An item of a kind that the normalisers do not know. *)
Definition unknownItem : RawItem :=
  {| liveChatTextMessageRenderer := None; liveChatPaidMessageRenderer := None;
     liveChatPaidStickerRenderer := None; liveChatMembershipItemRenderer := None |}.

End Examples.

(* ===================================================================== *)
(** ** The badge rules and well-formed raw items, stated apart from the loops *)
(* ===================================================================== *)

Module BadgeRule.

(** The role that utils/formatters.js reads off one badge, if any. *)
Definition jsRole (badge : Badge) : option UserType :=
  match liveChatAuthorBadgeRenderer badge with
  | Some badgeRenderer =>
      match iconType badgeRenderer with
      | Some it =>
          if String.eqb it "MODERATOR" then Some moderator
          else if String.eqb it "OWNER" then Some owner
          else if String.eqb it "MEMBER" then Some member
          else None
      | None => None
      end
  | None => None
  end.

(** The text of a badge as the raw-response normaliser tests it. *)
Definition tsText (badge : Badge) : option string :=
  match liveChatAuthorBadgeRenderer badge with
  | Some badgeRenderer => Some (Js.toLowerCase (FormattersTs.badgeText badgeRenderer))
  | None => None
  end.

Definition tsOwner (badge : Badge) : bool :=
  match tsText badge with
  | Some text => Js.includes text "owner"
  | None => false
  end.

(** The role of a badge that is not an owner badge. *)
Definition tsRole (badge : Badge) : option UserType :=
  match tsText badge with
  | Some text =>
      if Js.includes text "moderator" then Some moderator
      else if Js.includes text "member" then Some member
      else None
  | None => None
  end.

End BadgeRule.

(** Raw chat items as the normalisers expect them. *)
Module RawItems.

Definition hasRenderer (item : RawItem) : bool :=
  match FormattersJs.rendererOf item with
  | Some _ => true
  | None => false
  end.

(** A time stamp in microseconds that is a number and gives a date. *)
Definition validUsec (usec : string) : bool :=
  Js.truthy usec &&
  match Js.parseIntAuto usec with
  | Some u => match Js.dateOfMillis u 1000 with
              | Some _ => true
              | None => false
              end
  | None => false
  end.

(** A renderer that has its own ID and a usable time stamp. *)
Definition stamped (r : MessageRenderer) : bool :=
  match mr_id r with
  | Some i => Js.truthy i
  | None => false
  end &&
  match mr_timestampUsec r with
  | Some usec => validUsec usec
  | None => false
  end.

Definition wellFormed (item : RawItem) : bool :=
  match FormattersJs.rendererOf item with
  | Some r => stamped r
  | None => true
  end.

End RawItems.

(* ===================================================================== *)
(** ** utils/directTokenExtractor.ts: channel addresses and live videos *)
(* ===================================================================== *)

(** String operations of the channel code. *)
Module JsText.

(** [s.replace(p, r)] for a string pattern [p]: the first occurrence. *)
Fixpoint replace_chars (p r s : list ascii) : list ascii :=
  if Js.starts_with p s then r ++ drop (length p) s
  else match s with
       | [] => []
       | a :: s' => a :: replace_chars p r s'
       end.

Definition replace (s p r : string) : string :=
  Js.str (replace_chars (Js.chars p) (Js.chars r) (Js.chars s)).

(** [s.replace(/\/?$/, r)]: a slash at the very end is replaced, and
    without one [r] is added at the end. *)
Fixpoint replaceTrailingSlash_chars (s r : list ascii) : list ascii :=
  match s with
  | [] => r
  | [a] => if Ascii.eqb a "/" then r else a :: r
  | a :: s' => a :: replaceTrailingSlash_chars s' r
  end.

Definition replaceTrailingSlash (s r : string) : string :=
  Js.str (replaceTrailingSlash_chars (Js.chars s) (Js.chars r)).

(** [s.endsWith(c)] for one character. *)
Definition endsWithChar (s : string) (c : ascii) : bool :=
  match last (Js.chars s) with
  | Some a => Ascii.eqb a c
  | None => false
  end.

End JsText.

Module Channel.
Import Regex.

(** [[\w-]] and [[\w.-]] *)
Definition word_dash (a : ascii) : bool := (Js.is_word a || Ascii.eqb a "-")%bool.
Definition word_dot_dash (a : ascii) : bool :=
  (Js.is_word a || Ascii.eqb a "." || Ascii.eqb a "-")%bool.

(** The text before the captured group and the class of the group, for
    each of the four patterns of [extractChannelId], in order. *)
Definition shapes : list (string * (ascii -> bool)) :=
  [ ("youtube.com/channel/", word_dash);       (* /channel/UC... *)
    ("youtube.com/@", word_dot_dash);          (* /@username *)
    ("youtube.com/c/", word_dash);             (* /c/channelname *)
    ("youtube.com/user/", word_dash) ].        (* /user/username *)

Definition pattern (shape : string * (ascii -> bool)) : re :=
  Seqs [ Lit shape.1; Group 1 (Plus (Cls shape.2)) ].

Definition patterns : list re := map pattern shapes.

(** The loop over the patterns: the first one that matches with a group
    that is not empty. *)
Fixpoint firstMatch (patterns : list re) (url : string) : option string :=
  match patterns with
  | [] => None
  | pattern :: rest =>
      match exec pattern url with
      | Some c =>
          match group 1 c with
          | Some g => if Js.truthy g then Some g else firstMatch rest url
          | None => firstMatch rest url
          end
      | None => firstMatch rest url
      end
  end.

Definition extractChannelId (url : string) : option string := firstMatch patterns url.

Definition isValidYouTubeChannelUrl (url : string) : bool :=
  if negb (Js.truthy url) then false
  else match extractChannelId url with
       | Some _ => true
       | None => false
       end.

Record ChannelLiveVideo : Type := {
  videoId : string;
  videoUrl : string;
  title : string;
  thumbnailUrl : string;
  viewCount : option Z;          (* [None] is NaN *)
  channelName : string
}.

(** [badge.metadataBadgeRenderer]: its [style] and [label]. *)
Record MetadataBadge : Type := {
  mb_style : option string;
  mb_label : option string
}.

Record VideoBadge : Type := {
  metadataBadgeRenderer : option MetadataBadge
}.

(** [overlay.thumbnailOverlayTimeStatusRenderer]: its [style] and
    [text.simpleText]. *)
Record TimeStatus : Type := {
  ts_style : option string;
  ts_simpleText : option string
}.

Record Overlay : Type := {
  thumbnailOverlayTimeStatusRenderer : option TimeStatus
}.

Record ViewCountText : Type := {
  vct_runs : option (list (option string));    (* runs[i].text *)
  vct_simpleText : option string
}.

Record VideoTitle : Type := {
  vt_simpleText : option string;
  vt_run0 : option string;                     (* runs[0].text *)
  vt_label : option string                     (* accessibility.accessibilityData.label *)
}.

Record VideoRenderer : Type := {
  vr_videoId : option string;
  vr_badges : option (list VideoBadge);
  vr_thumbnailOverlays : option (list Overlay);
  vr_viewCountText : option ViewCountText;
  vr_title : option VideoTitle;
  vr_thumbnails : option (list string)         (* thumbnail.thumbnails[i].url *)
}.

Record GridItem : Type := {
  gridVideoRenderer : option VideoRenderer;
  videoRenderer : option VideoRenderer
}.

(** One entry of [itemSectionRenderer.contents]. *)
Record SectionItem : Type := {
  gridRenderer_items : option (list GridItem);       (* gridRenderer.items *)
  shelfRenderer_items : option (list GridItem)       (* shelfRenderer.content.gridRenderer.items *)
}.

Record Section_ : Type := {
  itemSectionRenderer_contents : option (list SectionItem)
}.

Record TabContent : Type := {
  sectionListRenderer_contents : option (list Section_)
}.

Record TabRenderer : Type := {
  tr_title : option string;
  tr_selected : bool;                           (* truthiness of [selected] *)
  tr_params : option string;                    (* endpoint.browseEndpoint.params *)
  tr_content : option TabContent
}.

Record Tab : Type := {
  tabRenderer : option TabRenderer
}.

(** [s?.toLowerCase().includes(p)], [undefined] counted as false. *)
Definition lowerIncludes (o : option string) (p : string) : bool :=
  match o with
  | Some s => Js.includes (Js.toLowerCase s) p
  | None => false
  end.

(** [s?.toLowerCase() === p] *)
Definition lowerIs (o : option string) (p : string) : bool :=
  match o with
  | Some s => String.eqb (Js.toLowerCase s) p
  | None => false
  end.

(** [o?.includes(p)], [undefined] counted as false. *)
Definition includes_ (o : option string) (p : string) : bool :=
  match o with
  | Some s => Js.includes s p
  | None => false
  end.

Definition titleIs (o : option string) (t : string) : bool :=
  match o with
  | Some s => String.eqb s t
  | None => false
  end.

(** Helper function to find the tab renderer containing videos: four
    passes over the tabs; the result is the [content] of the tab that is
    chosen, which may be missing. *)
Definition findTabRendererWithVideos (tabs : list Tab) : option TabContent :=
  let selectedWithContent (tab : Tab) : bool :=
    match tabRenderer tab with
    | Some r => tr_selected r && match tr_content r with Some _ => true | None => false end
    | None => false
    end in
  let liveTab (tab : Tab) : bool :=
    match tabRenderer tab with
    | Some r =>
        titleIs (tr_title r) "Live" || titleIs (tr_title r) "LIVE" ||
        includes_ (tr_params r) "EgJAAQ%3D%3D" ||
        (titleIs (tr_title r) "Videos" && includes_ (tr_params r) "live")
    | None => false
    end in
  let videosTab (tab : Tab) : bool :=
    match tabRenderer tab with
    | Some r => titleIs (tr_title r) "Videos"
    | None => false
    end in
  let withContent (tab : Tab) : bool :=
    match tabRenderer tab with
    | Some r => match tr_content r with Some _ => true | None => false end
    | None => false
    end in
  let contentOf (tab : Tab) : option TabContent :=
    match tabRenderer tab with
    | Some r => tr_content r
    | None => None
    end in
  match List.find selectedWithContent tabs with
  | Some tab => contentOf tab
  | None =>
      match List.find liveTab tabs with
      | Some tab => contentOf tab
      | None =>
          match List.find videosTab tabs with
          | Some tab => contentOf tab
          | None =>
              match List.find withContent tabs with
              | Some tab => contentOf tab
              | None => None
              end
          end
      end
  end.

Definition is_count_char (a : ascii) : bool := (Js.is_digit a || Ascii.eqb a ",")%bool.

(** Function to extract number from view count text: the first run of
    digits and commas, read without the commas; 0 without such a run. *)
Definition parseViewCount (text : string) : option Z :=
  if negb (Js.truthy text) then Some 0
  else
    match Js.take_while is_count_char
            (Js.drop_while (fun a => negb (is_count_char a)) (Js.chars text)) with
    | [] => Some 0
    | run => Js.parseInt (Js.str (filter (fun a => a <> ","%char) run))
    end.

(** The four ways to detect a live video. *)
Definition isLive (renderer : VideoRenderer) : bool :=
  let badgesLive :=
    existsb (fun badge =>
      match metadataBadgeRenderer badge with
      | Some b => lowerIncludes (mb_style b) "live" || lowerIncludes (mb_label b) "live"
      | None => false
      end) (default [] (vr_badges renderer)) in
  let overlayLive :=
    existsb (fun overlay =>
      match thumbnailOverlayTimeStatusRenderer overlay with
      | Some o => lowerIs (ts_style o) "live" || lowerIs (ts_simpleText o) "live"
      | None => false
      end) (default [] (vr_thumbnailOverlays renderer)) in
  let viewCountLive :=
    match vr_viewCountText renderer with
    | Some v =>
        match vct_runs v with
        | Some runs => existsb (fun text => lowerIncludes text "watching") runs
        | None => false
        end || lowerIncludes (vct_simpleText v) "watching"
    | None => false
    end in
  let accessibilityLive :=
    match vr_title renderer with
    | Some t => lowerIncludes (vt_label t) "live"
    | None => false
    end in
  badgesLive || overlayLive || viewCountLive || accessibilityLive.

(** The view count of a live video: the first run that mentions
    [watching], else the simple text. *)
Definition viewCountOf (renderer : VideoRenderer) : option Z :=
  let fromRuns :=
    match vr_viewCountText renderer with
    | Some v =>
        match List.find (fun text => includes_ text "watching") (default [] (vct_runs v)) with
        | Some text => parseViewCount (default "" text)
        | None => Some 0
        end
    | None => Some 0
    end in
  match fromRuns with
  | Some 0 =>
      match vr_viewCountText renderer with
      | Some v =>
          match VideoMetadataTs.truthyField (vct_simpleText v) with
          | Some simpleText => parseViewCount simpleText
          | None => fromRuns
          end
      | None => fromRuns
      end
  | _ => fromRuns
  end.

(** The body of the loop over the grid items. *)
Definition addVideo (channelName : string) (videos : list ChannelLiveVideo)
    (gridItem : GridItem) : list ChannelLiveVideo :=
  let renderer :=
    match gridVideoRenderer gridItem with
    | Some r => Some r
    | None => videoRenderer gridItem
    end in
  match renderer with
  | None => videos
  | Some renderer =>
      if negb (isLive renderer) then videos
      else
        match VideoMetadataTs.truthyField (vr_videoId renderer) with
        | None => videos
        | Some videoId0 =>
            let videoUrl0 := "https://www.youtube.com/watch?v=" +:+ videoId0 in
            let title0 :=
              match vr_title renderer with
              | Some t =>
                  match VideoMetadataTs.truthyField (vt_simpleText t) with
                  | Some s => s
                  | None => default "Live Stream" (VideoMetadataTs.truthyField (vt_run0 t))
                  end
              | None => "Live Stream"
              end in
            let thumbnailUrl0 :=
              match vr_thumbnails renderer with
              | Some thumbnails => default "" (last thumbnails)
              | None => ""
              end in
            if existsb (fun v => String.eqb (videoId v) videoId0) videos then videos
            else videos ++ [ {| videoId := videoId0; videoUrl := videoUrl0; title := title0;
                                thumbnailUrl := thumbnailUrl0;
                                viewCount := viewCountOf renderer;
                                channelName := channelName |} ]
        end
  end.

(** Helper function to extract live videos from tab content: the loops
    over the sections, their items and the grid items of each. *)
Definition extractLiveVideosFromTab (tabContent : TabContent) (channelName : string)
  : list ChannelLiveVideo :=
  let overItem (videos : list ChannelLiveVideo) (item : SectionItem) :=
    fold_left (addVideo channelName)
      (default [] (gridRenderer_items item) ++ default [] (shelfRenderer_items item)) videos in
  let overSection (videos : list ChannelLiveVideo) (section : Section_) :=
    fold_left overItem (default [] (itemSectionRenderer_contents section)) videos in
  fold_left overSection (default [] (sectionListRenderer_contents tabContent)) [].

(** What the patterns and [JSON.parse] find in a fetched channel page:
    the [og:title], and the initial data: no match ([None]), a match that
    does not parse ([Some None]), or the tabs of the parsed object, an
    absent list counted as empty. *)
Record ChannelPage : Type := {
  cp_ogTitle : option string;
  cp_initialData : option (option (list Tab))
}.

Record CacheEntry : Type := {
  videos : list ChannelLiveVideo;
  ce_timestamp : Z
}.

(** The channel cache and the number of clock readings. *)
Record State : Type := {
  channelCache : gmap string CacheEntry;
  ticks : nat
}.

Record Result : Type := {
  r_videos : list ChannelLiveVideo;
  r_error : option string
}.

(** Cache expiration time (5 minutes) *)
Definition CHANNEL_CACHE_EXPIRATION : Z := 5 * 60 * 1000.

(** Determine the URL to fetch based on the channel URL format. *)
Definition liveUrlOf (channelUrl : string) : string :=
  if Js.includes channelUrl "/channel/"
  then JsText.replaceTrailingSlash channelUrl "/streams"
  else if Js.includes channelUrl "/c/" || Js.includes channelUrl "/@"
  then JsText.replaceTrailingSlash channelUrl "/live"
  else JsText.replaceTrailingSlash channelUrl "" +:+ "/live".

(** The channel name of the page: the title without [ - YouTube]. *)
Definition channelNameOf (page : ChannelPage) : string :=
  match VideoMetadataTs.truthyField (cp_ogTitle page) with
  | Some t => VideoMetadataTs.trim (JsText.replace t " - YouTube" "")
  | None => ""
  end.

(** [getChannelLiveVideos(channelUrl)]; [fetch] is the page request. *)
Definition getChannelLiveVideos (fetch : string -> outcome ChannelPage) (clock : nat -> Z)
    (channelUrl : string) (st : State) : Result * State :=
  match extractChannelId channelUrl with
  | None => ({| r_videos := []; r_error := Some "Invalid YouTube channel URL" |}, st)
  | Some channelId =>
      let fresh (ticks0 : nat) :=
        match fetch (liveUrlOf channelUrl) with
        | Throw e =>
            ({| r_videos := []; r_error := Some ("Failed to fetch live videos: " +:+ e) |},
             {| channelCache := channelCache st; ticks := ticks0 |})
        | Ok page =>
            match cp_initialData page with
            | None =>
                ({| r_videos := [];
                    r_error := Some "Failed to extract data from channel page" |},
                 {| channelCache := channelCache st; ticks := ticks0 |})
            | Some None =>
                ({| r_videos := []; r_error := Some "Failed to parse channel data" |},
                 {| channelCache := channelCache st; ticks := ticks0 |})
            | Some (Some tabs) =>
                match findTabRendererWithVideos tabs with
                | None =>
                    ({| r_videos := [];
                        r_error := Some "No videos tab found on channel page" |},
                     {| channelCache := channelCache st; ticks := ticks0 |})
                | Some tabContent =>
                    let liveVideos := extractLiveVideosFromTab tabContent (channelNameOf page) in
                    ({| r_videos := liveVideos; r_error := None |},
                     {| channelCache :=
                          <[channelId := {| videos := liveVideos;
                                            ce_timestamp := clock ticks0 |}]> (channelCache st);
                        ticks := S ticks0 |})
                end
            end
        end in
      match channelCache st !! channelId with
      | Some cached =>
          if clock (ticks st) - ce_timestamp cached <? CHANNEL_CACHE_EXPIRATION
          then ({| r_videos := videos cached; r_error := None |},
                {| channelCache := channelCache st; ticks := S (ticks st) |})
          else fresh (S (ticks st))
      | None =>
          (* an inherited name is found in the cache object; the clock is
             read, and the age, NaN, is not below the expiration *)
          if Js.inherited channelId then fresh (S (ticks st)) else fresh (ticks st)
      end
  end.

End Channel.

(** The rule of [extractChannelId] without patterns. *)
Module ChannelRule.

(** The leftmost place where [marker] is followed by at least one
    character of the class, and the longest run of the class there. *)
Fixpoint idAfter (marker : list ascii) (p : ascii -> bool) (s : list ascii)
  : option (list ascii) :=
  let here :=
    if Js.starts_with marker s
    then match Js.take_while p (drop (length marker) s) with
         | [] => None
         | run => Some run
         end
    else None in
  match here with
  | Some run => Some run
  | None =>
      match s with
      | [] => None
      | _ :: s' => idAfter marker p s'
      end
  end.

Fixpoint firstShape (shapes : list (string * (ascii -> bool))) (url : string)
  : option string :=
  match shapes with
  | [] => None
  | shape :: rest =>
      match idAfter (Js.chars shape.1) shape.2 (Js.chars url) with
      | Some run => Some (Js.str run)
      | None => firstShape rest url
      end
  end.

End ChannelRule.

(** Sample channel pages. *)
Module ChannelExamples.

(** A grid item for a video with the given ID, live by its badge or not. *)
Definition gridVideo (i : string) (live : bool) : Channel.GridItem :=
  {| Channel.gridVideoRenderer :=
       Some {| Channel.vr_videoId := Some i;
               Channel.vr_badges :=
                 Some [ {| Channel.metadataBadgeRenderer :=
                             Some {| Channel.mb_style :=
                                       Some (if live then "BADGE_STYLE_TYPE_LIVE_NOW"
                                             else "BADGE_STYLE_TYPE_SIMPLE");
                                     Channel.mb_label := None |} |} ];
               Channel.vr_thumbnailOverlays := None;
               Channel.vr_viewCountText :=
                 Some {| Channel.vct_runs :=
                           Some (if live then [Some "1,234"; Some " watching"]
                                 else [Some "5,678 views"]);
                         Channel.vct_simpleText := None |};
               Channel.vr_title :=
                 Some {| Channel.vt_simpleText := Some "A stream"; Channel.vt_run0 := None;
                         Channel.vt_label := None |};
               Channel.vr_thumbnails := Some ["small.jpg"; "large.jpg"] |};
     Channel.videoRenderer := None |}.

(** A tab content with one section that holds the given grid items. *)
Definition tabOf (items : list Channel.GridItem) : Channel.TabContent :=
  {| Channel.sectionListRenderer_contents :=
       Some [ {| Channel.itemSectionRenderer_contents :=
                   Some [ {| Channel.gridRenderer_items := Some items;
                             Channel.shelfRenderer_items := None |} ] |} ] |}.

(** A channel page whose selected tab holds the given grid items. *)
Definition channelPage (items : list Channel.GridItem) : Channel.ChannelPage :=
  {| Channel.cp_ogTitle := Some "A channel - YouTube";
     Channel.cp_initialData :=
       Some (Some [ {| Channel.tabRenderer :=
                         Some {| Channel.tr_title := Some "Live"; Channel.tr_selected := true;
                                 Channel.tr_params := None;
                                 Channel.tr_content := Some (tabOf items) |} |} ]) |}.

End ChannelExamples.

(* ===================================================================== *)
(** ** utils/formatters.ts: the normaliser of the raw chat response *)
(* ===================================================================== *)

Module NormaliserTs.

(** [run.emoji]: its [emojiId], the URLs of [image.thumbnails] and
    [image.accessibility.accessibilityData.label]. *)
Record Emoji : Type := {
  em_emojiId : option string;
  em_thumbnails : option (list string);
  em_label : option string
}.

Record MessageRun : Type := {
  mr_text : option string;
  mr_emoji : option Emoji
}.

(** The fields of [liveChatTextMessageRenderer] that are read. *)
Record Renderer : Type := {
  rn_id : option string;
  rn_timestampUsec : option string;
  rn_authorName : option string;               (* authorName.simpleText *)
  rn_authorExternalChannelId : option string;
  rn_runs : option (list MessageRun);          (* message.runs *)
  rn_authorPhoto : option (list string);       (* authorPhoto.thumbnails[i].url *)
  rn_authorBadges : option (list Badge)
}.

(** [addChatItemAction.item] *)
Record Item : Type := {
  liveChatTextMessageRenderer : option Renderer
}.

(** The decimal notation of an index. *)
Fixpoint decimal_digits (fuel n : nat) (acc : list ascii) : list ascii :=
  match fuel with
  | O => acc
  | S fuel' =>
      let acc' := ascii_of_nat (48 + n mod 10) :: acc in
      if Nat.eqb (n / 10) 0 then acc' else decimal_digits fuel' (n / 10) acc'
  end.

Definition decimal (n : nat) : string := Js.str (decimal_digits (S n) n []).

(** The body of [runs.forEach((run, index) => ...)]: the text so far and
    the emojis so far. *)
Definition processRun (index : nat) (run : MessageRun) (acc : string * list EmojiObject)
  : string * list EmojiObject :=
  let '(messageText, emojis) := acc in
  match VideoMetadataTs.truthyField (mr_text run) with
  | Some text => (messageText +:+ text, emojis)
  | None =>
      match mr_emoji run with
      | Some emoji =>
          let emojiId0 := Js.or_else (em_emojiId emoji) ("emoji-" +:+ decimal index) in
          let messageText := messageText +:+ emojiId0 in
          match em_thumbnails emoji with
          | Some (url :: _) =>
              (messageText,
               emojis ++ [ {| emoji_url := url;
                              emoji_label := Js.or_else (em_label emoji) emojiId0;
                              emojiId := emojiId0 |} ])
          | _ => (messageText, emojis)
          end
      | None => acc
      end
  end.

Fixpoint processRuns (index : nat) (runs : list MessageRun) (acc : string * list EmojiObject)
  : string * list EmojiObject :=
  match runs with
  | [] => acc
  | run :: rest => processRuns (S index) rest (processRun index run acc)
  end.

(** Message text and emojis of a renderer. *)
Definition content (renderer : Renderer) : string * list EmojiObject :=
  match rn_runs renderer with
  | Some runs => processRuns 0 runs ("", [])
  | None => ("", [])
  end.

(** Skip empty messages: no text but white space, and no emoji. *)
Definition isEmpty (renderer : Renderer) : bool :=
  negb (Js.truthy (VideoMetadataTs.trim (content renderer).1)) &&
  match (content renderer).2 with
  | [] => true
  | _ :: _ => false
  end.

(** Create timestamp (use current time if not available);
    [toISOString] of a time that is not a date throws a RangeError,
    whose text is the engine's: nothing below depends on it. *)
Definition timestampOf (clock : nat -> Z) (renderer : Renderer) (c : FormattersJs.Counters)
  : outcome Z * FormattersJs.Counters :=
  match VideoMetadataTs.truthyField (rn_timestampUsec renderer) with
  | Some usec =>
      match Js.parseIntAuto usec with
      | Some u =>
          match Js.dateOfMillis u 1000 with
          | Some ms => (Ok ms, c)
          | None => (Throw "RangeError: Invalid time value", c)
          end
      | None => (Throw "RangeError: Invalid time value", c)
      end
  | None => (Ok (clock (FormattersJs.ticks c)), FormattersJs.tick c)
  end.

(** Extract profile image URL (use larger size if available). *)
Definition profileImageOf (renderer : Renderer) : option string :=
  match rn_authorPhoto renderer with
  | Some thumbnails =>
      match VideoMetadataTs.truthyField (thumbnails !! 1%nat) with
      | Some url => Some url
      | None => thumbnails !! 0%nat
      end
  | None => None
  end.

(** One turn of the loop over the actions: [None] when the action is
    skipped. *)
Definition formatAction (clock : nat -> Z) (uuidv4 : nat -> string)
    (source : SourceVideo) (action : Action Item) (c : FormattersJs.Counters)
  : outcome (option ChatMessage) * FormattersJs.Counters :=
  let renderer :=
    match addChatItemAction_item action with
    | Some item => liveChatTextMessageRenderer item
    | None => None
    end in
  match renderer with
  | None => (Ok None, c)
  | Some renderer =>
      if isEmpty renderer then (Ok None, c)
      else
        match timestampOf clock renderer c with
        | (Throw e, c) => (Throw e, c)
        | (Ok timestamp0, c) =>
            let '(id0, c) :=
              match VideoMetadataTs.truthyField (rn_id renderer) with
              | Some i => (i, c)
              | None => (uuidv4 (FormattersJs.uuids c), FormattersJs.fresh c)
              end in
            (Ok (Some {| id := id0;
                         message := (content renderer).1;
                         authorName := Js.or_else (rn_authorName renderer) "Anonymous";
                         authorChannelId := Js.or_else (rn_authorExternalChannelId renderer) "";
                         timestamp := timestamp0;
                         userType := FormattersTs.userTypeOf (rn_authorBadges renderer);
                         profileImage := profileImageOf renderer;
                         emojis := (content renderer).2;
                         sourceVideo := source |}), c)
        end
  end.

Fixpoint formatActions (clock : nat -> Z) (uuidv4 : nat -> string)
    (source : SourceVideo) (acts : list (Action Item)) (c : FormattersJs.Counters)
  : outcome (list ChatMessage) * FormattersJs.Counters :=
  match acts with
  | [] => (Ok [], c)
  | action :: rest =>
      match formatAction clock uuidv4 source action c with
      | (Throw e, c) => (Throw e, c)
      | (Ok formatted, c) =>
          match formatActions clock uuidv4 source rest c with
          | (Throw e, c) => (Throw e, c)
          | (Ok others, c) =>
              (Ok match formatted with
                  | Some m => m :: others
                  | None => others
                  end, c)
          end
      end
  end.

(** [formatChatMessages(data, videoUrl)] *)
Definition formatChatMessages (clock : nat -> Z) (uuidv4 : nat -> string)
    (data : option (ChatResponse Item)) (videoUrl : string) (c : FormattersJs.Counters)
  : outcome (list ChatMessage) * FormattersJs.Counters :=
  let acts :=
    match data with
    | Some d =>
        match continuationContents d with
        | Some (Some liveChatContinuation) => actions liveChatContinuation
        | _ => None
        end
    | None => None
    end in
  match acts with
  | None => (Ok [], c)
  | Some acts =>
      let videoId := default "unknown" (DirectTokenExtractor.extractVideoId videoUrl) in
      formatActions clock uuidv4 {| sv_url := videoUrl; sv_id := videoId; sv_title := None |}
        acts c
  end.

(** The token of one entry of [continuations], by the three tests. *)
Definition tokenOf (c : ContinuationData) : option string :=
  match VideoMetadataTs.truthyField (invalidationContinuationData c) with
  | Some t => Some t
  | None =>
      match VideoMetadataTs.truthyField (timedContinuationData c) with
      | Some t => Some t
      | None => VideoMetadataTs.truthyField (liveChatReplayContinuationData c)
      end
  end.

Fixpoint firstToken (continuations : list ContinuationData) : option string :=
  match continuations with
  | [] => None
  | c :: rest =>
      match tokenOf c with
      | Some t => Some t
      | None => firstToken rest
      end
  end.

(** [extractContinuationToken(data)] *)
Definition extractContinuationToken {A} (data : option (ChatResponse A)) : option string :=
  match data with
  | Some d =>
      match continuationContents d with
      | Some (Some liveChatContinuation) =>
          match continuations liveChatContinuation with
          | Some continuations => firstToken continuations
          | None => None
          end
      | _ => None
      end
  | None => None
  end.

End NormaliserTs.

(** The chat request of utils/directTokenExtractor.ts. *)
Module ChatRequestTs.

(** The loop over [continuations]: the first entry that has an
    invalidation token or a timed token. *)
Fixpoint scan (continuations : list ContinuationData) : option string :=
  match continuations with
  | [] => None
  | cont :: rest =>
      match VideoMetadataTs.truthyField (invalidationContinuationData cont) with
      | Some t => Some t
      | None =>
          match VideoMetadataTs.truthyField (timedContinuationData cont) with
          | Some t => Some t
          | None => scan rest
          end
      end
  end.

Record ChatResult (A : Type) : Type := {
  cr_data : option (ChatResponse A);
  cr_continuation : option string
}.
Arguments cr_data {A} _.
Arguments cr_continuation {A} _.

(** [fetchLiveChatMessages(videoUrl, tokens)]; [post] is the request,
    whose body may be missing. *)
Definition fetchLiveChatMessages {A}
    (post : DirectTokenExtractor.TsFile.Tokens -> outcome (option (ChatResponse A)))
    (videoUrl : string) (tokens : DirectTokenExtractor.TsFile.Tokens)
  : outcome (ChatResult A) :=
  if negb (Js.truthy (DirectTokenExtractor.TsFile.apiKey tokens)) ||
     negb (Js.truthy (DirectTokenExtractor.TsFile.clientVersion tokens)) ||
     negb (Js.truthy (DirectTokenExtractor.TsFile.continuationToken tokens))
  then Throw "Error: Missing required tokens for live chat fetch"
  else
    match post tokens with
    | Throw e => Throw e
    | Ok data =>
        let continuation :=
          match data with
          | Some d =>
              match continuationContents d with
              | Some (Some liveChatContinuation) =>
                  match continuations liveChatContinuation with
                  | Some continuations => scan continuations
                  | None => None
                  end
              | _ => None
              end
          | None => None
          end in
        Ok {| cr_data := data; cr_continuation := continuation |}
    end.

End ChatRequestTs.

(** What the loop of the raw-response normaliser does with an action. *)
Module NormaliserRule.

Definition rendererOf (action : Action NormaliserTs.Item) : option NormaliserTs.Renderer :=
  match addChatItemAction_item action with
  | Some item => NormaliserTs.liveChatTextMessageRenderer item
  | None => None
  end.



End NormaliserRule.

(** Sample actions of a raw chat response. *)
Module ChatExamples.



(** A response with the given actions and continuations. *)
Definition response (acts : list (Action NormaliserTs.Item))
    (conts : list ContinuationData) : option (ChatResponse NormaliserTs.Item) :=
  Some {| continuationContents :=
            Some (Some {| actions := Some acts; continuations := Some conts |}) |}.

Definition invalidation (t : string) : ContinuationData :=
  {| invalidationContinuationData := Some t; timedContinuationData := None;
     liveChatReplayContinuationData := None |}.

Definition replay (t : string) : ContinuationData :=
  {| invalidationContinuationData := None; timedContinuationData := None;
     liveChatReplayContinuationData := Some t |}.

End ChatExamples.

(** What the two aggregations work on. *)
Module LiveChatRule.

(** The results of the per-URL tasks of a call of the cursor-based
    [getLiveChat], in request order. *)
Definition taskResults (env : LiveChatTs.Env) (options : LiveChatTs.LiveChatOptions)
    (w : LiveChatTs.World) : list (option (list ChatMessage)) :=
  let validUrls := List.filter Puppeteer.isValidYouTubeUrl (LiveChatTs.urls options) in
  (LiveChatTs.resumeAll env (LiveChatTs.startAll env validUrls w []).1.1
     (LiveChatTs.startAll env validUrls w []).1.2
     (LiveChatTs.startAll env validUrls w []).2).1.1.

(** The cached messages of the video of a URL, for the snapshot
    [getLiveChat]; none for a URL that fails a URL test or is not cached. *)
Definition cachedOf (cache : gmap string LiveChatJs.CacheEntry) (url : string)
  : list ChatMessage :=
  if DirectTokenExtractor.isValidYouTubeUrl url
  then match DirectTokenExtractor.extractVideoId url with
       | Some videoId =>
           match cache !! videoId with
           | Some entry => LiveChatJs.messages entry
           | None => []
           end
       | None => []
       end
  else [].

(** Every URL of the list that passes the two URL tests has a cache entry
    that is less than 5 minutes old at every clock reading. *)
Definition allCached (env : LiveChatJs.Env) (l : list string)
    (cache : gmap string LiveChatJs.CacheEntry) : Prop :=
  forall url videoId, url ∈ l ->
    DirectTokenExtractor.isValidYouTubeUrl url = true ->
    DirectTokenExtractor.extractVideoId url = Some videoId ->
    exists e, cache !! videoId = Some e /\
              forall n, LiveChatJs.clock env n - LiveChatJs.lastFetched e
                        < LiveChatJs.CACHE_EXPIRATION.

End LiveChatRule.

(** A chat whose upstream order is not the order of the time stamps. *)
Module UnsortedChat.

Definition timedItem (i usec : string) : RawItem :=
  {| liveChatTextMessageRenderer :=
       Some {| mr_id := Some i; mr_timestampUsec := Some usec;
               mr_author := {| rd_authorName := None; rd_authorExternalChannelId := None;
                               rd_authorPhoto := None; rd_authorBadges := None |};
               mr_message := Some (MessageString "hi");
               mr_purchaseAmountText := None; mr_headerSubtext := None |};
     liveChatPaidMessageRenderer := None;
     liveChatPaidStickerRenderer := None;
     liveChatMembershipItemRenderer := None |}.

(** The chat endpoint answers with a message of second 3 followed by a
    message of second 1. *)
Definition env : LiveChatJs.Env :=
  {| LiveChatJs.dateParse := fun _ => None;
     LiveChatJs.clock := fun _ => 10000;
     LiveChatJs.uuidv4 := fun _ => "00000000-0000-4000-8000-000000000000";
     LiveChatJs.fetchPage := fun _ => Ok Examples.pageWithChat;
     LiveChatJs.post := fun _ _ =>
       Ok (Some (Sample.chatOf [timedItem "x" "3000000"; timedItem "y" "1000000"])) |}.

Definition emptyWorld : LiveChatJs.World :=
  {| LiveChatJs.messageCache := ∅; LiveChatJs.tokenCache := ∅;
     LiveChatJs.counters := {| FormattersJs.ticks := 0; FormattersJs.uuids := 0 |} |}.

Definition request (n : Z) (ids : option (list string)) : LiveChatJs.LiveChatOptions :=
  {| LiveChatJs.urls := [Sample.urlA]; LiveChatJs.pageSize := Some n;
     LiveChatJs.after := None; LiveChatJs.messageIds := ids |}.

(** The cache after a first call with page size 2. *)
Definition afterFirstCall : LiveChatJs.World :=
  (LiveChatJs.getLiveChat env (request 2 None) emptyWorld).2.

End UnsortedChat.

(** A chat whose upstream response lists three messages from the oldest to
    the newest. *)
Module ChronologicalChat.

Definition env : LiveChatJs.Env :=
  {| LiveChatJs.dateParse := fun _ => None;
     LiveChatJs.clock := fun _ => 10000;
     LiveChatJs.uuidv4 := fun _ => "00000000-0000-4000-8000-000000000000";
     LiveChatJs.fetchPage := fun _ => Ok Examples.pageWithChat;
     LiveChatJs.post := fun _ _ =>
       Ok (Some (Sample.chatOf [UnsortedChat.timedItem "x" "1000000";
                                UnsortedChat.timedItem "y" "2000000";
                                UnsortedChat.timedItem "z" "3000000"])) |}.

(** The call for one video with page size 2 and an empty cache. *)
Definition call : LiveChatJs.Response * LiveChatJs.World :=
  LiveChatJs.getLiveChat env (UnsortedChat.request 2 None) UnsortedChat.emptyWorld.

End ChronologicalChat.

(** The two kinds of error that a record of api/videoMetadata.ts can
    carry. *)
Module MetadataRule.

(** The error of a record that the [catch] of the per-URL task has made. *)
Definition fetchFailed (m : VideoMetadata) : bool :=
  match error m with
  | Some e => Js.starts_with (Js.chars "Failed to fetch: ") (Js.chars e)
  | None => false
  end.

(** The record that the [catch] of [parseMetadata] answers with. *)
Definition parseFailed (m : VideoMetadata) : Prop :=
  error m = Some "Failed to parse metadata".

End MetadataRule.

(* ===================================================================== *)
(** * Properties *)
(* ===================================================================== *)

(** ** Lists: [slice] and the stable sort *)

Section SliceFacts.
Context {A : Type}.
Implicit Types l : list A.

Lemma slice_prefix l (n : Z) :
  0 <= n -> Js.slice l 0 (Some n) = take (Z.to_nat n) l.
Proof.
  intros Hn. unfold Js.slice, Js.rel_index. simpl.
  destruct (n <? 0) eqn:E; [apply Z.ltb_lt in E; lia|].
  replace (Z.to_nat (0 `min` Z.of_nat (length l))) with 0%nat by lia.
  rewrite drop_0, Nat.sub_0_r.
  destruct (Z.le_ge_cases n (Z.of_nat (length l))) as [Hle|Hge].
  - rewrite Z.min_l by lia. reflexivity.
  - rewrite Z.min_r by lia. rewrite Nat2Z.id.
    rewrite !take_ge by lia. reflexivity.
Qed.

Lemma slice_suffix l (n : Z) :
  0 < n -> Js.slice l (- n) None = drop (length l - Z.to_nat n) l.
Proof.
  intros Hn. unfold Js.slice, Js.rel_index.
  destruct (- n <? 0) eqn:E; [|apply Z.ltb_ge in E; lia].
  assert (Hk : Z.to_nat (Z.max (Z.of_nat (length l) + - n) 0) = (length l - Z.to_nat n)%nat) by lia.
  rewrite Hk. apply take_ge. rewrite length_drop. lia.
Qed.

(** [slice(-0)] is [slice(0)]: the whole list. *)
Lemma slice_minus_zero l : Js.slice l (- 0) None = l.
Proof.
  unfold Js.slice, Js.rel_index. simpl.
  replace (Z.to_nat ((- 0) `min` Z.of_nat (length l))) with 0%nat by lia.
  rewrite drop_0. apply take_ge. lia.
Qed.
End SliceFacts.

Section SortFacts.
Context {A : Type} (key : A -> Z).
Implicit Types l : list A.

Let cmp (a b : A) : Z := key a - key b.
Let le (a b : A) : Prop := key a <= key b.

Lemma insert_by_perm x l : Js.insert_by cmp x l ≡ₚ x :: l.
Proof.
  induction l as [|y l IH]; simpl; [reflexivity|].
  destruct (cmp x y <=? 0); [reflexivity|].
  rewrite IH. apply Permutation_swap.
Qed.

Lemma sort_perm l : Js.sort cmp l ≡ₚ l.
Proof.
  induction l as [|x l IH]; simpl; [reflexivity|].
  rewrite insert_by_perm. by rewrite IH.
Qed.

Lemma insert_by_sorted x l :
  StronglySorted le l -> StronglySorted le (Js.insert_by cmp x l).
Proof.
  induction 1 as [|y l Hs IH Hall]; simpl.
  - repeat constructor.
  - destruct (cmp x y <=? 0) eqn:E.
    + apply Z.leb_le in E. constructor; [by constructor|].
      constructor; [unfold le, cmp in *; lia|].
      eapply Forall_impl; [exact Hall|]. intros z Hz. unfold le, cmp in *. lia.
    + apply Z.leb_gt in E. constructor; [exact IH|].
      rewrite insert_by_perm. constructor; [unfold le, cmp in *; lia | exact Hall].
Qed.

Lemma sort_sorted l : StronglySorted le (Js.sort cmp l).
Proof.
  induction l as [|x l IH]; simpl; [constructor | by apply insert_by_sorted].
Qed.

(** Sorting a list that is already in order leaves it as it is. *)
Lemma insert_by_head x l :
  Forall (le x) l -> Js.insert_by cmp x l = x :: l.
Proof.
  destruct 1 as [|y l Hy _]; simpl; [reflexivity|].
  destruct (cmp x y <=? 0) eqn:E; [reflexivity|].
  apply Z.leb_gt in E. unfold le, cmp in *. lia.
Qed.

Lemma sort_id l : StronglySorted le l -> Js.sort cmp l = l.
Proof.
  induction 1 as [|x l Hs IH Hall]; simpl; [reflexivity|].
  rewrite IH. by apply insert_by_head.
Qed.

Lemma sorted_drop n l : StronglySorted le l -> StronglySorted le (drop n l).
Proof.
  intros Hs. revert n. induction Hs as [|x l Hs IH Hall]; intros [|n]; simpl;
    try constructor; auto.
Qed.

Lemma sorted_take n l : StronglySorted le l -> StronglySorted le (take n l).
Proof.
  intros Hs. revert n. induction Hs as [|x l Hs IH Hall]; intros [|n]; simpl;
    try constructor; auto.
  apply Forall_take. exact Hall.
Qed.

(** In a sorted list, nothing before a cut is later than anything after it. *)
Lemma sorted_cut n l d k :
  StronglySorted le l -> d ∈ take n l -> k ∈ drop n l -> key d <= key k.
Proof.
  intros Hs. revert n. induction Hs as [|x l Hs IH Hall]; intros n Hd Hk.
  - rewrite take_nil in Hd. by apply elem_of_nil in Hd.
  - destruct n as [|n]; simpl in *.
    + by apply elem_of_nil in Hd.
    + apply elem_of_cons in Hd as [->|Hd]; [|by eauto].
      rewrite Forall_forall in Hall. apply Hall.
      rewrite <- (take_drop n l). apply elem_of_app. by right.
Qed.
End SortFacts.

(** ** The message cache of the cursor-based aggregation *)

Section CacheMerge.
Import LiveChatTs.

Let le (a b : ChatMessage) : Prop := timestamp a <= timestamp b.

Lemma unique_new_ids cached newMessages :
  NoDup (id <$> cached) -> NoDup (id <$> newMessages) ->
  NoDup (id <$> (cached ++
           filter (fun msg => id msg ∉ (list_to_set (id <$> cached) : gset string)) newMessages)).
Proof.
  intros Hc Hn. rewrite fmap_app. apply NoDup_app. split; [exact Hc|]. split.
  - intros x Hx Hin. apply list_elem_of_fmap in Hin as (m & -> & Hm).
    apply list_elem_of_filter in Hm as [Hnot _]. apply Hnot.
    by apply elem_of_list_to_set.
  - eapply sublist_NoDup; [exact Hn|]. apply fmap_sublist, sublist_filter.
Qed.

Lemma mergeMessages_cases cached newMessages :
  let merged := cached ++
    filter (fun msg => id msg ∉ (list_to_set (id <$> cached) : gset string)) newMessages in
  let sorted := Js.sort byTimestamp merged in
  (length merged <= 2000)%nat /\ mergeMessages cached newMessages = sorted \/
  (2000 < length merged)%nat /\
    mergeMessages cached newMessages = drop (length merged - 2000) sorted.
Proof.
  intros merged sorted. unfold mergeMessages. fold merged. fold sorted.
  assert (Hlen : length sorted = length merged)
    by (apply Permutation_length, (sort_perm timestamp)).
  unfold MAX_CACHED_MESSAGES.
  destruct (Z.of_nat (length sorted) >? 2000) eqn:E.
  - right. apply Z.gtb_lt in E. split; [lia|].
    rewrite slice_suffix by lia. rewrite Hlen. reflexivity.
  - left. rewrite Z.gtb_ltb in E. apply Z.ltb_ge in E. split; [lia|reflexivity].
Qed.
End CacheMerge.

(** C2 (amended). When a poll is merged into a video's existing cache entry
    whose messages have pairwise-distinct IDs, and the polled batch itself
    has pairwise-distinct IDs, the cached list afterwards has
    pairwise-distinct IDs, is sorted ascending by timestamp and holds at
    most 2000 entries; when the cached messages together with the new ones
    not yet cached are more than 2000, exactly 2000 remain, and every
    message left out is no later than every message kept. *)
Theorem cache_merge_step
    (videoId : string) (entry : LiveChatTs.CacheEntry)
    (newMessages : list ChatMessage) (now : Z) (cont : option string)
    (cache : gmap string LiveChatTs.CacheEntry) :
  cache !! videoId = Some entry ->
  NoDup (id <$> LiveChatTs.messages entry) ->
  NoDup (id <$> newMessages) ->
  let merged :=
    LiveChatTs.messages entry ++
    filter (fun msg => id msg ∉ id <$> LiveChatTs.messages entry) newMessages in
  exists entry',
    LiveChatTs.updateCache videoId newMessages now cont cache !! videoId = Some entry' /\
    NoDup (id <$> LiveChatTs.messages entry') /\
    StronglySorted (fun a b => timestamp a <= timestamp b) (LiveChatTs.messages entry') /\
    (length (LiveChatTs.messages entry') <= 2000)%nat /\
    ((2000 < length merged)%nat ->
     length (LiveChatTs.messages entry') = 2000%nat /\
     exists dropped,
       merged ≡ₚ dropped ++ LiveChatTs.messages entry' /\
       forall d k, d ∈ dropped -> k ∈ LiveChatTs.messages entry' ->
                   timestamp d <= timestamp k).
Proof.
  intros Hlook Hc Hn merged.
  assert (Hm : merged = LiveChatTs.messages entry ++
    filter (fun msg => id msg ∉ (list_to_set (id <$> LiveChatTs.messages entry) : gset string))
           newMessages).
  { unfold merged. f_equal. apply list_filter_iff. intros m.
    by rewrite elem_of_list_to_set. }
  pose proof (unique_new_ids _ _ Hc Hn) as Hnd. rewrite <- Hm in Hnd.
  assert (Hperm : Js.sort LiveChatTs.byTimestamp merged ≡ₚ merged)
    by exact (sort_perm timestamp merged).
  assert (Hsorted : StronglySorted (fun a b => timestamp a <= timestamp b)
                      (Js.sort LiveChatTs.byTimestamp merged))
    by exact (sort_sorted timestamp merged).
  unfold LiveChatTs.updateCache. rewrite Hlook.
  eexists. split; [apply lookup_insert_eq|]. simpl.
  destruct (mergeMessages_cases (LiveChatTs.messages entry) newMessages)
    as [[Hlen ->]|[Hlen ->]]; rewrite <- Hm in *.
  - split; [by rewrite Hperm|]. split; [exact Hsorted|].
    split; [by rewrite (Permutation_length Hperm)|]. lia.
  - set (sorted := Js.sort LiveChatTs.byTimestamp merged) in *.
    assert (Hl : length sorted = length merged) by apply (Permutation_length Hperm).
    split.
    { eapply sublist_NoDup; [|apply fmap_sublist, sublist_drop]. by rewrite Hperm. }
    split; [by apply (sorted_drop timestamp)|].
    split; [rewrite length_drop; lia|].
    intros _. split; [rewrite length_drop; lia|].
    exists (take (length merged - 2000) sorted). split.
    + by rewrite take_drop, Hperm.
    + intros d k Hd Hk. by apply (sorted_cut timestamp (length merged - 2000) sorted).
Qed.

(** The instance of [cache_merge_step] for a cache that holds one message,
    into which two new ones are merged. *)
Lemma cache_merge_step_witness :
  let cache : gmap string LiveChatTs.CacheEntry :=
    {[ "abcdefghijk" := Sample.entry [Sample.msg "m1" 10] 0 ]} in
  let newMessages := [Sample.msg "m3" 30; Sample.msg "m2" 20] in
  cache !! "abcdefghijk" = Some (Sample.entry [Sample.msg "m1" 10] 0) /\
  NoDup (id <$> [Sample.msg "m1" 10]) /\
  NoDup (id <$> newMessages) /\
  exists entry',
    LiveChatTs.updateCache "abcdefghijk" newMessages 5 None cache !! "abcdefghijk"
      = Some entry' /\
    NoDup (id <$> LiveChatTs.messages entry') /\
    StronglySorted (fun a b => timestamp a <= timestamp b) (LiveChatTs.messages entry') /\
    (length (LiveChatTs.messages entry') <= 2000)%nat.
Proof.
  intros cache newMessages.
  assert (H1 : cache !! "abcdefghijk" = Some (Sample.entry [Sample.msg "m1" 10] 0))
    by reflexivity.
  assert (H2 : NoDup (id <$> [Sample.msg "m1" 10]))
    by (apply (bool_decide_unpack _); vm_compute; exact I).
  assert (H3 : NoDup (id <$> newMessages))
    by (apply (bool_decide_unpack _); vm_compute; exact I).
  split; [exact H1|]. split; [exact H2|]. split; [exact H3|].
  destruct (cache_merge_step "abcdefghijk" _ newMessages 5 None cache H1 H2 H3)
    as (entry' & Hl & Hd & Hs & Hb & _).
  exists entry'. auto.
Defined.

(** The claim of C2 as stated fails: a polled batch that repeats an ID is
    merged as it is, and the cached list then holds that ID twice. *)
Lemma cache_merge_duplicate_ids :
  let cache : gmap string LiveChatTs.CacheEntry :=
    {[ "abcdefghijk" := Sample.entry [Sample.msg "m1" 10] 0 ]} in
  exists entry',
    LiveChatTs.updateCache "abcdefghijk" [Sample.msg "m2" 20; Sample.msg "m2" 30] 5 None cache
      !! "abcdefghijk" = Some entry' /\
    (id <$> LiveChatTs.messages entry') = ["m1"; "m2"; "m2"] /\
    ~ NoDup (id <$> LiveChatTs.messages entry').
Proof.
  intros cache. eexists. split; [reflexivity|]. split; [reflexivity|].
  apply (bool_decide_unpack _). vm_compute. exact I.
Qed.

(** ** URL parsing *)

(** C1. The pattern of [extractVideoId] has no branch for the [/live/ID]
    shape: on such a URL no video ID is returned, by either extractor, and
    [isValidYouTubeUrl], which lists that shape, rejects the URL. The
    [youtu.be/ID] and [/embed/ID] shapes lose an ID that begins with [v],
    which the optional [v] of the pattern takes. The other sample URLs give
    their ID. *)
Theorem extractVideoId_shapes :
  DirectTokenExtractor.extractVideoId "https://www.youtube.com/live/abcdefghijk" = None /\
  Puppeteer.extractVideoId "https://www.youtube.com/live/abcdefghijk" = None /\
  DirectTokenExtractor.isValidYouTubeUrl "https://www.youtube.com/live/abcdefghijk" = false /\
  DirectTokenExtractor.extractVideoId "https://youtu.be/vbcdefghijk" = None /\
  DirectTokenExtractor.extractVideoId "https://www.youtube.com/embed/vbcdefghijk" = None /\
  DirectTokenExtractor.extractVideoId "https://www.youtube.com/watch?v=abcdefghijk"
    = Some "abcdefghijk" /\
  DirectTokenExtractor.extractVideoId "https://youtu.be/abcdefghijk" = Some "abcdefghijk" /\
  DirectTokenExtractor.extractVideoId "https://www.youtube.com/embed/abcdefghijk"
    = Some "abcdefghijk" /\
  Puppeteer.extractVideoId "https://www.youtube.com/watch?v=abcdefghijk" = Some "abcdefghijk" /\
  Puppeteer.extractVideoId "https://youtu.be/abcdefghijk" = Some "abcdefghijk" /\
  Puppeteer.extractVideoId "https://www.youtube.com/embed/abcdefghijk" = Some "abcdefghijk".
Proof. repeat split; vm_compute; reflexivity. Qed.

(** The first extractor returns whatever eleven characters follow the
    marker, URL-safe or not; the second one cuts a longer run to eleven. *)
Lemma extractVideoId_not_only_ids :
  DirectTokenExtractor.extractVideoId "watch?hello world" = Some "hello world" /\
  Puppeteer.extractVideoId "https://youtu.be/abcdefghijkLMNOP" = Some "abcdefghijk".
Proof. repeat split; vm_compute; reflexivity. Qed.

(** ** Author roles *)

(** C4. The two normalisers on the badge lists of the claim and on two
    others. In utils/formatters.js the last recognised badge decides, so a
    member badge after an owner badge gives [member]; in the normaliser of
    the raw response an owner badge ends the scan, but a member badge after
    a moderator badge gives [member]. *)
Theorem badge_scan_examples :
  Sample.jsRole ["MEMBER"; "OWNER"] = owner /\
  Sample.jsRole ["MODERATOR"] = moderator /\
  Sample.jsRole [] = regular /\
  Sample.jsRole ["OWNER"; "MEMBER"] = member /\
  Sample.jsRole ["OWNER"; "MODERATOR"] = moderator /\
  Sample.jsRole ["MODERATOR"; "MEMBER"] = member /\
  Sample.tsRole ["Member (6 months)"; "Owner"] = owner /\
  Sample.tsRole ["Moderator"] = moderator /\
  Sample.tsRole [] = regular /\
  Sample.tsRole ["Owner"; "Member (6 months)"] = owner /\
  Sample.tsRole ["Moderator"; "Member (6 months)"] = member.
Proof. repeat split; vm_compute; reflexivity. Qed.

(** In the normaliser of the raw response an owner badge wins wherever
    it stands. *)
Lemma ts_owner_badge_wins (badges : list Badge) (current : UserType) :
  (exists badge badgeRenderer,
      badge ∈ badges /\
      liveChatAuthorBadgeRenderer badge = Some badgeRenderer /\
      Js.includes (Js.toLowerCase (FormattersTs.badgeText badgeRenderer)) "owner" = true) ->
  FormattersTs.scanBadges current badges = owner.
Proof.
  intros (badge & br & Hin & Hr & Ho). revert current.
  induction badges as [|b rest IH]; intros current.
  - by apply elem_of_nil in Hin.
  - simpl. apply elem_of_cons in Hin as [<-|Hin].
    + rewrite Hr, Ho. reflexivity.
    + destruct (liveChatAuthorBadgeRenderer b) as [r|]; [|by apply IH].
      set (text := Js.toLowerCase (FormattersTs.badgeText r)).
      destruct (Js.includes text "owner"); [reflexivity|].
      destruct (Js.includes text "moderator"); [by apply IH|].
      destruct (Js.includes text "member"); by apply IH.
Qed.

(** In utils/formatters.js the badges before the last one do not count
    when the last one is recognised. *)
Lemma js_last_badge_decides (badges : list Badge) (current : UserType) (it : string) :
  FormattersJs.scanBadges current (badges ++ [Sample.iconBadge it]) =
  FormattersJs.scanBadges (FormattersJs.scanBadges current badges) [Sample.iconBadge it].
Proof.
  revert current. induction badges as [|b rest IH]; intros current; [reflexivity|].
  simpl. destruct (liveChatAuthorBadgeRenderer b) as [r|]; [|by apply IH].
  destruct (iconType r) as [t|]; [|by apply IH].
  destruct (negb (Js.truthy t)); [by apply IH|].
  destruct (String.eqb t "MODERATOR"); [by apply IH|].
  destruct (String.eqb t "OWNER"); [by apply IH|].
  destruct (String.eqb t "MEMBER"); by apply IH.
Qed.

(** ** The token cache *)

Section TokenCache.
Import DirectTokenExtractor.

(** utils/directTokenExtractor.js stores a result only after the test for
    an empty token, so a cache whose entries all have a token keeps that
    property, and a result that is returned has a token too. *)
Lemma js_token_cache_invariant (fetchPage : string -> outcome Page)
    (clock : nat -> Z) (videoUrl : string) (tokenCache : gmap string JsFile.Tokens)
    (ticks : nat) :
  (forall url t, tokenCache !! url = Some t -> Js.truthy (JsFile.continuation t) = true) ->
  let '(result, tokenCache', _) :=
    JsFile.extractYouTubeTokens fetchPage clock videoUrl tokenCache ticks in
  (forall url t, tokenCache' !! url = Some t -> Js.truthy (JsFile.continuation t) = true) /\
  (forall t, result = Some t -> Js.truthy (JsFile.continuation t) = true).
Proof.
  intros Hinv. unfold JsFile.extractYouTubeTokens.
  destruct (fetchPage videoUrl) as [page|e];
    [destruct (Js.truthy (JsFile.extractLiveChatTokenFromData page)) eqn:E; simpl|];
    (destruct (tokenCache !! videoUrl) as [cachedData|] eqn:Hl;
      [destruct (clock ticks - JsFile.tk_timestamp cachedData <? CACHE_EXPIRATION)|]);
    (split;
      [ intros url t; rewrite ?lookup_insert; try case_decide;
        first [ by apply Hinv | by intros [= <-] ]
      | intros t [= <-]; first [ exact E | by eapply Hinv ] ]).
Qed.

(** utils/directTokenExtractor.ts stores whatever it has read from a page
    that it could fetch, with or without a token. *)
Lemma ts_token_always_cached (fetchPage : string -> outcome Page)
    (clock : nat -> Z) (videoUrl : string) (tokenCache : gmap string TsFile.Tokens)
    (ticks : nat) (page : Page) :
  tokenCache !! videoUrl = None ->
  fetchPage videoUrl = Ok page ->
  exists t,
    TsFile.extractYouTubeTokens fetchPage clock videoUrl tokenCache ticks
      = (Ok t, <[videoUrl := t]> tokenCache, S ticks).
Proof.
  intros Hmiss Hpage. unfold TsFile.extractYouTubeTokens.
  rewrite Hmiss, Hpage. eexists. reflexivity.
Qed.
End TokenCache.

(** C6. For a video page in which no continuation token is found,
    utils/directTokenExtractor.js caches nothing, while
    utils/directTokenExtractor.ts and scraping/puppeteer.ts return a token
    set with an empty continuation and store it in the token cache under
    the URL. *)
Theorem empty_continuation_cached :
  let url := "https://www.youtube.com/watch?v=abcdefghijk" in
  let fetchPage := fun _ : string => Ok Sample.pageWithoutChat in
  let browse := fun _ : string => Ok Sample.evaluatedWithoutChat in
  let clock := fun _ : nat => 1000 in
  (DirectTokenExtractor.JsFile.extractYouTubeTokens fetchPage clock url ∅ 0 = (None, ∅, 0%nat)) /\
  (exists t cache n,
      DirectTokenExtractor.TsFile.extractYouTubeTokens fetchPage clock url ∅ 0 = (Ok t, cache, n) /\
      cache !! url = Some t /\
      DirectTokenExtractor.TsFile.continuationToken t = "") /\
  (exists t st,
      Puppeteer.extractYouTubeTokens browse clock url
        {| Puppeteer.tokenCache := ∅; Puppeteer.activePages := ∅; Puppeteer.ticks := 0 |}
        = (Ok t, st) /\
      Puppeteer.tokenCache st !! url = Some t /\
      Puppeteer.continuationToken t = "").
Proof.
  split; [reflexivity|]. split.
  - eexists _, _, _. split; [reflexivity|]. split; reflexivity.
  - eexists _, _. split; [reflexivity|]. split; reflexivity.
Qed.

(** ** The chat poller *)

(** C7. The poller cuts from the head. When the response holds more raw
    items than the page size, [fetchLiveChatMessages] returns the first
    [pageSize] of them, in order, so the items it leaves out are the most
    recent ones, those that the claim asks for and that its caller keeps
    with [slice(-pageSize)]. *)
Theorem poll_returns_prefix {Item : Type}
    (post : string -> string -> outcome (option (ChatResponse Item)))
    (continuationToken apiKey : string) (pageSize : Z)
    (data : ChatResponse Item) (liveChatContinuation : LiveChatContinuation Item) :
  post continuationToken apiKey = Ok (Some data) ->
  continuationContents data = Some (Some liveChatContinuation) ->
  let items := DirectTokenExtractor.JsFile.collectItems (default [] (actions liveChatContinuation)) in
  0 <= pageSize < Z.of_nat (length items) ->
  let result :=
    DirectTokenExtractor.JsFile.fetchLiveChatMessages post continuationToken apiKey pageSize in
  DirectTokenExtractor.JsFile.cr_messages result = take (Z.to_nat pageSize) items /\
  length (DirectTokenExtractor.JsFile.cr_messages result) = Z.to_nat pageSize.
Proof.
  intros Hpost Hcc items Hsize result. unfold result.
  unfold DirectTokenExtractor.JsFile.fetchLiveChatMessages. rewrite Hpost, Hcc. simpl.
  fold items. rewrite slice_prefix by lia. split; [reflexivity|].
  rewrite length_take. lia.
Qed.

(** The instance of [poll_returns_prefix] for three items and page size 2. *)
Lemma poll_returns_prefix_witness :
  let post := fun _ _ : string => Ok (Some (Sample.chatOf [1; 2; 3]%nat)) in
  let result := DirectTokenExtractor.JsFile.fetchLiveChatMessages post "token" "key" 2 in
  0 <= 2 < Z.of_nat (length [1; 2; 3]%nat) /\
  DirectTokenExtractor.JsFile.cr_messages result = [1; 2]%nat /\
  length (DirectTokenExtractor.JsFile.cr_messages result) = 2%nat.
Proof.
  intros post result. split; [simpl; lia|].
  apply (poll_returns_prefix post "token" "key" 2 (Sample.chatOf [1; 2; 3]%nat)
           {| actions := Some (map Sample.action [1; 2; 3]%nat); continuations := None |});
    [reflexivity | reflexivity | simpl; lia].
Defined.

(** Of three items and page size 2 the poller returns the first two, and
    the suffix of length 2 is another list. *)
Lemma poll_does_not_return_suffix :
  let post := fun _ _ : string => Ok (Some (Sample.chatOf [1; 2; 3]%nat)) in
  let result := DirectTokenExtractor.JsFile.fetchLiveChatMessages post "token" "key" 2 in
  DirectTokenExtractor.JsFile.cr_messages result = [1; 2]%nat /\
  DirectTokenExtractor.JsFile.cr_messages result <> Spec.lastn 2 [1; 2; 3]%nat.
Proof. split; [reflexivity|]. vm_compute. discriminate. Qed.

(** The newest message is lost to the caller: upstream lists the messages
    of seconds 1, 2 and 3, and the snapshot [getLiveChat] with page size 2
    answers with those of seconds 1 and 2 and caches no other. *)
Lemma newest_message_lost :
  timestamp <$> LiveChatJs.r_messages ChronologicalChat.call.1 = [1000; 2000] /\
  timestamp <$> LiveChatRule.cachedOf (LiveChatJs.messageCache ChronologicalChat.call.2)
                  Sample.urlA = [1000; 2000].
Proof. split; vm_compute; reflexivity. Qed.

(** ** Like counts *)

(** C9. The three encodings of the like count: the exact number 1234, the
    comma-formatted string, and the abbreviated string, whose base number
    is multiplied by 1000. *)
Theorem like_count_encodings :
  VideoMetadataTs.likeCountFromMutations
    [Some (Sample.likeEntity (Some (Num 1234)) None None)] 0 = Ok 1234 /\
  VideoMetadataTs.likeCountFromMutations
    [Some (Sample.likeEntity (Some (Str "1234")) None None)] 0 = Ok 1234 /\
  VideoMetadataTs.likeCountFromMutations
    [Some (Sample.likeEntity None (Some "1,234") None)] 0 = Ok 1234 /\
  VideoMetadataTs.likeCountFromMutations
    [Some (Sample.likeEntity None None (Some "19K"))] 0 = Ok 19000 /\
  likeCount (Sample.parsedWith (Sample.likeEntity (Some (Num 1234)) None None)) = 1234 /\
  likeCount (Sample.parsedWith (Sample.likeEntity None (Some "1,234") None)) = 1234 /\
  likeCount (Sample.parsedWith (Sample.likeEntity None None (Some "19K"))) = 19000 /\
  VideoMetadataTs.parseLikeText "1,234 likes" = Some 1234.
Proof. repeat split; vm_compute; reflexivity. Qed.

(** ** Client filters *)

Section Filters.
Context {A : Type}.
Implicit Types l : list A.

Lemma filter_all (P : A -> Prop) `{!forall x, Decision (P x)} l :
  (forall x, P x) -> filter P l = l.
Proof.
  intros HP. induction l as [|x l IH]; [reflexivity|].
  rewrite filter_cons_True by apply HP. by rewrite IH.
Qed.

(** A filter that is applied only under a condition. *)
Lemma filter_when (P Q : A -> Prop)
    `{!forall x, Decision (P x), !forall x, Decision (Q x)} l (b : bool) :
  (forall x, Q x <-> (b = true -> P x)) ->
  (if b then filter P l else l) = filter Q l.
Proof.
  intros HQ. destruct b.
  - apply list_filter_iff. intros x. split.
    + intros HPx. by apply HQ.
    + intros HQx. by apply HQ.
  - symmetry. apply filter_all. intros x. apply HQ. discriminate.
Qed.
End Filters.

Lemma isAfter_cursor (parse : string -> option Z) (a : string) (m : ChatMessage) :
  Js.truthy a = true ->
  LiveChatTs.isAfter (timestamp m) (parse a) = true <-> Spec.afterCursor parse (Some a) m.
Proof.
  intros Ha. unfold LiveChatTs.isAfter, Spec.afterCursor. rewrite Ha.
  destruct (parse a) as [t|]; [apply Z.ltb_lt|]. split; [discriminate|tauto].
Qed.

(** The list before pagination is the sort of the selected messages. *)
Lemma filterAndSort_selected (env : LiveChatTs.Env) (options : LiveChatTs.LiveChatOptions)
    (chatResults : list (list ChatMessage)) :
  LiveChatTs.filterAndSort env options chatResults =
  Js.sort LiveChatTs.byTimestamp
    (filter (Spec.selected (LiveChatTs.dateParse env) (LiveChatTs.after options)
               (LiveChatTs.messageIds options))
            (concat chatResults)).
Proof.
  unfold LiveChatTs.filterAndSort. f_equal.
  set (ids := default [] (LiveChatTs.messageIds options)).
  set (P1 := fun msg : ChatMessage => id msg ∉ ids).
  set (P2 := Spec.afterCursor (LiveChatTs.dateParse env) (LiveChatTs.after options)).
  assert (H1 : (if Nat.ltb 0 (length ids)
                then filter (fun msg => id msg ∉ (list_to_set ids : gset string))
                       (concat chatResults)
                else concat chatResults) = filter P1 (concat chatResults)).
  { apply filter_when. intros x. unfold P1. rewrite elem_of_list_to_set.
    destruct ids as [|i ids']; simpl; [|tauto].
    split; [discriminate|]. intros _ Hin. by apply elem_of_nil in Hin. }
  rewrite H1.
  transitivity (filter P2 (filter P1 (concat chatResults))).
  - unfold P2. destruct (LiveChatTs.after options) as [a|]; simpl.
    + destruct (Js.truthy a) eqn:Ha.
      * apply list_filter_iff. intros m. by apply isAfter_cursor.
      * symmetry. apply filter_all. intros m. unfold Spec.afterCursor. by rewrite Ha.
    + symmetry. by apply filter_all.
  - rewrite list_filter_filter. apply list_filter_iff. intros m.
    unfold Spec.selected, P1, P2. fold ids. tauto.
Qed.

Lemma filterMessages_selected (env : LiveChatJs.Env) (after : option string)
    (messageIds : list string) (msgs : list ChatMessage) :
  LiveChatJs.filterMessages env after messageIds msgs =
  filter (Spec.selected (LiveChatJs.dateParse env) after (Some messageIds)) msgs.
Proof.
  unfold LiveChatJs.filterMessages.
  set (P1 := fun msg : ChatMessage => id msg ∉ messageIds).
  set (P2 := Spec.afterCursor (LiveChatJs.dateParse env) after).
  assert (H2 : match after with
               | Some a =>
                   if Js.truthy a
                   then filter (fun msg => LiveChatJs.isAfter (timestamp msg)
                                             (LiveChatJs.dateParse env a) = true) msgs
                   else msgs
               | None => msgs
               end = filter P2 msgs).
  { unfold P2. destruct after as [a|]; simpl.
    - destruct (Js.truthy a) eqn:Ha.
      + apply list_filter_iff. intros m.
        apply (isAfter_cursor (LiveChatJs.dateParse env) a m Ha).
      + symmetry. apply filter_all. intros m. unfold Spec.afterCursor. by rewrite Ha.
    - symmetry. by apply filter_all. }
  rewrite H2.
  transitivity (filter P1 (filter P2 msgs)).
  - apply filter_when. intros x. unfold P1.
    destruct messageIds as [|i ids']; simpl; [|tauto].
    split; [discriminate|]. intros _ Hin. by apply elem_of_nil in Hin.
  - rewrite list_filter_filter. apply list_filter_iff. intros m.
    unfold Spec.selected, P1, P2. simpl. tauto.
Qed.

Section CursorCalls.
Import LiveChatTs.
Variable env : Env.
Variable options : LiveChatOptions.

Lemma slice_nil {A} (a : Z) (b : option Z) : Js.slice ([] : list A) a b = [].
Proof. unfold Js.slice. by rewrite drop_nil, take_nil. Qed.

Lemma filterAndSort_nil : filterAndSort env options [] = [].
Proof. by rewrite filterAndSort_selected. Qed.

(** A call with a valid URL all of whose tasks return a list answers with
    [respond] on these lists. *)
Lemma getLiveChat_lists (w : World) results :
  List.filter Puppeteer.isValidYouTubeUrl (urls options) <> [] ->
  lists (LiveChatRule.taskResults env options w) = Some results ->
  exists errors, (getLiveChat env options w).1 = Ok (respond env options results errors).
Proof.
  unfold getLiveChat, LiveChatRule.taskResults.
  destruct (List.filter _ _) as [|url0 rest]; [done|]. intros _.
  destruct (startAll env (url0 :: rest) w []) as [[tasks w1] errors1]. simpl.
  destruct (resumeAll env tasks w1 errors1) as [[chatResults w2] errors2]. simpl.
  intros H. exists errors2. unfold answer. by rewrite H.
Qed.

Lemma getLiveChat_messages (w : World) results :
  lists (LiveChatRule.taskResults env options w) = Some results ->
  exists response,
    (getLiveChat env options w).1 = Ok response /\
    r_messages response = r_messages (respond env options results []).
Proof.
  intros H.
  destruct (List.filter Puppeteer.isValidYouTubeUrl (urls options)) as [|url0 rest] eqn:Hv.
  - unfold LiveChatRule.taskResults in H. rewrite Hv in H. simpl in H. injection H as <-.
    unfold getLiveChat. rewrite Hv. eexists. split; [reflexivity|].
    unfold respond. cbn [r_messages fst]. rewrite filterAndSort_nil, slice_nil.
    by destruct (_ >? _).
  - destruct (getLiveChat_lists w results) as (errors & He); [by rewrite Hv|exact H|].
    eexists. split; [exact He|reflexivity].
Qed.

(** Ten messages with increasing time stamps and the cursor of the fifth. *)
Lemma after_fifth (cursor : string) (m1 m2 m3 m4 m5 m6 m7 m8 m9 m10 : ChatMessage) :
  after options = Some cursor ->
  Js.truthy cursor = true ->
  dateParse env cursor = Some (timestamp m5) ->
  default [] (messageIds options) = [] ->
  timestamp m1 < timestamp m2 < timestamp m3 ->
  timestamp m3 < timestamp m4 < timestamp m5 ->
  timestamp m5 < timestamp m6 < timestamp m7 ->
  timestamp m7 < timestamp m8 < timestamp m9 ->
  timestamp m9 < timestamp m10 ->
  filterAndSort env options [[m1; m2; m3; m4; m5; m6; m7; m8; m9; m10]]
  = [m6; m7; m8; m9; m10].
Proof.
  intros Hafter Htruthy Hparse Hids H12 H34 H56 H78 H910.
  rewrite filterAndSort_selected.
  assert (Hkeep : forall m,
    Spec.selected (dateParse env) (after options) (messageIds options) m
    <-> timestamp m5 < timestamp m).
  { intros m. unfold Spec.selected, Spec.afterCursor.
    rewrite Hids, Hafter, Htruthy, Hparse. split; [tauto|].
    intros Hlt. split; [|exact Hlt]. intros Hin. by apply elem_of_nil in Hin. }
  change (concat [[m1; m2; m3; m4; m5; m6; m7; m8; m9; m10]])
    with [m1; m2; m3; m4; m5; m6; m7; m8; m9; m10].
  rewrite (list_filter_iff _ (fun m => timestamp m5 < timestamp m) _ Hkeep).
  repeat (first [ rewrite filter_cons_True by lia | rewrite filter_cons_False by lia ]).
  rewrite filter_nil.
  apply (sort_id timestamp).
  repeat constructor; lia.
Qed.

(** A request for one video whose cache entry is at most 10 seconds old
    is answered with [respond] on the cached messages. *)
Lemma getLiveChat_cached (w : World) url videoId e :
  urls options = [url] ->
  Puppeteer.isValidYouTubeUrl url = true ->
  extractVideoId url = Some videoId ->
  messageCache w !! videoId = Some e ->
  clock env (ticks w) - lastFetched e <= 10000 ->
  (getLiveChat env options w).1 = Ok (respond env options [messages e] []).
Proof.
  intros Hurls Hvalid Hid Hcache Hfresh.
  unfold getLiveChat. rewrite Hurls. cbn [List.filter]. rewrite Hvalid.
  cbn [startAll]. unfold start. rewrite Hid.
  assert (Hc : cleanup (clock env (ticks w)) (messageCache w) !! videoId = Some e).
  { unfold cleanup. apply map_lookup_filter_Some. split; [exact Hcache|].
    simpl. unfold CACHE_EXPIRATION. lia. }
  rewrite Hc.
  assert (Hold : (clock env (ticks w) - lastFetched e >? 10000) = false).
  { rewrite Z.gtb_ltb. apply Z.ltb_ge. lia. }
  rewrite Hold. reflexivity.
Qed.
End CursorCalls.

Section SnapshotLists.
Import LiveChatJs.
Variable env : Env.
Variable pageSize : Z.
Variable after : option string.
Variable messageIds : list string.

Let contribution (cache : gmap string CacheEntry) (url : string) : list ChatMessage :=
  limit pageSize (filterMessages env after messageIds (LiveChatRule.cachedOf cache url)).

Lemma contribution_nil : limit pageSize (filterMessages env after messageIds []) = [].
Proof.
  rewrite filterMessages_selected, filter_nil. unfold limit.
  rewrite slice_nil. by destruct (_ >? _).
Qed.

Lemma processUrl_cached l url (acc : Acc) :
  LiveChatRule.allCached env l (messageCache acc.1.1) -> url ∈ l ->
  messageCache (processUrl env pageSize after messageIds url acc).1.1 = messageCache acc.1.1 /\
  (processUrl env pageSize after messageIds url acc).1.2
    = acc.1.2 ++ contribution (messageCache acc.1.1) url.
Proof.
  destruct acc as [[w allMessages] errors]. simpl. intros Hw Hin.
  unfold processUrl, contribution, LiveChatRule.cachedOf.
  destruct (DirectTokenExtractor.isValidYouTubeUrl url) eqn:Hvalid; simpl.
  2: { by rewrite contribution_nil, app_nil_r. }
  destruct (DirectTokenExtractor.extractVideoId url) as [videoId|] eqn:Hid.
  2: { by rewrite contribution_nil, app_nil_r. }
  destruct (Hw url videoId Hin Hvalid Hid) as (e & He & Hfresh). rewrite He.
  specialize (Hfresh (FormattersJs.ticks (counters w))). apply Z.ltb_lt in Hfresh.
  by rewrite Hfresh.
Qed.

Lemma fold_cached l urls (acc : Acc) :
  LiveChatRule.allCached env l (messageCache acc.1.1) ->
  (forall url, url ∈ urls -> url ∈ l) ->
  (fold_left (fun acc url => processUrl env pageSize after messageIds url acc) urls acc).1.2
    = acc.1.2 ++ concat (contribution (messageCache acc.1.1) <$> urls).
Proof.
  revert acc. induction urls as [|url rest IH]; intros acc Hw Hsub; simpl.
  { by rewrite app_nil_r. }
  destruct (processUrl_cached l url acc Hw) as (H1 & H2); [apply Hsub; by left|].
  rewrite IH.
  - rewrite H1, H2. by rewrite <- app_assoc.
  - by rewrite H1.
  - intros u Hu. apply Hsub. by right.
Qed.
End SnapshotLists.

Lemma getLiveChat_snapshot (env : LiveChatJs.Env) (options : LiveChatJs.LiveChatOptions)
    (w : LiveChatJs.World) :
  LiveChatRule.allCached env (LiveChatJs.urls options) (LiveChatJs.messageCache w) ->
  LiveChatJs.r_messages (LiveChatJs.getLiveChat env options w).1
  = Js.sort LiveChatJs.byTimestamp
      (concat ((fun url =>
                  LiveChatJs.limit (default 200 (LiveChatJs.pageSize options))
                    (LiveChatJs.filterMessages env (LiveChatJs.after options)
                       (default [] (LiveChatJs.messageIds options))
                       (LiveChatRule.cachedOf (LiveChatJs.messageCache w) url)))
               <$> LiveChatJs.urls options)).
Proof.
  intros Hw. unfold LiveChatJs.getLiveChat.
  pose proof (fold_cached env (default 200 (LiveChatJs.pageSize options))
                (LiveChatJs.after options) (default [] (LiveChatJs.messageIds options))
                (LiveChatJs.urls options) (LiveChatJs.urls options) (w, [], []) Hw
                (fun _ H => H)) as H.
  simpl in H. revert H.
  match goal with
  | |- context [fold_left ?f ?l ?a] => destruct (fold_left f l a) as [[w' allMessages] errors]
  end.
  simpl. by intros ->.
Qed.

Lemma limit_short (pageSize : Z) (l : list ChatMessage) :
  Z.of_nat (length l) <= pageSize -> LiveChatJs.limit pageSize l = l.
Proof.
  intros H. unfold LiveChatJs.limit.
  assert (E : (Z.of_nat (length l) >? pageSize) = false)
    by (rewrite Z.gtb_ltb; apply Z.ltb_ge; lia).
  by rewrite E.
Qed.

Lemma filter_concat {A} (P : A -> Prop) `{!forall x, Decision (P x)} (ls : list (list A)) :
  filter P (concat ls) = concat (filter P <$> ls).
Proof.
  induction ls as [|l ls IH]; [reflexivity|]. simpl. by rewrite filter_app, IH.
Qed.

(** C3 (amended). The cursor-based [getLiveChat], when each task returns a
    list: the list before pagination holds exactly the merged messages
    whose ID is not in the exclusion list and whose time stamp is strictly
    after the cursor, each as often as it was merged, in ascending order of
    time stamp, and the response holds that list, or its first [pageSize]
    entries. The snapshot [getLiveChat], for videos answered from the
    cache: the two tests are applied to the list of each video, which is
    then cut to the page size, and the response is the sort of what is
    left; when no list is cut it holds exactly the cached messages of the
    requested videos that pass the two tests, in ascending order. In
    particular, for ten cached messages with increasing time stamps, no
    exclusion list and a cursor that reads as the time stamp of the fifth,
    either response holds the sixth to the tenth. *)
Theorem filtered_result_exact :
  (forall (env : LiveChatTs.Env) (options : LiveChatTs.LiveChatOptions)
          (w : LiveChatTs.World) (results : list (list ChatMessage)),
      LiveChatTs.lists (LiveChatRule.taskResults env options w) = Some results ->
      let keep := Spec.selected (LiveChatTs.dateParse env) (LiveChatTs.after options)
                    (LiveChatTs.messageIds options) in
      let pageSize := default 50 (LiveChatTs.pageSize options) in
      exists result response,
        (forall m, m ∈ result <-> (m ∈ concat results /\ keep m)) /\
        result ≡ₚ filter keep (concat results) /\
        Spec.ascending result /\
        (LiveChatTs.getLiveChat env options w).1 = Ok response /\
        LiveChatTs.r_messages response
          = (if Z.of_nat (length result) >? pageSize
             then Js.slice result 0 (Some pageSize) else result)) /\
  (forall (env : LiveChatJs.Env) (options : LiveChatJs.LiveChatOptions)
          (w : LiveChatJs.World),
      LiveChatRule.allCached env (LiveChatJs.urls options) (LiveChatJs.messageCache w) ->
      let keep := Spec.selected (LiveChatJs.dateParse env) (LiveChatJs.after options)
                    (Some (default [] (LiveChatJs.messageIds options))) in
      let pageSize := default 200 (LiveChatJs.pageSize options) in
      let cached := LiveChatRule.cachedOf (LiveChatJs.messageCache w) in
      let response := (LiveChatJs.getLiveChat env options w).1 in
      LiveChatJs.r_messages response
        = Js.sort LiveChatJs.byTimestamp
            (concat ((fun url => LiveChatJs.limit pageSize (filter keep (cached url)))
                     <$> LiveChatJs.urls options)) /\
      ((forall url, url ∈ LiveChatJs.urls options ->
                    Z.of_nat (length (filter keep (cached url))) <= pageSize) ->
       (forall m, m ∈ LiveChatJs.r_messages response <->
                  (m ∈ concat (cached <$> LiveChatJs.urls options) /\ keep m)) /\
       LiveChatJs.r_messages response
         ≡ₚ filter keep (concat (cached <$> LiveChatJs.urls options)) /\
       Spec.ascending (LiveChatJs.r_messages response))) /\
  (forall (env : LiveChatTs.Env) (options : LiveChatTs.LiveChatOptions)
          (w : LiveChatTs.World) (url videoId cursor : string) (e : LiveChatTs.CacheEntry)
          (m1 m2 m3 m4 m5 m6 m7 m8 m9 m10 : ChatMessage),
      LiveChatTs.urls options = [url] ->
      Puppeteer.isValidYouTubeUrl url = true ->
      LiveChatTs.extractVideoId url = Some videoId ->
      LiveChatTs.messageCache w !! videoId = Some e ->
      LiveChatTs.messages e = [m1; m2; m3; m4; m5; m6; m7; m8; m9; m10] ->
      LiveChatTs.clock env (LiveChatTs.ticks w) - LiveChatTs.lastFetched e <= 10000 ->
      LiveChatTs.after options = Some cursor ->
      Js.truthy cursor = true ->
      LiveChatTs.dateParse env cursor = Some (timestamp m5) ->
      default [] (LiveChatTs.messageIds options) = [] ->
      5 <= default 50 (LiveChatTs.pageSize options) ->
      timestamp m1 < timestamp m2 < timestamp m3 ->
      timestamp m3 < timestamp m4 < timestamp m5 ->
      timestamp m5 < timestamp m6 < timestamp m7 ->
      timestamp m7 < timestamp m8 < timestamp m9 ->
      timestamp m9 < timestamp m10 ->
      (LiveChatTs.getLiveChat env options w).1
      = Ok {| LiveChatTs.r_messages := [m6; m7; m8; m9; m10];
              LiveChatTs.r_errors := [];
              LiveChatTs.hasMore := false;
              LiveChatTs.lastTimestamp := Some (timestamp m10) |}) /\
  (forall (env : LiveChatJs.Env) (options : LiveChatJs.LiveChatOptions)
          (w : LiveChatJs.World) (url videoId cursor : string) (e : LiveChatJs.CacheEntry)
          (m1 m2 m3 m4 m5 m6 m7 m8 m9 m10 : ChatMessage),
      LiveChatJs.urls options = [url] ->
      DirectTokenExtractor.isValidYouTubeUrl url = true ->
      DirectTokenExtractor.extractVideoId url = Some videoId ->
      LiveChatJs.messageCache w !! videoId = Some e ->
      LiveChatJs.messages e = [m1; m2; m3; m4; m5; m6; m7; m8; m9; m10] ->
      (forall n, LiveChatJs.clock env n - LiveChatJs.lastFetched e
                 < LiveChatJs.CACHE_EXPIRATION) ->
      LiveChatJs.after options = Some cursor ->
      Js.truthy cursor = true ->
      LiveChatJs.dateParse env cursor = Some (timestamp m5) ->
      default [] (LiveChatJs.messageIds options) = [] ->
      5 <= default 200 (LiveChatJs.pageSize options) ->
      timestamp m1 < timestamp m2 < timestamp m3 ->
      timestamp m3 < timestamp m4 < timestamp m5 ->
      timestamp m5 < timestamp m6 < timestamp m7 ->
      timestamp m7 < timestamp m8 < timestamp m9 ->
      timestamp m9 < timestamp m10 ->
      LiveChatJs.r_messages (LiveChatJs.getLiveChat env options w).1
      = [m6; m7; m8; m9; m10]).
Proof.
  split; [|split; [|split]].
  - intros env options w results Hlists keep pageSize.
    destruct (getLiveChat_messages env options w results Hlists) as (response & Hr & Hm).
    exists (LiveChatTs.filterAndSort env options results), response.
    assert (Hs : LiveChatTs.filterAndSort env options results
                 = Js.sort LiveChatTs.byTimestamp (filter keep (concat results)))
      by apply filterAndSort_selected.
    assert (Hp : LiveChatTs.filterAndSort env options results ≡ₚ filter keep (concat results))
      by (rewrite Hs; exact (sort_perm timestamp _)).
    split; [|split; [|split; [|split]]].
    + intros m. rewrite Hp, list_elem_of_filter. tauto.
    + exact Hp.
    + rewrite Hs. exact (sort_sorted timestamp _).
    + exact Hr.
    + rewrite Hm. reflexivity.
  - intros env options w Hw keep pageSize cached response.
    assert (Hr : LiveChatJs.r_messages response
                 = Js.sort LiveChatJs.byTimestamp
                     (concat ((fun url => LiveChatJs.limit pageSize (filter keep (cached url)))
                              <$> LiveChatJs.urls options))).
    { unfold response. rewrite (getLiveChat_snapshot env options w Hw).
      do 2 f_equal. apply list_fmap_ext. intros i url _.
      by rewrite filterMessages_selected. }
    split; [exact Hr|]. intros Hshort.
    assert (Hall : concat ((fun url => LiveChatJs.limit pageSize (filter keep (cached url)))
                           <$> LiveChatJs.urls options)
                   = filter keep (concat (cached <$> LiveChatJs.urls options))).
    { rewrite filter_concat, <- list_fmap_compose. f_equal.
      apply list_fmap_ext. intros i url Hi. simpl.
      apply limit_short, Hshort. by eapply list_elem_of_lookup_2. }
    rewrite Hall in Hr.
    assert (Hp : LiveChatJs.r_messages response
                 ≡ₚ filter keep (concat (cached <$> LiveChatJs.urls options)))
      by (rewrite Hr; exact (sort_perm timestamp _)).
    split; [|split].
    + intros m. rewrite Hp, list_elem_of_filter. tauto.
    + exact Hp.
    + rewrite Hr. exact (sort_sorted timestamp _).
  - intros env options w url videoId cursor e m1 m2 m3 m4 m5 m6 m7 m8 m9 m10
      Hurls Hvalid Hid Hcache Hmsgs Hfresh Hafter Htruthy Hparse Hids Hsize
      H12 H34 H56 H78 H910.
    rewrite (getLiveChat_cached env options w url videoId e Hurls Hvalid Hid Hcache Hfresh).
    unfold LiveChatTs.respond. rewrite Hmsgs.
    rewrite (after_fifth env options cursor m1 m2 m3 m4 m5 m6 m7 m8 m9 m10) by assumption.
    assert (E : (Z.of_nat (length [m6; m7; m8; m9; m10])
                 >? default 50 (LiveChatTs.pageSize options)) = false).
    { rewrite Z.gtb_ltb. apply Z.ltb_ge. simpl. lia. }
    by rewrite E.
  - intros env options w url videoId cursor e m1 m2 m3 m4 m5 m6 m7 m8 m9 m10
      Hurls Hvalid Hid Hcache Hmsgs Hfresh Hafter Htruthy Hparse Hids Hsize
      H12 H34 H56 H78 H910.
    assert (Hw : LiveChatRule.allCached env (LiveChatJs.urls options)
                   (LiveChatJs.messageCache w)).
    { intros u i Hu _ Hi. rewrite Hurls in Hu. apply list_elem_of_singleton in Hu as ->.
      rewrite Hid in Hi. injection Hi as <-. by exists e. }
    rewrite (getLiveChat_snapshot env options w Hw), Hurls, Hids, Hafter.
    cbn [fmap list_fmap concat]. rewrite app_nil_r.
    unfold LiveChatRule.cachedOf. rewrite Hvalid, Hid, Hcache, Hmsgs.
    rewrite filterMessages_selected.
    assert (Hkeep : forall m,
      Spec.selected (LiveChatJs.dateParse env) (Some cursor) (Some []) m
      <-> timestamp m5 < timestamp m).
    { intros m. unfold Spec.selected, Spec.afterCursor.
      rewrite Htruthy, Hparse. simpl. split; [tauto|].
      intros Hlt. split; [|exact Hlt]. intros Hin. by apply elem_of_nil in Hin. }
    rewrite (list_filter_iff _ (fun m => timestamp m5 < timestamp m) _ Hkeep).
    repeat (first [ rewrite filter_cons_True by lia | rewrite filter_cons_False by lia ]).
    rewrite filter_nil, limit_short by (simpl; lia).
    apply (sort_id timestamp).
    repeat constructor; lia.
Qed.

(** The instance of [filtered_result_exact] for ten cached messages one
    second apart and the cursor of the fifth, in both implementations. *)
Lemma filtered_result_exact_witness :
  let m (i : string) (t : Z) := Sample.msg i t in
  let ten := [m "m1" 1000; m "m2" 2000; m "m3" 3000; m "m4" 4000; m "m5" 5000;
              m "m6" 6000; m "m7" 7000; m "m8" 8000; m "m9" 9000; m "m10" 10000] in
  let next := [m "m6" 6000; m "m7" 7000; m "m8" 8000; m "m9" 9000; m "m10" 10000] in
  (LiveChatTs.getLiveChat Sample.tsEnv
     (Sample.tsOptions [Sample.urlA] None (Some Sample.cursor5))
     {| LiveChatTs.messageCache := {[ "aaaaaaaaaaa" := Sample.entry ten 5000 ]};
        LiveChatTs.ticks := 0 |}).1
  = Ok {| LiveChatTs.r_messages := next; LiveChatTs.r_errors := [];
          LiveChatTs.hasMore := false; LiveChatTs.lastTimestamp := Some 10000 |} /\
  LiveChatJs.r_messages
    (LiveChatJs.getLiveChat Sample.jsEnv
       {| LiveChatJs.urls := [Sample.urlA]; LiveChatJs.pageSize := None;
          LiveChatJs.after := Some Sample.cursor5; LiveChatJs.messageIds := None |}
       {| LiveChatJs.messageCache := {[ "aaaaaaaaaaa" := Sample.jsEntry ten 5000 ]};
          LiveChatJs.tokenCache := ∅;
          LiveChatJs.counters := {| FormattersJs.ticks := 0; FormattersJs.uuids := 0 |} |}).1
  = next.
Proof.
  intros m ten next. split.
  - apply (proj1 (proj2 (proj2 filtered_result_exact)) Sample.tsEnv
             (Sample.tsOptions [Sample.urlA] None (Some Sample.cursor5)) _
             Sample.urlA "aaaaaaaaaaa" Sample.cursor5 (Sample.entry ten 5000)
             (m "m1" 1000) (m "m2" 2000) (m "m3" 3000) (m "m4" 4000) (m "m5" 5000)
             (m "m6" 6000) (m "m7" 7000) (m "m8" 8000) (m "m9" 9000) (m "m10" 10000));
      first [ reflexivity | vm_compute; reflexivity | vm_compute; discriminate
            | simpl; lia ].
  - apply (proj2 (proj2 (proj2 filtered_result_exact)) Sample.jsEnv
             {| LiveChatJs.urls := [Sample.urlA]; LiveChatJs.pageSize := None;
                LiveChatJs.after := Some Sample.cursor5; LiveChatJs.messageIds := None |} _
             Sample.urlA "aaaaaaaaaaa" Sample.cursor5 (Sample.jsEntry ten 5000)
             (m "m1" 1000) (m "m2" 2000) (m "m3" 3000) (m "m4" 4000) (m "m5" 5000)
             (m "m6" 6000) (m "m7" 7000) (m "m8" 8000) (m "m9" 9000) (m "m10" 10000));
      first [ reflexivity | vm_compute; reflexivity | vm_compute; discriminate
            | simpl; lia | intros n; vm_compute; reflexivity ].
Defined.

(** The claim of C3 as stated fails for the snapshot [getLiveChat]: the
    list of a video before its cut is in stored order, which is the order
    of the upstream response. After a first call whose response has a
    message of second 3 before a message of second 1, a call with an
    exclusion list and page size 1 filters the cached list to the same two
    messages, not in ascending order, and returns the last of them, the
    older one. *)
Lemma snapshot_list_not_sorted :
  let w := UnsortedChat.afterFirstCall in
  let stored := LiveChatRule.cachedOf (LiveChatJs.messageCache w) Sample.urlA in
  let filtered := LiveChatJs.filterMessages UnsortedChat.env None ["z"] stored in
  timestamp <$> filtered = [3000; 1000] /\
  ~ Spec.ascending filtered /\
  timestamp <$> LiveChatJs.r_messages
                  (LiveChatJs.getLiveChat UnsortedChat.env
                     (UnsortedChat.request 1 (Some ["z"])) w).1 = [1000].
Proof.
  split; [vm_compute; reflexivity|]. split; [|vm_compute; reflexivity].
  intros H.
  assert (E : exists a b, LiveChatJs.filterMessages UnsortedChat.env None ["z"]
                 (LiveChatRule.cachedOf
                    (LiveChatJs.messageCache UnsortedChat.afterFirstCall) Sample.urlA)
              = [a; b] /\ timestamp a = 3000 /\ timestamp b = 1000).
  { eexists _, _. split; [vm_compute; reflexivity|]. split; reflexivity. }
  destruct E as (a & b & E & Ha & Hb). unfold Spec.ascending in H. rewrite E in H.
  apply StronglySorted_inv in H as [_ H]. apply Forall_inv in H. lia.
Qed.

(** ** Pagination *)




(** ** Expired entries of the message cache *)

Section Expiry.
Import LiveChatTs.
Variable env : Env.
Variable v : string.

Lemma cleanup_expired now (cache : gmap string CacheEntry) e :
  cache !! v = Some e -> now - lastFetched e > CACHE_EXPIRATION ->
  cleanup now cache !! v = None.
Proof.
  intros Hl He. unfold cleanup. apply map_lookup_filter_None. right.
  intros e' He'. simpl. rewrite Hl in He'. injection He' as <-. tauto.
Qed.

Lemma cleanup_absent now (cache : gmap string CacheEntry) :
  cache !! v = None -> cleanup now cache !! v = None.
Proof. intros Hl. unfold cleanup. apply map_lookup_filter_None. by left. Qed.

Lemma updateCache_other videoId newMessages now cont (cache : gmap string CacheEntry) :
  videoId <> v ->
  updateCache videoId newMessages now cont cache !! v = cache !! v.
Proof.
  intros Hne. unfold updateCache.
  destruct (cache !! videoId); by rewrite lookup_insert_ne.
Qed.

Lemma start_task url w errors :
  Spec.task_of url (start env url w errors).1.1.
Proof.
  unfold start. destruct (extractVideoId url) as [videoId|] eqn:Hid; simpl; [|exact I].
  destruct (cleanup _ _ !! videoId) as [cachedData|]; simpl.
  - destruct (_ >? 10000); simpl; [by split|exact I].
  - destruct (Js.inherited videoId); simpl; [exact I|by split].
Qed.

Lemma start_absent url w errors :
  messageCache w !! v = None ->
  messageCache (start env url w errors).1.2 !! v = None.
Proof.
  intros Ha. unfold start. destruct (extractVideoId url) as [videoId|]; simpl; [|exact Ha].
  destruct (cleanup _ _ !! videoId) as [cachedData|] eqn:Hc; simpl;
    [destruct (_ >? 10000); simpl|destruct (Js.inherited videoId); simpl];
    by apply cleanup_absent.
Qed.

(** A URL whose ID is extracted reads the clock and cleans the cache. *)
Lemma start_cleans url videoId w errors e :
  extractVideoId url = Some videoId ->
  messageCache w !! v = Some e ->
  clock env (ticks w) - lastFetched e > CACHE_EXPIRATION ->
  messageCache (start env url w errors).1.2 !! v = None.
Proof.
  intros Hid Hl He. unfold start. rewrite Hid.
  destruct (cleanup _ _ !! videoId) as [cachedData|] eqn:Hc; simpl;
    [destruct (_ >? 10000); simpl|destruct (Js.inherited videoId); simpl];
    by eapply cleanup_expired.
Qed.

(** A URL whose ID is not extracted leaves the world as it is. *)
Lemma start_skips url w errors :
  extractVideoId url = None -> (start env url w errors).1.2 = w.
Proof. intros Hid. unfold start. by rewrite Hid. Qed.

Lemma startAll_absent validUrls w errors :
  messageCache w !! v = None ->
  messageCache (startAll env validUrls w errors).1.2 !! v = None.
Proof.
  revert w errors. induction validUrls as [|url rest IH]; intros w errors Ha; [exact Ha|].
  simpl. pose proof (start_absent url w errors Ha) as H1.
  destruct (start env url w errors) as [[t w1] errors1]. simpl in H1.
  specialize (IH w1 errors1 H1).
  destruct (startAll env rest w1 errors1) as [[ts w2] errors2]. exact IH.
Qed.

Lemma startAll_cleans validUrls w errors e :
  (exists url, url ∈ validUrls /\ is_Some (extractVideoId url)) ->
  messageCache w !! v = Some e ->
  clock env (ticks w) - lastFetched e > CACHE_EXPIRATION ->
  messageCache (startAll env validUrls w errors).1.2 !! v = None.
Proof.
  revert w errors. induction validUrls as [|url rest IH];
    intros w errors (u & Hin & Hsome) Hl He.
  - by apply elem_of_nil in Hin.
  - simpl. destruct (extractVideoId url) as [videoId|] eqn:Hid.
    + pose proof (start_cleans url videoId w errors e Hid Hl He) as H1.
      destruct (start env url w errors) as [[t w1] errors1]. simpl in H1.
      pose proof (startAll_absent rest w1 errors1 H1) as H2.
      destruct (startAll env rest w1 errors1) as [[ts w2] errors2]. exact H2.
    + pose proof (start_skips url w errors Hid) as H1.
      destruct (start env url w errors) as [[t w1] errors1]. simpl in H1. subst w1.
      apply elem_of_cons in Hin as [->|Hin].
      { rewrite Hid in Hsome. by destruct Hsome. }
      assert (H2 : messageCache (startAll env rest w errors1).1.2 !! v = None)
        by (apply (IH w errors1); [by exists u|exact Hl|exact He]).
      destruct (startAll env rest w errors1) as [[ts w2] errors2]. exact H2.
Qed.

Lemma startAll_tasks validUrls w errors :
  Forall (fun t => exists url, url ∈ validUrls /\ Spec.task_of url t)
         (startAll env validUrls w errors).1.1.
Proof.
  revert w errors. induction validUrls as [|url rest IH]; intros w errors;
    [by constructor|].
  simpl. pose proof (start_task url w errors) as H1.
  destruct (start env url w errors) as [[t w1] errors1]. simpl in H1.
  specialize (IH w1 errors1).
  destruct (startAll env rest w1 errors1) as [[ts w2] errors2]. simpl in *.
  constructor.
  - exists url. split; [by left|exact H1].
  - eapply Forall_impl; [exact IH|]. intros t' (u & Hu & Ht). exists u. split; [by right|exact Ht].
Qed.

Lemma resume_absent t w errors :
  (forall url videoId now, t = Awaiting url videoId now -> videoId <> v) ->
  messageCache w !! v = None ->
  messageCache (resume env t w errors).1.2 !! v = None.
Proof.
  intros Hne Ha. destruct t as [result|url videoId now]; simpl; [exact Ha|].
  destruct (poll env url) as [[newMessages cont]|err]; simpl; [|exact Ha].
  rewrite updateCache_other; [exact Ha|]. by eapply Hne.
Qed.

Lemma resumeAll_absent tasks w errors :
  Forall (fun t => forall url videoId now, t = Awaiting url videoId now -> videoId <> v) tasks ->
  messageCache w !! v = None ->
  messageCache (resumeAll env tasks w errors).1.2 !! v = None.
Proof.
  intros Hall. revert w errors. induction Hall as [|t rest Ht Hrest IH];
    intros w errors Ha; [exact Ha|].
  simpl. pose proof (resume_absent t w errors Ht Ha) as H1.
  destruct (resume env t w errors) as [[r w1] errors1]. simpl in H1.
  specialize (IH w1 errors1 H1).
  destruct (resumeAll env rest w1 errors1) as [[rs w2] errors2]. exact IH.
Qed.
End Expiry.

(** C10 (amended). In the cursor-based [getLiveChat], a call in which at
    least one valid URL has an extractable video ID deletes from the
    process-wide message cache every entry that is older than the 5-minute
    expiration at the first clock reading of the call: the entry is gone
    once the per-URL tasks have been started, before any answer of the
    network is handled, whether or not its video is requested; and the
    entry of a video that is not among the requested ones is still absent
    when the call returns. *)
Theorem expired_entries_deleted
    (env : LiveChatTs.Env) (options : LiveChatTs.LiveChatOptions) (w : LiveChatTs.World)
    (v : string) (e : LiveChatTs.CacheEntry) :
  (exists url, url ∈ LiveChatTs.urls options /\
               Puppeteer.isValidYouTubeUrl url = true /\
               is_Some (LiveChatTs.extractVideoId url)) ->
  LiveChatTs.messageCache w !! v = Some e ->
  LiveChatTs.clock env (LiveChatTs.ticks w) - LiveChatTs.lastFetched e
    > LiveChatTs.CACHE_EXPIRATION ->
  let validUrls := List.filter Puppeteer.isValidYouTubeUrl (LiveChatTs.urls options) in
  LiveChatTs.messageCache (LiveChatTs.startAll env validUrls w []).1.2 !! v = None /\
  ((forall url, url ∈ LiveChatTs.urls options -> LiveChatTs.extractVideoId url <> Some v) ->
   LiveChatTs.messageCache (LiveChatTs.getLiveChat env options w).2 !! v = None).
Proof.
  intros (u & Hin & Hvalid & Hsome) Hl He validUrls.
  assert (Hu : u ∈ validUrls).
  { apply list_elem_of_In, filter_In. split; [by apply list_elem_of_In|exact Hvalid]. }
  assert (Hsub : forall url, url ∈ validUrls -> url ∈ LiveChatTs.urls options).
  { intros url Hurl. apply list_elem_of_In, filter_In in Hurl as [Hurl _].
    by apply list_elem_of_In. }
  pose proof (startAll_cleans env v validUrls w [] e
                (ex_intro _ u (conj Hu Hsome)) Hl He) as H1.
  split; [exact H1|]. intros Hother.
  unfold LiveChatTs.getLiveChat. fold validUrls.
  destruct validUrls as [|url0 rest] eqn:Hv; [by apply elem_of_nil in Hu|].
  rewrite <- Hv in *. clear Hv.
  pose proof (startAll_tasks env validUrls w []) as Ht.
  destruct (LiveChatTs.startAll env validUrls w []) as [[tasks w1] errors1].
  simpl in H1, Ht.
  assert (Hne : Forall (fun t => forall url videoId now,
                          t = LiveChatTs.Awaiting url videoId now -> videoId <> v) tasks).
  { eapply Forall_impl; [exact Ht|]. intros t (url & Hurl & Htask) url' videoId now ->.
    simpl in Htask. destruct Htask as [-> Hid]. intros ->.
    by apply (Hother url (Hsub url Hurl)). }
  pose proof (resumeAll_absent env v tasks w1 errors1 Hne H1) as H2.
  destruct (LiveChatTs.resumeAll env tasks w1 errors1) as [[chatResults w2] errors2].
  exact H2.
Qed.

(** The instance of [expired_entries_deleted] for a request for one video
    while the cache holds a stale entry of another. *)
Lemma expired_entries_deleted_witness :
  let options := Sample.tsOptions [Sample.urlA] None None in
  (exists url, url ∈ LiveChatTs.urls options /\
               Puppeteer.isValidYouTubeUrl url = true /\
               is_Some (LiveChatTs.extractVideoId url)) /\
  LiveChatTs.messageCache Sample.staleWorld !! "bbbbbbbbbbb"
    = Some (Sample.entry [Sample.msg "b1" 2000] 0) /\
  LiveChatTs.clock Sample.lateEnv (LiveChatTs.ticks Sample.staleWorld)
    - LiveChatTs.lastFetched (Sample.entry [Sample.msg "b1" 2000] 0)
    > LiveChatTs.CACHE_EXPIRATION /\
  LiveChatTs.messageCache
    (LiveChatTs.getLiveChat Sample.lateEnv options Sample.staleWorld).2 !! "bbbbbbbbbbb" = None.
Proof.
  intros options.
  assert (H1 : exists url, url ∈ LiveChatTs.urls options /\
                 Puppeteer.isValidYouTubeUrl url = true /\
                 is_Some (LiveChatTs.extractVideoId url)).
  { exists Sample.urlA. split; [by left|]. split; [vm_compute; reflexivity|].
    exists "aaaaaaaaaaa". vm_compute. reflexivity. }
  assert (H2 : LiveChatTs.messageCache Sample.staleWorld !! "bbbbbbbbbbb"
               = Some (Sample.entry [Sample.msg "b1" 2000] 0)) by reflexivity.
  assert (H3 : LiveChatTs.clock Sample.lateEnv (LiveChatTs.ticks Sample.staleWorld)
               - LiveChatTs.lastFetched (Sample.entry [Sample.msg "b1" 2000] 0)
               > LiveChatTs.CACHE_EXPIRATION) by (vm_compute; reflexivity).
  split; [exact H1|]. split; [exact H2|]. split; [exact H3|].
  apply (expired_entries_deleted Sample.lateEnv options Sample.staleWorld
           "bbbbbbbbbbb" (Sample.entry [Sample.msg "b1" 2000] 0) H1 H2 H3).
  intros url Hurl. apply list_elem_of_singleton in Hurl as ->.
  vm_compute. discriminate.
Defined.

(** The claim of C10 as stated fails: a call without a valid URL returns
    before any clean-up, and so does a call whose only URL is valid but
    gives no video ID; the stale entry is still cached afterwards. *)
Lemma call_without_cleanup :
  let stale := Sample.entry [Sample.msg "b1" 2000] 0 in
  LiveChatTs.clock Sample.lateEnv (LiveChatTs.ticks Sample.staleWorld)
    - LiveChatTs.lastFetched stale > LiveChatTs.CACHE_EXPIRATION /\
  LiveChatTs.messageCache
    (LiveChatTs.getLiveChat Sample.lateEnv (Sample.tsOptions [] None None)
       Sample.staleWorld).2 !! "bbbbbbbbbbb" = Some stale /\
  LiveChatTs.messageCache
    (LiveChatTs.getLiveChat Sample.lateEnv
       (Sample.tsOptions ["https://youtu.be/vbcdefghijk"] None None)
       Sample.staleWorld).2 !! "bbbbbbbbbbb" = Some stale.
Proof.
  split; [vm_compute; reflexivity|]. split; vm_compute; reflexivity.
Qed.

(** ** Metadata records *)

Section MetadataTasks.
Import VideoMetadataTs.

(** The per-URL task never rejects. *)
Lemma task_settles env url acc : exists m, (task env url acc).1 = Ok m.
Proof.
  destruct acc as [st errors]. unfold task.
  destruct (attempt env url st) as [[m|e] st'] eqn:Ha; simpl; by eexists.
Qed.

Lemma all_settles env validUrls acc :
  exists ms, (all env validUrls acc).1 = Ok ms /\ length ms = length validUrls.
Proof.
  revert acc. induction validUrls as [|url rest IH]; intros acc.
  - exists []. by split.
  - simpl. destruct (task_settles env url acc) as (m & Hm).
    destruct (task env url acc) as [r acc1]. simpl in Hm. subst r.
    destruct (IH acc1) as (ms & Hms & Hlen).
    destruct (all env rest acc1) as [rs acc2]. simpl in Hms. subst rs.
    exists (m :: ms). split; [reflexivity|]. simpl. by rewrite Hlen.
Qed.
End MetadataTasks.

(** C8. What the two implementations do on total failure. In
    api/videoMetadata.ts the operation never raises and answers with one
    record for each valid URL, and a request for a URL whose token
    extraction or metadata request throws is answered with one record for
    that URL, with [viewCount] 0, [likeCount] 0 and the error filled in,
    and with one entry in [errors]. In api/videoMetadata.js a request for
    a valid URL for which neither tokens nor a player response can be had
    is answered with an entry in [errors] and with no record, against the
    claim. *)
Theorem metadata_failure_records :
  (forall (env : VideoMetadataTs.Env) (urls : list string) (st : VideoMetadataTs.State),
      exists r,
        (VideoMetadataTs.getVideoMetadata env urls st).1 = Ok r /\
        length (VideoMetadataTs.metadata r)
          = length (List.filter DirectTokenExtractor.isValidYouTubeUrl urls)) /\
  (forall (env : VideoMetadataTs.Env) (url : string) (st st' : VideoMetadataTs.State)
          (e : string),
      DirectTokenExtractor.isValidYouTubeUrl url = true ->
      VideoMetadataTs.attempt env url st = (Throw e, st') ->
      VideoMetadataTs.getVideoMetadata env [url] st
      = (Ok {| VideoMetadataTs.metadata :=
                 [ {| videoId := default "unknown" (DirectTokenExtractor.extractVideoId url);
                      videoUrl := url; md_title := None;
                      viewCount := 0; likeCount := 0; isLive := false;
                      md_channelName := None;
                      error := Some ("Failed to fetch: " +:+ e) |} ];
               VideoMetadataTs.errors :=
                 ["Failed to fetch metadata from " +:+ url +:+ ": " +:+ e] |}, st')) /\
  (forall (env : VideoMetadataJs.Env) (url videoId : string) (st : VideoMetadataJs.State),
      DirectTokenExtractor.isValidYouTubeUrl url = true ->
      DirectTokenExtractor.extractVideoId url = Some videoId ->
      (DirectTokenExtractor.JsFile.extractYouTubeTokens (VideoMetadataJs.fetchPage env)
         (VideoMetadataJs.clock env) url (VideoMetadataJs.tokenCache st)
         (VideoMetadataJs.ticks st)).1.1 = None ->
      VideoMetadataJs.fetchVideoMetadata env videoId = None ->
      let response := (VideoMetadataJs.getVideoMetadata env [url] st).1 in
      VideoMetadataJs.metadata response = [] /\
      VideoMetadataJs.errors response
        = ["Could not extract metadata for video: " +:+ videoId]).
Proof.
  split; [|split].
  - intros env urls st. unfold VideoMetadataTs.getVideoMetadata.
    set (validUrls := List.filter DirectTokenExtractor.isValidYouTubeUrl urls).
    destruct validUrls as [|url0 rest] eqn:Hv.
    + eexists. split; reflexivity.
    + rewrite <- Hv. clear Hv.
      destruct (all_settles env validUrls (st, [])) as (ms & Hms & Hlen).
      destruct (VideoMetadataTs.all env validUrls (st, [])) as [results [st' errors]].
      simpl in Hms. subst results.
      eexists. split; [reflexivity|exact Hlen].
  - intros env url st st' e Hvalid Ha. unfold VideoMetadataTs.getVideoMetadata.
    cbn [List.filter]. rewrite Hvalid. cbn [VideoMetadataTs.all].
    unfold VideoMetadataTs.task. rewrite Ha. reflexivity.
  - intros env url videoId st Hvalid Hid Htok Hdirect response.
    unfold response, VideoMetadataJs.getVideoMetadata. cbn [fold_left].
    unfold VideoMetadataJs.processUrl. rewrite Hvalid, Hid. simpl.
    destruct (DirectTokenExtractor.JsFile.extractYouTubeTokens _ _ _ _ _) as [[tokens tc] t].
    simpl in Htok. subst tokens. rewrite Hdirect. by split.
Qed.

(** The instance of [metadata_failure_records] for one valid URL while the
    network is down, in both implementations. *)
Lemma metadata_failure_records_witness :
  (exists m,
      (VideoMetadataTs.getVideoMetadata Sample.offlineTs [Sample.urlA] Sample.emptyTs).1
      = Ok {| VideoMetadataTs.metadata := [m];
              VideoMetadataTs.errors :=
                ["Failed to fetch metadata from " +:+ Sample.urlA +:+ ": " +:+
                 "Error: Failed to extract tokens from YouTube: Error: offline"] |} /\
      videoUrl m = Sample.urlA /\ viewCount m = 0 /\ likeCount m = 0 /\
      error m = Some ("Failed to fetch: " +:+
                      "Error: Failed to extract tokens from YouTube: Error: offline")) /\
  (let response :=
     (VideoMetadataJs.getVideoMetadata Sample.offlineJs [Sample.urlA] Sample.emptyJs).1 in
   VideoMetadataJs.metadata response = [] /\
   VideoMetadataJs.errors response
     = ["Could not extract metadata for video: " +:+ "aaaaaaaaaaa"]).
Proof.
  split.
  - eexists. split.
    + rewrite (proj1 (proj2 metadata_failure_records) Sample.offlineTs Sample.urlA
                 Sample.emptyTs Sample.emptyTs
                 "Error: Failed to extract tokens from YouTube: Error: offline");
        [reflexivity|vm_compute; reflexivity..].
    + by repeat split.
  - apply (proj2 (proj2 metadata_failure_records) Sample.offlineJs Sample.urlA
             "aaaaaaaaaaa" Sample.emptyJs); vm_compute; reflexivity.
Defined.

(** The claim of C8 as stated fails in api/videoMetadata.js: for a valid
    URL and a network that is down, the operation returns no metadata
    record at all, only an entry in [errors]. *)
Lemma no_record_on_total_failure :
  let response :=
    fst (VideoMetadataJs.getVideoMetadata Sample.offlineJs [Sample.urlA] Sample.emptyJs) in
  DirectTokenExtractor.isValidYouTubeUrl Sample.urlA = true /\
  VideoMetadataJs.metadata response = [] /\
  VideoMetadataJs.errors response = ["Could not extract metadata for video: aaaaaaaaaaa"].
Proof. repeat split; vm_compute; reflexivity. Qed.

(* ===================================================================== *)
(** * Further properties *)
(* ===================================================================== *)

(** ** The matcher *)

Section MatcherFacts.
Import Regex RegexSem.
Variable total : nat.

Lemma chars_str (l : list ascii) : Js.chars (Js.str l) = l.
Proof. apply list_ascii_of_string_of_list_ascii. Qed.

Lemma str_chars (s : string) : Js.str (Js.chars s) = s.
Proof. apply string_of_list_ascii_of_string. Qed.

Lemma chars_app (s t : string) : Js.chars (s +:+ t) = Js.chars s ++ Js.chars t.
Proof. induction s as [|a s IH]; simpl; [reflexivity|]. unfold Js.chars in *. simpl. by rewrite IH. Qed.

Lemma length_chars (s : string) : length (Js.chars s) = String.length s.
Proof. induction s as [|a s IH]; simpl; [reflexivity|]. unfold Js.chars in *. simpl. by rewrite IH. Qed.

(** [p*] on a class of single characters is [greedy]. *)
Lemma run_star_cls (p : ascii -> bool) s c k :
  run total (Star (Cls p)) s c k = greedy p (fun u => k u c) s.
Proof.
  simpl.
  assert (H : forall fuel s, (length s <= fuel)%nat ->
    (fix loop (fuel : nat) (s : list ascii) (c : caps) {struct fuel} : option caps :=
       match fuel with
       | O => k s c
       | S fuel' =>
           match
             match s with
             | [] => None
             | a :: s' =>
                 if p a
                 then (if Nat.ltb (length s') (length s) then loop fuel' s' c else None)
                 else None
             end
           with
           | Some res => Some res
           | None => k s c
           end
       end) fuel s c = greedy p (fun u => k u c) s).
  { clear s. induction fuel as [|fuel IH]; intros s Hlen.
    - destruct s; [reflexivity|simpl in Hlen; lia].
    - destruct s as [|a s']; [reflexivity|].
      simpl in Hlen. simpl greedy.
      destruct (p a); [|reflexivity].
      assert (Hlt : Nat.ltb (length s') (length (a :: s')) = true)
        by (apply Nat.ltb_lt; simpl; lia).
      rewrite Hlt. rewrite IH by lia. reflexivity. }
  apply H. lia.
Qed.
End MatcherFacts.

Section MatcherSteps.
Import Regex RegexSem.
Variable total : nat.

Lemma run_lit_app (l s : list ascii) c k :
  run total (Lit_chars l) (l ++ s) c k = k s c.
Proof.
  induction l as [|a l IH]; simpl; [reflexivity|].
  rewrite Ascii.eqb_refl. exact IH.
Qed.

Lemma run_lit_sound (l s : list ascii) c k res :
  run total (Lit_chars l) s c k = Some res ->
  exists s', s = l ++ s' /\ k s' c = Some res.
Proof.
  revert s. induction l as [|a l IH]; intros s; simpl.
  - intros H. by exists s.
  - destruct s as [|b s]; [discriminate|].
    destruct (Ascii.eqb a b) eqn:E; [|discriminate].
    apply Ascii.eqb_eq in E as ->. intros H.
    destruct (IH s H) as (s' & -> & Hk). by exists s'.
Qed.

Lemma run_cls_sound (p : ascii -> bool) s c k res :
  run total (Cls p) s c k = Some res ->
  exists a s', s = a :: s' /\ p a = true /\ k s' c = Some res.
Proof.
  simpl. destruct s as [|a s']; [discriminate|].
  destruct (p a) eqn:E; [|discriminate]. intros H. by exists a, s'.
Qed.

Lemma greedy_none (p : ascii -> bool) K s :
  (forall u, u `suffix_of` s -> K u = None) -> greedy p K s = None.
Proof.
  induction s as [|a s IH]; intros HK; simpl.
  - apply HK. reflexivity.
  - assert (Hs : greedy p K s = None).
    { apply IH. intros u Hu. apply HK. by apply suffix_cons_r. }
    rewrite Hs. destruct (p a); apply HK; reflexivity.
Qed.

Lemma greedy_skip (p : ascii -> bool) K pre t res :
  Forall (fun a => p a = true) pre ->
  greedy p K t = Some res -> greedy p K (pre ++ t) = Some res.
Proof.
  intros Hpre Ht. induction Hpre as [|a pre Ha _ IH]; simpl; [exact Ht|].
  by rewrite Ha, IH.
Qed.

Lemma greedy_here (p : ascii -> bool) K a t res :
  greedy p K t = None -> K (a :: t) = Some res -> greedy p K (a :: t) = Some res.
Proof. intros Ht HK. simpl. rewrite Ht. by destruct (p a). Qed.

Lemma greedy_sound (p : ascii -> bool) K s res :
  greedy p K s = Some res ->
  exists w u, s = w ++ u /\ Forall (fun a => p a = true) w /\ K u = Some res.
Proof.
  induction s as [|a s IH]; simpl.
  - intros H. exists [], []. by repeat split.
  - destruct (p a) eqn:E.
    + destruct (greedy p K s) as [r|] eqn:G.
      * intros [= <-]. destruct (IH eq_refl) as (w & u & -> & Hw & Hu).
        exists (a :: w), u. repeat split; [by constructor|exact Hu].
      * intros H. exists [], (a :: s). by repeat split.
    + intros H. exists [], (a :: s). by repeat split.
Qed.

(** On a run of class characters that ends the input or is followed by a
    character outside the class, [p*] takes the whole run when the rest of
    the pattern accepts what follows. *)
Lemma greedy_all (p : ascii -> bool) K w u res :
  Forall (fun a => p a = true) w ->
  K u = Some res ->
  match u with
  | [] => True
  | a :: _ => p a = false
  end ->
  greedy p K (w ++ u) = Some res.
Proof.
  intros Hw HK Hu. apply greedy_skip; [exact Hw|].
  destruct u as [|a u]; simpl; [exact HK|]. by rewrite Hu.
Qed.
End MatcherSteps.

(** ** The continuation of a match *)

Section MatcherContinuation.
Import Regex.
Variable total : nat.

Lemma run_seq r1 r2 s c k :
  run total (Seq r1 r2) s c k = run total r1 s c (fun s' c' => run total r2 s' c' k).
Proof. reflexivity. Qed.

Lemma run_bol s c k :
  run total Bol s c k = if Nat.eqb (length s) total then k s c else None.
Proof. reflexivity. Qed.

Lemma run_group n r s c k :
  run total (Group n r) s c k =
  run total r s c (fun s' c' => k s' ((n, take (length s - length s') s) :: c')).
Proof. reflexivity. Qed.

Lemma run_opt_skip (p : ascii -> bool) s c k :
  match s with
  | [] => True
  | a :: _ => p a = false
  end ->
  run total (Opt (Cls p)) s c k = k s c.
Proof.
  unfold Opt. simpl. destruct s as [|a s]; [reflexivity|]. by intros ->.
Qed.

Lemma run_opt_take (p : ascii -> bool) a s c k res :
  p a = true -> k s c = Some res ->
  run total (Opt (Cls p)) (a :: s) c k = Some res.
Proof. unfold Opt. simpl. by intros -> ->. Qed.

(** A successful match hands some rest of its input to the continuation,
    and the answer is the continuation's. *)
Lemma run_continues (r : re) : forall s c k res,
  run total r s c k = Some res ->
  exists s' c', s' `suffix_of` s /\ k s' c' = Some res.
Proof.
  induction r as [| |p|r1 IH1 r2 IH2|r1 IH1 r2 IH2|r1 IH1|n r1 IH1]; intros s c k res.
  - simpl. intros H. by exists s, c.
  - simpl. destruct (Nat.eqb _ _); [|discriminate]. intros H. by exists s, c.
  - intros H. apply run_cls_sound in H as (a & s' & -> & _ & H).
    exists s', c. split; [|exact H]. by apply suffix_cons_r.
  - rewrite run_seq. intros H.
    apply IH1 in H as (s1 & c1 & Hs1 & H).
    apply IH2 in H as (s2 & c2 & Hs2 & H).
    exists s2, c2. split; [|exact H]. by etrans.
  - simpl. destruct (run total r1 s c k) eqn:E.
    + intros [= ->]. by apply IH1 in E.
    + apply IH2.
  - simpl. generalize (length s) at 1. intros fuel. revert s c.
    induction fuel as [|fuel IHf]; intros s c.
    + intros H. by exists s, c.
    + match goal with
      | |- context [match ?x with Some r => Some r | None => _ end] =>
          destruct x eqn:E
      end.
      * intros [= ->]. apply IH1 in E as (s1 & c1 & Hs1 & E).
        destruct (Nat.ltb _ _); [|discriminate].
        apply IHf in E as (s2 & c2 & Hs2 & E).
        exists s2, c2. split; [|exact E]. by etrans.
      * intros H. by exists s, c.
  - rewrite run_group. intros H.
    apply IH1 in H as (s1 & c1 & Hs1 & H). by exists s1, ((n, take (length s - length s1) s) :: c1).
Qed.

Lemma search_sound (r : re) (s : list ascii) c :
  search total r s = Some c ->
  exists s', s' `suffix_of` s /\ run total r s' [] (fun _ c => Some c) = Some c.
Proof.
  induction s as [|a s IH]; simpl.
  - destruct (run total r [] [] _) eqn:E; [|discriminate]. intros [= ->]. by exists [].
  - destruct (run total r (a :: s) [] _) eqn:E.
    + intros [= ->]. by exists (a :: s).
    + intros H. apply IH in H as (s' & Hs' & H). exists s'. split; [|exact H].
      by apply suffix_cons_r.
Qed.
End MatcherContinuation.

(** ** The ID pattern of utils/directTokenExtractor on the shapes it supports *)

Section VideoIdShapes.
Import Regex RegexSem.
Variable total : nat.

Let k0 : list ascii -> caps -> option caps := fun _ c => Some c.

(** The alternation of markers, the three optional characters and the
    captured run, as they stand in [regExp]. *)
Let G1 : re :=
  Group 1 (Alts [ Group 2 (Seqs [Lit "youtu"; Dot; Lit "be/"]);
                  Group 3 (Lit "v/");
                  Group 4 (Seqs [Lit "/u/"; Cls Js.is_word; Lit "/"]);
                  Group 5 (Lit "embed/");
                  Group 6 (Lit "watch?") ]).
Let Opts (rest : re) : re :=
  Seq (Opt (Chr "?")) (Seq (Opt (Chr "v")) (Seq (Opt (Chr "=")) rest)).
Let Tail : re := Seq (Group 7 (Star (NotIn "#&?"))) (Seq (Star Dot) Eps).

Lemma regExp_parts :
  DirectTokenExtractor.regExp = Seq Bol (Seq (Star Dot) (Seq G1 (Opts Tail))).
Proof. reflexivity. Qed.

Lemma G1_sound s c k res : run total G1 s c k = Some res -> marker_at s.
Proof.
  unfold G1, marker_at. cbn [run Alts].
  repeat match goal with
  | |- context [match ?x with Some r => Some r | None => _ end] =>
      let E := fresh "E" in destruct x eqn:E
  end; intros Hres.
  - left. cbn [Seqs run] in E.
    apply (run_lit_sound total (Js.chars "youtu")) in E as (s1 & -> & E).
    apply run_cls_sound in E as (a & s2 & -> & _ & E).
    apply (run_lit_sound total (Js.chars "be/")) in E as (s3 & -> & E).
    by exists a, s3.
  - right; left.
    apply (run_lit_sound total (Js.chars "v/")) in E0 as (s1 & -> & _). by exists s1.
  - right; right; left. cbn [Seqs run] in E1.
    apply (run_lit_sound total (Js.chars "/u/")) in E1 as (s1 & -> & E1).
    destruct s1 as [|a s2]; [done|]. destruct (Js.is_word a); [|done].
    apply (run_lit_sound total (Js.chars "/")) in E1 as (s3 & -> & E1).
    by exists a, s3.
  - right; right; right; left.
    apply (run_lit_sound total (Js.chars "embed/")) in E2 as (s1 & -> & _). by exists s1.
  - right; right; right; right.
    apply (run_lit_sound total (Js.chars "watch?")) in Hres as (s1 & -> & _). by exists s1.
Qed.
Lemma greedy_const (p : ascii -> bool) (c : caps) s :
  greedy p (fun _ => Some c) s = Some c.
Proof.
  induction s as [|a s IH]; simpl; [reflexivity|]. rewrite IH. by destruct (p a).
Qed.

Lemma take_front {A} (l s : list A) : take (length (l ++ s) - length s) (l ++ s) = l.
Proof.
  rewrite length_app. replace (length l + length s - length s)%nat with (length l) by lia.
  by rewrite take_app_length.
Qed.

(** The captured run followed by the rest of the input. *)
Lemma tail_run w u c :
  Forall (fun a => Js.one_of "#&?" a = false) w ->
  match u with
  | [] => True
  | a :: _ => Js.one_of "#&?" a = true
  end ->
  run total Tail (w ++ u) c k0 = Some ((7%nat, w) :: c).
Proof.
  intros Hw Hu. unfold Tail, NotIn, Dot.
  rewrite run_seq, run_group, run_star_cls.
  apply greedy_all.
  - eapply Forall_impl; [exact Hw|]. by intros a ->.
  - rewrite run_seq, run_star_cls. simpl. unfold k0. rewrite greedy_const. by rewrite take_front.
  - destruct u as [|a u]; [done|]. by rewrite Hu.
Qed.

(** The three optional characters in front of the captured run. *)
Lemma run_opt_strip (a : ascii) s c k res :
  k (strip a s) c = Some res -> run total (Opt (Chr a)) s c k = Some res.
Proof.
  unfold Chr. destruct s as [|b s]; simpl strip.
  - intros H. by rewrite run_opt_skip.
  - destruct (Ascii.eqb a b) eqn:E; intros H.
    + by apply run_opt_take.
    + by rewrite run_opt_skip.
Qed.

Lemma opts_strip rest s c k res :
  run total rest (after_opts s) c k = Some res ->
  run total (Opts rest) s c k = Some res.
Proof.
  intros H. unfold Opts. rewrite run_seq. apply run_opt_strip.
  rewrite run_seq. apply run_opt_strip. rewrite run_seq. by apply run_opt_strip.
Qed.

(** The marker alternatives on the three markers. *)
Lemma G1_watch s c k :
  exists c', forall res, k s c' = Some res ->
  run total G1 (Js.chars "watch?" ++ s) c k = Some res.
Proof. eexists. intros res H. simpl. exact H. Qed.

Lemma G1_short s c k :
  exists c', forall res, k s c' = Some res ->
  run total G1 (Js.chars "youtu.be/" ++ s) c k = Some res.
Proof. eexists. intros res H. simpl. by rewrite H. Qed.

Lemma G1_embed s c k :
  exists c', forall res, k s c' = Some res ->
  run total G1 (Js.chars "embed/" ++ s) c k = Some res.
Proof. eexists. intros res H. simpl. by rewrite H. Qed.
(** No marker inside a text that holds neither a slash nor [watch?]. *)
Lemma starts_with_app (p s : list ascii) : Js.starts_with p (p ++ s) = true.
Proof. induction p as [|a p IH]; simpl; [by destruct s|]. by rewrite Ascii.eqb_refl. Qed.

Lemma includes_chars_app (p a b : list ascii) :
  Js.includes_chars p (a ++ p ++ b) = true.
Proof.
  induction a as [|x a IH]; simpl.
  - assert (H := starts_with_app p b). destruct (p ++ b); simpl; by rewrite H.
  - rewrite IH. apply orb_true_r.
Qed.

Lemma suffix_cons_cases {A} (u : list A) a s :
  u `suffix_of` a :: s -> u = a :: s \/ u `suffix_of` s.
Proof.
  destruct u as [|b u]; [right; apply suffix_nil|]. apply suffix_cons_inv.
Qed.

Lemma includes_chars_suffix (p s u : list ascii) :
  Js.includes_chars p s = false -> u `suffix_of` s -> Js.includes_chars p u = false.
Proof.
  induction s as [|a s IH]; intros H Hu.
  - apply suffix_nil_inv in Hu as ->. exact H.
  - apply suffix_cons_cases in Hu as [->|Hu]; [exact H|].
    simpl in H. apply orb_false_elim in H as [_ H]. by apply IH.
Qed.

Lemma no_marker_inside (y u : list ascii) :
  Js.includes_chars (Js.chars "/") y = false ->
  Js.includes_chars (Js.chars "watch?") y = false ->
  u `suffix_of` y -> ~ marker_at u.
Proof.
  intros Hs Hw Hu Hm.
  apply (includes_chars_suffix _ _ _ Hs) in Hu as Hs'.
  apply (includes_chars_suffix _ _ _ Hw) in Hu as Hw'.
  destruct Hm as [(a & s' & ->)|[(s' & ->)|[(a & s' & ->)|[(s' & ->)|(s' & ->)]]]].
  - assert (H : Js.includes_chars (Js.chars "/") (Js.chars "youtu" ++ a :: Js.chars "be/" ++ s') = true)
      by exact (includes_chars_app (Js.chars "/") (Js.chars "youtu" ++ a :: Js.chars "be") s').
    congruence.
  - assert (H : Js.includes_chars (Js.chars "/") (Js.chars "v/" ++ s') = true)
      by exact (includes_chars_app (Js.chars "/") (Js.chars "v") s').
    congruence.
  - assert (H : Js.includes_chars (Js.chars "/") (Js.chars "/u/" ++ a :: Js.chars "/" ++ s') = true)
      by exact (includes_chars_app (Js.chars "/") [] _).
    congruence.
  - assert (H : Js.includes_chars (Js.chars "/") (Js.chars "embed/" ++ s') = true)
      by exact (includes_chars_app (Js.chars "/") (Js.chars "embed") s').
    congruence.
  - assert (H : Js.includes_chars (Js.chars "watch?") (Js.chars "watch?" ++ s') = true)
      by exact (includes_chars_app (Js.chars "watch?") [] s').
    congruence.
Qed.

(** No marker begins inside one of the three markers and runs into such a text. *)
Lemma no_marker_across (g y u : list ascii) :
  g = Js.chars "watch?" \/ g = Js.chars "youtu.be/" \/ g = Js.chars "embed/" ->
  Js.includes_chars (Js.chars "/") y = false ->
  Js.includes_chars (Js.chars "watch?") y = false ->
  u `suffix_of` tail g ++ y -> ~ marker_at u.
Proof.
  intros Hg Hs Hw Hu.
  assert (Hin : u `suffix_of` y -> ~ marker_at u) by apply (no_marker_inside y u Hs Hw).
  destruct Hg as [->|[->| ->]]; simpl in Hu;
    repeat (apply suffix_cons_cases in Hu as [->|Hu]); try (by apply Hin);
    intros [(a & s' & E)|[(s' & E)|[(a & s' & E)|[(s' & E)|(s' & E)]]]];
    simpl in E; try discriminate E;
    injection E as ->; simpl in Hs; discriminate Hs.
Qed.

(** The whole pattern on a text with one of the three markers, after
    which no marker begins. *)
Lemma regExp_last_marker (pre g y w u : list ascii) :
  length (pre ++ g ++ y) = total ->
  Forall (fun a => Js.is_line_terminator a = false) pre ->
  g = Js.chars "watch?" \/ g = Js.chars "youtu.be/" \/ g = Js.chars "embed/" ->
  after_opts y = w ++ u ->
  (forall v, v `suffix_of` tail g ++ y -> ~ marker_at v) ->
  Forall (fun a => Js.one_of "#&?" a = false) w ->
  match u with
  | [] => True
  | a :: _ => Js.one_of "#&?" a = true
  end ->
  exists c', run total DirectTokenExtractor.regExp (pre ++ g ++ y) [] k0
             = Some ((7%nat, w) :: c').
Proof.
  intros Hlen Hpre Hg Hopts Hfree Hid Hu.
  rewrite regExp_parts, run_seq, run_bol, Hlen, Nat.eqb_refl.
  unfold Dot at 1. rewrite run_seq, run_star_cls.
  set (K := fun u0 : list ascii => run total (Seq G1 (Opts Tail)) u0 [] k0).
  assert (HK : exists c', K (g ++ y) = Some ((7%nat, w) :: c')).
  { unfold K. rewrite run_seq.
    destruct Hg as [->|[->| ->]].
    - destruct (G1_watch (y) [] (fun s' c' => run total (Opts Tail) s' c' k0))
        as (c' & Hc').
      exists c'. apply Hc', opts_strip. rewrite Hopts. by apply tail_run.
    - destruct (G1_short (y) [] (fun s' c' => run total (Opts Tail) s' c' k0))
        as (c' & Hc').
      exists c'. apply Hc', opts_strip. rewrite Hopts. by apply tail_run.
    - destruct (G1_embed (y) [] (fun s' c' => run total (Opts Tail) s' c' k0))
        as (c' & Hc').
      exists c'. apply Hc', opts_strip. rewrite Hopts. by apply tail_run. }
  destruct HK as (c' & HK). exists c'.
  apply greedy_skip.
  { eapply Forall_impl; [exact Hpre|]. by intros a ->. }
  assert (Hg' : exists a, g = a :: tail g) by (destruct Hg as [->|[->| ->]]; by eexists).
  destruct Hg' as (a & Eg). rewrite Eg in HK |- *. simpl app in *.
  apply greedy_here; [|exact HK].
  apply greedy_none. intros v Hv. unfold K. rewrite run_seq.
  destruct (run total G1 v [] _) eqn:E; [|reflexivity].
  apply G1_sound in E. exfalso. revert E. by apply Hfree.
Qed.

(** The whole pattern on a text with one of the three markers. *)
Lemma regExp_marker (pre g y w u : list ascii) :
  length (pre ++ g ++ y) = total ->
  Forall (fun a => Js.is_line_terminator a = false) pre ->
  g = Js.chars "watch?" \/ g = Js.chars "youtu.be/" \/ g = Js.chars "embed/" ->
  after_opts y = w ++ u ->
  Js.includes_chars (Js.chars "/") (y) = false ->
  Js.includes_chars (Js.chars "watch?") (y) = false ->
  Forall (fun a => Js.one_of "#&?" a = false) w ->
  match u with
  | [] => True
  | a :: _ => Js.one_of "#&?" a = true
  end ->
  exists c', run total DirectTokenExtractor.regExp (pre ++ g ++ y) [] k0
             = Some ((7%nat, w) :: c').
Proof.
  intros Hlen Hpre Hg Hopts Hs Hw Hid Hu.
  apply (regExp_last_marker pre g y w u); try assumption.
  intros v Hv. by apply (no_marker_across g y).
Qed.
(** What the captured run can be. *)
Lemma tail_sound s c res :
  run total Tail s c k0 = Some res ->
  exists w u, s = w ++ u /\ Forall (fun a => Js.one_of "#&?" a = false) w /\
              res = (7%nat, w) :: c.
Proof.
  unfold Tail, NotIn, Dot. rewrite run_seq, run_group, run_star_cls. intros H.
  apply greedy_sound in H as (w & u & -> & Hw & H).
  rewrite run_seq, run_star_cls in H. simpl in H. unfold k0 in H.
  rewrite greedy_const, take_front in H. injection H as <-.
  exists w, u. repeat split. eapply Forall_impl; [exact Hw|].
  intros a Ha. by apply negb_true_iff.
Qed.

Lemma regExp_sound s res :
  run total DirectTokenExtractor.regExp s [] k0 = Some res ->
  exists a w u c, s = a ++ w ++ u /\ Forall (fun a => Js.one_of "#&?" a = false) w /\
                  res = (7%nat, w) :: c.
Proof.
  rewrite regExp_parts. unfold Opts. intros H.
  do 6 (rewrite run_seq in H; apply run_continues in H as (? & ? & ? & H)).
  apply tail_sound in H as (w & u & -> & Hw & ->).
  assert (Hsuf : (w ++ u) `suffix_of` s) by (repeat (etrans; [eassumption|]); reflexivity).
  destruct Hsuf as (a & ->). by eexists a, w, u, _.
Qed.
(** Without a marker anywhere the pattern does not match. *)
Lemma regExp_none s :
  (forall u, u `suffix_of` s -> ~ marker_at u) ->
  run total DirectTokenExtractor.regExp s [] k0 = None.
Proof.
  intros Hs. rewrite regExp_parts, run_seq, run_bol.
  destruct (Nat.eqb _ _); [|reflexivity].
  unfold Dot at 1. rewrite run_seq, run_star_cls.
  apply greedy_none. intros u Hu. rewrite run_seq.
  destruct (run total G1 u [] _) eqn:E; [|reflexivity].
  apply G1_sound in E. by apply Hs in E.
Qed.
End VideoIdShapes.

Section VideoIdResults.
Import Regex RegexSem.

Lemma str_app (a b : list ascii) : Js.str (a ++ b) = Js.str a +:+ Js.str b.
Proof.
  rewrite <- (str_chars (Js.str a +:+ Js.str b)). by rewrite chars_app, !chars_str.
Qed.

Lemma take_while_spec {A} (p : A -> bool) (l : list A) :
  l = Js.take_while p l ++ Js.drop_while p l /\
  Forall (fun a => p a = true) (Js.take_while p l) /\
  match Js.drop_while p l with
  | [] => True
  | a :: _ => p a = false
  end.
Proof.
  induction l as [|a l (IH1 & IH2 & IH3)]; simpl; [done|].
  destruct (p a) eqn:E; simpl.
  - repeat split; [by f_equal|by constructor|exact IH3].
  - by repeat split.
Qed.

Lemma take_while_stop {A} (p : A -> bool) (w u : list A) :
  Forall (fun a => p a = true) w ->
  match u with
  | [] => True
  | a :: _ => p a = false
  end ->
  Js.take_while p (w ++ u) = w.
Proof.
  intros Hw Hu. induction Hw as [|a w Ha _ IH]; simpl.
  - destruct u as [|a u]; simpl; [done|]. by rewrite Hu.
  - by rewrite Ha, IH.
Qed.

Lemma search_first total (r : re) s c :
  run total r s [] (fun _ c => Some c) = Some c -> search total r s = Some c.
Proof. intros H. destruct s; simpl; by rewrite H. Qed.

Lemma forallb_Forall_true {A} (p : A -> bool) (l : list A) :
  forallb p l = true -> Forall (fun a => p a = true) l.
Proof. intros H. apply Forall_forall. intros a Ha. rewrite forallb_forall in H. by apply H, list_elem_of_In. Qed.

(** The match on a text with one of the three markers: the seventh group
    is the run after the last marker. *)
Lemma exec_last_marker (pre g y : string) :
  g = "watch?" \/ g = "youtu.be/" \/ g = "embed/" ->
  single_line pre = true ->
  Js.includes y "/" = false ->
  Js.includes y "watch?" = false ->
  exists c', exec DirectTokenExtractor.regExp (pre +:+ g +:+ y)
             = Some ((7%nat, Js.chars (captured y)) :: c').
Proof.
  intros Hg Hpre Hs Hw. unfold exec. rewrite !chars_app.
  destruct (take_while_spec (fun a => negb (Js.one_of "#&?" a)) (after_opts (Js.chars y)))
    as (Hy & Hrun & Hstop).
  assert (Hpre' : Forall (fun a => Js.is_line_terminator a = false) (Js.chars pre)).
  { apply forallb_Forall_true in Hpre. eapply Forall_impl; [exact Hpre|].
    intros a Ha. by apply negb_true_iff. }
  assert (Hg' : Js.chars g = Js.chars "watch?" \/ Js.chars g = Js.chars "youtu.be/" \/
                Js.chars g = Js.chars "embed/").
  { destruct Hg as [->|[->| ->]]; auto. }
  assert (Hrun' : Forall (fun a => Js.one_of "#&?" a = false)
            (Js.take_while (fun a => negb (Js.one_of "#&?" a)) (after_opts (Js.chars y)))).
  { eapply Forall_impl; [exact Hrun|]. intros a Ha. by apply negb_true_iff. }
  assert (Hstop' : match Js.drop_while (fun a => negb (Js.one_of "#&?" a))
                           (after_opts (Js.chars y)) with
                   | [] => True
                   | a :: _ => Js.one_of "#&?" a = true
                   end).
  { destruct (Js.drop_while _ _) as [|a u]; [done|]. by apply negb_false_iff. }
  destruct (regExp_marker _ _ _ _ _ _ eq_refl Hpre' Hg' Hy Hs Hw Hrun' Hstop') as (c' & Hc').
  exists c'. unfold captured. rewrite chars_str. by apply search_first.
Qed.

(** The same when no marker begins after the one in [g]. *)
Lemma exec_marker_free (pre g y : string) :
  g = "watch?" \/ g = "youtu.be/" \/ g = "embed/" ->
  single_line pre = true ->
  (forall v, v `suffix_of` tail (Js.chars g) ++ Js.chars y -> ~ marker_at v) ->
  exists c', exec DirectTokenExtractor.regExp (pre +:+ g +:+ y)
             = Some ((7%nat, Js.chars (captured y)) :: c').
Proof.
  intros Hg Hpre Hfree. unfold exec. rewrite !chars_app.
  destruct (take_while_spec (fun a => negb (Js.one_of "#&?" a)) (after_opts (Js.chars y)))
    as (Hy & Hrun & Hstop).
  assert (Hpre' : Forall (fun a => Js.is_line_terminator a = false) (Js.chars pre)).
  { apply forallb_Forall_true in Hpre. eapply Forall_impl; [exact Hpre|].
    intros a Ha. by apply negb_true_iff. }
  assert (Hg' : Js.chars g = Js.chars "watch?" \/ Js.chars g = Js.chars "youtu.be/" \/
                Js.chars g = Js.chars "embed/").
  { destruct Hg as [->|[->| ->]]; auto. }
  assert (Hrun' : Forall (fun a => Js.one_of "#&?" a = false)
            (Js.take_while (fun a => negb (Js.one_of "#&?" a)) (after_opts (Js.chars y)))).
  { eapply Forall_impl; [exact Hrun|]. intros a Ha. by apply negb_true_iff. }
  assert (Hstop' : match Js.drop_while (fun a => negb (Js.one_of "#&?" a))
                           (after_opts (Js.chars y)) with
                   | [] => True
                   | a :: _ => Js.one_of "#&?" a = true
                   end).
  { destruct (Js.drop_while _ _) as [|a u]; [done|]. by apply negb_false_iff. }
  destruct (regExp_last_marker _ _ _ _ _ _ eq_refl Hpre' Hg' Hy Hfree Hrun' Hstop')
    as (c' & Hc').
  exists c'. unfold captured. rewrite chars_str. by apply search_first.
Qed.

Lemma exec_sound (url : string) c :
  exec DirectTokenExtractor.regExp url = Some c ->
  exists a w u c', Js.chars url = a ++ w ++ u /\
                   Forall (fun a => Js.one_of "#&?" a = false) w /\
                   c = (7%nat, w) :: c'.
Proof.
  unfold exec. intros H. apply search_sound in H as (s' & (a0 & Hs') & H).
  apply regExp_sound in H as (a & w & u & c' & -> & Hw & ->).
  exists (a0 ++ a), w, u, c'. by rewrite Hs', <- app_assoc.
Qed.
End VideoIdResults.


Section VideoIdCorollaries.
Import Regex RegexSem.

Lemma search_none total (r : re) s :
  (forall u, u `suffix_of` s -> run total r u [] (fun _ c => Some c) = None) ->
  search total r s = None.
Proof.
  induction s as [|a s IH]; intros H; simpl.
  - by rewrite H.
  - rewrite H by reflexivity. apply IH. intros u Hu. apply H. by apply suffix_cons_r.
Qed.

Lemma extractVideoId_no_marker (url : string) :
  (forall u, u `suffix_of` Js.chars url -> ~ marker_at u) ->
  DirectTokenExtractor.extractVideoId url = None.
Proof.
  intros H. unfold DirectTokenExtractor.extractVideoId, exec.
  rewrite search_none; [reflexivity|].
  intros u Hu. apply regExp_none. intros v Hv. apply H. by etrans.
Qed.

Lemma free_of_Forall (set s : string) :
  free_of set s = true -> Forall (fun a => negb (Js.one_of set a) = true) (Js.chars s).
Proof. apply forallb_Forall_true. Qed.

(** The run taken from an ID followed by a separator. *)
Lemma take_while_id (id rest : string) :
  free_of "#&?" id = true ->
  empty_or_first_in "#&?" rest = true ->
  Js.take_while (fun a => negb (Js.one_of "#&?" a)) (Js.chars (id +:+ rest)) = Js.chars id.
Proof.
  intros Hid Hrest. rewrite chars_app. apply take_while_stop.
  - by apply free_of_Forall.
  - destruct rest as [|a rest]; [done|]. simpl in *. by rewrite Hrest.
Qed.

Lemma strip_other (a : ascii) (set : string) (b : ascii) (s : list ascii) :
  Js.one_of set b = false -> Js.one_of set a = true -> strip a (b :: s) = b :: s.
Proof.
  intros Hb Ha. simpl. destruct (Ascii.eqb a b) eqn:E; [|reflexivity].
  apply Ascii.eqb_eq in E as ->. congruence.
Qed.
End VideoIdCorollaries.

(** X1 (utils/directTokenExtractor, api/liveChat.ts: extractVideoId).
    On a text that ends with one of the markers [watch?], [youtu.be/] or
    [embed/] followed by a rest [y] holding no slash and no further
    [watch?], whatever single-line text comes before, the result is read
    off the rest alone: drop one [?], one [v] and one [=] where they are
    next, take the characters up to the next [#], [&] or [?]; the run is
    returned when it is 11 characters long, and otherwise the result is
    null. *)
Theorem extractVideoId_last_marker (pre g y : string) :
  g = "watch?" \/ g = "youtu.be/" \/ g = "embed/" ->
  RegexSem.single_line pre = true ->
  Js.includes y "/" = false ->
  Js.includes y "watch?" = false ->
  DirectTokenExtractor.extractVideoId (pre +:+ g +:+ y) =
    (if Nat.eqb (String.length (RegexSem.captured y)) 11
     then Some (RegexSem.captured y) else None) /\
  LiveChatTs.extractVideoId (pre +:+ g +:+ y) =
    DirectTokenExtractor.extractVideoId (pre +:+ g +:+ y).
Proof.
  intros Hg Hpre Hs Hw. split; [|reflexivity].
  destruct (exec_last_marker pre g y Hg Hpre Hs Hw) as (c' & Hc').
  unfold DirectTokenExtractor.extractVideoId. rewrite Hc'. simpl Regex.group.
  by rewrite str_chars.
Qed.

Lemma extractVideoId_last_marker_witness :
  DirectTokenExtractor.extractVideoId
    ("https://www.youtube.com/" +:+ "watch?" +:+ "feature=share&v=dQw4w9WgXcQ") = None.
Proof.
  apply (extractVideoId_last_marker "https://www.youtube.com/" "watch?"
           "feature=share&v=dQw4w9WgXcQ"); [by left|reflexivity..].
Defined.

(** X2 (utils/directTokenExtractor: extractVideoId). A text made of any
    single-line prefix, one of [watch?v=], [youtu.be/] or [embed/], an
    11-character ID free of [#], [&] and [?], and a rest that is empty or
    begins with [#], [&] or [?], yields exactly the ID, as long as no
    slash and no [watch?] follows the marker; after [youtu.be/] and
    [embed/] the ID must not begin with [v] or [=]. *)
Theorem extractVideoId_supported_shapes (pre marker id rest : string) :
  marker = "watch?v=" \/
  ((marker = "youtu.be/" \/ marker = "embed/") /\ RegexSem.first_in "v=" id = false) ->
  RegexSem.single_line pre = true ->
  String.length id = 11%nat ->
  RegexSem.free_of "#&?" id = true ->
  RegexSem.empty_or_first_in "#&?" rest = true ->
  Js.includes (id +:+ rest) "/" = false ->
  Js.includes (id +:+ rest) "watch?" = false ->
  DirectTokenExtractor.extractVideoId (pre +:+ marker +:+ id +:+ rest) = Some id.
Proof.
  intros Hm Hpre Hlen Hid Hrest Hs Hw.
  assert (Hcap : exists g y, (g = "watch?" \/ g = "youtu.be/" \/ g = "embed/") /\
            marker +:+ id +:+ rest = g +:+ y /\
            Js.includes y "/" = false /\ Js.includes y "watch?" = false /\
            RegexSem.captured y = id).
  { destruct Hm as [->|[Hm Hv]].
    - exists "watch?", ("v=" +:+ id +:+ rest). split; [by left|]. split; [reflexivity|].
      split; [exact Hs|]. split; [exact Hw|].
      unfold RegexSem.captured.
      change (RegexSem.after_opts (Js.chars ("v=" +:+ id +:+ rest)))
        with (Js.chars (id +:+ rest)).
      by rewrite take_while_id, str_chars.
    - exists marker, (id +:+ rest). split; [destruct Hm as [->| ->]; auto|].
      split; [reflexivity|]. split; [exact Hs|]. split; [exact Hw|].
      unfold RegexSem.captured, RegexSem.after_opts.
      destruct id as [|a id]; [discriminate Hlen|].
      assert (Hq : Js.one_of "#&?" a = false).
      { simpl in Hid. apply andb_prop in Hid as [Hid _]. by apply negb_true_iff. }
      change (Js.chars (String a id +:+ rest)) with (a :: Js.chars (id +:+ rest)).
      assert (Ha : Js.one_of "?v=" a = false).
      { simpl in Hv. unfold Js.one_of in *. simpl in *.
        destruct (Ascii.eqb a "?"); [by rewrite !orb_true_r in Hq|]. exact Hv. }
      rewrite (strip_other "?" "?v=" a _ Ha eq_refl).
      rewrite (strip_other "v" "?v=" a _ Ha eq_refl).
      rewrite (strip_other "=" "?v=" a _ Ha eq_refl).
      change (a :: Js.chars (id +:+ rest)) with (Js.chars (String a id +:+ rest)).
      by rewrite take_while_id, str_chars. }
  destruct Hcap as (g & y & Hg & Hy & Hs' & Hw' & Hcap).
  rewrite Hy.
  destruct (exec_last_marker pre g y Hg Hpre Hs' Hw') as (c' & Hc').
  unfold DirectTokenExtractor.extractVideoId. rewrite Hc'. simpl Regex.group.
  by rewrite str_chars, Hcap, Hlen.
Qed.

Lemma extractVideoId_supported_shapes_witness :
  DirectTokenExtractor.extractVideoId
    ("https://www.youtube.com/" +:+ "watch?v=" +:+ "dQw4w9WgXcQ" +:+ "&list=PL0123&index=2")
  = Some "dQw4w9WgXcQ" /\
  DirectTokenExtractor.extractVideoId
    ("https://" +:+ "youtu.be/" +:+ "dQw4w9WgXcQ" +:+ "?t=42")
  = Some "dQw4w9WgXcQ".
Proof.
  split.
  - apply (extractVideoId_supported_shapes "https://www.youtube.com/" "watch?v="
             "dQw4w9WgXcQ" "&list=PL0123&index=2"); [by left|reflexivity..].
  - apply (extractVideoId_supported_shapes "https://" "youtu.be/" "dQw4w9WgXcQ" "?t=42");
      [right; split; [by left|reflexivity]|reflexivity..].
Defined.


(** X3 (utils/directTokenExtractor: extractVideoId). After [youtu.be/]
    or [embed/] the optional [v] of the pattern takes the first letter of
    an ID that begins with [v]: the ten characters left are captured and
    the result is null, for every such 11-character ID. *)
Theorem extractVideoId_loses_leading_v (pre marker x rest : string) :
  marker = "youtu.be/" \/ marker = "embed/" ->
  RegexSem.single_line pre = true ->
  String.length (String "v" x) = 11%nat ->
  RegexSem.free_of "#&?" x = true ->
  RegexSem.first_in "=" x = false ->
  RegexSem.empty_or_first_in "#&?" rest = true ->
  Js.includes (x +:+ rest) "/" = false ->
  Js.includes (x +:+ rest) "watch?" = false ->
  DirectTokenExtractor.extractVideoId (pre +:+ marker +:+ String "v" x +:+ rest) = None.
Proof.
  intros Hm Hpre Hlen Hx Heq Hrest Hs Hw.
  assert (Hg : marker = "watch?" \/ marker = "youtu.be/" \/ marker = "embed/")
    by (destruct Hm as [->| ->]; auto).
  destruct (exec_last_marker pre marker (String "v" x +:+ rest) Hg Hpre Hs Hw) as (c' & Hc').
  unfold DirectTokenExtractor.extractVideoId. rewrite Hc'. simpl Regex.group.
  rewrite str_chars.
  assert (Hcap : RegexSem.captured (String "v" x +:+ rest) = x).
  { unfold RegexSem.captured, RegexSem.after_opts.
    change (Js.chars (String "v" x +:+ rest)) with ("v"%char :: Js.chars (x +:+ rest)).
    change (RegexSem.strip "v" (RegexSem.strip "?" ("v"%char :: Js.chars (x +:+ rest))))
      with (Js.chars (x +:+ rest)).
    destruct x as [|a x]; [discriminate Hlen|].
    change (Js.chars (String a x +:+ rest)) with (a :: Js.chars (x +:+ rest)).
    rewrite (strip_other "=" "=" a _ Heq eq_refl).
    change (a :: Js.chars (x +:+ rest)) with (Js.chars (String a x +:+ rest)).
    by rewrite take_while_id, str_chars. }
  rewrite Hcap. simpl in Hlen. injection Hlen as ->. reflexivity.
Qed.

Lemma extractVideoId_loses_leading_v_witness :
  DirectTokenExtractor.extractVideoId
    ("https://" +:+ "youtu.be/" +:+ String "v" "bcdefghijk" +:+ "") = None.
Proof.
  apply (extractVideoId_loses_leading_v "https://" "youtu.be/" "bcdefghijk" "");
    [by left|reflexivity..].
Defined.

(** X4 (utils/directTokenExtractor: extractVideoId). Whatever the input,
    a result that is not null has exactly 11 characters, none of them
    [#], [&] or [?], and it is a piece of the input. *)
Theorem extractVideoId_result (url id : string) :
  DirectTokenExtractor.extractVideoId url = Some id ->
  String.length id = 11%nat /\
  RegexSem.free_of "#&?" id = true /\
  exists pre post, url = pre +:+ id +:+ post.
Proof.
  unfold DirectTokenExtractor.extractVideoId.
  destruct (Regex.exec _ url) as [c|] eqn:E; [|discriminate].
  apply exec_sound in E as (a & w & u & c' & Hurl & Hw & ->).
  simpl Regex.group. cbv iota beta.
  destruct (Nat.eqb (String.length (Js.str w)) 11) eqn:Hlen; [|discriminate].
  intros [= <-]. split; [by apply Nat.eqb_eq|]. split.
  - unfold RegexSem.free_of. rewrite chars_str. apply forallb_forall.
    intros x Hx. rewrite Forall_forall in Hw. apply negb_true_iff, Hw.
    by apply list_elem_of_In.
  - exists (Js.str a), (Js.str u).
    by rewrite <- !str_app, <- Hurl, str_chars.
Qed.

Lemma extractVideoId_result_witness :
  String.length "dQw4w9WgXcQ" = 11%nat /\
  RegexSem.free_of "#&?" "dQw4w9WgXcQ" = true /\
  exists pre post, "https://youtu.be/dQw4w9WgXcQ?t=42" = pre +:+ "dQw4w9WgXcQ" +:+ post.
Proof.
  apply (extractVideoId_result "https://youtu.be/dQw4w9WgXcQ?t=42" "dQw4w9WgXcQ").
  vm_compute. reflexivity.
Defined.


(** X5 (utils/directTokenExtractor: extractVideoId, isValidYouTubeUrl).
    A [/live/] address of youtube.com is named by isValidYouTubeUrl as a
    supported shape, but the ID pattern has no marker for it: whatever
    follows [/live/], as long as it holds no slash and no [watch?], the
    ID is null and the address is rejected. *)
Theorem live_urls_rejected (origin y : string) :
  origin = "https://www.youtube.com" \/ origin = "https://youtube.com" \/
  origin = "http://www.youtube.com" \/ origin = "https://m.youtube.com" ->
  Js.includes y "/" = false ->
  Js.includes y "watch?" = false ->
  Js.includes (origin +:+ "/live/" +:+ y) "youtube.com/live/" = true /\
  DirectTokenExtractor.extractVideoId (origin +:+ "/live/" +:+ y) = None /\
  DirectTokenExtractor.isValidYouTubeUrl (origin +:+ "/live/" +:+ y) = false.
Proof.
  intros Ho Hs Hw.
  assert (Hnone : DirectTokenExtractor.extractVideoId (origin +:+ "/live/" +:+ y) = None).
  { apply extractVideoId_no_marker. intros u Hu. rewrite !chars_app in Hu.
    unfold Js.includes in Hs, Hw.
    assert (Hin : u `suffix_of` Js.chars y -> ~ RegexSem.marker_at u)
      by apply (no_marker_inside _ u Hs Hw).
    revert Hs Hin Hu. generalize (Js.chars y). clear Hw. intros l Hs Hin Hu.
    destruct Ho as [->|[->|[->| ->]]]; simpl in Hu;
      repeat (apply suffix_cons_cases in Hu as [->|Hu]); try (by apply Hin);
      intros [(a & s' & E)|[(s' & E)|[(a & s' & E)|[(s' & E)|(s' & E)]]]];
      simpl in E; try discriminate E;
      injection E as ->; simpl in Hs; discriminate Hs. }
  split; [|split; [exact Hnone|]].
  - unfold Js.includes. rewrite !chars_app.
    destruct Ho as [->|[->|[->| ->]]].
    + exact (includes_chars_app (Js.chars "youtube.com/live/") (Js.chars "https://www.") _).
    + exact (includes_chars_app (Js.chars "youtube.com/live/") (Js.chars "https://") _).
    + exact (includes_chars_app (Js.chars "youtube.com/live/") (Js.chars "http://www.") _).
    + exact (includes_chars_app (Js.chars "youtube.com/live/") (Js.chars "https://m.") _).
  - unfold DirectTokenExtractor.isValidYouTubeUrl. rewrite Hnone. apply andb_false_r.
Qed.

Lemma live_urls_rejected_witness :
  DirectTokenExtractor.isValidYouTubeUrl
    ("https://www.youtube.com" +:+ "/live/" +:+ "dQw4w9WgXcQ?feature=share") = false.
Proof.
  apply (live_urls_rejected "https://www.youtube.com" "dQw4w9WgXcQ?feature=share");
    [by left|reflexivity..].
Defined.


(** ** The ID pattern of scraping/puppeteer.ts *)

Section PuppeteerId.
Import Regex RegexSem.

Lemma run_times_cls_sound total (p : ascii -> bool) (n : nat) : forall s c k res,
  run total (Times n (Cls p)) s c k = Some res ->
  exists w s', s = w ++ s' /\ length w = n /\ Forall (fun a => p a = true) w /\
               k s' c = Some res.
Proof.
  induction n as [|n IH]; intros s c k res; simpl Times.
  - intros H. by exists [], s.
  - rewrite run_seq. intros H.
    apply run_cls_sound in H as (a & s1 & -> & Ha & H).
    apply IH in H as (w & s' & -> & Hlen & Hw & H).
    exists (a :: w), s'. repeat split; [by simpl; f_equal|by constructor|exact H].
Qed.

Lemma puppeteer_exec_sound (url : string) c :
  exec Puppeteer.regex url = Some c ->
  exists a w u c', Js.chars url = a ++ w ++ u /\ length w = 11%nat /\
                   Forall (fun a => Puppeteer.id_char a = true) w /\
                   c = (1%nat, w) :: c'.
Proof.
  unfold exec. intros H. apply search_sound in H as (s' & (a0 & Hs') & H).
  unfold Puppeteer.regex in H. cbn [Seqs] in H. rewrite run_seq in H.
  apply run_continues in H as (s1 & c1 & (a1 & ->) & H).
  rewrite run_seq, run_group in H.
  apply run_times_cls_sound in H as (w & u & -> & Hlen & Hw & H).
  simpl in H. injection H as <-. rewrite take_front.
  exists (a0 ++ a1), w, u, c1. by rewrite Hs', <- app_assoc.
Qed.
End PuppeteerId.

(** X6 (scraping/puppeteer.ts: extractVideoId). Whatever the input, a
    result that is not null has exactly 11 characters, none of them a
    double quote, [&], [?], a slash or white space, and it is a piece of
    the input. *)
Theorem puppeteer_extractVideoId_result (url id : string) :
  Puppeteer.extractVideoId url = Some id ->
  String.length id = 11%nat /\
  forallb Puppeteer.id_char (Js.chars id) = true /\
  exists pre post, url = pre +:+ id +:+ post.
Proof.
  unfold Puppeteer.extractVideoId.
  destruct (Regex.exec _ url) as [c|] eqn:E; [|discriminate].
  apply puppeteer_exec_sound in E as (a & w & u & c' & Hurl & Hlen & Hw & ->).
  simpl Regex.group. intros [= <-].
  split; [by rewrite <- length_chars, chars_str|]. split.
  - rewrite chars_str. apply forallb_forall. intros x Hx.
    rewrite Forall_forall in Hw. by apply Hw, list_elem_of_In.
  - exists (Js.str a), (Js.str u). by rewrite <- !str_app, <- Hurl, str_chars.
Qed.

Lemma puppeteer_extractVideoId_result_witness :
  String.length "dQw4w9WgXcQ" = 11%nat /\
  forallb Puppeteer.id_char (Js.chars "dQw4w9WgXcQ") = true /\
  exists pre post,
    "https://www.youtube.com/watch?v=dQw4w9WgXcQxyz" = pre +:+ "dQw4w9WgXcQ" +:+ post.
Proof.
  apply (puppeteer_extractVideoId_result
           "https://www.youtube.com/watch?v=dQw4w9WgXcQxyz" "dQw4w9WgXcQ").
  vm_compute. reflexivity.
Defined.


(** ** The token cache as a cache *)

(** X7 (utils/directTokenExtractor.js: extractYouTubeTokens). A token
    set that a call has returned is returned again, without a page
    request and with the cache unchanged, by every later call for the same
    URL whose clock reading is less than 15 minutes after the time stamp
    of the set. *)
Theorem js_tokens_reused (fetchPage fetchPage' : string -> outcome Page)
    (clock : nat -> Z) (videoUrl : string)
    (tokenCache tokenCache' : gmap string DirectTokenExtractor.JsFile.Tokens)
    (ticks ticks' : nat) (tokens : DirectTokenExtractor.JsFile.Tokens) :
  DirectTokenExtractor.JsFile.extractYouTubeTokens fetchPage clock videoUrl tokenCache ticks
    = (Some tokens, tokenCache', ticks') ->
  clock ticks' - DirectTokenExtractor.JsFile.tk_timestamp tokens
    < DirectTokenExtractor.CACHE_EXPIRATION ->
  DirectTokenExtractor.JsFile.extractYouTubeTokens fetchPage' clock videoUrl tokenCache' ticks'
    = (Some tokens, tokenCache', S ticks').
Proof.
  intros Hfirst Hfresh.
  assert (Hcached : tokenCache' !! videoUrl = Some tokens).
  { unfold DirectTokenExtractor.JsFile.extractYouTubeTokens in Hfirst.
    repeat case_match; simplify_eq; first [by rewrite lookup_insert_eq | done]. }
  unfold DirectTokenExtractor.JsFile.extractYouTubeTokens. rewrite Hcached.
  apply Z.ltb_lt in Hfresh. by rewrite Hfresh.
Qed.

Lemma js_tokens_reused_witness :
  let url := "https://www.youtube.com/watch?v=abcdefghijk" in
  let clock := fun n : nat => 1000 + 60000 * Z.of_nat n in
  exists tokens cache,
    DirectTokenExtractor.JsFile.extractYouTubeTokens
      (fun _ => Ok Examples.pageWithChat) clock url ∅ 0 = (Some tokens, cache, 1%nat) /\
    DirectTokenExtractor.JsFile.extractYouTubeTokens Examples.offline clock url cache 1
      = (Some tokens, cache, 2%nat).
Proof.
  intros url clock. eexists _, _. split; [reflexivity|].
  apply (js_tokens_reused (fun _ => Ok Examples.pageWithChat) Examples.offline clock url ∅ _ 0 1);
    [reflexivity|vm_compute; reflexivity].
Defined.

(** X8 (utils/directTokenExtractor.ts: extractYouTubeTokens). The same
    for the TypeScript extractor: a returned token set is served again from
    the cache for 15 minutes, whatever the network does. *)
Theorem ts_tokens_reused (fetchPage fetchPage' : string -> outcome Page)
    (clock : nat -> Z) (videoUrl : string)
    (tokenCache tokenCache' : gmap string DirectTokenExtractor.TsFile.Tokens)
    (ticks ticks' : nat) (tokens : DirectTokenExtractor.TsFile.Tokens) :
  DirectTokenExtractor.TsFile.extractYouTubeTokens fetchPage clock videoUrl tokenCache ticks
    = (Ok tokens, tokenCache', ticks') ->
  clock ticks' - DirectTokenExtractor.TsFile.tk_timestamp tokens
    < DirectTokenExtractor.CACHE_EXPIRATION ->
  DirectTokenExtractor.TsFile.extractYouTubeTokens fetchPage' clock videoUrl tokenCache' ticks'
    = (Ok tokens, tokenCache', S ticks').
Proof.
  intros Hfirst Hfresh.
  assert (Hcached : tokenCache' !! videoUrl = Some tokens).
  { unfold DirectTokenExtractor.TsFile.extractYouTubeTokens in Hfirst.
    repeat case_match; simplify_eq; first [by rewrite lookup_insert_eq | done]. }
  unfold DirectTokenExtractor.TsFile.extractYouTubeTokens. rewrite Hcached.
  apply Z.ltb_lt in Hfresh. by rewrite Hfresh.
Qed.

Lemma ts_tokens_reused_witness :
  let url := "https://www.youtube.com/watch?v=abcdefghijk" in
  let clock := fun n : nat => 1000 + 60000 * Z.of_nat n in
  exists tokens cache,
    DirectTokenExtractor.TsFile.extractYouTubeTokens
      (fun _ => Ok Sample.pageWithoutChat) clock url ∅ 0 = (Ok tokens, cache, 1%nat) /\
    DirectTokenExtractor.TsFile.extractYouTubeTokens Examples.offline clock url cache 1
      = (Ok tokens, cache, 2%nat).
Proof.
  intros url clock. eexists _, _. split; [reflexivity|].
  apply (ts_tokens_reused (fun _ => Ok Sample.pageWithoutChat) Examples.offline clock url ∅ _ 0 1);
    [reflexivity|vm_compute; reflexivity].
Defined.


(** ** The message cache of api/liveChat.ts as a cache *)

(** X9 (api/liveChat.ts: getLiveChat, the merge into an existing cache
    entry). While the cached messages and the new ones not yet cached
    number at most 2000, merging the same batch a second time changes
    nothing: every message of the batch is then found among the cached
    IDs. *)
Theorem merge_same_batch_twice (cached newMessages : list ChatMessage) :
  (length (cached ++
     filter (fun msg => id msg ∉ (list_to_set (id <$> cached) : gset string)) newMessages)
   <= 2000)%nat ->
  LiveChatTs.mergeMessages (LiveChatTs.mergeMessages cached newMessages) newMessages
  = LiveChatTs.mergeMessages cached newMessages.
Proof.
  intros Hlen.
  set (unique := filter (fun msg => id msg ∉ (list_to_set (id <$> cached) : gset string))
                   newMessages) in *.
  assert (H1 : LiveChatTs.mergeMessages cached newMessages
               = Js.sort LiveChatTs.byTimestamp (cached ++ unique)).
  { destruct (mergeMessages_cases cached newMessages) as [[_ H]|[H _]]; [exact H|].
    fold unique in H. lia. }
  rewrite H1.
  set (merged := Js.sort LiveChatTs.byTimestamp (cached ++ unique)).
  assert (Hperm : merged ≡ₚ cached ++ unique) by exact (sort_perm timestamp (cached ++ unique)).
  assert (Hnone : filter (fun msg => id msg ∉ (list_to_set (id <$> merged) : gset string))
                    newMessages = []).
  { match goal with |- ?l = [] => destruct l as [|m rest] eqn:E end; [reflexivity|].
    assert (Hin : m ∈ m :: rest) by left. rewrite <- E in Hin.
    apply list_elem_of_filter in Hin as [Hnot Hm]. exfalso. apply Hnot.
    apply elem_of_list_to_set. rewrite Hperm, fmap_app, elem_of_app.
    destruct (decide (id m ∈ id <$> cached)) as [Hc|Hc]; [by left|right].
    apply list_elem_of_fmap. exists m. split; [reflexivity|].
    apply list_elem_of_filter. split; [|exact Hm]. by rewrite elem_of_list_to_set. }
  destruct (mergeMessages_cases merged newMessages) as [[_ H]|[H _]].
  - rewrite H, Hnone, app_nil_r. apply (sort_id timestamp), (sort_sorted timestamp).
  - rewrite Hnone, app_nil_r in H. apply Permutation_length in Hperm. lia.
Qed.

Lemma merge_same_batch_twice_witness :
  let cached := [Sample.msg "m1" 10] in
  let batch := [Sample.msg "m3" 30; Sample.msg "m1" 10; Sample.msg "m2" 20] in
  LiveChatTs.mergeMessages (LiveChatTs.mergeMessages cached batch) batch
  = LiveChatTs.mergeMessages cached batch.
Proof.
  intros cached batch. apply (merge_same_batch_twice cached batch).
  vm_compute. lia.
Defined.


Section CacheFrame.
Import LiveChatTs.
Variable env : Env.
Variable v : string.
Variable e : CacheEntry.
Hypothesis Hlive : forall n, clock env n - lastFetched e <= CACHE_EXPIRATION.

Lemma cleanup_kept now (cache : gmap string CacheEntry) :
  cache !! v = Some e -> now - lastFetched e <= CACHE_EXPIRATION ->
  cleanup now cache !! v = Some e.
Proof.
  intros Hl He. unfold cleanup. apply map_lookup_filter_Some. split; [exact Hl|].
  simpl. lia.
Qed.

Lemma start_kept url w errors :
  messageCache w !! v = Some e ->
  messageCache (start env url w errors).1.2 !! v = Some e.
Proof.
  intros Hl. unfold start. destruct (extractVideoId url) as [videoId|]; [|exact Hl].
  assert (Hc : cleanup (clock env (ticks w)) (messageCache w) !! v = Some e)
    by (apply cleanup_kept; [exact Hl|apply Hlive]).
  destruct (cleanup _ _ !! videoId) as [cachedData|].
  - destruct (_ >? 10000); exact Hc.
  - destruct (Js.inherited videoId); exact Hc.
Qed.

Lemma startAll_kept validUrls w errors :
  messageCache w !! v = Some e ->
  messageCache (startAll env validUrls w errors).1.2 !! v = Some e.
Proof.
  revert w errors. induction validUrls as [|url rest IH]; intros w errors Hl; [exact Hl|].
  simpl. pose proof (start_kept url w errors Hl) as H1.
  destruct (start env url w errors) as [[t w1] errors1]. simpl in H1.
  specialize (IH w1 errors1 H1).
  destruct (startAll env rest w1 errors1) as [[ts w2] errors2]. exact IH.
Qed.

Lemma resume_kept t w errors :
  (forall url videoId now, t = Awaiting url videoId now -> videoId <> v) ->
  messageCache w !! v = Some e ->
  messageCache (resume env t w errors).1.2 !! v = Some e.
Proof.
  intros Hne Hl. destruct t as [result|url videoId now]; simpl; [exact Hl|].
  destruct (poll env url) as [[newMessages cont]|err]; simpl; [|exact Hl].
  rewrite updateCache_other; [exact Hl|]. by eapply Hne.
Qed.

Lemma resumeAll_kept tasks w errors :
  Forall (fun t => forall url videoId now, t = Awaiting url videoId now -> videoId <> v) tasks ->
  messageCache w !! v = Some e ->
  messageCache (resumeAll env tasks w errors).1.2 !! v = Some e.
Proof.
  intros Hall. revert w errors. induction Hall as [|t rest Ht Hrest IH];
    intros w errors Hl; [exact Hl|].
  simpl. pose proof (resume_kept t w errors Ht Hl) as H1.
  destruct (resume env t w errors) as [[r w1] errors1]. simpl in H1.
  specialize (IH w1 errors1 H1).
  destruct (resumeAll env rest w1 errors1) as [[rs w2] errors2]. exact IH.
Qed.
End CacheFrame.

(** X10 (api/liveChat.ts: getLiveChat). The frame of a call: the cache
    entry of a video that is not among the requested ones, and that is not
    older than the 5-minute expiration at any clock reading, is the same
    after the call as before it, whatever the network answers. *)
Theorem unexpired_entries_kept
    (env : LiveChatTs.Env) (options : LiveChatTs.LiveChatOptions) (w : LiveChatTs.World)
    (v : string) (e : LiveChatTs.CacheEntry) :
  LiveChatTs.messageCache w !! v = Some e ->
  (forall n, LiveChatTs.clock env n - LiveChatTs.lastFetched e <= LiveChatTs.CACHE_EXPIRATION) ->
  (forall url, url ∈ LiveChatTs.urls options -> LiveChatTs.extractVideoId url <> Some v) ->
  LiveChatTs.messageCache (LiveChatTs.getLiveChat env options w).2 !! v = Some e.
Proof.
  intros Hl Hlive Hother. unfold LiveChatTs.getLiveChat.
  set (validUrls := List.filter Puppeteer.isValidYouTubeUrl (LiveChatTs.urls options)).
  assert (Hsub : forall url, url ∈ validUrls -> url ∈ LiveChatTs.urls options).
  { intros url Hurl. apply list_elem_of_In, filter_In in Hurl as [Hurl _].
    by apply list_elem_of_In. }
  destruct validUrls as [|url0 rest] eqn:Hv; [exact Hl|].
  rewrite <- Hv in *. clear Hv.
  pose proof (startAll_tasks env validUrls w []) as Ht.
  pose proof (startAll_kept env v e Hlive validUrls w [] Hl) as H1.
  destruct (LiveChatTs.startAll env validUrls w []) as [[tasks w1] errors1].
  simpl in H1, Ht.
  assert (Hne : Forall (fun t => forall url videoId now,
                          t = LiveChatTs.Awaiting url videoId now -> videoId <> v) tasks).
  { eapply Forall_impl; [exact Ht|]. intros t (url & Hurl & Htask) url' videoId now ->.
    simpl in Htask. destruct Htask as [-> Hid]. intros ->.
    by apply (Hother url (Hsub url Hurl)). }
  pose proof (resumeAll_kept env v e tasks w1 errors1 Hne H1) as H2.
  destruct (LiveChatTs.resumeAll env tasks w1 errors1) as [[chatResults w2] errors2].
  exact H2.
Qed.


Lemma unexpired_entries_kept_witness :
  LiveChatTs.messageCache
    (LiveChatTs.getLiveChat Examples.onlineEnv (Sample.tsOptions [Sample.urlA] None None)
       Examples.warmWorld).2 !! "bbbbbbbbbbb"
  = Some (Sample.entry [Sample.msg "b1" 2000] 5000).
Proof.
  apply (unexpired_entries_kept Examples.onlineEnv (Sample.tsOptions [Sample.urlA] None None)
           Examples.warmWorld "bbbbbbbbbbb" (Sample.entry [Sample.msg "b1" 2000] 5000)).
  - reflexivity.
  - intros n. vm_compute. discriminate.
  - intros url Hin. apply list_elem_of_singleton in Hin as ->. vm_compute. discriminate.
Defined.


Section FreshEntries.
Import LiveChatTs.
Variable env : Env.
Variable poll' : string -> outcome (list ChatMessage * option string).

Let env' : Env := {| dateParse := dateParse env; clock := clock env; poll := poll' |}.

(** Every URL of [l] with an ID has a cache entry that is at most 10
    seconds old at every clock reading. *)
Let warm (l : list string) (w : World) : Prop :=
  forall url videoId, url ∈ l -> extractVideoId url = Some videoId ->
    exists e, messageCache w !! videoId = Some e /\
              forall n, clock env n - lastFetched e <= 10000.

Let settled (t : Task) : Prop :=
  match t with
  | Settled _ => True
  | Awaiting _ _ _ => False
  end.

Lemma startAll_env l w errors : startAll env' l w errors = startAll env l w errors.
Proof.
  revert w errors. induction l as [|url rest IH]; intros w errors; [reflexivity|].
  simpl. change (start env' url w errors) with (start env url w errors).
  destruct (start env url w errors) as [[t w1] errors1]. by rewrite IH.
Qed.

Lemma start_warm l url w errors :
  warm l w -> url ∈ l ->
  settled (start env url w errors).1.1 /\ warm l (start env url w errors).1.2.
Proof.
  intros Hw Hin. unfold start.
  destruct (extractVideoId url) as [videoId|] eqn:Hid; [|by split].
  assert (Hkeep : warm l {| messageCache := cleanup (clock env (ticks w)) (messageCache w);
                            ticks := S (ticks w) |}).
  { intros u i Hu Hi. destruct (Hw u i Hu Hi) as (e & He & Hfresh). exists e.
    split; [|exact Hfresh]. simpl. apply cleanup_kept; [exact He|].
    specialize (Hfresh (ticks w)). unfold CACHE_EXPIRATION. lia. }
  destruct (Hkeep url videoId Hin Hid) as (e & He & Hfresh). simpl in He. rewrite He.
  specialize (Hfresh (ticks w)).
  assert (Hold : (clock env (ticks w) - lastFetched e >? 10000) = false).
  { rewrite Z.gtb_ltb. apply Z.ltb_ge. lia. }
  rewrite Hold. by split.
Qed.

Lemma startAll_warm l validUrls w errors :
  warm l w -> (forall url, url ∈ validUrls -> url ∈ l) ->
  Forall settled (startAll env validUrls w errors).1.1.
Proof.
  revert w errors. induction validUrls as [|url rest IH]; intros w errors Hw Hsub;
    [by constructor|].
  simpl. destruct (start_warm l url w errors Hw) as [H1 H2]; [apply Hsub; by left|].
  destruct (start env url w errors) as [[t w1] errors1]. simpl in H1, H2.
  assert (IH' := IH w1 errors1 H2 (fun u Hu => Hsub u (list_elem_of_further _ _ _ Hu))).
  destruct (startAll env rest w1 errors1) as [[ts w2] errors2]. simpl in *.
  by constructor.
Qed.

Lemma resumeAll_settled tasks w errors :
  Forall settled tasks -> resumeAll env' tasks w errors = resumeAll env tasks w errors.
Proof.
  intros Hall. revert w errors. induction Hall as [|t rest Ht _ IH]; intros w errors;
    [reflexivity|].
  destruct t as [result|]; [|done]. simpl. by rewrite IH.
Qed.

Lemma getLiveChat_fresh options w :
  warm (List.filter Puppeteer.isValidYouTubeUrl (urls options)) w ->
  getLiveChat env' options w = getLiveChat env options w.
Proof.
  intros Hw. unfold getLiveChat.
  set (validUrls := List.filter Puppeteer.isValidYouTubeUrl (urls options)) in *.
  destruct validUrls as [|url0 rest] eqn:Hv; [reflexivity|].
  rewrite <- Hv in *. clear Hv.
  rewrite startAll_env.
  pose proof (startAll_warm validUrls validUrls w [] Hw (fun _ H => H)) as Hs.
  destruct (startAll env validUrls w []) as [[tasks w1] errors1]. simpl in Hs.
  rewrite (resumeAll_settled tasks w1 errors1 Hs).
  destruct (resumeAll env tasks w1 errors1) as [[chatResults w2] errors2].
  reflexivity.
Qed.
End FreshEntries.

(** X11 (api/liveChat.ts: getLiveChat). When every requested video has
    a cache entry that is at most 10 seconds old, the call is answered from
    the cache alone: replacing the poller by any other one gives the same
    response and the same cache. *)
Theorem fresh_entries_answer_without_poll
    (env : LiveChatTs.Env) (poll' : string -> outcome (list ChatMessage * option string))
    (options : LiveChatTs.LiveChatOptions) (w : LiveChatTs.World) :
  (forall url videoId,
      url ∈ LiveChatTs.urls options ->
      Puppeteer.isValidYouTubeUrl url = true ->
      LiveChatTs.extractVideoId url = Some videoId ->
      exists e, LiveChatTs.messageCache w !! videoId = Some e /\
                forall n, LiveChatTs.clock env n - LiveChatTs.lastFetched e <= 10000) ->
  LiveChatTs.getLiveChat
    {| LiveChatTs.dateParse := LiveChatTs.dateParse env;
       LiveChatTs.clock := LiveChatTs.clock env;
       LiveChatTs.poll := poll' |} options w
  = LiveChatTs.getLiveChat env options w.
Proof.
  intros H. apply getLiveChat_fresh. intros url videoId Hin Hid.
  apply list_elem_of_In, filter_In in Hin as [Hin Hvalid].
  apply (H url videoId); [by apply list_elem_of_In|exact Hvalid|exact Hid].
Qed.

Lemma fresh_entries_answer_without_poll_witness :
  let options := Sample.tsOptions [Sample.urlB] None None in
  LiveChatTs.getLiveChat
    {| LiveChatTs.dateParse := LiveChatTs.dateParse Examples.onlineEnv;
       LiveChatTs.clock := LiveChatTs.clock Examples.onlineEnv;
       LiveChatTs.poll := Examples.offline |} options Examples.warmWorld
  = LiveChatTs.getLiveChat Examples.onlineEnv options Examples.warmWorld /\
  exists response,
    (LiveChatTs.getLiveChat Examples.onlineEnv options Examples.warmWorld).1 = Ok response /\
    LiveChatTs.r_messages response = [Sample.msg "b1" 2000].
Proof.
  intros options. split; [|eexists; split; [vm_compute; reflexivity|reflexivity]].
  apply (fresh_entries_answer_without_poll Examples.onlineEnv Examples.offline options
           Examples.warmWorld).
  intros url videoId Hin _ Hid. apply list_elem_of_singleton in Hin as ->.
  vm_compute in Hid. injection Hid as <-.
  exists (Sample.entry [Sample.msg "b1" 2000] 5000). split; [reflexivity|].
  intros n. vm_compute. discriminate.
Defined.


(** ** Paging with the cursor *)

Section SortFilter.
Context {A : Type} (key : A -> Z).
Context (P : A -> Prop) `{!forall x, Decision (P x)}.

Let cmp (a b : A) : Z := key a - key b.
Let le (a b : A) : Prop := key a <= key b.

Lemma filter_insert_by x l :
  StronglySorted le l ->
  filter P (Js.insert_by cmp x l) =
  if decide (P x) then Js.insert_by cmp x (filter P l) else filter P l.
Proof.
  induction 1 as [|y l Hs IH Hall]; simpl.
  - rewrite filter_cons, filter_nil. by destruct (decide (P x)).
  - destruct (cmp x y <=? 0) eqn:E.
    + apply Z.leb_le in E. rewrite filter_cons.
      destruct (decide (P x)); [|reflexivity].
      symmetry. apply (insert_by_head key). apply Forall_forall. intros z Hz.
      apply list_elem_of_filter in Hz as [_ Hz].
      unfold le, cmp in *. apply elem_of_cons in Hz as [->|Hz]; [lia|].
      rewrite Forall_forall in Hall. specialize (Hall z Hz). lia.
    + rewrite !filter_cons, IH.
      destruct (decide (P y)), (decide (P x)); simpl; try reflexivity.
      by rewrite E.
Qed.

(** Filtering commutes with the stable sort. *)
Lemma filter_sort l : filter P (Js.sort cmp l) = Js.sort cmp (filter P l).
Proof.
  induction l as [|x l IH]; simpl; [reflexivity|].
  rewrite filter_insert_by by apply (sort_sorted key). rewrite filter_cons, IH.
  by destruct (decide (P x)).
Qed.
End SortFilter.

Section StrictOrder.
Context {A : Type} (key : A -> Z).

Let lt (a b : A) : Prop := key a < key b.

Lemma strictly_sorted_app l1 l2 x y :
  StronglySorted lt (l1 ++ l2) -> x ∈ l1 -> y ∈ l2 -> key x < key y.
Proof.
  induction l1 as [|a l1 IH]; simpl; intros Hs Hx Hy; [by apply elem_of_nil in Hx|].
  apply StronglySorted_inv in Hs as [Hs Hall].
  apply elem_of_cons in Hx as [->|Hx]; [|by apply IH].
  rewrite Forall_forall in Hall. apply Hall, elem_of_app. by right.
Qed.

(** In a strictly ascending list, what is later than the last element of a
    prefix is what follows the prefix. *)
Lemma filter_after_prefix p m r :
  StronglySorted lt (p ++ m :: r) ->
  filter (fun x => key m < key x) (p ++ m :: r) = r.
Proof.
  intros Hs. rewrite filter_app, filter_cons.
  destruct (decide (key m < key m)) as [Hm|_]; [lia|].
  assert (H1 : filter (fun x => key m < key x) p = []).
  { match goal with |- ?l = [] => destruct l as [|z rest] eqn:E end; [reflexivity|].
    assert (Hin : z ∈ z :: rest) by left. rewrite <- E in Hin.
    apply list_elem_of_filter in Hin as [Hlt Hz].
    assert (key z < key m) by (apply (strictly_sorted_app p (m :: r)); [exact Hs|exact Hz|left]).
    lia. }
  rewrite H1. simpl.
  assert (Hr : Forall (fun x => key m < key x) r).
  { apply Forall_forall. intros x Hx.
    apply (strictly_sorted_app (p ++ [m]) r); [by rewrite <- app_assoc| |exact Hx].
    apply elem_of_app. right. left. }
  clear Hs H1. induction Hr as [|x r Hx _ IH]; [reflexivity|].
  by rewrite filter_cons_True, IH.
Qed.
End StrictOrder.


(** X12 (api/liveChat.ts: getLiveChat, filters, sort and pagination).
    Paging with the cursor: when a response names [lastTimestamp], a second
    request over the same messages with that value as [after] keeps
    exactly the messages of the first combined list that are strictly
    later than the cursor; when no two of them share a time stamp, that is
    the first list without the page already returned, so no message is lost
    or repeated. *)
Theorem next_page_continues
    (env : LiveChatTs.Env) (options : LiveChatTs.LiveChatOptions)
    (chatResults : list (list ChatMessage)) (errors : list string)
    (cursor : string) (t : Z) :
  0 <= default 50 (LiveChatTs.pageSize options) ->
  LiveChatTs.lastTimestamp (LiveChatTs.respond env options chatResults errors) = Some t ->
  Js.truthy cursor = true ->
  LiveChatTs.dateParse env cursor = Some t ->
  let all := LiveChatTs.filterAndSort env options chatResults in
  let next :=
    LiveChatTs.filterAndSort env
      {| LiveChatTs.urls := LiveChatTs.urls options;
         LiveChatTs.pageSize := LiveChatTs.pageSize options;
         LiveChatTs.after := Some cursor;
         LiveChatTs.messageIds := LiveChatTs.messageIds options |} chatResults in
  next = filter (fun m => t < timestamp m) all /\
  (StronglySorted (fun a b => timestamp a < timestamp b) all ->
   next = drop (Z.to_nat (default 50 (LiveChatTs.pageSize options))) all /\
   LiveChatTs.r_messages (LiveChatTs.respond env options chatResults errors) ++ next = all).
Proof.
  intros Hsize Hlast Hcursor Hparse all next.
  set (k := Z.to_nat (default 50 (LiveChatTs.pageSize options))).
  assert (Hpage : LiveChatTs.r_messages (LiveChatTs.respond env options chatResults errors)
                  = take k all).
  { unfold LiveChatTs.respond. simpl. fold all.
    destruct (Z.of_nat (length all) >? _) eqn:E.
    - by rewrite slice_prefix.
    - rewrite Z.gtb_ltb in E. apply Z.ltb_ge in E. rewrite take_ge; [reflexivity|].
      unfold k. lia. }
  assert (Hm : exists p m, take k all = p ++ [m] /\ timestamp m = t).
  { unfold LiveChatTs.respond in Hlast. simpl in Hlast. fold all in Hlast.
    change (if Z.of_nat (length all) >? default 50 (LiveChatTs.pageSize options)
            then Js.slice all 0 (Some (default 50 (LiveChatTs.pageSize options)))
            else all)
      with (LiveChatTs.r_messages (LiveChatTs.respond env options chatResults errors))
      in Hlast.
    rewrite Hpage in Hlast.
    destruct (last (take k all)) as [m|] eqn:El; [|discriminate].
    injection Hlast as <-. apply last_Some in El as (p & ->). by exists p, m. }
  destruct Hm as (p & m & Hp & Ht).
  assert (Hall : all = p ++ m :: drop k all).
  { rewrite <- (take_drop k all) at 1. rewrite Hp, <- app_assoc. reflexivity. }
  assert (Hsel : Spec.selected (LiveChatTs.dateParse env) (LiveChatTs.after options)
                   (LiveChatTs.messageIds options) m).
  { assert (Hin : m ∈ all) by (rewrite Hall; apply elem_of_app; right; left).
    unfold all in Hin. rewrite filterAndSort_selected in Hin.
    rewrite (sort_perm timestamp) in Hin.
    by apply list_elem_of_filter in Hin as [Hin _]. }
  assert (Hnext : next = filter (fun m => t < timestamp m) all).
  { unfold next, all. rewrite !filterAndSort_selected. simpl.
    rewrite (filter_sort timestamp). f_equal.
    rewrite list_filter_filter. apply list_filter_iff. intros x.
    destruct Hsel as [_ Hafter]. revert Hafter.
    unfold Spec.selected, Spec.afterCursor. rewrite Hcursor, Hparse.
    destruct (LiveChatTs.after options) as [a|]; [|tauto].
    destruct (Js.truthy a); [|tauto].
    destruct (LiveChatTs.dateParse env a) as [t0|]; [|tauto].
    intros Hafter. split; [|tauto]. intros [Hx Hlt]. split; [exact Hlt|].
    split; [exact Hx|lia]. }
  split; [exact Hnext|]. intros Hstrict.
  assert (Hdrop : next = drop k all).
  { rewrite Hnext, <- Ht. rewrite Hall at 1.
    apply (filter_after_prefix timestamp). by rewrite <- Hall. }
  split; [exact Hdrop|]. rewrite Hpage, Hdrop. apply take_drop.
Qed.


Lemma next_page_continues_witness :
  let m (i : string) (t : Z) := Sample.msg i t in
  let options := Sample.tsOptions [Sample.urlA] (Some 3) None in
  let cached := [[m "m1" 1000; m "m3" 3000; m "m5" 5000; m "m7" 7000; m "m9" 9000]] in
  LiveChatTs.lastTimestamp (LiveChatTs.respond Sample.tsEnv options cached []) = Some 5000 /\
  LiveChatTs.filterAndSort Sample.tsEnv
    (Sample.tsOptions [Sample.urlA] (Some 3) (Some Sample.cursor5)) cached
  = [m "m7" 7000; m "m9" 9000].
Proof.
  intros m options cached. split; [reflexivity|].
  destruct (next_page_continues Sample.tsEnv options cached [] Sample.cursor5 5000)
    as [H _]; [vm_compute; discriminate|reflexivity|reflexivity|reflexivity|].
  exact H.
Defined.


(** ** The snapshot aggregation of api/liveChat.js *)

Section SnapshotHits.
Import LiveChatJs.
Variable env : Env.
Variable fetchPage' : string -> outcome Page.
Variable post' : string -> string -> outcome (option (ChatResponse RawItem)).
Variable pageSize : Z.
Variable after : option string.
Variable messageIds : list string.

Let env' : Env :=
  {| dateParse := dateParse env; clock := clock env; uuidv4 := uuidv4 env;
     fetchPage := fetchPage'; post := post' |}.

(** Every URL of [l] that passes the two URL tests has a cache entry that
    is less than 5 minutes old at every clock reading. *)
Let warm (l : list string) (cache : gmap string CacheEntry) : Prop :=
  forall url videoId, url ∈ l ->
    DirectTokenExtractor.isValidYouTubeUrl url = true ->
    DirectTokenExtractor.extractVideoId url = Some videoId ->
    exists e, cache !! videoId = Some e /\
              forall n, clock env n - lastFetched e < CACHE_EXPIRATION.

Lemma processUrl_hit l url (acc : Acc) :
  warm l (messageCache acc.1.1) -> url ∈ l ->
  processUrl env' pageSize after messageIds url acc
    = processUrl env pageSize after messageIds url acc /\
  messageCache (processUrl env pageSize after messageIds url acc).1.1 = messageCache acc.1.1 /\
  tokenCache (processUrl env pageSize after messageIds url acc).1.1 = tokenCache acc.1.1.
Proof.
  destruct acc as [[w allMessages] errors]. simpl. intros Hw Hin. unfold processUrl.
  destruct (DirectTokenExtractor.isValidYouTubeUrl url) eqn:Hvalid; simpl; [|done].
  destruct (DirectTokenExtractor.extractVideoId url) as [videoId|] eqn:Hid; [|done].
  destruct (Hw url videoId Hin Hvalid Hid) as (e & He & Hfresh). rewrite He.
  specialize (Hfresh (FormattersJs.ticks (counters w))). apply Z.ltb_lt in Hfresh.
  by rewrite Hfresh.
Qed.

Lemma fold_hits l urls (acc : Acc) :
  warm l (messageCache acc.1.1) -> (forall url, url ∈ urls -> url ∈ l) ->
  let step e := fun acc url => processUrl e pageSize after messageIds url acc in
  fold_left (step env') urls acc = fold_left (step env) urls acc /\
  messageCache (fold_left (step env) urls acc).1.1 = messageCache acc.1.1 /\
  tokenCache (fold_left (step env) urls acc).1.1 = tokenCache acc.1.1.
Proof.
  revert acc. induction urls as [|url rest IH]; intros acc Hw Hsub; simpl; [done|].
  destruct (processUrl_hit l url acc Hw) as (H1 & H2 & H3); [apply Hsub; by left|].
  rewrite H1.
  destruct (IH (processUrl env pageSize after messageIds url acc)) as (I1 & I2 & I3).
  - by rewrite H2.
  - intros u Hu. apply Hsub. by right.
  - simpl in *. by rewrite I1, I2, I3, H2, H3.
Qed.
End SnapshotHits.

(** X13 (api/liveChat.js: getLiveChat). While every requested video has
    a cache entry less than 5 minutes old, a call is answered from the
    message cache alone: no page and no chat request has any influence on
    the response, and both caches are left as they were. *)
Theorem snapshot_served_from_cache
    (env : LiveChatJs.Env) (fetchPage' : string -> outcome Page)
    (post' : string -> string -> outcome (option (ChatResponse RawItem)))
    (options : LiveChatJs.LiveChatOptions) (w : LiveChatJs.World) :
  (forall url videoId,
      url ∈ LiveChatJs.urls options ->
      DirectTokenExtractor.isValidYouTubeUrl url = true ->
      DirectTokenExtractor.extractVideoId url = Some videoId ->
      exists e, LiveChatJs.messageCache w !! videoId = Some e /\
                forall n, LiveChatJs.clock env n - LiveChatJs.lastFetched e
                          < LiveChatJs.CACHE_EXPIRATION) ->
  LiveChatJs.getLiveChat
    {| LiveChatJs.dateParse := LiveChatJs.dateParse env;
       LiveChatJs.clock := LiveChatJs.clock env;
       LiveChatJs.uuidv4 := LiveChatJs.uuidv4 env;
       LiveChatJs.fetchPage := fetchPage';
       LiveChatJs.post := post' |} options w
  = LiveChatJs.getLiveChat env options w /\
  LiveChatJs.messageCache (LiveChatJs.getLiveChat env options w).2 = LiveChatJs.messageCache w /\
  LiveChatJs.tokenCache (LiveChatJs.getLiveChat env options w).2 = LiveChatJs.tokenCache w.
Proof.
  intros Hw. unfold LiveChatJs.getLiveChat.
  destruct (fold_hits env fetchPage' post' (default 200 (LiveChatJs.pageSize options))
              (LiveChatJs.after options) (default [] (LiveChatJs.messageIds options))
              (LiveChatJs.urls options) (LiveChatJs.urls options) (w, [], []) Hw
              (fun _ H => H)) as (H1 & H2 & H3).
  simpl in H1, H2, H3. rewrite H1. revert H2 H3.
  match goal with
  | |- context [fold_left ?f ?l ?a] => destruct (fold_left f l a) as [[w' allMessages] errors]
  end.
  simpl. by intros -> ->.
Qed.

Lemma snapshot_served_from_cache_witness :
  let options := Sample.jsOptions [Sample.urlA; "not a url"; Sample.urlB] 3 in
  LiveChatJs.getLiveChat
    {| LiveChatJs.dateParse := LiveChatJs.dateParse Sample.jsEnv;
       LiveChatJs.clock := LiveChatJs.clock Sample.jsEnv;
       LiveChatJs.uuidv4 := LiveChatJs.uuidv4 Sample.jsEnv;
       LiveChatJs.fetchPage := fun _ => Ok Examples.pageWithChat;
       LiveChatJs.post := fun _ _ => Ok None |} options Sample.jsWorld
  = LiveChatJs.getLiveChat Sample.jsEnv options Sample.jsWorld.
Proof.
  intros options.
  apply (snapshot_served_from_cache Sample.jsEnv (fun _ => Ok Examples.pageWithChat)
           (fun _ _ => Ok None) options Sample.jsWorld).
  intros url videoId Hin Hvalid Hid.
  apply elem_of_cons in Hin as [->|Hin]; [|apply elem_of_cons in Hin as [->|Hin]].
  - vm_compute in Hid. injection Hid as <-. eexists. split; [reflexivity|].
    intros n. vm_compute. reflexivity.
  - vm_compute in Hvalid. discriminate Hvalid.
  - apply list_elem_of_singleton in Hin as ->.
    vm_compute in Hid. injection Hid as <-. eexists. split; [reflexivity|].
    intros n. vm_compute. reflexivity.
Defined.


Section SnapshotContract.
Import LiveChatJs.
Variable env : Env.
Variable pageSize : Z.
Variable after : option string.
Variable messageIds : list string.

Lemma slice_elem_of {A} (l : list A) (a : Z) (b : option Z) (x : A) :
  x ∈ Js.slice l a b -> x ∈ l.
Proof.
  unfold Js.slice. intros H.
  eapply elem_of_sublist; [exact H|]. etrans; [apply sublist_take|apply sublist_drop].
Qed.

Lemma limit_elem_of (l : list ChatMessage) m : m ∈ limit pageSize l -> m ∈ l.
Proof. unfold limit. destruct (_ >? _); [apply slice_elem_of|done]. Qed.

Lemma slice_suffix_length {A} (l : list A) (n : Z) :
  0 < n -> (length (Js.slice l (- n) None) <= Z.to_nat n)%nat.
Proof.
  intros Hn. unfold Js.slice, Js.rel_index.
  rewrite length_take, length_drop.
  destruct (- n <? 0) eqn:E; [apply Z.ltb_lt in E|apply Z.ltb_ge in E]; lia.
Qed.

(** What one turn of the loop keeps true. *)
Let good (n : nat) (acc : Acc) : Prop :=
  Forall (Spec.selected (dateParse env) after (Some messageIds)) acc.1.2 /\
  (length acc.2 <= n)%nat.

Lemma processUrl_good n url acc :
  good n acc -> good (S n) (processUrl env pageSize after messageIds url acc).
Proof.
  destruct acc as [[w allMessages] errors]. unfold good. simpl. intros [Hsel Herr].
  assert (Hadd : forall msgs,
    Forall (Spec.selected (dateParse env) after (Some messageIds))
      (allMessages ++ limit pageSize (filterMessages env after messageIds msgs))).
  { intros msgs. apply Forall_app. split; [exact Hsel|].
    apply Forall_forall. intros m Hm. apply limit_elem_of in Hm.
    rewrite filterMessages_selected in Hm. by apply list_elem_of_filter in Hm as [Hm _]. }
  unfold processUrl.
  repeat (case_match; simpl; simplify_eq/=);
    rewrite ?length_app; simpl; split; first [apply Hadd | exact Hsel | lia].
Qed.

Lemma fold_good urls n acc :
  good n acc ->
  good (n + length urls)
    (fold_left (fun acc url => processUrl env pageSize after messageIds url acc) urls acc).
Proof.
  revert n acc. induction urls as [|url rest IH]; intros n acc Hg; simpl.
  - by rewrite Nat.add_0_r.
  - replace (n + S (length rest))%nat with (S n + length rest)%nat by lia.
    apply IH. by apply processUrl_good.
Qed.
End SnapshotContract.


(** X14 (api/liveChat.js: getLiveChat). Whatever the caches and the
    network do, the messages of a response are in ascending order of time
    stamp, every one of them passes both client filters (its ID is not in
    [messageIds] and it is strictly after the [after] cursor), and there
    are at most as many errors as requested URLs. *)
Theorem snapshot_response_contract
    (env : LiveChatJs.Env) (options : LiveChatJs.LiveChatOptions) (w : LiveChatJs.World) :
  let response := (LiveChatJs.getLiveChat env options w).1 in
  Spec.ascending (LiveChatJs.r_messages response) /\
  (forall m, m ∈ LiveChatJs.r_messages response ->
             Spec.selected (LiveChatJs.dateParse env) (LiveChatJs.after options)
               (LiveChatJs.messageIds options) m) /\
  (length (LiveChatJs.r_errors response) <= length (LiveChatJs.urls options))%nat /\
  LiveChatJs.totalMessages response = length (LiveChatJs.r_messages response).
Proof.
  unfold LiveChatJs.getLiveChat.
  pose proof (fold_good env (default 200 (LiveChatJs.pageSize options))
                (LiveChatJs.after options) (default [] (LiveChatJs.messageIds options))
                (LiveChatJs.urls options) 0 (w, [], [])) as H.
  simpl in H. specialize (H (conj (Forall_nil_2 _) (le_n 0))).
  revert H.
  match goal with
  | |- context [fold_left ?f ?l ?a] => destruct (fold_left f l a) as [[w' allMessages] errors]
  end.
  simpl. intros [Hsel Herr]. split; [apply (sort_sorted timestamp)|].
  split; [|split; [exact Herr|reflexivity]].
  intros m Hm.
  assert (Hin : m ∈ allMessages).
  { revert Hm. unfold LiveChatJs.byTimestamp. by rewrite (sort_perm timestamp). }
  rewrite Forall_forall in Hsel. exact (Hsel m Hin).
Qed.

Section SnapshotCache.
Import LiveChatJs.
Variable env : Env.
Variable pageSize : Z.
Variable after : option string.
Variable messageIds : list string.

Let bounded (cache : gmap string CacheEntry) : Prop :=
  forall v e, cache !! v = Some e -> (length (messages e) <= 2000)%nat.

Lemma processUrl_bounded url acc :
  bounded (messageCache acc.1.1) ->
  bounded (messageCache (processUrl env pageSize after messageIds url acc).1.1).
Proof.
  destruct acc as [[w allMessages] errors]. simpl. intros Hb. unfold processUrl.
  repeat (case_match; simpl; simplify_eq/=); try exact Hb.
  all: intros v e; rewrite lookup_insert_Some; intros [[_ <-]|[_ He]]; [|by eapply Hb].
  all: simpl; apply (slice_suffix_length _ 2000); lia.
Qed.

Lemma fold_bounded urls acc :
  bounded (messageCache acc.1.1) ->
  bounded (messageCache
    (fold_left (fun acc url => processUrl env pageSize after messageIds url acc) urls acc).1.1).
Proof.
  revert acc. induction urls as [|url rest IH]; intros acc Hb; simpl; [exact Hb|].
  apply IH. by apply processUrl_bounded.
Qed.
End SnapshotCache.

(** X15 (api/liveChat.js: getLiveChat). The bound of the message cache
    is an invariant of the snapshot endpoint: if no entry holds more than
    2000 messages before a call, none does after it. *)
Theorem snapshot_cache_bounded
    (env : LiveChatJs.Env) (options : LiveChatJs.LiveChatOptions) (w : LiveChatJs.World) :
  (forall v e, LiveChatJs.messageCache w !! v = Some e ->
               (length (LiveChatJs.messages e) <= 2000)%nat) ->
  forall v e, LiveChatJs.messageCache (LiveChatJs.getLiveChat env options w).2 !! v = Some e ->
              (length (LiveChatJs.messages e) <= 2000)%nat.
Proof.
  intros Hb. unfold LiveChatJs.getLiveChat.
  pose proof (fold_bounded env (default 200 (LiveChatJs.pageSize options))
                (LiveChatJs.after options) (default [] (LiveChatJs.messageIds options))
                (LiveChatJs.urls options) (w, [], []) Hb) as H.
  revert H.
  match goal with
  | |- context [fold_left ?f ?l ?a] => destruct (fold_left f l a) as [[w' allMessages] errors]
  end.
  simpl. intros H. exact H.
Qed.


Lemma snapshot_cache_bounded_witness :
  let w' := (LiveChatJs.getLiveChat Sample.jsEnv (Sample.jsOptions [Sample.urlA] 3)
               Sample.jsWorld).2 in
  LiveChatJs.messageCache w' !! "aaaaaaaaaaa"
    = Some (Sample.jsEntry [Sample.msg "a1" 1000; Sample.msg "a2" 3000] 0) /\
  (length (LiveChatJs.messages (Sample.jsEntry [Sample.msg "a1" 1000; Sample.msg "a2" 3000] 0))
   <= 2000)%nat.
Proof.
  intros w'. split; [reflexivity|].
  apply (snapshot_cache_bounded Sample.jsEnv (Sample.jsOptions [Sample.urlA] 3) Sample.jsWorld)
    with (v := "aaaaaaaaaaa"); [|reflexivity].
  intros v e H. unfold Sample.jsWorld in H. simpl in H.
  apply lookup_insert_Some in H as [[_ <-]|[_ H]]; [simpl; lia|].
  apply lookup_singleton_Some in H as [_ <-]. simpl. lia.
Defined.


(** ** The records of api/videoMetadata.ts *)

Section DigitStrings.

Lemma digits_value_nonneg l : forall acc, 0 <= acc -> 0 <= Js.digits_value acc l.
Proof. induction l as [|a l IH]; simpl; intros acc Hacc; [exact Hacc|]. apply IH. lia. Qed.

Lemma digit_not_sign a :
  Js.is_digit a = true ->
  Js.is_space a = false /\ Ascii.eqb a "-" = false /\ Ascii.eqb a "+" = false.
Proof. destruct a as [[] [] [] [] [] [] [] []]; vm_compute; intros H; try discriminate H; done. Qed.

(** [parseInt] of a string of digits is not negative. *)
Lemma parseInt_digits_nonneg s n :
  Forall (fun a => Js.is_digit a = true) (Js.chars s) -> Js.parseInt s = Some n -> 0 <= n.
Proof.
  unfold Js.parseInt. intros Hd. destruct (Js.chars s) as [|a l]; simpl; [discriminate|].
  apply Forall_cons in Hd as [Ha Hl]. destruct (digit_not_sign a Ha) as (H1 & H2 & H3).
  rewrite H1, H2, H3. simpl. rewrite Ha. intros [= <-].
  apply (digits_value_nonneg (a :: Js.take_while Js.is_digit l) 0). lia.
Qed.

Lemma digits_only_digits s :
  Forall (fun a => Js.is_digit a = true) (Js.chars (Js.digits_only s)).
Proof.
  unfold Js.digits_only. rewrite chars_str. apply Forall_forall. intros a Ha.
  by apply list_elem_of_filter in Ha as [Ha _].
Qed.

Lemma take_while_Forall {A} (p : A -> bool) l : Forall (fun a => p a = true) (Js.take_while p l).
Proof. by destruct (take_while_spec p l) as (_ & H & _). Qed.
End DigitStrings.

Section MetadataRecords.
Import VideoMetadataTs.

Lemma parseViewCount_nonneg renderer n : parseViewCount renderer = Some n -> 0 <= n.
Proof.
  unfold parseViewCount. destruct (Js.truthy _); [|discriminate].
  apply parseInt_digits_nonneg, digits_only_digits.
Qed.

Lemma parseLikeText_nonneg likeText n : parseLikeText likeText = Some n -> 0 <= n.
Proof.
  unfold parseLikeText.
  set (run := Js.take_while is_like_char _).
  assert (Hrun : Forall (fun a => is_like_char a = true) run) by apply take_while_Forall.
  destruct run as [|a run'] eqn:E; [discriminate|]. rewrite <- E in *.
  apply parseInt_digits_nonneg. rewrite chars_str. apply Forall_forall. intros x Hx.
  apply list_elem_of_filter in Hx as [Hne Hx]. rewrite Forall_forall in Hrun.
  specialize (Hrun x Hx). unfold is_like_char in Hrun.
  apply orb_true_iff in Hrun as [Hd|Hc]; [exact Hd|].
  apply Ascii.eqb_eq in Hc. contradiction.
Qed.

Lemma likeCountFromMutations_nonneg mutations current n :
  0 <= current -> likeCountFromMutations mutations current = Ok n -> 0 <= n.
Proof.
  intros Hc. induction mutations as [|[mutation|] rest IH]; simpl;
    [by intros [= <-]| |discriminate].
  destruct (likeCountEntity mutation) as [e|]; [|exact IH].
  destruct (entityLikeCount e) as [k|]; [|exact IH].
  destruct (0 <? k) eqn:E; [|exact IH]. apply Z.ltb_lt in E. intros [= <-]. lia.
Qed.

(** What every record that the [try] block of [parseMetadata] builds for
    a URL satisfies. *)
Let inv (url vid : string) (m : VideoMetadata) : Prop :=
  videoUrl m = url /\ videoId m = vid /\ 0 <= viewCount m /\ 0 <= likeCount m /\
  error m = None.

Lemma setView_inv url vid m renderer :
  inv url vid m -> inv url vid (setView m (parseViewCount renderer) (vc_isLive renderer)).
Proof.
  intros (H1 & H2 & H3 & H4 & H5). unfold inv, setView. simpl. repeat split; try done.
  destruct (parseViewCount renderer) as [n|] eqn:E; simpl; [|exact H3].
  by eapply parseViewCount_nonneg.
Qed.

Lemma setLike_inv url vid m n :
  inv url vid m -> (forall k, n = Some k -> 0 <= k) -> inv url vid (setLike m n).
Proof.
  intros (H1 & H2 & H3 & H4 & H5) Hn. unfold inv, setLike.
  destruct n as [k|]; simpl; repeat split; try done. by apply Hn.
Qed.

Lemma setLike_text_inv url vid m likeText :
  inv url vid m -> inv url vid (setLike m (parseLikeText likeText)).
Proof. intros Hm. apply setLike_inv; [exact Hm|]. intros k. apply parseLikeText_nonneg. Qed.

Lemma setTitle_inv url vid m t : inv url vid m -> inv url vid (setTitle m t).
Proof. by intros (H1 & H2 & H3 & H4 & H5). Qed.

Lemma setChannel_inv url vid m c : inv url vid m -> inv url vid (setChannel m c).
Proof. by intros (H1 & H2 & H3 & H4 & H5). Qed.

Lemma primaryAction_inv clock url vid action acc :
  inv url vid acc.1 -> inv url vid (primaryAction clock action acc).1.
Proof.
  destruct acc as [m st]. simpl. intros Hm. unfold primaryAction.
  repeat (case_match; simplify_eq/=);
    repeat first [ apply setChannel_inv | apply setTitle_inv | apply setLike_text_inv
                 | apply setView_inv ]; exact Hm.
Qed.

Lemma primaryActions_inv clock url vid acts acc m st :
  primaryActions clock acts acc = (Ok m, st) -> inv url vid acc.1 -> inv url vid m.
Proof.
  revert acc. induction acts as [|[action|] rest IH]; intros acc; simpl.
  - by intros [= <- _].
  - intros H Hm. apply (IH _ H). by apply primaryAction_inv.
  - discriminate.
Qed.

Lemma backupInfo_inv clock url vid videoInfo acc m st :
  backupInfo clock videoInfo acc = (Ok m, st) -> inv url vid acc.1 -> inv url vid m.
Proof.
  destruct acc as [m0 st0]. simpl. unfold backupInfo. intros H Hm.
  repeat (case_match; simplify_eq/=);
    repeat first [ apply setChannel_inv | apply setTitle_inv | apply setLike_text_inv
                 | apply setView_inv ]; exact Hm.
Qed.

Lemma backupContents_inv clock url vid contents acc m st :
  backupContents clock contents acc = (Ok m, st) -> inv url vid acc.1 -> inv url vid m.
Proof.
  unfold backupContents. intros H Hm.
  destruct (findEntry _ _) as [found|e] in H; [|discriminate].
  assert (Hp : forall parsed st1 m1,
            match found with
            | Some x => match videoPrimaryInfoRenderer x with
                        | Some videoInfo => backupInfo clock videoInfo acc
                        | None => (Ok acc.1, acc.2)
                        end
            | None => (Ok acc.1, acc.2)
            end = (parsed, st1) -> parsed = Ok m1 -> inv url vid m1).
  { intros parsed st1 m1 E ->. destruct found as [x|]; [|by injection E as <- _].
    destruct (videoPrimaryInfoRenderer x) as [videoInfo|]; [|by injection E as <- _].
    by eapply backupInfo_inv. }
  destruct (match found with
            | Some x => _
            | None => _
            end) as [parsed st1] eqn:E.
  destruct parsed as [m1|e]; [|discriminate].
  specialize (Hp _ _ m1 eq_refl eq_refl).
  repeat (case_match; simplify_eq/=); exact Hp.
Qed.

Lemma parseBody_inv clock data url vid source extracted st m st' :
  parseBody clock data url vid source extracted st = (Ok m, st') -> inv url vid m.
Proof.
  unfold parseBody.
  set (metadata0 := {| videoId := vid; videoUrl := url; md_title := None;
                       viewCount := 0; likeCount := 0; isLive := false;
                       md_channelName := None; error := None |}).
  assert (H0 : inv url vid metadata0) by (unfold inv; simpl; repeat split; lia).
  set (named := match channelNameCache st !! vid with
                | Some cachedName => _
                | None => _
                end).
  assert (Hnamed : inv url vid named.1).
  { unfold named. repeat (case_match; simplify_eq/=);
      repeat first [apply setChannel_inv]; exact H0. }
  destruct named as [metadata1 st1]. simpl in Hnamed.
  set (parsed := match source with
                 | primary => _
                 | backup => _
                 end).
  assert (Hparsed : forall m2, parsed.1 = Ok m2 -> inv url vid m2).
  { intros m2. unfold parsed.
    destruct source, data as [d|]; cbv beta iota; try (by intros [= <-]).
    - destruct (dt_actions d) as [acts|]; [|by intros [= <-]].
      destruct (primaryActions clock acts (metadata1, st1)) as [r s] eqn:E. simpl.
      intros ->. by eapply primaryActions_inv.
    - destruct (dt_contents d) as [contents|]; [|by intros [= <-]].
      destruct (backupContents clock contents (metadata1, st1)) as [r s] eqn:E. simpl.
      intros ->. by eapply backupContents_inv. }
  destruct parsed as [[metadata2|e] st2]; [|discriminate].
  specialize (Hparsed metadata2 eq_refl).
  set (viewed := match data with
                 | Some d => match dt_alternate d with
                             | Some renderer => _
                             | None => metadata2
                             end
                 | None => metadata2
                 end).
  assert (Hviewed : inv url vid viewed).
  { unfold viewed. repeat (case_match; simplify_eq/=);
      repeat first [apply setView_inv]; exact Hparsed. }
  clearbody viewed.
  destruct data as [d|]; [|by intros [= <- _]].
  destruct (dt_mutations d) as [mutations|]; [|by intros [= <- _]].
  destruct (likeCount viewed =? 0) eqn:E0; [|by intros [= <- _]].
  destruct (likeCountFromMutations mutations (likeCount viewed)) as [likes|e] eqn:El;
    [|discriminate].
  intros [= <- _].
  apply (setLike_inv url vid viewed (Some likes)); [exact Hviewed|].
  intros k [= <-].
  apply (likeCountFromMutations_nonneg _ _ _ (proj1 (proj2 (proj2 (proj2 Hviewed)))) El).
Qed.

(** A record of a URL: one that the [try] block has built, or the one of
    the [catch], which has no title and both counts at 0. *)
Let parsed (url vid : string) (m : VideoMetadata) : Prop :=
  videoUrl m = url /\ videoId m = vid /\ 0 <= viewCount m /\ 0 <= likeCount m /\
  (error m = None \/
   (MetadataRule.parseFailed m /\ md_title m = None /\ viewCount m = 0 /\ likeCount m = 0)).

Lemma parseMetadata_parsed clock data url vid source extracted st :
  parsed url vid (parseMetadata clock data url vid source extracted st).1.
Proof.
  unfold parseMetadata.
  destruct (parseBody clock data url vid source extracted st) as [[m|e] st'] eqn:E; simpl.
  - destruct (parseBody_inv _ _ _ _ _ _ _ _ _ E) as (H1 & H2 & H3 & H4 & H5).
    unfold parsed. repeat split; try done. by left.
  - unfold parsed. simpl. repeat split; try done. right. by repeat split.
Qed.

(** The merge keeps the error of the primary record, and may raise its
    counts. *)
Lemma mergeBackup_parsed url vid m b :
  parsed url vid m -> parsed url vid b ->
  videoUrl (mergeBackup m b) = url /\ videoId (mergeBackup m b) = vid /\
  0 <= viewCount (mergeBackup m b) /\ 0 <= likeCount (mergeBackup m b) /\
  (error (mergeBackup m b) = None \/ MetadataRule.parseFailed (mergeBackup m b)).
Proof.
  intros (H1 & H2 & H3 & H4 & H5) (B1 & B2 & B3 & B4 & B5). unfold mergeBackup. simpl.
  repeat split; try done; try (by destruct (_ && _)).
  destruct H5 as [H5|(H5 & _)]; [by left|by right].
Qed.

(** What every record of a response satisfies. *)
Let record (url : string) (m : VideoMetadata) : Prop :=
  videoUrl m = url /\
  videoId m = default "unknown" (DirectTokenExtractor.extractVideoId url) /\
  0 <= viewCount m /\ 0 <= likeCount m /\
  (error m = None \/ MetadataRule.parseFailed m \/
   (exists e, error m = Some ("Failed to fetch: " +:+ e) /\
              md_title m = None /\ viewCount m = 0 /\ likeCount m = 0)).

Lemma attempt_record env url st m st' :
  attempt env url st = (Ok m, st') ->
  record url m /\ MetadataRule.fetchFailed m = false.
Proof.
  unfold attempt.
  destruct (DirectTokenExtractor.TsFile.extractYouTubeTokens _ _ _ _ _) as [[tokens tc] t].
  destruct tokens as [tokens|e]; [|discriminate].
  destruct (fetchVideoMetadata env url tokens) as [[primaryData backupData]|e];
    [|discriminate].
  simpl.
  assert (Hrec : forall m0 : VideoMetadata,
            videoUrl m0 = url /\
            videoId m0 = default "unknown" (DirectTokenExtractor.extractVideoId url) /\
            0 <= viewCount m0 /\ 0 <= likeCount m0 /\
            (error m0 = None \/ MetadataRule.parseFailed m0) ->
            record url m0 /\ MetadataRule.fetchFailed m0 = false).
  { intros m0 (H1 & H2 & H3 & H4 & H5). split.
    - unfold record. repeat split; try done. destruct H5 as [H5|H5]; auto.
    - unfold MetadataRule.fetchFailed. destruct H5 as [->| ->]; reflexivity. }
  match goal with
  | |- context [parseMetadata ?c ?d ?u ?i primary ?x ?s] =>
      pose proof (parseMetadata_parsed c d u i primary x s) as H1;
      destruct (parseMetadata c d u i primary x s) as [metadata ns]
  end.
  simpl in H1.
  destruct (_ || _)%bool.
  - match goal with
    | |- context [parseMetadata ?c ?d ?u ?i backup ?x ?s] =>
        pose proof (parseMetadata_parsed c d u i backup x s) as H2;
        destruct (parseMetadata c d u i backup x s) as [backupMetadata ns']
    end.
    simpl in H2. intros [= <- _]. apply Hrec. by apply mergeBackup_parsed.
  - intros [= <- _]. apply Hrec. destruct H1 as (H1 & H2 & H3 & H4 & H5).
    repeat split; try done. destruct H5 as [H5|(H5 & _)]; auto.
Qed.

Lemma starts_with_append (p s : string) :
  Js.starts_with (Js.chars p) (Js.chars (p +:+ s)) = true.
Proof. rewrite chars_app. apply starts_with_app. Qed.

Lemma task_record env url acc m :
  (task env url acc).1 = Ok m ->
  record url m /\
  length (task env url acc).2.2 =
    (length acc.2 + if MetadataRule.fetchFailed m then 1 else 0)%nat.
Proof.
  destruct acc as [st errors]. unfold task.
  destruct (attempt env url st) as [[m'|e] st'] eqn:Ha; simpl; intros [= <-].
  - destruct (attempt_record _ _ _ _ _ Ha) as [Hr Hf]. split; [exact Hr|].
    rewrite Hf. lia.
  - split.
    + unfold record. simpl. repeat split; try done. right. right. by exists e.
    + unfold MetadataRule.fetchFailed. cbn [error].
      rewrite (starts_with_append "Failed to fetch: " e), length_app. simpl. lia.
Qed.

Lemma all_record env validUrls acc :
  exists ms, (all env validUrls acc).1 = Ok ms /\
    Forall2 record validUrls ms /\
    length (all env validUrls acc).2.2 =
      (length acc.2 + length (List.filter MetadataRule.fetchFailed ms))%nat.
Proof.
  revert acc. induction validUrls as [|url rest IH]; intros acc.
  - exists []. simpl. repeat split; [constructor|lia].
  - simpl. destruct (task_settles env url acc) as (m & Hm).
    destruct (task_record env url acc m Hm) as [Hinv Herr].
    destruct (task env url acc) as [r acc1]. simpl in Hm, Herr. subst r.
    destruct (IH acc1) as (ms & Hms & Hall & Hlen).
    destruct (all env rest acc1) as [rs acc2]. simpl in Hms, Hlen. subst rs.
    exists (m :: ms). split; [reflexivity|]. split; [by constructor|].
    simpl. rewrite Hlen, Herr. destruct (MetadataRule.fetchFailed m); simpl; lia.
Qed.
End MetadataRecords.


(** X16 (api/videoMetadata.ts: getVideoMetadata, parseMetadata). The
    operation never raises, and the records of a response stand for the
    valid URLs of the request, one each and in request order: the i-th
    record carries the i-th valid URL and the video ID of that URL. No
    view count and no like count is negative, whatever the two endpoints
    answer. A record carries no error, or the error of a body that could
    not be read ([Failed to parse metadata]), or the error of a failed
    request ([Failed to fetch: ...], with no title and both counts 0).
    When there is a valid URL, [errors] holds one entry for each record
    of a failed request, and none for a body that could not be read. *)
Theorem ts_metadata_records
    (env : VideoMetadataTs.Env) (urls : list string) (st : VideoMetadataTs.State) :
  exists r,
    (VideoMetadataTs.getVideoMetadata env urls st).1 = Ok r /\
    videoUrl <$> VideoMetadataTs.metadata r
      = List.filter DirectTokenExtractor.isValidYouTubeUrl urls /\
    (forall m, m ∈ VideoMetadataTs.metadata r ->
       DirectTokenExtractor.extractVideoId (videoUrl m) = Some (videoId m) /\
       0 <= viewCount m /\ 0 <= likeCount m /\
       (error m = None \/ MetadataRule.parseFailed m \/
        (exists e, error m = Some ("Failed to fetch: " +:+ e) /\
                   md_title m = None /\ viewCount m = 0 /\ likeCount m = 0))) /\
    (List.filter DirectTokenExtractor.isValidYouTubeUrl urls <> [] ->
     length (VideoMetadataTs.errors r)
       = length (List.filter MetadataRule.fetchFailed (VideoMetadataTs.metadata r))).
Proof.
  unfold VideoMetadataTs.getVideoMetadata.
  set (validUrls := List.filter DirectTokenExtractor.isValidYouTubeUrl urls).
  assert (Hvalid : Forall (fun url => is_Some (DirectTokenExtractor.extractVideoId url)) validUrls).
  { apply Forall_forall. intros url Hurl.
    apply list_elem_of_In, filter_In in Hurl as [_ Hurl].
    unfold DirectTokenExtractor.isValidYouTubeUrl in Hurl.
    apply andb_prop in Hurl as [_ Hurl].
    destruct (DirectTokenExtractor.extractVideoId url); [by eexists|discriminate]. }
  destruct validUrls as [|url0 rest] eqn:Hv.
  - eexists. split; [reflexivity|]. split; [reflexivity|]. split; [|done].
    intros m Hm. by apply elem_of_nil in Hm.
  - rewrite <- Hv in *. clear Hv.
    destruct (all_record env validUrls (st, [])) as (ms & Hms & Hall & Hlen).
    destruct (VideoMetadataTs.all env validUrls (st, [])) as [results [st' errors]].
    simpl in Hms, Hlen. subst results.
    eexists. split; [reflexivity|]. simpl. split; [|split; [|by intros _]].
    + clear Hlen Hvalid. induction Hall as [|url m us ms' (Hu & _) _ IH]; [reflexivity|].
      rewrite fmap_cons. by rewrite Hu, IH.
    + clear Hlen. revert Hvalid.
      induction Hall as [|url m us ms' (Hu & Hi & Hv & Hl & He) _ IH];
        intros Hvalid m' Hm'; [by apply elem_of_nil in Hm'|].
      apply Forall_cons in Hvalid as [[i Hid] Hvalid].
      apply elem_of_cons in Hm' as [->|Hm']; [|by apply IH].
      rewrite Hid in Hi. simpl in Hi. by rewrite Hu, Hid, Hi.
Qed.

(** A body whose list of actions holds [null] cannot be read: the record
    carries the error of the [catch], and [errors] stays empty. *)
Lemma ts_metadata_records_witness :
  let body : VideoMetadataTs.MetaData :=
    {| VideoMetadataTs.dt_actions := Some [None];
       VideoMetadataTs.dt_contents := None;
       VideoMetadataTs.dt_alternate := None;
       VideoMetadataTs.dt_mutations := None |} in
  let env : VideoMetadataTs.Env :=
    {| VideoMetadataTs.clock := fun _ => 10000;
       VideoMetadataTs.fetchPage := fun _ => Ok Examples.pageWithChat;
       VideoMetadataTs.updated_metadata := fun _ _ => Ok (Some body);
       VideoMetadataTs.next := fun _ _ => Ok None |} in
  exists r m,
    (VideoMetadataTs.getVideoMetadata env [Sample.urlA] Sample.emptyTs).1 = Ok r /\
    VideoMetadataTs.metadata r = [m] /\
    error m = Some "Failed to parse metadata" /\
    VideoMetadataTs.errors r = [].
Proof.
  intros body env.
  destruct (ts_metadata_records env [Sample.urlA] Sample.emptyTs) as (r & Hr & _).
  vm_compute in Hr. injection Hr as <-. eexists _, _. split; [vm_compute; reflexivity|].
  by repeat split.
Defined.


(** ** The records of api/videoMetadata.js *)

Section PlayerRecords.
Import VideoMetadataJs.
Variable env : Env.

(** What every record made from a player response satisfies: it is a
    record of the [try] block, without error, or the record of the
    [catch]. *)
Let made (url vid : string) (m : VideoMetadata) : Prop :=
  videoUrl m = url /\ videoId m = vid /\ likeCount m = 0 /\
  (exists t, md_title m = Some t /\ Js.truthy t = true) /\
  (error m = None \/
   ((exists field, error m = Some (nullMessage env field)) /\
    md_title m = Some ("Video " +:+ vid) /\
    viewCount m = 0 /\ isLive m = false)).

Lemma titleMissing_false title :
  titleMissing title = false -> exists t, title = Some t /\ Js.truthy t = true.
Proof.
  destruct title as [t|]; simpl; [|discriminate]. intros H. exists t.
  split; [reflexivity|]. by apply negb_false_iff.
Qed.

Lemma runTexts_message message runs e :
  runTexts message runs = Throw e -> e = message "text".
Proof.
  induction runs as [|[t|] rest IH]; simpl; [discriminate| |by intros [= <-]].
  destruct (runTexts message rest) as [texts|e']; [discriminate|].
  intros [= <-]. by apply IH.
Qed.

Lemma detailsTitle_message message t e :
  detailsTitle message t = Throw e -> e = message "text".
Proof.
  destruct t as [s|[st|] [runs|]]; simpl; try discriminate;
    (destruct (runTexts message runs) as [texts|e'] eqn:E; [discriminate|];
     intros [= <-]; by eapply runTexts_message).
Qed.

Lemma parseBody_made clock message d url vid extracted names ticks :
  match (parseBody clock message (Some d) url vid extracted names ticks).1.1 with
  | Ok m => videoUrl m = url /\ videoId m = vid /\ likeCount m = 0 /\ error m = None /\
            exists t, md_title m = Some t /\ Js.truthy t = true
  | Throw e => exists field, e = message field
  end.
Proof.
  unfold parseBody.
  destruct (match names !! vid with
            | Some cachedName => _
            | None => _
            end) as [[channelName names1] ticks1].
  set (details := if (_ && _)%bool then Some (own d) else videoDetails d).
  destruct (match details with
            | Some d0 => _
            | None => Ok None
            end) as [title|e] eqn:Et.
  2: { simpl. destruct details as [d0|]; [|discriminate].
       destruct (vd_title d0) as [t|]; [|discriminate].
       destruct (truthyText (Some t)); [|discriminate].
       exists "text". by eapply detailsTitle_message. }
  destruct (match details with
            | Some d0 => _
            | None => (0, false, channelName, names1, ticks1)
            end) as [[[[views live] channelName'] names2] ticks2].
  destruct (match microformat d with
            | Some mf => _
            | None => (title, views, live)
            end) as [[title' views'] live'].
  destruct (existsb _ _); simpl; [by eexists|].
  repeat split.
  destruct (titleMissing title') eqn:E; [|by apply titleMissing_false].
  eexists. split; reflexivity.
Qed.

Lemma parseMetadata_made d url vid extracted names ticks :
  made url vid (parseMetadata (clock env) (nullMessage env) (Some d) url vid extracted
                  names ticks).1.1.
Proof.
  unfold parseMetadata.
  pose proof (parseBody_made (clock env) (nullMessage env) d url vid extracted names ticks) as H.
  destruct (parseBody _ _ _ _ _ _ _ _) as [[[m|e] names'] ticks']; simpl in *.
  - destruct H as (H1 & H2 & H3 & H4 & H5). unfold made. repeat split; try done. by left.
  - destruct H as (field & ->). unfold made. simpl. repeat split; try done.
    + eexists. split; reflexivity.
    + right. split; [by exists field|]. by repeat split.
Qed.

Let good (urls : list string) (n : nat) (acc : Acc) : Prop :=
  (length acc.1.2 + length acc.2 = n)%nat /\
  Forall (fun m => videoUrl m ∈ urls /\
                   DirectTokenExtractor.extractVideoId (videoUrl m) = Some (videoId m) /\
                   made (videoUrl m) (videoId m) m) acc.1.2.

Lemma record_or_error_step urls n url acc :
  url ∈ urls -> good urls n acc -> good urls (S n) (processUrl env url acc).
Proof.
  destruct acc as [[st metadataList] errors]. unfold good. simpl. intros Hin [Hlen Hall].
  unfold processUrl.
  destruct (negb _); simpl; [split; [rewrite length_app; simpl; lia|exact Hall]|].
  destruct (DirectTokenExtractor.extractVideoId url) as [vid|] eqn:Hid; simpl;
    [|split; [rewrite length_app; simpl; lia|exact Hall]].
  destruct (DirectTokenExtractor.JsFile.extractYouTubeTokens _ _ _ _ _) as [[tokens tc] t].
  assert (Hadd : forall d extracted names ticks,
    Forall (fun m => videoUrl m ∈ urls /\
                     DirectTokenExtractor.extractVideoId (videoUrl m) = Some (videoId m) /\
                     made (videoUrl m) (videoId m) m)
      (metadataList ++
         [(parseMetadata (clock env) (nullMessage env) (Some d) url vid extracted
             names ticks).1.1])).
  { intros d extracted names ticks. apply Forall_app. split; [exact Hall|].
    apply Forall_singleton.
    pose proof (parseMetadata_made d url vid extracted names ticks) as Hm.
    destruct (Hm) as (H1 & H2 & _).
    rewrite H1, H2. split; [exact Hin|]. split; [exact Hid|exact Hm]. }
  destruct tokens as [tokens|].
  - match goal with
    | |- context [parseMetadata ?c ?msg (Some ?d) ?u ?i ?x ?nm ?tk] =>
        specialize (Hadd d x nm tk);
        destruct (parseMetadata c msg (Some d) u i x nm tk) as [[m nm'] tk']
    end.
    simpl in *. split; [rewrite length_app; simpl; lia|exact Hadd].
  - destruct (fetchVideoMetadata env vid) as [directMetadata|].
    + match goal with
      | |- context [parseMetadata ?c ?msg (Some ?d) ?u ?i ?x ?nm ?tk] =>
          specialize (Hadd d x nm tk);
          destruct (parseMetadata c msg (Some d) u i x nm tk) as [[m nm'] tk']
      end.
      simpl in *. split; [rewrite length_app; simpl; lia|exact Hadd].
    + simpl. split; [rewrite length_app; simpl; lia|exact Hall].
Qed.

Lemma record_or_error_loop urls done rest acc :
  (forall url, url ∈ rest -> url ∈ urls) ->
  good urls done acc ->
  good urls (done + length rest)
    (fold_left (fun acc url => processUrl env url acc) rest acc).
Proof.
  revert done acc. induction rest as [|url rest IH]; intros done acc Hsub Hg; simpl.
  - by rewrite Nat.add_0_r.
  - replace (done + S (length rest))%nat with (S done + length rest)%nat by lia.
    apply IH; [intros u Hu; apply Hsub; by right|].
    apply record_or_error_step; [apply Hsub; by left|exact Hg].
Qed.
End PlayerRecords.

(** X17 (api/videoMetadata.js: getVideoMetadata, parseMetadata). Every
    requested URL ends either as one record or as one entry of [errors],
    never both and never neither. Every record belongs to a requested URL
    and carries the video ID of that URL, a title that is not empty and a
    like count of 0: this endpoint never reports likes. A record carries
    an error only when the player response could not be read; it is then
    the record of the [catch], with the title [Video <id>], no views, not
    live, and the message of the TypeError raised by reading a field of
    [null], and it has no entry in [errors]. *)
Theorem js_metadata_records
    (env : VideoMetadataJs.Env) (urls : list string) (st : VideoMetadataJs.State) :
  let r := (VideoMetadataJs.getVideoMetadata env urls st).1 in
  (length (VideoMetadataJs.metadata r) + length (VideoMetadataJs.errors r) = length urls)%nat /\
  VideoMetadataJs.totalVideos r = length (VideoMetadataJs.metadata r) /\
  forall m, m ∈ VideoMetadataJs.metadata r ->
    videoUrl m ∈ urls /\
    DirectTokenExtractor.extractVideoId (videoUrl m) = Some (videoId m) /\
    likeCount m = 0 /\
    (exists t, md_title m = Some t /\ Js.truthy t = true) /\
    (error m = None \/
     ((exists field, error m = Some (VideoMetadataJs.nullMessage env field)) /\
      md_title m = Some ("Video " +:+ videoId m) /\
      viewCount m = 0 /\ isLive m = false)).
Proof.
  unfold VideoMetadataJs.getVideoMetadata.
  pose proof (record_or_error_loop env urls 0 urls (st, [], []) (fun _ H => H)) as H.
  simpl in H. specialize (H (conj eq_refl (Forall_nil_2 _))).
  revert H.
  match goal with
  | |- context [fold_left ?f ?l ?a] => destruct (fold_left f l a) as [[st' metadataList] errors]
  end.
  simpl. intros [Hlen Hall]. split; [exact Hlen|]. split; [reflexivity|].
  intros m Hm. rewrite Forall_forall in Hall.
  destruct (Hall m Hm) as (H1 & H2 & _ & _ & H3 & H4 & H5). by repeat split.
Qed.

(** A player response whose title has a run that is [null] cannot be
    read: the record is that of the [catch], and [errors] stays empty. *)
Lemma js_metadata_records_witness :
  let body : VideoMetadataJs.PlayerData :=
    {| VideoMetadataJs.videoDetails :=
         Some {| VideoMetadataJs.vd_title :=
                   Some (VideoMetadataJs.TitleObject None (Some [Some (Some "A"); None]));
                 VideoMetadataJs.vd_viewCount := Some (Num 7);
                 VideoMetadataJs.vd_isLive := Some true;
                 VideoMetadataJs.vd_isLiveContent := None;
                 VideoMetadataJs.vd_author := None |};
       VideoMetadataJs.microformat := None;
       VideoMetadataJs.own := VideoMetadataJs.noDetails;
       VideoMetadataJs.engagementPanels := None |} in
  let env : VideoMetadataJs.Env :=
    {| VideoMetadataJs.clock := fun _ => 10000;
       VideoMetadataJs.fetchPage := fun _ => Throw "Error: offline";
       VideoMetadataJs.player := fun _ => Ok (Some body);
       VideoMetadataJs.nullMessage :=
         fun field => "Cannot read properties of null (reading '" +:+ field +:+ "')" |} in
  let r := (VideoMetadataJs.getVideoMetadata env [Sample.urlA] Sample.emptyJs).1 in
  exists m,
    VideoMetadataJs.metadata r = [m] /\
    error m = Some "Cannot read properties of null (reading 'text')" /\
    md_title m = Some "Video aaaaaaaaaaa" /\ viewCount m = 0 /\
    VideoMetadataJs.errors r = [].
Proof.
  intros body env r.
  destruct (js_metadata_records env [Sample.urlA] Sample.emptyJs) as (_ & _ & H).
  eexists. split; [vm_compute; reflexivity|]. by repeat split.
Defined.


(** ** The badge scans as rules *)

Section BadgeRules.
Import BadgeRule.

Lemma js_scan_step (badge : Badge) (current : UserType) (rest : list Badge) :
  FormattersJs.scanBadges current (badge :: rest)
  = FormattersJs.scanBadges (default current (jsRole badge)) rest.
Proof.
  simpl. unfold jsRole.
  destruct (liveChatAuthorBadgeRenderer badge) as [r|]; [|reflexivity].
  destruct (iconType r) as [it|]; [|reflexivity].
  destruct (Js.truthy it) eqn:Ht; simpl.
  - by repeat case_match.
  - destruct it; [reflexivity|discriminate].
Qed.

Lemma default_last_cons {A} (l : list A) : forall c x,
  default c (last (x :: l)) = default x (last l).
Proof.
  induction l as [|y l IH]; intros c x; [reflexivity|].
  change (last (x :: y :: l)) with (last (y :: l)). by rewrite (IH c y), (IH x y).
Qed.

Lemma js_scan_rule (badges : list Badge) : forall current,
  FormattersJs.scanBadges current badges = default current (last (omap jsRole badges)).
Proof.
  induction badges as [|badge rest IH]; intros current; [reflexivity|].
  rewrite js_scan_step, IH. simpl omap.
  destruct (jsRole badge) as [role|]; simpl; [|reflexivity].
  by rewrite default_last_cons.
Qed.

Lemma ts_scan_step (badge : Badge) (current : UserType) (rest : list Badge) :
  FormattersTs.scanBadges current (badge :: rest)
  = if tsOwner badge then owner
    else FormattersTs.scanBadges (default current (tsRole badge)) rest.
Proof.
  simpl. unfold tsOwner, tsRole, tsText.
  destruct (liveChatAuthorBadgeRenderer badge) as [r|]; [|reflexivity].
  set (text := Js.toLowerCase (FormattersTs.badgeText r)).
  destruct (Js.includes text "owner"); [reflexivity|].
  destruct (Js.includes text "moderator"); [reflexivity|].
  by destruct (Js.includes text "member").
Qed.

Lemma ts_scan_rule (badges : list Badge) : forall current,
  FormattersTs.scanBadges current badges =
  if existsb tsOwner badges then owner
  else default current (last (omap tsRole badges)).
Proof.
  induction badges as [|badge rest IH]; intros current; [reflexivity|].
  rewrite ts_scan_step. simpl existsb. simpl omap.
  destruct (tsOwner badge); [reflexivity|]. rewrite IH. simpl.
  destruct (existsb tsOwner rest); [reflexivity|].
  destruct (tsRole badge) as [role|]; simpl; [|reflexivity].
  by rewrite default_last_cons.
Qed.
End BadgeRules.

(** X18 (utils/formatters.js: extractAuthorInfo; the raw-response
    normaliser: formatChatMessages). The two badge loops as rules. In
    utils/formatters.js the role is that of the last badge whose icon type
    is MODERATOR, OWNER or MEMBER, and [regular] when there is none. In
    the raw-response normaliser a badge whose text names the owner wins
    wherever it stands; without one, the role is that of the last badge
    whose text names a moderator or a member. *)
Theorem badge_scan_rules (authorBadges : option (list Badge)) (r : AuthorFields) :
  FormattersJs.ai_userType (FormattersJs.extractAuthorInfo r)
    = default regular (last (omap BadgeRule.jsRole (default [] (rd_authorBadges r)))) /\
  FormattersTs.userTypeOf authorBadges
    = (if existsb BadgeRule.tsOwner (default [] authorBadges) then owner
       else default regular (last (omap BadgeRule.tsRole (default [] authorBadges)))).
Proof.
  split.
  - unfold FormattersJs.extractAuthorInfo. simpl.
    destruct (rd_authorBadges r) as [badges|]; [apply js_scan_rule|reflexivity].
  - unfold FormattersTs.userTypeOf.
    destruct authorBadges as [badges|]; [apply ts_scan_rule|reflexivity].
Qed.


(** ** The normaliser of utils/formatters.js *)

Section JsNormaliser.
Import FormattersJs RawItems.
Variable sv : SourceVideo.

Lemma formatSingleMessage_shape clock uuidv4 item c :
  match (formatSingleMessage clock uuidv4 item sv c).1 with
  | Some m => hasRenderer item = true /\ sourceVideo m = sv
  | None => hasRenderer item = false
  end.
Proof.
  unfold formatSingleMessage, hasRenderer.
  destruct (rendererOf item) as [r|]; [|reflexivity].
  repeat match goal with
  | |- context [let '(_, _) := ?x in _] => destruct x
  end.
  by split.
Qed.

Lemma formatSingleMessage_stamped clock clock' uuidv4 uuidv4' item c :
  wellFormed item = true ->
  formatSingleMessage clock uuidv4 item sv c = formatSingleMessage clock' uuidv4' item sv c /\
  (formatSingleMessage clock uuidv4 item sv c).2 = c.
Proof.
  unfold wellFormed, formatSingleMessage.
  destruct (rendererOf item) as [r|]; [|done].
  unfold stamped, validUsec, extractTimestamp. intros H.
  apply andb_prop in H as [Hid Hts].
  destruct (mr_id r) as [i|]; [|discriminate]. rewrite Hid.
  destruct (mr_timestampUsec r) as [usec|]; [|discriminate].
  apply andb_prop in Hts as [Hu Hts]. rewrite Hu.
  destruct (Js.parseIntAuto usec) as [u|]; [|discriminate].
  destruct (Js.dateOfMillis u 1000) as [ms|]; [|discriminate].
  done.
Qed.

Lemma formatChatMessages_shape clock uuidv4 raw : forall c,
  length (formatChatMessages clock uuidv4 raw sv c).1 = length (List.filter hasRenderer raw) /\
  Forall (fun m => sourceVideo m = sv) (formatChatMessages clock uuidv4 raw sv c).1.
Proof.
  induction raw as [|item rest IH]; intros c; simpl; [by split|].
  pose proof (formatSingleMessage_shape clock uuidv4 item c) as H1.
  destruct (formatSingleMessage clock uuidv4 item sv c) as [formatted c1]. simpl in H1.
  destruct (IH c1) as [I1 I2].
  destruct (formatChatMessages clock uuidv4 rest sv c1) as [others c2]. simpl in *.
  destruct formatted as [m|].
  - destruct H1 as [-> Hm]. simpl. split; [by rewrite I1|by constructor].
  - rewrite H1. by split.
Qed.

Lemma formatChatMessages_stamped clock clock' uuidv4 uuidv4' raw : forall c,
  forallb wellFormed raw = true ->
  formatChatMessages clock uuidv4 raw sv c = formatChatMessages clock' uuidv4' raw sv c /\
  (formatChatMessages clock uuidv4 raw sv c).2 = c.
Proof.
  induction raw as [|item rest IH]; intros c; simpl; [done|].
  intros H. apply andb_prop in H as [Hitem Hrest].
  destruct (formatSingleMessage_stamped clock clock' uuidv4 uuidv4' item c Hitem) as [H1 H2].
  rewrite <- H1.
  destruct (formatSingleMessage clock uuidv4 item sv c) as [formatted c1]. simpl in H2. subst c1.
  destruct (IH c Hrest) as [I1 I2]. rewrite <- I1.
  destruct (formatChatMessages clock uuidv4 rest sv c) as [others c2]. simpl in I2. by subst c2.
Qed.
End JsNormaliser.

(** X19 (utils/formatters.js: formatChatMessages, formatSingleMessage,
    extractTimestamp). The normaliser returns one message for each raw
    item that has one of the four known renderers, and each message names
    the given source video. When every such item brings its own ID and a
    time stamp that is a date, the result depends neither on the clock nor
    on the identifier generator, and neither of them is used. *)
Theorem js_normaliser_contract (clock clock' : nat -> Z) (uuidv4 uuidv4' : nat -> string)
    (rawMessages : list RawItem) (sourceVideo0 : SourceVideo) (c : FormattersJs.Counters) :
  let result := FormattersJs.formatChatMessages clock uuidv4 rawMessages sourceVideo0 c in
  length result.1 = length (List.filter RawItems.hasRenderer rawMessages) /\
  Forall (fun m => sourceVideo m = sourceVideo0) result.1 /\
  (forallb RawItems.wellFormed rawMessages = true ->
   result.2 = c /\
   FormattersJs.formatChatMessages clock' uuidv4' rawMessages sourceVideo0 c = result).
Proof.
  intros result.
  destruct (formatChatMessages_shape sourceVideo0 clock uuidv4 rawMessages c) as [H1 H2].
  split; [exact H1|]. split; [exact H2|]. intros Hwf.
  destruct (formatChatMessages_stamped sourceVideo0 clock clock' uuidv4 uuidv4'
              rawMessages c Hwf) as [H3 H4].
  split; [exact H4|]. by rewrite <- H3.
Qed.

Lemma js_normaliser_contract_witness :
  let raw := [Examples.stampedItem "m1" "hello"; Examples.unknownItem;
              Examples.stampedItem "m2" "bye"] in
  let c := {| FormattersJs.ticks := 0; FormattersJs.uuids := 0 |} in
  let result := FormattersJs.formatChatMessages (fun _ => 0) (fun _ => "u") raw Sample.video c in
  id <$> result.1 = ["m1"; "m2"] /\ timestamp <$> result.1 = [1500; 1500] /\
  result.2 = c /\
  FormattersJs.formatChatMessages (fun _ => 99) (fun _ => "v") raw Sample.video c = result.
Proof.
  intros raw c result. split; [reflexivity|]. split; [reflexivity|].
  apply (js_normaliser_contract (fun _ => 0) (fun _ => 99) (fun _ => "u") (fun _ => "v")
           raw Sample.video c).
  reflexivity.
Defined.


(** ** Channel addresses *)

Section ChannelIds.
Import Regex RegexSem.

Lemma run_lit_eq total (l s : list ascii) c k :
  run total (Lit_chars l) s c k =
  if Js.starts_with l s then k (drop (length l) s) c else None.
Proof.
  revert s. induction l as [|a l IH]; intros s; simpl.
  - by destruct s.
  - destruct s as [|b s]; [reflexivity|]. simpl.
    destruct (Ascii.eqb a b); simpl; [apply IH|reflexivity].
Qed.

Lemma greedy_total (p : ascii -> bool) K s :
  (forall u, K u <> None) -> greedy p K s = K (Js.drop_while p s).
Proof.
  intros HK. induction s as [|a s IH]; simpl; [reflexivity|].
  destruct (p a); [|reflexivity]. rewrite IH.
  destruct (K (Js.drop_while p s)) eqn:E; [reflexivity|]. by apply HK in E.
Qed.

Lemma run_plus_group total (p : ascii -> bool) s :
  run total (Seq (Group 1 (Plus (Cls p))) Eps) s [] (fun _ c => Some c) =
  match Js.take_while p s with
  | [] => None
  | found => Some [(1%nat, found)]
  end.
Proof.
  rewrite run_seq, run_group. unfold Plus. rewrite run_seq.
  destruct s as [|a s]; [reflexivity|]. simpl Js.take_while.
  change (run total (Cls p) (a :: s) [] ?k) with (if p a then k s [] else None).
  destruct (p a); [|reflexivity].
  rewrite run_star_cls, greedy_total by done. simpl run.
  destruct (take_while_spec p s) as (Hs & _ & _).
  assert (Hlen : length s = (length (Js.take_while p s) + length (Js.drop_while p s))%nat)
    by (rewrite Hs at 1; apply length_app).
  replace (S (length s) - length (Js.drop_while p s))%nat
    with (S (length (Js.take_while p s))) by lia.
  simpl take. do 4 f_equal.
  transitivity (take (length (Js.take_while p s)) (Js.take_while p s ++ Js.drop_while p s));
    [by rewrite <- Hs|by rewrite take_app_length].
Qed.

Lemma run_shape total shape s :
  run total (Channel.pattern shape) s [] (fun _ c => Some c) =
  if Js.starts_with (Js.chars shape.1) s
  then match Js.take_while shape.2 (drop (length (Js.chars shape.1)) s) with
       | [] => None
       | found => Some [(1%nat, found)]
       end
  else None.
Proof.
  unfold Channel.pattern. cbn [Seqs]. rewrite run_seq. unfold Lit. rewrite run_lit_eq.
  destruct (Js.starts_with _ s); [|reflexivity]. apply run_plus_group.
Qed.

Lemma search_nil total (r : re) :
  search total r [] =
  match run total r [] [] (fun _ c => Some c) with
  | Some c => Some c
  | None => None
  end.
Proof. reflexivity. Qed.

Lemma search_cons total (r : re) a s :
  search total r (a :: s) =
  match run total r (a :: s) [] (fun _ c => Some c) with
  | Some c => Some c
  | None => search total r s
  end.
Proof. reflexivity. Qed.

Lemma search_shape total shape s :
  search total (Channel.pattern shape) s =
  (fun found => [(1%nat, found)]) <$> ChannelRule.idAfter (Js.chars shape.1) shape.2 s.
Proof.
  induction s as [|a s IH].
  - rewrite search_nil, run_shape. simpl ChannelRule.idAfter.
    destruct (Js.starts_with _ []); [|reflexivity].
    by destruct (Js.take_while _ _).
  - rewrite search_cons, run_shape, IH. simpl ChannelRule.idAfter.
    destruct (Js.starts_with _ (a :: s)); [|reflexivity].
    by destruct (Js.take_while _ _).
Qed.

Lemma starts_with_drop (m l : list ascii) :
  Js.starts_with m l = true -> l = m ++ drop (length m) l.
Proof.
  revert l. induction m as [|a m IH]; intros l; [reflexivity|].
  destruct l as [|b l]; [discriminate|]. simpl.
  destruct (Ascii.eqb a b) eqn:Eb; [|discriminate].
  apply Ascii.eqb_eq in Eb as ->. intros H. by rewrite <- IH.
Qed.

Lemma idAfter_unfold marker p s :
  ChannelRule.idAfter marker p s =
  match (if Js.starts_with marker s
         then match Js.take_while p (drop (length marker) s) with
              | [] => None
              | found => Some found
              end
         else None) with
  | Some found => Some found
  | None =>
      match s with
      | [] => None
      | _ :: s' => ChannelRule.idAfter marker p s'
      end
  end.
Proof. by destruct s. Qed.

Lemma idAfter_found marker p s found :
  ChannelRule.idAfter marker p s = Some found ->
  found <> [] /\ Forall (fun a => p a = true) found /\
  exists pre post, s = pre ++ marker ++ found ++ post.
Proof.
  induction s as [|a s IH]; rewrite idAfter_unfold.
  - destruct (Js.starts_with marker []) eqn:E; [|discriminate].
    destruct (Js.take_while p (drop (length marker) [])) as [|x found'] eqn:Et;
      [discriminate|].
    by destruct marker.
  - destruct (Js.starts_with marker (a :: s)) eqn:E.
    + destruct (Js.take_while p (drop (length marker) (a :: s))) as [|x found'] eqn:Et.
      * intros H. destruct (IH H) as (H1 & H2 & pre & post & ->).
        split; [exact H1|]. split; [exact H2|]. by exists (a :: pre), post.
      * intros [= <-]. split; [discriminate|]. split.
        { rewrite <- Et. apply take_while_Forall. }
        exists [], (Js.drop_while p (drop (length marker) (a :: s))).
        rewrite <- Et, app_nil_l.
        destruct (take_while_spec p (drop (length marker) (a :: s))) as (Hs & _ & _).
        rewrite <- Hs. by apply starts_with_drop.
    + intros H. destruct (IH H) as (H1 & H2 & pre & post & ->).
      split; [exact H1|]. split; [exact H2|]. by exists (a :: pre), post.
Qed.

Lemma firstMatch_rule shapes url :
  Channel.firstMatch (map Channel.pattern shapes) url = ChannelRule.firstShape shapes url.
Proof.
  induction shapes as [|shape rest IH]; [reflexivity|].
  simpl. unfold exec. rewrite search_shape.
  destruct (ChannelRule.idAfter _ _ _) as [found|] eqn:E; simpl; [|exact IH].
  apply idAfter_found in E as (Hne & _).
  destruct found as [|x found]; [done|reflexivity].
Qed.
End ChannelIds.

(** X20 (utils/directTokenExtractor.ts and api/channelLiveVideos.ts:
    extractChannelId, isValidYouTubeChannelUrl). The four patterns say the
    same as a scan without patterns: for [youtube.com/channel/],
    [youtube.com/@], [youtube.com/c/] and [youtube.com/user/], in this
    order, take the leftmost place where the marker is followed by a
    character of its class, and return the longest run of the class there.
    A result is therefore never empty, consists of word characters, dashes
    and dots only, and stands in the address right after one of the four
    markers, wherever in the address that is. *)
Theorem extractChannelId_rule (url : string) :
  Channel.extractChannelId url = ChannelRule.firstShape Channel.shapes url /\
  (Channel.isValidYouTubeChannelUrl url = true <->
   exists channelId, Channel.extractChannelId url = Some channelId) /\
  (forall channelId, Channel.extractChannelId url = Some channelId ->
     Js.truthy channelId = true /\
     forallb Channel.word_dot_dash (Js.chars channelId) = true /\
     exists shape pre post,
       shape ∈ Channel.shapes /\ url = pre +:+ shape.1 +:+ channelId +:+ post).
Proof.
  assert (Hrule : Channel.extractChannelId url = ChannelRule.firstShape Channel.shapes url)
    by apply firstMatch_rule.
  split; [exact Hrule|]. split.
  { unfold Channel.isValidYouTubeChannelUrl. destruct url as [|a url]; simpl.
    - split; [discriminate|]. intros (channelId & H). vm_compute in H. discriminate H.
    - destruct (Channel.extractChannelId (String a url)) as [channelId|].
      + split; [by eexists|reflexivity].
      + split; [discriminate|]. by intros (channelId & H). }
  intros channelId. rewrite Hrule. clear Hrule.
  assert (Hcls : forall shape, shape ∈ Channel.shapes ->
            forall a, shape.2 a = true -> Channel.word_dot_dash a = true).
  { intros shape Hin a Ha. unfold Channel.shapes in Hin.
    repeat (apply elem_of_cons in Hin as [->|Hin]); try (by apply elem_of_nil in Hin);
      simpl in Ha; unfold Channel.word_dot_dash, Channel.word_dash in *;
      destruct (Js.is_word a), (Ascii.eqb a "."), (Ascii.eqb a "-"); simpl in *; congruence. }
  revert Hcls. generalize Channel.shapes. intros shapes.
  induction shapes as [|shape rest IH]; intros Hcls; [discriminate|].
  simpl. destruct (ChannelRule.idAfter _ _ _) as [found|] eqn:E.
  - intros [= <-]. apply idAfter_found in E as (Hne & Hall & pre & post & Hurl).
    split; [by destruct found|]. split.
    + rewrite chars_str. apply forallb_forall. intros a Ha.
      apply (Hcls shape); [by left|]. rewrite Forall_forall in Hall.
      by apply Hall, list_elem_of_In.
    + exists shape, (Js.str pre), (Js.str post). split; [by left|].
      rewrite <- (str_chars url), Hurl, !str_app. by rewrite str_chars.
  - intros H. destruct IH as (H1 & H2 & s & pre & post & Hin & Hurl); [|exact H|].
    + intros s Hs. apply Hcls. by right.
    + split; [exact H1|]. split; [exact H2|]. exists s, pre, post. split; [by right|exact Hurl].
Qed.

Lemma extractChannelId_rule_witness :
  Channel.extractChannelId "https://www.youtube.com/@some.channel-1/streams"
    = Some "some.channel-1" /\
  Channel.extractChannelId "https://example.org/?next=youtube.com/c/x" = Some "x" /\
  Channel.isValidYouTubeChannelUrl "https://example.org/?next=youtube.com/c/x" = true /\
  Channel.isValidYouTubeChannelUrl "https://www.youtube.com/watch?v=dQw4w9WgXcQ" = false.
Proof.
  split; [|split; [|split]].
  - rewrite (proj1 (extractChannelId_rule _)). reflexivity.
  - rewrite (proj1 (extractChannelId_rule _)). reflexivity.
  - apply (proj1 (proj2 (extractChannelId_rule _))). by exists "x".
  - destruct (Channel.isValidYouTubeChannelUrl _) eqn:E; [|reflexivity].
    apply (proj1 (proj2 (extractChannelId_rule _))) in E as (channelId & H).
    vm_compute in H. discriminate H.
Defined.


(** ** The live videos of a channel *)

Section LiveVideos.
Import Channel.
Variable name : string.

(** What the list of videos satisfies at every point of the loops. *)
Let listed (l : list ChannelLiveVideo) : Prop :=
  NoDup (videoId <$> l) /\
  Forall (fun v => videoUrl v = "https://www.youtube.com/watch?v=" +:+ videoId v /\
                   channelName v = name /\ Js.truthy (videoId v) = true) l.

Lemma fold_left_keeps {A B} (P : A -> Prop) (f : A -> B -> A) (l : list B) :
  (forall acc x, P acc -> P (f acc x)) -> forall acc, P acc -> P (fold_left f l acc).
Proof.
  intros Hf. induction l as [|x l IH]; intros acc Hacc; simpl; [exact Hacc|].
  apply IH, Hf, Hacc.
Qed.

Lemma addVideo_listed l gridItem : listed l -> listed (addVideo name l gridItem).
Proof.
  intros [Hnd Hall]. unfold addVideo.
  destruct (match gridVideoRenderer gridItem with Some r => Some r | None => _ end)
    as [renderer|]; [|by split].
  destruct (negb (isLive renderer)); [by split|].
  destruct (VideoMetadataTs.truthyField (vr_videoId renderer)) as [i|] eqn:Ei; [|by split].
  destruct (existsb _ l) eqn:Ex; [by split|].
  split.
  - rewrite fmap_app. apply NoDup_app. split; [exact Hnd|]. split; [|apply NoDup_singleton].
    intros x Hx Hx'. apply list_elem_of_singleton in Hx'. simpl in Hx'. subst x.
    apply list_elem_of_fmap in Hx as (v & Hv & Hin).
    assert (Ht : existsb (fun v => String.eqb (videoId v) i) l = true).
    { apply existsb_exists. exists v. split; [by apply list_elem_of_In|].
      rewrite <- Hv. apply String.eqb_refl. }
    congruence.
  - apply Forall_app. split; [exact Hall|]. apply Forall_singleton. simpl.
    repeat split. unfold VideoMetadataTs.truthyField in Ei.
    destruct (vr_videoId renderer) as [t|]; [|discriminate].
    destruct (Js.truthy t) eqn:Et; [|discriminate]. by injection Ei as <-.
Qed.

Lemma extractLiveVideosFromTab_listed tabContent :
  listed (extractLiveVideosFromTab tabContent name).
Proof.
  unfold extractLiveVideosFromTab.
  apply fold_left_keeps; [|split; [constructor|constructor]].
  intros acc section. apply fold_left_keeps.
  intros acc' item. apply fold_left_keeps. intros l gridItem. apply addVideo_listed.
Qed.
End LiveVideos.

Section WatchUrls.
Import RegexSem.

Lemma includes_chars_inv (p s : list ascii) :
  Js.includes_chars p s = true -> exists a b, s = a ++ p ++ b.
Proof.
  induction s as [|x s IH].
  - simpl. rewrite orb_false_r. intros H. apply starts_with_drop in H. by exists [], (drop (length p) []).
  - cbn [Js.includes_chars]. intros H. apply orb_true_iff in H as [H|H].
    + apply starts_with_drop in H. by exists [], (drop (length p) (x :: s)).
    + destruct (IH H) as (a & b & ->). by exists (x :: a), b.
Qed.

(** The ID of a watch address made from an ID. *)
Lemma watch_url_id (id0 : string) :
  String.length id0 = 11%nat ->
  free_of "#&?" id0 = true ->
  Js.includes id0 "/" = false ->
  DirectTokenExtractor.extractVideoId ("https://www.youtube.com/watch?v=" +:+ id0) = Some id0 /\
  DirectTokenExtractor.isValidYouTubeUrl ("https://www.youtube.com/watch?v=" +:+ id0) = true.
Proof.
  intros Hlen Hfree Hslash.
  assert (Hw : Js.includes ("v=" +:+ id0) "watch?" = false).
  { unfold Js.includes. change (Js.chars ("v=" +:+ id0)) with ("v" :: "=" :: Js.chars id0)%char.
    apply forallb_Forall_true in Hfree. revert Hfree. generalize (Js.chars id0). intros l Hl.
    assert (H : Js.includes_chars (Js.chars "watch?") l = false).
    { destruct (Js.includes_chars (Js.chars "watch?") l) eqn:E; [|reflexivity].
      apply includes_chars_inv in E as (a & b & ->).
      assert (Hq : negb (Js.one_of "#&?" "?") = true).
      { rewrite Forall_forall in Hl. apply Hl.
        apply elem_of_app. right. apply elem_of_app. left. simpl. do 5 right. left. }
      discriminate Hq. }
    cbn [Js.includes_chars]. by rewrite H. }
  assert (Hs : Js.includes ("v=" +:+ id0) "/" = false).
  { unfold Js.includes in *. change (Js.chars ("v=" +:+ id0)) with ("v" :: "=" :: Js.chars id0)%char.
    cbn [Js.includes_chars]. by rewrite Hslash. }
  assert (Hid : DirectTokenExtractor.extractVideoId ("https://www.youtube.com/watch?v=" +:+ id0)
                = Some id0).
  { destruct (exec_last_marker "https://www.youtube.com/" "watch?" ("v=" +:+ id0))
      as (c' & Hc'); [by left|reflexivity|exact Hs|exact Hw|].
    unfold DirectTokenExtractor.extractVideoId.
    change ("https://www.youtube.com/watch?v=" +:+ id0)
      with ("https://www.youtube.com/" +:+ "watch?" +:+ "v=" +:+ id0).
    rewrite Hc'. simpl Regex.group. rewrite str_chars.
    assert (Hcap : captured ("v=" +:+ id0) = id0).
    { unfold captured.
      change (after_opts (Js.chars ("v=" +:+ id0))) with (Js.chars id0).
      assert (Hrun : Js.take_while (fun a => negb (Js.one_of "#&?" a)) (Js.chars id0 ++ [])
                     = Js.chars id0)
        by (apply take_while_stop; [by apply free_of_Forall|exact I]).
      rewrite app_nil_r in Hrun. by rewrite Hrun, str_chars. }
    by rewrite Hcap, Hlen. }
  split; [exact Hid|].
  unfold DirectTokenExtractor.isValidYouTubeUrl. rewrite Hid.
  assert (Hinc : Js.includes ("https://www.youtube.com/watch?v=" +:+ id0) "youtube.com/watch"
                 = true).
  { unfold Js.includes.
    exact (includes_chars_app (Js.chars "youtube.com/watch") (Js.chars "https://www.")
             (Js.chars ("?v=" +:+ id0))). }
  rewrite Hinc. reflexivity.
Qed.
End WatchUrls.

(** X21 (utils/directTokenExtractor.ts: extractLiveVideosFromTab).
    Whatever the tab holds, the videos that are extracted have pairwise
    distinct IDs, none of them empty; each carries the given channel name
    and the watch address made from its ID. When such an ID has 11
    characters, none of them [#], [&], [?] or a slash, the chat and
    metadata entry points accept that address and read the same ID back
    from it. *)
Theorem live_videos_listed (tabContent : Channel.TabContent) (channelName0 : string) :
  let videos := Channel.extractLiveVideosFromTab tabContent channelName0 in
  NoDup (Channel.videoId <$> videos) /\
  forall v, v ∈ videos ->
    Js.truthy (Channel.videoId v) = true /\
    Channel.channelName v = channelName0 /\
    Channel.videoUrl v = "https://www.youtube.com/watch?v=" +:+ Channel.videoId v /\
    (String.length (Channel.videoId v) = 11%nat ->
     RegexSem.free_of "#&?" (Channel.videoId v) = true ->
     Js.includes (Channel.videoId v) "/" = false ->
     DirectTokenExtractor.extractVideoId (Channel.videoUrl v) = Some (Channel.videoId v) /\
     DirectTokenExtractor.isValidYouTubeUrl (Channel.videoUrl v) = true).
Proof.
  intros videos.
  destruct (extractLiveVideosFromTab_listed channelName0 tabContent) as [Hnd Hall].
  split; [exact Hnd|]. intros v Hv. rewrite Forall_forall in Hall.
  destruct (Hall v Hv) as (Hurl & Hname & Hid).
  split; [exact Hid|]. split; [exact Hname|]. split; [exact Hurl|].
  intros Hlen Hfree Hslash. rewrite Hurl. by apply watch_url_id.
Qed.

Lemma live_videos_listed_witness :
  let videos :=
    Channel.extractLiveVideosFromTab
      (ChannelExamples.tabOf [ChannelExamples.gridVideo "dQw4w9WgXcQ" true; ChannelExamples.gridVideo "aaaaaaaaaaa" false;
                       ChannelExamples.gridVideo "dQw4w9WgXcQ" true]) "A channel" in
  Channel.videoId <$> videos = ["dQw4w9WgXcQ"] /\
  Channel.viewCount <$> videos = [Some 0] /\
  Forall (fun v => DirectTokenExtractor.extractVideoId (Channel.videoUrl v)
                   = Some (Channel.videoId v)) videos.
Proof.
  intros videos. split; [reflexivity|]. split; [reflexivity|].
  apply Forall_forall. intros v Hv.
  destruct (live_videos_listed
              (ChannelExamples.tabOf [ChannelExamples.gridVideo "dQw4w9WgXcQ" true;
                               ChannelExamples.gridVideo "aaaaaaaaaaa" false;
                               ChannelExamples.gridVideo "dQw4w9WgXcQ" true]) "A channel")
    as [_ H].
  destruct (H v Hv) as (_ & _ & _ & Hread).
  apply list_elem_of_singleton in Hv. subst v.
  apply Hread; reflexivity.
Defined.


(** X22 (utils/directTokenExtractor.ts: getChannelLiveVideos). The
    channel cache holds successes only. A call that reports an error
    returns no videos and leaves the cache as it was. A call that reports
    none leaves its videos in the cache under the channel ID, and while
    that entry is less than 5 minutes old every further call for the same
    address returns the same videos without a page request. *)
Theorem channel_videos_cached
    (fetch fetch' : string -> outcome Channel.ChannelPage) (clock : nat -> Z)
    (channelUrl : string) (st st' : Channel.State) (r : Channel.Result) :
  Channel.getChannelLiveVideos fetch clock channelUrl st = (r, st') ->
  (Channel.r_error r <> None ->
     Channel.r_videos r = [] /\ Channel.channelCache st' = Channel.channelCache st) /\
  (Channel.r_error r = None ->
     exists channelId e,
       Channel.extractChannelId channelUrl = Some channelId /\
       Channel.channelCache st' !! channelId = Some e /\
       Channel.videos e = Channel.r_videos r /\
       (clock (Channel.ticks st') - Channel.ce_timestamp e < Channel.CHANNEL_CACHE_EXPIRATION ->
        Channel.getChannelLiveVideos fetch' clock channelUrl st'
        = ({| Channel.r_videos := Channel.r_videos r; Channel.r_error := None |},
           {| Channel.channelCache := Channel.channelCache st';
              Channel.ticks := S (Channel.ticks st') |}))).
Proof.
  unfold Channel.getChannelLiveVideos at 1.
  destruct (Channel.extractChannelId channelUrl) as [channelId|] eqn:Hid;
    [|intros [= <- <-]; by split].
  assert (Hhit : forall e (s : Channel.State),
            Channel.channelCache s !! channelId = Some e ->
            clock (Channel.ticks s) - Channel.ce_timestamp e < Channel.CHANNEL_CACHE_EXPIRATION ->
            Channel.getChannelLiveVideos fetch' clock channelUrl s
            = ({| Channel.r_videos := Channel.videos e; Channel.r_error := None |},
               {| Channel.channelCache := Channel.channelCache s;
                  Channel.ticks := S (Channel.ticks s) |})).
  { intros e s He Hfresh. unfold Channel.getChannelLiveVideos. rewrite Hid, He.
    apply Z.ltb_lt in Hfresh. by rewrite Hfresh. }
  assert (Hstore : forall liveVideos t,
            r = {| Channel.r_videos := liveVideos; Channel.r_error := None |} ->
            st' = {| Channel.channelCache :=
                       <[channelId := {| Channel.videos := liveVideos;
                                         Channel.ce_timestamp := clock t |}]>
                         (Channel.channelCache st);
                     Channel.ticks := S t |} ->
            exists channelId0 e,
              Some channelId = Some channelId0 /\
              Channel.channelCache st' !! channelId0 = Some e /\
              Channel.videos e = Channel.r_videos r /\
              (clock (Channel.ticks st') - Channel.ce_timestamp e
                 < Channel.CHANNEL_CACHE_EXPIRATION ->
               Channel.getChannelLiveVideos fetch' clock channelUrl st'
               = ({| Channel.r_videos := Channel.r_videos r; Channel.r_error := None |},
                  {| Channel.channelCache := Channel.channelCache st';
                     Channel.ticks := S (Channel.ticks st') |}))).
  { intros liveVideos t -> ->. eexists channelId, _. split; [reflexivity|].
    split; [apply lookup_insert_eq|]. split; [reflexivity|]. intros Hf.
    by rewrite (Hhit _ _ (lookup_insert_eq _ _ _) Hf). }
  assert (Hfresh : forall t x,
            match fetch (Channel.liveUrlOf channelUrl) with
            | Ok page =>
                match Channel.cp_initialData page with
                | Some (Some tabs) =>
                    match Channel.findTabRendererWithVideos tabs with
                    | Some tabContent =>
                        ({| Channel.r_videos :=
                              Channel.extractLiveVideosFromTab tabContent
                                (Channel.channelNameOf page);
                            Channel.r_error := None |},
                         {| Channel.channelCache :=
                              <[channelId :=
                                  {| Channel.videos :=
                                       Channel.extractLiveVideosFromTab tabContent
                                         (Channel.channelNameOf page);
                                     Channel.ce_timestamp := clock t |}]>
                                (Channel.channelCache st);
                            Channel.ticks := S t |})
                    | None =>
                        ({| Channel.r_videos := [];
                            Channel.r_error := Some "No videos tab found on channel page" |},
                         {| Channel.channelCache := Channel.channelCache st;
                            Channel.ticks := t |})
                    end
                | Some None =>
                    ({| Channel.r_videos := [];
                        Channel.r_error := Some "Failed to parse channel data" |},
                     {| Channel.channelCache := Channel.channelCache st; Channel.ticks := t |})
                | None =>
                    ({| Channel.r_videos := [];
                        Channel.r_error := Some "Failed to extract data from channel page" |},
                     {| Channel.channelCache := Channel.channelCache st; Channel.ticks := t |})
                end
            | Throw e =>
                ({| Channel.r_videos := [];
                    Channel.r_error := Some ("Failed to fetch live videos: " +:+ e) |},
                 {| Channel.channelCache := Channel.channelCache st; Channel.ticks := t |})
            end = x ->
            x = (r, st') ->
            (Channel.r_error r <> None ->
             Channel.r_videos r = [] /\
             Channel.channelCache st' = Channel.channelCache st) /\
            (Channel.r_error r = None ->
             exists channelId0 e,
               Some channelId = Some channelId0 /\
               Channel.channelCache st' !! channelId0 = Some e /\
               Channel.videos e = Channel.r_videos r /\
               (clock (Channel.ticks st') - Channel.ce_timestamp e
                  < Channel.CHANNEL_CACHE_EXPIRATION ->
                Channel.getChannelLiveVideos fetch' clock channelUrl st'
                = ({| Channel.r_videos := Channel.r_videos r; Channel.r_error := None |},
                   {| Channel.channelCache := Channel.channelCache st';
                      Channel.ticks := S (Channel.ticks st') |})))).
  { intros t x Hx ->.
    destruct (fetch (Channel.liveUrlOf channelUrl)) as [page|err];
      [|injection Hx as <- <-; by split].
    destruct (Channel.cp_initialData page) as [[tabs|]|];
      [|injection Hx as <- <-; by split..].
    destruct (Channel.findTabRendererWithVideos tabs) as [tabContent|];
      [|injection Hx as <- <-; by split].
    injection Hx as Hr Hst. split; [by rewrite <- Hr|]. intros _.
    by eapply Hstore. }
  destruct (Channel.channelCache st !! channelId) as [cached|] eqn:Hc.
  - destruct (_ <? _) eqn:Hf.
    + intros [= <- <-]. split; [done|]. intros _. simpl.
      exists channelId, cached. split; [reflexivity|]. split; [exact Hc|].
      split; [reflexivity|]. intros Hf'.
      by rewrite (Hhit cached {| Channel.channelCache := Channel.channelCache st;
                                 Channel.ticks := S (Channel.ticks st) |} Hc Hf').
    + intros H. by eapply Hfresh.
  - destruct (Js.inherited channelId); intros H; by eapply Hfresh.
Qed.

Lemma channel_videos_cached_witness :
  let url := "https://www.youtube.com/@some.channel" in
  let clock := fun n : nat => 1000 + 60000 * Z.of_nat n in
  let st := {| Channel.channelCache := ∅; Channel.ticks := 0 |} in
  let first :=
    Channel.getChannelLiveVideos
      (fun _ => Ok (ChannelExamples.channelPage [ChannelExamples.gridVideo "dQw4w9WgXcQ" true]))
      clock url st in
  Channel.videoId <$> Channel.r_videos first.1 = ["dQw4w9WgXcQ"] /\
  Channel.channelName <$> Channel.r_videos first.1 = ["A channel"] /\
  Channel.getChannelLiveVideos Examples.offline clock url first.2
  = ({| Channel.r_videos := Channel.r_videos first.1; Channel.r_error := None |},
     {| Channel.channelCache := Channel.channelCache first.2; Channel.ticks := 2 |}).
Proof.
  intros url clock st first. split; [reflexivity|]. split; [reflexivity|].
  destruct (channel_videos_cached
              (fun _ => Ok (ChannelExamples.channelPage [ChannelExamples.gridVideo "dQw4w9WgXcQ" true]))
              Examples.offline clock url st first.2 first.1) as [_ H]; [reflexivity|].
  destruct (H eq_refl) as (channelId & e & Hid & He & Hv & Hnext).
  vm_compute in Hid. injection Hid as <-.
  vm_compute in He. injection He as <-.
  apply Hnext. vm_compute. reflexivity.
Defined.


(** ** The normaliser of the raw chat response *)

Section TsNormaliser.
Import NormaliserTs NormaliserRule.
Variable clock : nat -> Z.
Variable uuidv4 : nat -> string.
Variable source : SourceVideo.

Let good (m : ChatMessage) : Prop :=
  sourceVideo m = source /\
  (Js.truthy (VideoMetadataTs.trim (message m)) = true \/ emojis m <> []).



End TsNormaliser.



(** Time stamps are divided as doubles: the microseconds of the last
    date give a date, and 999 microseconds more are rounded up to a
    millisecond beyond it, so the snapshot formatter takes the clock. *)
Lemma stamp_beyond_last_date :
  let renderer usec :=
    {| mr_id := Some "x"; mr_timestampUsec := Some usec;
       mr_author := {| rd_authorName := None; rd_authorExternalChannelId := None;
                       rd_authorPhoto := None; rd_authorBadges := None |};
       mr_message := Some (MessageString "hi");
       mr_purchaseAmountText := None; mr_headerSubtext := None |} in
  let c := {| FormattersJs.ticks := 0; FormattersJs.uuids := 0 |} in
  RawItems.validUsec "8640000000000000000" = true /\
  RawItems.validUsec "8640000000000000999" = false /\
  FormattersJs.extractTimestamp (fun _ => 5) (renderer "8640000000000000000") c
    = (8640000000000000, c) /\
  FormattersJs.extractTimestamp (fun _ => 5) (renderer "8640000000000000999") c
    = (5, FormattersJs.tick c).
Proof. repeat split; vm_compute; reflexivity. Qed.



(** ** The next continuation token *)

Section ContinuationScans.
Import NormaliserTs.

Lemma truthyField_Some o t :
  VideoMetadataTs.truthyField o = Some t -> o = Some t /\ Js.truthy t = true.
Proof.
  unfold VideoMetadataTs.truthyField. destruct o as [u|]; [|done].
  destruct (Js.truthy u) eqn:Hu; [|done]. intros [= <-]. by split.
Qed.

Lemma truthyField_None o :
  VideoMetadataTs.truthyField o = None -> o = None \/ o = Some "".
Proof.
  unfold VideoMetadataTs.truthyField. destruct o as [u|]; [|by left].
  destruct u; [by right|done].
Qed.

Lemma tokenOf_truthy c t : tokenOf c = Some t -> Js.truthy t = true.
Proof.
  unfold tokenOf. intros H.
  destruct (VideoMetadataTs.truthyField (invalidationContinuationData c)) eqn:E1.
  { injection H as <-. by apply truthyField_Some in E1 as [_ ?]. }
  destruct (VideoMetadataTs.truthyField (timedContinuationData c)) eqn:E2.
  { injection H as <-. by apply truthyField_Some in E2 as [_ ?]. }
  by apply truthyField_Some in H as [_ ?].
Qed.

Lemma firstToken_truthy conts t : firstToken conts = Some t -> Js.truthy t = true.
Proof.
  induction conts as [|c rest IH]; simpl; [done|].
  destruct (tokenOf c) eqn:E; [|exact IH].
  intros [= <-]. by apply tokenOf_truthy in E.
Qed.

Lemma scan_truthy conts t : ChatRequestTs.scan conts = Some t -> Js.truthy t = true.
Proof.
  induction conts as [|c rest IH]; simpl; [done|].
  destruct (VideoMetadataTs.truthyField (invalidationContinuationData c)) eqn:E1.
  { intros [= <-]. by apply truthyField_Some in E1 as [_ ?]. }
  destruct (VideoMetadataTs.truthyField (timedContinuationData c)) eqn:E2; [|exact IH].
  intros [= <-]. by apply truthyField_Some in E2 as [_ ?].
Qed.

Lemma scan_firstToken conts t :
  ChatRequestTs.scan conts = Some t -> exists t', firstToken conts = Some t'.
Proof.
  induction conts as [|c rest IH]; simpl; [done|]. unfold tokenOf.
  destruct (VideoMetadataTs.truthyField (invalidationContinuationData c)); [by eexists|].
  destruct (VideoMetadataTs.truthyField (timedContinuationData c)); [by eexists|].
  destruct (VideoMetadataTs.truthyField (liveChatReplayContinuationData c)); [by eexists|].
  exact IH.
Qed.

Lemma firstToken_scan conts :
  Forall (fun c => VideoMetadataTs.truthyField (liveChatReplayContinuationData c) = None) conts ->
  firstToken conts = ChatRequestTs.scan conts.
Proof.
  induction 1 as [|c rest Hc _ IH]; simpl; [done|]. unfold tokenOf. rewrite Hc.
  destruct (VideoMetadataTs.truthyField (invalidationContinuationData c)); [done|].
  by destruct (VideoMetadataTs.truthyField (timedContinuationData c)).
Qed.

Lemma firstContinuation_live c t :
  VideoMetadataTs.truthyField (invalidationContinuationData c) = Some t \/
  (VideoMetadataTs.truthyField (invalidationContinuationData c) = None /\
   VideoMetadataTs.truthyField (timedContinuationData c) = Some t) ->
  DirectTokenExtractor.JsFile.firstContinuation c = Some t.
Proof.
  unfold DirectTokenExtractor.JsFile.firstContinuation, VideoMetadataTs.truthyField.
  intros [H|[H1 H2]].
  - destruct (invalidationContinuationData c) as [u|]; [|done].
    by destruct (Js.truthy u); [|done].
  - destruct (timedContinuationData c) as [u'|]; [|done].
    destruct (Js.truthy u') eqn:Hu'; [|done].
    destruct (invalidationContinuationData c) as [u|]; [|done].
    by destruct (Js.truthy u).
Qed.

Lemma firstContinuation_none c :
  tokenOf c = None ->
  DirectTokenExtractor.JsFile.firstContinuation c = None \/
  DirectTokenExtractor.JsFile.firstContinuation c = Some "".
Proof.
  unfold tokenOf. intros H.
  destruct (VideoMetadataTs.truthyField (invalidationContinuationData c)) eqn:E1; [done|].
  destruct (VideoMetadataTs.truthyField (timedContinuationData c)) eqn:E2; [done|].
  apply truthyField_None in H.
  unfold DirectTokenExtractor.JsFile.firstContinuation.
  unfold VideoMetadataTs.truthyField in E1, E2.
  destruct (invalidationContinuationData c) as [u|];
    [destruct (Js.truthy u); [done|]|];
    (destruct (timedContinuationData c) as [u'|];
       [destruct (Js.truthy u'); [done|]|]); exact H.
Qed.
End ContinuationScans.

(** X24 (utils/formatters.ts: extractContinuationToken;
    utils/directTokenExtractor.ts and .js: fetchLiveChatMessages). Three
    places read the next continuation token off the same response, and
    they differ. The request of the TypeScript file, given its three
    tokens, returns the response with a token that is never empty and
    that, when found, means [extractContinuationToken] finds one too;
    the two agree when no entry carries a replay token. They need not
    agree otherwise. The request of the JavaScript file reads the first
    entry only: it agrees with the other two when that entry holds an
    invalidation or a timed token, and has no usable token when that
    entry holds none, whatever the later entries hold. *)
Theorem continuation_scans_agree {A} (liveChatContinuation : LiveChatContinuation A)
    (conts : list ContinuationData) (tokens : DirectTokenExtractor.TsFile.Tokens)
    (videoUrl continuationToken apiKey : string) (pageSize : Z) :
  continuations liveChatContinuation = Some conts ->
  Js.truthy (DirectTokenExtractor.TsFile.apiKey tokens) = true ->
  Js.truthy (DirectTokenExtractor.TsFile.clientVersion tokens) = true ->
  Js.truthy (DirectTokenExtractor.TsFile.continuationToken tokens) = true ->
  let data := Some {| continuationContents := Some (Some liveChatContinuation) |} in
  let fmt := NormaliserTs.extractContinuationToken data in
  let js := DirectTokenExtractor.JsFile.cr_continuation
              (DirectTokenExtractor.JsFile.fetchLiveChatMessages
                 (fun _ _ => Ok data) continuationToken apiKey pageSize) in
  exists ts,
    ChatRequestTs.fetchLiveChatMessages (fun _ => Ok data) videoUrl tokens =
      Ok {| ChatRequestTs.cr_data := data; ChatRequestTs.cr_continuation := ts |} /\
    (forall t, ts = Some t -> Js.truthy t = true /\ exists t', fmt = Some t') /\
    (forall t, fmt = Some t -> Js.truthy t = true) /\
    (Forall (fun c => VideoMetadataTs.truthyField (liveChatReplayContinuationData c) = None)
            conts -> fmt = ts) /\
    (forall c rest, conts = c :: rest ->
       (VideoMetadataTs.truthyField (invalidationContinuationData c) <> None \/
        VideoMetadataTs.truthyField (timedContinuationData c) <> None) ->
       js = ts /\ js = fmt /\ js <> None) /\
    (forall c rest, conts = c :: rest -> NormaliserTs.tokenOf c = None ->
       (js = None \/ js = Some "") /\
       fmt = NormaliserTs.firstToken rest /\ ts = ChatRequestTs.scan rest).
Proof.
  intros Hc Hk Hv Ht data fmt js.
  exists (ChatRequestTs.scan conts).
  assert (Hfmt : fmt = NormaliserTs.firstToken conts).
  { unfold fmt, NormaliserTs.extractContinuationToken. simpl. by rewrite Hc. }
  split.
  { unfold ChatRequestTs.fetchLiveChatMessages. rewrite Hk, Hv, Ht. simpl. by rewrite Hc. }
  rewrite Hfmt. split; [|split; [|split; [|split]]].
  - intros t H. split; [by apply scan_truthy in H|by apply scan_firstToken in H].
  - intros t H. by apply firstToken_truthy in H.
  - apply firstToken_scan.
  - intros c rest -> Hlive.
    assert (Hjs : js = DirectTokenExtractor.JsFile.firstContinuation c).
    { unfold js, DirectTokenExtractor.JsFile.fetchLiveChatMessages. simpl. by rewrite Hc. }
    rewrite Hjs. simpl. unfold NormaliserTs.tokenOf.
    destruct (VideoMetadataTs.truthyField (invalidationContinuationData c)) as [t|] eqn:E1.
    + rewrite (firstContinuation_live c t) by by left. by repeat split.
    + destruct (VideoMetadataTs.truthyField (timedContinuationData c)) as [t|] eqn:E2.
      * rewrite (firstContinuation_live c t) by (right; by split). by repeat split.
      * by destruct Hlive.
  - intros c rest -> Hnone.
    assert (Hjs : js = DirectTokenExtractor.JsFile.firstContinuation c).
    { unfold js, DirectTokenExtractor.JsFile.fetchLiveChatMessages. simpl. by rewrite Hc. }
    rewrite Hjs. split; [by apply firstContinuation_none|].
    simpl. rewrite Hnone. split; [done|].
    unfold NormaliserTs.tokenOf in Hnone.
    destruct (VideoMetadataTs.truthyField (invalidationContinuationData c)); [done|].
    by destruct (VideoMetadataTs.truthyField (timedContinuationData c)).
Qed.

Lemma continuation_scans_agree_witness :
  let conts := [ChatExamples.replay "R"; ChatExamples.invalidation "I"] in
  let liveChatContinuation : LiveChatContinuation NormaliserTs.Item :=
    {| actions := Some []; continuations := Some conts |} in
  let data := Some {| continuationContents := Some (Some liveChatContinuation) |} in
  let tokens :=
    {| DirectTokenExtractor.TsFile.apiKey := "k";
       DirectTokenExtractor.TsFile.clientVersion := "2.0";
       DirectTokenExtractor.TsFile.visitorData := "";
       DirectTokenExtractor.TsFile.continuationToken := "c";
       DirectTokenExtractor.TsFile.rawHtml := "";
       DirectTokenExtractor.TsFile.tk_timestamp := 0 |} in
  NormaliserTs.extractContinuationToken data = Some "R" /\
  exists ts,
    ChatRequestTs.fetchLiveChatMessages (fun _ => Ok data) "u" tokens =
      Ok {| ChatRequestTs.cr_data := data; ChatRequestTs.cr_continuation := ts |} /\
    ts = Some "I".
Proof.
  intros conts liveChatContinuation data tokens. split; [reflexivity|].
  destruct (continuation_scans_agree liveChatContinuation conts tokens "u" "c" "k" 200)
    as (ts & Hts & _); [reflexivity..|].
  exists ts. split; [exact Hts|].
  vm_compute in Hts. by injection Hts as <-.
Defined.


(** ** Addresses that pass the check and yield no ID *)

Section AcceptedAddresses.
Import Regex RegexSem.

Lemma run_times_cls total (p : ascii -> bool) (w u : list ascii) c k :
  Forall (fun a => p a = true) w ->
  run total (Times (length w) (Cls p)) (w ++ u) c k = k u c.
Proof.
  induction 1 as [|a w Ha _ IH]; [reflexivity|].
  cbn [length Times]. rewrite run_seq.
  change (run total (Cls p) ((a :: w) ++ u) c ?k') with (if p a then k' (w ++ u) c else None).
  rewrite Ha. exact IH.
Qed.

(** The front of both patterns of the check, up to the host. *)
Let front (rest : re) : re :=
  Seq Bol (Seq (Lit "http") (Seq (Opt (Chr "s")) (Seq (Lit "://") (Seq (Opt (Lit "www.")) rest)))).

Lemma run_front (rest : re) (origin : string) (s : list ascii) k res :
  origin = "http://" \/ origin = "https://" \/ origin = "http://www." \/
    origin = "https://www." ->
  run (length (Js.chars origin ++ "y"%char :: s)) rest ("y"%char :: s) [] k = Some res ->
  run (length (Js.chars origin ++ "y"%char :: s)) (front rest)
      (Js.chars origin ++ "y"%char :: s) [] k = Some res.
Proof.
  intros Ho. unfold front. rewrite run_seq, run_bol, Nat.eqb_refl.
  set (total := length _).
  destruct Ho as [->|[->|[->| ->]]]; intros H; simpl; by rewrite H.
Qed.

Lemma test_accepts (pattern : re) (url : string) res :
  run (length (Js.chars url)) pattern (Js.chars url) [] (fun _ c => Some c) = Some res ->
  test pattern url = true.
Proof. intros H. unfold test, exec. by rewrite (search_first _ _ _ _ H). Qed.

Lemma accepted (origin marker id tail : string) :
  origin = "http://" \/ origin = "https://" \/ origin = "http://www." \/
    origin = "https://www." ->
  marker = "youtube.com/watch?v=" \/ marker = "youtu.be/" ->
  String.length id = 11%nat ->
  forallb Puppeteer.word_or_dash (Js.chars id) = true ->
  Puppeteer.isValidYouTubeUrl (origin +:+ marker +:+ id +:+ tail) = true.
Proof.
  intros Ho Hm Hlen Hid. apply forallb_Forall_true in Hid.
  rewrite <- length_chars in Hlen.
  unfold Puppeteer.isValidYouTubeUrl, Puppeteer.patterns. cbn [existsb].
  destruct Hm as [->| ->].
  - erewrite test_accepts; [reflexivity|]. rewrite !chars_app.
    change (Js.chars "youtube.com/watch?v=")
      with ("y"%char :: Js.chars "outube.com/watch?v=").
    rewrite <- (app_comm_cons _ _ "y"%char).
    apply (run_front _ origin _ _ [] Ho).
    rewrite (app_comm_cons _ _ "y"%char), run_seq.
    change ("y"%char :: Js.chars "outube.com/watch?v=")
      with (Js.chars "youtube.com/watch?v=").
    unfold Lit. rewrite run_lit_app. cbn [Seqs]. rewrite run_seq, <- Hlen.
    by rewrite run_times_cls.
  - rewrite orb_comm. erewrite test_accepts; [reflexivity|]. rewrite !chars_app.
    change (Js.chars "youtu.be/") with ("y"%char :: Js.chars "outu.be/").
    rewrite <- (app_comm_cons _ _ "y"%char).
    apply (run_front _ origin _ _ [] Ho).
    rewrite (app_comm_cons _ _ "y"%char), run_seq.
    change (("y"%char :: Js.chars "outu.be/") ++ Js.chars id ++ Js.chars tail)
      with (Js.chars "youtu" ++ "."%char :: Js.chars "be/" ++ Js.chars id ++ Js.chars tail).
    unfold Lit at 1. rewrite run_lit_app. cbn [Seqs]. rewrite run_seq.
    change (run ?t Dot ("."%char :: ?s) ?c ?k) with (k s c).
    cbv beta. rewrite run_seq. unfold Lit. rewrite run_lit_app, run_seq, <- Hlen.
    by rewrite run_times_cls.
Qed.

Lemma word_or_dash_plain (a : ascii) :
  Puppeteer.word_or_dash a = true -> Js.one_of "#&?=/" a = false.
Proof.
  intros H. unfold Js.one_of. cbn [Js.chars list_ascii_of_string existsb].
  repeat match goal with
         | |- context [Ascii.eqb a ?b] =>
             destruct (Ascii.eqb_spec a b) as [->|_]; [vm_compute in H; discriminate H|]
         end.
  reflexivity.
Qed.

Lemma take_while_app {A} (p : A -> bool) (w u : list A) :
  Forall (fun a => p a = true) w ->
  Js.take_while p (w ++ u) = w ++ Js.take_while p u.
Proof. induction 1 as [|a w Ha _ IH]; simpl; [reflexivity|]. by rewrite Ha, IH. Qed.

(** The run captured from an ID of word characters that does not stop
    where the ID ends is longer than an ID. *)
Lemma captured_overlong (id tail : string) :
  String.length id = 11%nat ->
  forallb Puppeteer.word_or_dash (Js.chars id) = true ->
  first_in "v" id = false ->
  empty_or_first_in "#&?" tail = false ->
  Nat.eqb (String.length (captured (id +:+ tail))) 11 = false.
Proof.
  intros Hlen Hid Hv Htail. apply forallb_Forall_true in Hid.
  assert (Hrun : Forall (fun a => negb (Js.one_of "#&?" a) = true) (Js.chars id)).
  { eapply Forall_impl; [exact Hid|]. intros a Ha. apply word_or_dash_plain in Ha.
    unfold Js.one_of in *. cbn [Js.chars list_ascii_of_string existsb] in *.
    destruct (Ascii.eqb a "#"), (Ascii.eqb a "&"), (Ascii.eqb a "?"); done. }
  unfold captured, after_opts.
  assert (Hopts : strip "=" (strip "v" (strip "?" (Js.chars (id +:+ tail)))) =
                  Js.chars (id +:+ tail)).
  { destruct id as [|a id]; [discriminate Hlen|].
    change (Js.chars (String a id +:+ tail)) with (a :: Js.chars (id +:+ tail)).
    assert (Ha : Js.one_of "?v=" a = false).
    { apply Forall_inv in Hid. apply word_or_dash_plain in Hid.
      simpl in Hv. unfold Js.one_of in *.
      cbn [Js.chars list_ascii_of_string existsb] in *.
      destruct (Ascii.eqb a "#"), (Ascii.eqb a "&"), (Ascii.eqb a "?"),
        (Ascii.eqb a "="), (Ascii.eqb a "v"); done. }
    rewrite (strip_other "?" "?v=" a _ Ha eq_refl).
    rewrite (strip_other "v" "?v=" a _ Ha eq_refl).
    by rewrite (strip_other "=" "?v=" a _ Ha eq_refl). }
  rewrite Hopts, chars_app, take_while_app by exact Hrun.
  rewrite <- length_chars, chars_str, length_app, length_chars, Hlen.
  destruct tail as [|b tail]; [discriminate Htail|].
  simpl in Htail. simpl. by rewrite Htail.
Qed.

Lemma starts_marker_complete (s : list ascii) : marker_at s -> starts_marker s = true.
Proof.
  intros [(a & s' & ->)|[(s' & ->)|[(a & s' & ->)|[(s' & ->)|(s' & ->)]]]];
    unfold starts_marker; simpl; rewrite ?orb_true_r; reflexivity.
Qed.

Lemma marker_free_suffix (s u : list ascii) :
  marker_free_chars s = true -> u `suffix_of` s -> ~ marker_at u.
Proof.
  induction s as [|a s IH]; intros H Hu Hm.
  - apply suffix_nil_inv in Hu as ->. apply starts_marker_complete in Hm.
    discriminate Hm.
  - cbn [marker_free_chars] in H. apply andb_true_iff in H as [H1 H2].
    apply suffix_cons_cases in Hu as [->|Hu].
    + apply starts_marker_complete in Hm. by rewrite Hm in H1.
    + by apply (IH H2 Hu).
Qed.

(** No marker begins in what is left of the marker in front of an ID, nor
    in a marker-free text after it. *)
Lemma no_later_marker (p : list ascii) (id tail : string) (v : list ascii) :
  p = Js.chars "atch?v=" \/ p = Js.chars "outu.be/" ->
  String.length id = 11%nat ->
  forallb Puppeteer.word_or_dash (Js.chars id) = true ->
  marker_free (id +:+ tail) = true ->
  v `suffix_of` p ++ Js.chars (id +:+ tail) -> ~ marker_at v.
Proof.
  intros Hp Hlen Hid Hfree Hv.
  assert (Hin : v `suffix_of` Js.chars (id +:+ tail) -> ~ marker_at v)
    by apply (marker_free_suffix _ _ Hfree).
  destruct Hp as [->| ->]; cbn [app Js.chars list_ascii_of_string] in Hv;
    repeat (apply suffix_cons_cases in Hv as [->|Hv]); try (by apply Hin);
    intros [(a & s' & E)|[(s' & E)|[(a & s' & E)|[(s' & E)|(s' & E)]]]];
    cbn [app Js.chars list_ascii_of_string] in E; try discriminate E.
  destruct id as [|c1 [|c2 id]]; [discriminate Hlen..|].
  cbn [app String.append Js.chars list_ascii_of_string] in E.
  injection E as _ E _. subst c2. apply forallb_Forall_true in Hid.
  apply Forall_inv_tail, Forall_inv in Hid. vm_compute in Hid. discriminate Hid.
Qed.

Lemma unread (origin marker id tail : string) :
  origin = "http://" \/ origin = "https://" \/ origin = "http://www." \/
    origin = "https://www." ->
  marker = "youtube.com/watch?v=" \/ (marker = "youtu.be/" /\ first_in "v" id = false) ->
  String.length id = 11%nat ->
  forallb Puppeteer.word_or_dash (Js.chars id) = true ->
  empty_or_first_in "#&?" tail = false ->
  marker_free (id +:+ tail) = true ->
  LiveChatTs.extractVideoId (origin +:+ marker +:+ id +:+ tail) = None.
Proof.
  intros Ho Hm Hlen Hid Htail Hfree.
  assert (Hline : forall pre, single_line (origin +:+ pre) = single_line pre).
  { intros pre. by destruct Ho as [->|[->|[->| ->]]]. }
  assert (Hcap : exists pre g y,
            (g = "watch?" \/ g = "youtu.be/" \/ g = "embed/") /\
            origin +:+ marker +:+ id +:+ tail = (origin +:+ pre) +:+ g +:+ y /\
            single_line pre = true /\
            (forall v, v `suffix_of` List.tail (Js.chars g) ++ Js.chars y -> ~ marker_at v) /\
            Nat.eqb (String.length (captured y)) 11 = false).
  { destruct Hm as [->|[-> Hv]].
    - exists "youtube.com/", "watch?", ("v=" +:+ id +:+ tail).
      split; [by left|]. split.
      { by destruct Ho as [->|[->|[->| ->]]]. }
      split; [reflexivity|]. split.
      { intros v Hv. apply (no_later_marker (Js.chars "atch?v=") id tail v); auto. }
      unfold captured.
      change (after_opts (Js.chars ("v=" +:+ id +:+ tail))) with (Js.chars (id +:+ tail)).
      apply forallb_Forall_true in Hid.
      assert (Hrun : Forall (fun a => negb (Js.one_of "#&?" a) = true) (Js.chars id)).
      { eapply Forall_impl; [exact Hid|]. intros a Ha. apply word_or_dash_plain in Ha.
        unfold Js.one_of in *. cbn [Js.chars list_ascii_of_string existsb] in *.
        destruct (Ascii.eqb a "#"), (Ascii.eqb a "&"), (Ascii.eqb a "?"); done. }
      rewrite chars_app, take_while_app by exact Hrun.
      rewrite <- length_chars, chars_str, length_app, length_chars, Hlen.
      destruct tail as [|b tail]; [discriminate Htail|].
      simpl in Htail. simpl. by rewrite Htail.
    - exists "", "youtu.be/", (id +:+ tail).
      split; [auto|]. split.
      { by destruct Ho as [->|[->|[->| ->]]]. }
      split; [reflexivity|]. split.
      { intros v Hv'. apply (no_later_marker (Js.chars "outu.be/") id tail v); auto. }
      by apply captured_overlong. }
  destruct Hcap as (pre & g & y & Hg & -> & Hpre & Hfree' & Hcap).
  rewrite <- Hline in Hpre.
  destruct (exec_marker_free _ g y Hg Hpre Hfree') as (c' & Hc').
  unfold LiveChatTs.extractVideoId. rewrite Hc'. simpl Regex.group.
  by rewrite str_chars, Hcap.
Qed.
(** X25 (api/liveChat.ts: getLiveChat; scraping/puppeteer.ts:
    isValidYouTubeUrl). The check of the address and the reading of the
    ID do not agree: the check looks for 11 ID characters after
    [youtube.com/watch?v=] or [youtu.be/] and does not look at what
    follows, the reading takes everything after the last marker up to the
    next [#], [&] or [?]. Take an address with one of the four usual
    origins whose 11 ID characters (after [youtu.be/] not beginning with
    [v]) are followed by at least one more character, the first of which
    is none of [#], [&] and [?], and such that no marker of the ID pattern
    begins in the ID or in what follows it. The address passes the check,
    and a request for it alone is answered with the error
    [Could not extract video ID from ...], with no messages and no
    cursor; nothing is fetched and the cache is not touched. *)
Theorem accepted_address_without_id (env : LiveChatTs.Env)
    (options : LiveChatTs.LiveChatOptions) (w : LiveChatTs.World)
    (origin marker id tail : string) :
  origin = "http://" \/ origin = "https://" \/ origin = "http://www." \/
    origin = "https://www." ->
  marker = "youtube.com/watch?v=" \/
    (marker = "youtu.be/" /\ RegexSem.first_in "v" id = false) ->
  String.length id = 11%nat ->
  forallb Puppeteer.word_or_dash (Js.chars id) = true ->
  RegexSem.empty_or_first_in "#&?" tail = false ->
  RegexSem.marker_free (id +:+ tail) = true ->
  let url := origin +:+ marker +:+ id +:+ tail in
  LiveChatTs.urls options = [url] ->
  Puppeteer.isValidYouTubeUrl url = true /\
  LiveChatTs.extractVideoId url = None /\
  LiveChatTs.getLiveChat env options w =
    (Ok {| LiveChatTs.r_messages := [];
           LiveChatTs.r_errors := ["Could not extract video ID from " +:+ url];
           LiveChatTs.hasMore := 0 >? default 50 (LiveChatTs.pageSize options);
           LiveChatTs.lastTimestamp := None |}, w).
Proof.
  intros Ho Hm Hlen Hid Htail Hfree url Hurls.
  assert (Hvalid : Puppeteer.isValidYouTubeUrl url = true).
  { apply accepted; [exact Ho| |exact Hlen|exact Hid]. destruct Hm as [->|[-> _]]; auto. }
  split; [exact Hvalid|].
  pose proof (unread origin marker id tail Ho Hm Hlen Hid Htail Hfree) as Hnone.
  fold url in Hnone. split; [exact Hnone|].
  unfold LiveChatTs.getLiveChat. rewrite Hurls. cbn [List.filter]. rewrite Hvalid.
  cbn [LiveChatTs.startAll]. unfold LiveChatTs.start. rewrite Hnone.
  cbn [LiveChatTs.resumeAll LiveChatTs.resume app].
  unfold LiveChatTs.answer. cbn [LiveChatTs.lists].
  unfold LiveChatTs.respond, LiveChatTs.filterAndSort. cbn [concat app].
  assert (Hempty : forall (P : ChatMessage -> Prop) `{!forall m, Decision (P m)},
            filter P ([] : list ChatMessage) = []) by done.
  destruct (Nat.ltb 0 _); rewrite ?Hempty;
    (destruct (LiveChatTs.after options) as [a|]; [destruct (Js.truthy a)|]);
    rewrite ?Hempty; cbn [Js.sort length Z.of_nat].
  all: assert (Hslice : forall e, Js.slice ([] : list ChatMessage) 0 e = [])
    by (intros e; unfold Js.slice; by rewrite drop_nil, take_nil).
  all: rewrite Hslice; change (Z.of_nat 0) with 0.
  all: by destruct (0 >? default 50 (LiveChatTs.pageSize options)).
Qed.

(** The instance for a watch address with a slash after the ID. *)
Lemma accepted_address_without_id_witness :
  let url := "https://www." +:+ "youtube.com/watch?v=" +:+ "dQw4w9WgXcQ" +:+ "/" in
  let options :=
    {| LiveChatTs.urls := [url]; LiveChatTs.pageSize := None;
       LiveChatTs.after := None; LiveChatTs.messageIds := None |} in
  Puppeteer.isValidYouTubeUrl url = true /\
  LiveChatTs.extractVideoId url = None /\
  LiveChatTs.getLiveChat Examples.onlineEnv options Examples.warmWorld =
    (Ok {| LiveChatTs.r_messages := [];
           LiveChatTs.r_errors := ["Could not extract video ID from " +:+ url];
           LiveChatTs.hasMore := false;
           LiveChatTs.lastTimestamp := None |}, Examples.warmWorld).
Proof.
  intros url options.
  apply (accepted_address_without_id Examples.onlineEnv options Examples.warmWorld
           "https://www." "youtube.com/watch?v=" "dQw4w9WgXcQ" "/");
    [auto|auto|reflexivity..].
Defined.
End AcceptedAddresses.

